(* ===== verification/_CoqProject ===== *)
-Q . S2P
Prelude.v
Error.v
CList.v
Loops.v
Types.v
Pack.v
PackSpec.v
World.v
Assert.v
Compat.v
Str.v
Result.v
Msg.v
MsgSpec.v
Core.v
CoreSpec.v
Alike.v
Print.v
Log.v
Run.v
SelectSpec.v
RunnerSpec.v
Image.v
BuildSpec.v
FreeSpec.v
ClientSpec.v
RenderSpec.v
LogSpec.v
LogRunSpec.v
Demo.v
StatusSpec.v
TraceSpec.v
FixtureSpec.v
TestSpec.v
ScriptSpec.v
TurnSpec.v
RunSpec.v
SuiteSpec.v
WholeSpec.v
BuiltSpec.v
CoreProps.v
TestProps.v
StatusProps.v
RenderProps.v
RunProps.v
WholeProps.v
BuildProps.v
AssertProps.v
Money.v
MoneyProps.v
MsgProps.v
Snprintf.v
SnprintfSpec.v
SnprintfRun.v
SnprintfItems.v
SnprintfConv.v
SnprintfProps.v
CompatProps.v
