(* ===== verification/Prelude.v ===== *)
(** * Check, a unit test framework for C: verification library

    The library models the code of Check under src/src/, the replacements of the C library under
    src/lib/ and the assertion macros of src/src/check.h.in as executable definitions, and proves
    what makes them correct, up to this: a program that builds its suites, runs them and frees
    its runner returns with exactly the results expected of its tests.

    ** The program

    A program builds suites of test cases of test functions ([Suite], [TCase], [TF]), gives
    them to a runner ([SRunner]) and runs it. The runner walks over the suites and test cases
    that the caller or the environment selects; around each test case it runs the unchecked
    fixtures, and each test function, for each of its indices, in a child process or in its
    own, between the checked fixtures. It collects one [TestResult] for each, and sends the
    events of the run to its logs. A test reports to the runner over a channel, which is a
    temporary file: where it is (context, file and line), the text of its first failed
    assertion, how long it took. In a child, how it ended completes the report.

    ** The files that model the program

    - Prelude, Error (check_error.c), Types (check.h.in): C integers, strings, and the monad
      of a program that returns, exits, is killed, unwinds to setjmp, hangs or faults
      ([outcome], [M]); [eprintf] and the allocators over the interface [Sys].
    - CList (check_list.c): the growing array with its cursor, and its refinement to a sequence
      with an optional position.
    - Pack (check_pack.c): the wire format of the four messages, the writer [ppack] and the
      window reader [punpack].
    - World (check_impl.h): the records of the library in a heap by address, the static
      variables, the process image that fork copies ([proc]), the system that parent and child
      share ([os]), the user's code as traces of calls ([ucall]) that may depend on a memory of
      its own ([umem]), and the C library and kernel as the interface [Platform].
    - Str (check_str.c), Result and Core (check.c), Msg (check_msg.c), Print (check_print.c),
      Log (check_log.c), Run (check_run.c): one definition for each function.
    - Assert (check.h.in): the assertion macros, each the call of the library it makes.
    - Compat (lib/): malloc, realloc, strdup, getline, fpclassify, strsignal, the clocks, the
      timers and the mutexes that stand in for missing ones. Snprintf (lib/snprintf.c): the C99
      formatter, its state machine, conversions and the writer into an array of a given size.
    - Money (doc/example/): the test program of the tutorial, check_money.c, and the steps of its
      library money.c, as clients and tests over the code above.

    A definition has the name of the C function it translates (a trailing underscore where the
    name is taken), and the same order of calls and tests.

    ** The files that specify and prove

    - Loops: lists held in a state ([holds], over the interface [Cell]) and the rules for the
      loops over them. Alike: what a run leaves of the heap ([heap_alike], [still], [steady]),
      and the contents of test cases and suites ([case], [case_at], [suite_at], [program_at]).
    - PackSpec, MsgSpec: streams of messages, channels, and the interface [PlatformOK], a platform
      on which allocation and system calls succeed, which most theorems assume.
    - CoreSpec, RenderSpec, LogSpec, SelectSpec, StatusSpec: the operations of check.c, the
      reports, the logs (that they write to their own streams only, and what they show on the
      terminal, [told]), which tests a request selects, verdicts from wait statuses. RunnerSpec:
      [runner_has], the invariant of results and counters. Demo: a concrete platform and small
      programs, for the witnesses.
    - One test: TraceSpec (traces without exits: messages, time and memory; [sends] states what
      user code does to a process, [tested] what it leaves alone), FixtureSpec (the script of a
      test: what its setups, function and teardowns do from a memory), TestSpec (the process
      around a test, before, while and after it; [standby], [isolated]), ScriptSpec (a test gives
      the result of its script, [script_result], in a child or in the process).
    - Many tests: TurnSpec ([between], the invariant of a run between two tests; [test_run], the
      tests whose result is known in advance), RunSpec (the loops over indices and tests),
      SuiteSpec (unchecked fixtures, test cases, suites), LogRunSpec (the logs of a run),
      WholeSpec (a whole run).
    - Clients: Image (the contents of the heap without cursors and cells, as an abstract
      specification of the calls of check.c, [step], with the type invariant [wf]), BuildSpec
      (that the calls implement it), FreeSpec (srunner_free), ClientSpec (sequences of calls),
      BuiltSpec (what a client has built is a program that can be run; [check_main], the main
      function of such a program, up to its exit status).
    - SnprintfSpec, SnprintfRun, SnprintfItems, SnprintfConv: texts whatever the array, formats
      as sequences of directives, and what each conversion prints.
    - CoreProps, TestProps, StatusProps, RenderProps, RunProps, WholeProps, BuildProps, AssertProps,
      MoneyProps, MsgProps, SnprintfProps, CompatProps, and the ends of PackSpec and CList: the properties,
      each with a witness, an application to a concrete program.

    ** What the properties show

    - BuildProps: a client of the library that gives live objects does not go wrong; it builds
      what the images say; running what it built gives the expected results in the order in
      which the tests were added; main exits with success exactly when all are passes, shows
      the report of these results, and everything the runner owns is freed once. MoneyProps: the
      program of the tutorial exits with success and prints its summary on any such platform;
      as examples, what each earlier step of the tutorial prints.
    - WholeProps, RunProps: the same of one run and of one test case, with any selection, logs
      and mode, the memory that tests in the process share kept in an invariant; exactly what a
      run shows on standard output ([run_text]); what a failing unchecked setup and teardown do.
    - TestProps: a child cannot harm its parent; both modes agree on the verdict of a test with
      its fixtures; tests that exit, die or never come back get the verdict for that, exactly
      at their time limit. StatusProps: verdicts; interrupting signals reach child and runner.
    - AssertProps: a sequence of assertions passes exactly when all hold and otherwise reports
      the first that does not; opposite assertions; the arrays of ck_assert_mem; the order that
      the macros for strings and memory use, which the comments for <, <= and >= reverse.
    - PackSpec, MsgProps: messages survive the codec and the window, the reader terminates on
      every stream, the first failure decides; channels nest to depth two and leave no file.
    - CList, CoreProps: lists against their specification; tags, selection, fixtures, counters,
      and the arrays given to callers, within their bounds.
    - RenderProps: reports, the TAP log, XML escaping, the percentage, ck_strdup_printf.
    - SnprintfProps: the formatter produces the texts of its directives, cut to the array, comes
      back on every format, reads back, and is the vsnprintf that the rest of the model assumes.
      CompatProps: classification of IEEE doubles, lines of a stream.

    Some state behaviour that its authors may not have meant: a failed assertion that meets an
    expected exit status of 1 passes; a failing unchecked teardown ends the program or is
    blamed on another test; exit statuses from 128 on are reported as negative numbers; XML
    text loses bytes above 127; the percentage can be one too small; a string is read past its
    precision; powers of two are classified as zero; a suite added twice is freed twice.

    ** Configuration

    The code is read as configured with HAVE_FORK, HAVE_SIGACTION, HAVE_MKSTEMP, pthreads and
    the POSIX timers, and with ENABLE_SUBUNIT 0, on a 64-bit target with 32-bit int and
    two's-complement conversions; char is signed. printf and the macros of sys/wait.h are those
    of glibc. Writing to a stream is not buffered, since the code flushes around each event.
    There is one thread, so the mutex of check_pack.c is always free. The replacements of lib/
    are compiled where the system lacks the function (rpl_vsnprintf where vsnprintf is missing
    or not C99); long double is the x87 format of 64 bits of mantissa and an exponent below
    16384.

    ** Modelling choices

    - A child runs to its end when the parent waits for it, on a copy of the process image and
      the shared system; the timer of the parent is the deadline of the child, and the handler
      of SIGALRM runs in the parent when the child has been killed.
    - An object is used after free, read past its end or never assigned: [Fault]. A process that
      never comes back: [Hang].
    - Strings are values, so freeing one is not a step; objects with an identity of their own
      (suites, test cases, runners, lists of tags) are freed by address.
    - Code that is not the library's is a field of [Platform] or a trace [ucall]: the text of
      strsignal and strerror, names of temporary files, whether calls succeed, the date. The
      variables of tests and fixtures are a map from names to numbers.

    ** Bounds and fuel

    - [list_for] gives a loop over a list one turn more than elements; [list_for_spec] and
      [list_for_inv] show that it ends before, provided the body leaves the list alone.
    - [punpack] gives its loop one turn more than bytes in the file; each turn consumes one
      message, which is not empty (punpack_folds_stream).
    - [ck_strdup_loop] has 66 turns; two are enough for a text shorter than INT_MAX
      (ck_strdup_loop_run). On a longer text the C loop does not end, and the fuel runs out.
    - [add_tags] has one turn more than characters in the string of tags; [getline_loop] one
      more than characters in the stream, and each turn takes one.
    - The formatter has seven turns for each character of the format, one for each of its
      states and the one that goes back to the first (vsnprintf_returns); [getexponent] scales
      by ten at most 99 or 198 times, the bounds of the loops in the code; [flt_again] goes back
      to the start of fmtflt at most once, since the second time the style is another. A turn adds
      at most [turn_max] characters, so the text of a format of up to 2^29 characters stays below
      2^64 (vsnprintf_any_size).
    - [check_waitpid_and_exit] takes what the calls of waitpid give, as a list; its loop takes one
      of them each turn, and a call after the last does not return.
    - Theorems that count (results, lines of a TAP log) assume the counts fit an int; the
      percentage is checked for up to 100 tests, because it is computed in binary32.

    ** Limits of the theorems on runs

    They are about tests whose result can be told in advance ([test_run]): those that mark
    points, assert, compute for less than their time limit and assign variables, and in a
    child those that exit, are killed by a signal or never come back after such a beginning;
    with fixtures that do the first of these. Unchecked fixtures must not fail for a run to
    report all its tests: RunProps says what happens when they do. The result of other tests
    in children is the verdict of their end (fork_isolates).

    ** Not modelled

    checkmk (an AWK program), the tests of the library (and the test program at the end of
    snprintf.c), the build systems and the headers they generate, the parts of libcompat.h that only select
    declarations by preprocessor, and the subunit protocol (ENABLE_SUBUNIT 0). A test function
    that itself forks or runs another suite is not among the traces. *)
From stdpp Require Export base tactics option list numbers strings pretty gmap.
From Stdlib Require Export ZArith Lia Ascii.
#[global] Open Scope Z_scope.
#[global] Open Scope list_scope.
#[global] Open Scope stdpp_scope.

#[export] Set Default Goal Selector "!".

(** ** C integers, at their width *)

Definition INT_MAX : Z := 2147483647.
Definition INT_MIN : Z := -2147483648.
Definition UINT32_MAX : Z := 4294967295.

(** Conversion to an unsigned type of [n] bits, and to a signed one (two's complement). *)
Definition wrap_u (n : Z) (z : Z) : Z := z `mod` 2 ^ n.
Definition wrap_s (n : Z) (z : Z) : Z := (z + 2 ^ (n - 1)) `mod` 2 ^ n - 2 ^ (n - 1).

Abbreviation u8 := (wrap_u 8).
Abbreviation u32 := (wrap_u 32).
Abbreviation u64 := (wrap_u 64).
Abbreviation s8 := (wrap_s 8).
Abbreviation s32 := (wrap_s 32).

Lemma s32_small z : 0 <= z <= INT_MAX -> s32 z = z.
Proof. unfold wrap_s, INT_MAX. intros. rewrite Z.mod_small; lia. Qed.
Lemma u64_small z : 0 <= z < 2 ^ 64 -> u64 z = z.
Proof. unfold wrap_u. intros. by rewrite Z.mod_small. Qed.

(** ** C strings and raw bytes

    A [char *] that is not NULL and whose content matters as text is a [string] (the bytes
    before the terminating NUL); a buffer is a list of [ascii]. *)
Abbreviation bytes := (list ascii).

Definition bytes_of : string -> bytes := String.list_ascii_of_string.
Definition string_of : bytes -> string := String.string_of_list_ascii.

Definition byte_Z (a : ascii) : Z := Z.of_N (N_of_ascii a).
Definition Z_byte (z : Z) : ascii := ascii_of_N (Z.to_N (u8 z)).

Definition strlen (s : string) : Z := Z.of_nat (String.length s).

Lemma bytes_of_length s : length (bytes_of s) = String.length s.
Proof. unfold bytes_of. induction s; simpl; [done |]. by f_equal. Qed.

(** What the conversions [%d], [%u] and [%zu] of printf print. *)
Definition dec (z : Z) : string := pretty z.

(** The newline escape of C. *)
Definition nl : string := String "010"%char EmptyString.

Lemma string_app_assoc (s t u : string) : (s +:+ t) +:+ u = s +:+ (t +:+ u).
Proof. unfold String.app. induction s as [| c s IH]; simpl; [done |]. by f_equal. Qed.

Fixpoint last_char (s : string) : option ascii :=
  match s with
  | EmptyString => None
  | String c EmptyString => Some c
  | String _ s' => last_char s'
  end.

(** The C string stored at the start of a block: the bytes before the first NUL. *)
Fixpoint cstr (b : bytes) : string :=
  match b with
  | [] => EmptyString
  | c :: b => if decide (c = "000"%char) then EmptyString else String c (cstr b)
  end.

Fixpoint no_nul (s : string) : bool :=
  match s with
  | EmptyString => true
  | String c s => bool_decide (c <> "000"%char) && no_nul s
  end.

(** strtoul(s, NULL, 10) on a 64-bit unsigned long: white space, a sign, then digits;
    saturating, and negated modulo 2^64 after a minus sign. *)
Definition ULONG_MAX : Z := 18446744073709551615.

Definition is_space (c : ascii) : bool :=
  bool_decide (c = " "%char) || ((9 <=? byte_Z c) && (byte_Z c <=? 13)).
Definition is_digit (c : ascii) : bool := (48 <=? byte_Z c) && (byte_Z c <=? 57).

Fixpoint skip_spaces (s : string) : string :=
  match s with
  | String c s' => if is_space c then skip_spaces s' else s
  | EmptyString => s
  end.
Fixpoint digits_value (acc : Z) (s : string) : Z :=
  match s with
  | String c s' => if is_digit c then digits_value (10 * acc + (byte_Z c - 48)) s' else acc
  | EmptyString => acc
  end.
Definition strtoul10 (s : string) : Z :=
  let '(neg, t) := match skip_spaces s with
                   | String "-"%char t => (true, t)
                   | String "+"%char t => (false, t)
                   | t => (false, t)
                   end in
  let v := digits_value 0 t in
  if decide (ULONG_MAX < v) then ULONG_MAX else if (neg : bool) then u64 (- v) else v.

(** ** Computations of a C program over a state [S]

    A computation returns a value, or does not return: the process exits, is killed by a
    signal, is unwinding to the last [setjmp] of [error_jmp_buffer], never comes back, or has
    undefined behaviour. *)
Inductive outcome (A : Type) : Type :=
| Ret (a : A)
| Exit (code : Z)
| Killed (sig : Z)
| Jump
| Hang
| Fault.
Arguments Ret {A} a.
Arguments Exit {A} code.
Arguments Killed {A} sig.
Arguments Jump {A}.
Arguments Hang {A}.
Arguments Fault {A}.

Definition M (S A : Type) : Type := S -> outcome A * S.

#[export] Instance M_ret {S} : MRet (M S) := fun A a s => (Ret a, s).
#[export] Instance M_bind {S} : MBind (M S) := fun A B f m s =>
  match m s with
  | (Ret a, s') => f a s'
  | (Exit c, s') => (Exit c, s')
  | (Killed g, s') => (Killed g, s')
  | (Jump, s') => (Jump, s')
  | (Hang, s') => (Hang, s')
  | (Fault, s') => (Fault, s')
  end.

Definition get {S} : M S S := fun s => (Ret s, s).
Definition gets {S A} (f : S -> A) : M S A := fun s => (Ret (f s), s).
Definition modify {S} (f : S -> S) : M S unit := fun s => (Ret tt, f s).
Definition stop {S A} (o : outcome A) : M S A := fun s => (o, s).
Definition fault {S A} : M S A := stop Fault.
(** Dereferencing: an absent object is undefined behaviour. *)
Definition deref {S A} (o : option A) : M S A :=
  match o with Some a => mret a | None => fault end.

(** [b && c ? ...] style helpers: run [m] only when the test holds. *)
Definition when {S} (b : bool) (m : M S unit) : M S unit := if b then m else mret tt.

(** ** Reasoning about computations *)

Section Outcomes.
Context {S : Type}.
Implicit Types s : S.

Lemma bind_ret {A B} (m : M S A) (f : A -> M S B) s a s' :
  m s = (Ret a, s') -> (m ≫= f) s = f a s'.
Proof. unfold mbind, M_bind. by intros ->. Qed.

(** A computation that stops, stops the computation it is part of. *)
Lemma bind_exit {A B} (m : M S A) (f : A -> M S B) s c s' :
  m s = (Exit c, s') -> (m ≫= f) s = (Exit c, s').
Proof. unfold mbind, M_bind. by intros ->. Qed.
Lemma bind_jump {A B} (m : M S A) (f : A -> M S B) s s' :
  m s = (Jump, s') -> (m ≫= f) s = (Jump, s').
Proof. unfold mbind, M_bind. by intros ->. Qed.
Lemma bind_killed {A B} (m : M S A) (f : A -> M S B) s g s' :
  m s = (Killed g, s') -> (m ≫= f) s = (Killed g, s').
Proof. unfold mbind, M_bind. by intros ->. Qed.
Lemma bind_fault {A B} (m : M S A) (f : A -> M S B) s s' :
  m s = (Fault, s') -> (m ≫= f) s = (Fault, s').
Proof. unfold mbind, M_bind. by intros ->. Qed.
Lemma bind_hang {A B} (m : M S A) (f : A -> M S B) s s' :
  m s = (Hang, s') -> (m ≫= f) s = (Hang, s').
Proof. unfold mbind, M_bind. by intros ->. Qed.

Lemma mret_run {A} (a : A) s : (mret a : M S A) s = (Ret a, s).
Proof. done. Qed.
Lemma get_run s : get s = (Ret s, s).
Proof. done. Qed.
Lemma gets_run {A} (f : S -> A) s : gets f s = (Ret (f s), s).
Proof. done. Qed.
Lemma modify_run (f : S -> S) s : modify f s = (Ret tt, f s).
Proof. done. Qed.
Lemma deref_Some {A} (o : option A) a s : o = Some a -> deref o s = (Ret a, s).
Proof. by intros ->. Qed.

Lemma bind_assoc {A B C} (m : M S A) (f : A -> M S B) (g : B -> M S C) s :
  ((m ≫= f) ≫= g) s = (m ≫= (fun a => f a ≫= g)) s.
Proof. unfold mbind, M_bind. by destruct (m s) as [[] ?]. Qed.

Lemma bind_ext {A B} (m : M S A) (f g : A -> M S B) s :
  (forall a s', m s = (Ret a, s') -> f a s' = g a s') -> (m ≫= f) s = (m ≫= g) s.
Proof.
  unfold mbind, M_bind. intros Hfg. destruct (m s) as [[] ?] eqn:E; try done.
  by apply Hfg.
Qed.

(** Inversion: a sequence that returns, returned at every step. *)
Lemma bind_inv {A B} (m : M S A) (f : A -> M S B) s b s' :
  (m ≫= f) s = (Ret b, s') -> exists a s1, m s = (Ret a, s1) /\ f a s1 = (Ret b, s').
Proof.
  unfold mbind, M_bind. destruct (m s) as [[] ?] eqn:E; intros H; simplify_eq; eauto.
Qed.

(** [keeps R m]: whatever [m] does, every state it leaves is related to the one it found. *)
Definition keeps {A} (R : S -> S -> Prop) (m : M S A) : Prop := forall s, R s (snd (m s)).

Section Keeps.
Context (R : S -> S -> Prop) `{!PreOrder R}.

Lemma keeps_ret {A} (a : A) : keeps R (mret a).
Proof. intros s. simpl. reflexivity. Qed.
Lemma keeps_stop {A} (o : outcome A) : keeps R (stop o).
Proof. intros s. simpl. reflexivity. Qed.
Lemma keeps_gets {A} (f : S -> A) : keeps R (gets f).
Proof. intros s. simpl. reflexivity. Qed.
Lemma keeps_get : keeps R get.
Proof. intros s. simpl. reflexivity. Qed.
Lemma keeps_deref {A} (o : option A) : keeps R (deref o).
Proof. destruct o; intros s; simpl; reflexivity. Qed.
Lemma keeps_modify (f : S -> S) : (forall s, R s (f s)) -> keeps R (modify f).
Proof. intros Hf s. apply Hf. Qed.
Lemma keeps_bind {A B} (m : M S A) (f : A -> M S B) :
  keeps R m -> (forall a, keeps R (f a)) -> keeps R (m ≫= f).
Proof.
  intros Hm Hf s. specialize (Hm s). unfold mbind, M_bind.
  destruct (m s) as [[] s'] eqn:E; simpl in *; try done.
  etrans; [done | apply Hf].
Qed.
Lemma keeps_when b (m : M S unit) : keeps R m -> keeps R (when b m).
Proof. destruct b; [done |]. intros _. apply keeps_ret. Qed.
End Keeps.
End Outcomes.

Create HintDb keeps discriminated.
#[export] Hint Resolve keeps_ret keeps_stop keeps_gets keeps_get keeps_deref keeps_when : keeps.
#[export] Hint Unfold fault : keeps.

(** Runs the first step of a computation whose result is known or immediate. *)
Ltac mstep :=
  first
    [ rewrite bind_assoc
    | erewrite bind_ret; [| first [ eassumption | reflexivity ]]
    | erewrite bind_exit; [| eassumption]
    | erewrite bind_jump; [| eassumption]
    | erewrite bind_killed; [| eassumption]
    | erewrite bind_hang; [| eassumption] ].

(** Splits a frame obligation along the structure of the computation. *)
Ltac keeps_split :=
  repeat first
    [ progress intros
    | apply keeps_bind; [ typeclasses eauto | | ]
    | case_match
    | solve [ eauto with keeps typeclass_instances ] ].
