(* ===== verification/Error.v ===== *)
(** * Fatal errors and checked allocation (src/check_error.c)

    [eprintf] writes one line to stderr and exits with status 2; [emalloc] and [erealloc]
    either succeed or call it.  The C library behind them is the interface [Sys]. *)
From S2P Require Import Prelude.

(** What the C library provides to every component, over the program state [S]: whether
    an allocation of [n] bytes succeeds now, the text of [strerror(errno)], a write to
    stderr, and the environment. *)
Class Sys (S : Type) := {
  sys_malloc : S -> Z -> bool;
  sys_strerror : S -> string;
  sys_eputs : string -> S -> S;
  sys_getenv : S -> string -> option string;
}.

(** Memory is never exhausted (a hypothesis of the theorems that need it). *)
Class MallocTotal (S : Type) `{!Sys S} :=
  malloc_total : forall (s : S) n, sys_malloc s n = true.

Section Error.
Context {S : Type} `{!Sys S}.

(** The line [eprintf] writes; [msg] is [fmt] with its arguments filled in. *)
Definition eprintf_line (fmt msg file : string) (line : Z) (errtxt : string) : string :=
  file +:+ ":" +:+ dec line +:+ ": " +:+ msg +:+
  (if decide (last_char fmt = Some ":"%char) then " " +:+ errtxt else "") +:+ nl.

Definition eprintf {A} (fmt msg file : string) (line : Z) : M S A := fun s =>
  (Exit 2, sys_eputs (eprintf_line fmt msg file line (sys_strerror s)) s).

Definition emalloc (n : Z) : M S unit := fun s =>
  if sys_malloc s n then (Ret tt, s)
  else eprintf "malloc of %zu bytes failed:"
         ("malloc of " +:+ dec n +:+ " bytes failed:") "check_error.c" 62 s.

Definition erealloc (n : Z) : M S unit := fun s =>
  if sys_malloc s n then (Ret tt, s)
  else eprintf "realloc of %zu bytes failed:"
         ("realloc of " +:+ dec n +:+ " bytes failed:") "check_error.c" 72 s.

Definition getenv (name : string) : M S (option string) := gets (fun s => sys_getenv s name).

(** strdup returns NULL when it cannot allocate; its callers do not check. *)
Definition strdup (t : string) : M S (option string) :=
  gets (fun s => if sys_malloc s (strlen t + 1) then Some t else None).

Lemma emalloc_ok n s : sys_malloc s n = true -> emalloc n s = (Ret tt, s).
Proof. unfold emalloc. by intros ->. Qed.
Lemma erealloc_ok n s : sys_malloc s n = true -> erealloc n s = (Ret tt, s).
Proof. unfold erealloc. by intros ->. Qed.

Section Total.
Context `{!MallocTotal S}.
Lemma emalloc_run n s : emalloc n s = (Ret tt, s).
Proof. apply emalloc_ok, malloc_total. Qed.
Lemma erealloc_run n s : erealloc n s = (Ret tt, s).
Proof. apply erealloc_ok, malloc_total. Qed.
Lemma strdup_run t s : strdup t s = (Ret (Some t), s).
Proof. unfold strdup, gets. by rewrite malloc_total. Qed.
End Total.

(** An allocation leaves the state alone, or ends the process with status 2. *)
Lemma emalloc_cases n s :
  emalloc n s = (Ret tt, s) \/ exists s', emalloc n s = (Exit 2, s').
Proof. unfold emalloc. destruct (sys_malloc s n); [by left | right; eexists; done]. Qed.
Lemma erealloc_cases n s :
  erealloc n s = (Ret tt, s) \/ exists s', erealloc n s = (Exit 2, s').
Proof. unfold erealloc. destruct (sys_malloc s n); [by left | right; eexists; done]. Qed.
End Error.

(** Frame lemmas for clients whose relation ignores stderr. *)
Section ErrorKeeps.
Context {S : Type} `{!Sys S} (R : S -> S -> Prop) `{!PreOrder R}.
Hypothesis R_eputs : forall t s, R s (sys_eputs t s).

Lemma keeps_eprintf {A} fmt msg file line : keeps R (eprintf (A:=A) fmt msg file line).
Proof. intros s. simpl. apply R_eputs. Qed.
Lemma keeps_emalloc n : keeps R (emalloc n).
Proof. intros s. unfold emalloc. case_match; [simpl; reflexivity | apply R_eputs]. Qed.
Lemma keeps_erealloc n : keeps R (erealloc n).
Proof. intros s. unfold erealloc. case_match; [simpl; reflexivity | apply R_eputs]. Qed.
End ErrorKeeps.
