(* ===== verification/CList.v ===== *)
(** * The growable list with an embedded cursor (src/check_list.c, src/check_list.h)

    A [List] is an array of [max_elts] cells of which the first [n_elts] are in use, with the
    cursor [current] that all iteration shares.  A [List *] is a [lptr]: the way to reach a
    list stored inside the program state, so that two users of one list move one cursor. *)
From S2P Require Import Prelude Error.

Definition LINIT : Z := 1.
Definition LGROW : Z := 2.
(** sizeof(void STAR) on the 64-bit target *)
Definition PTR_SIZE : Z := 8.

Record List (A : Type) := mkList {
  n_elts : Z;                    (* unsigned int *)
  max_elts : Z;                  (* unsigned int *)
  current : Z;                   (* int *)
  last : Z;                      (* int *)
  data : list (option A)         (* the allocated block; None: a cell never written *)
}.
Arguments mkList {A}.
Arguments n_elts {A}. Arguments max_elts {A}. Arguments current {A}.
Arguments last {A}. Arguments data {A}.

#[export] Instance List_eq_dec `{EqDecision A} : EqDecision (List A).
Proof. solve_decision. Defined.

Definition set_current {A} (c : Z) (l : List A) : List A :=
  mkList (n_elts l) (max_elts l) c (last l) (data l).

(** A non-NULL [List *]: where the list is found in the state, and how it is written back. *)
Record lptr (S A : Type) := mkLptr {
  look : S -> option (List A);
  put : List A -> S -> S
}.
Arguments mkLptr {S A}. Arguments look {S A}. Arguments put {S A}.

(** The pointer behaves like a memory cell. *)
Class Cell {S A} (p : lptr S A) := {
  look_put : forall s l, is_Some (look p s) -> look p (put p l s) = Some l;
  put_put : forall s l l', put p l (put p l' s) = put p l s;
  put_look : forall s l, look p s = Some l -> put p l s = s
}.

Section Ops.
Context {S : Type} `{!Sys S} {A : Type}.
Implicit Types (p : lptr S A) (l : List A) (s : S).

Definition load p : M S (List A) := l ← gets (look p); deref l.
Definition store p l : M S unit := modify (put p l).

(** data[i] = v, inside the block; outside it the behaviour is undefined *)
Definition write_cell (d : list (option A)) (i : Z) (v : A) : M S (list (option A)) :=
  if decide (0 <= i < Z.of_nat (length d)) then mret (<[Z.to_nat i := Some v]> d) else fault.

(** the signed increment of an int *)
Definition int_succ (z : Z) : M S Z := if decide (z < INT_MAX) then mret (z + 1) else fault.

Definition maybe_grow p : M S unit :=
  l ← load p;
  if decide (max_elts l <= n_elts l) then
    let m := u32 (max_elts l * LGROW) in
    erealloc (u64 (m * PTR_SIZE)) ;;
    store p (mkList (n_elts l) m (current l) (last l) (resize (Z.to_nat m) None (data l)))
  else mret tt.

(** The list returned; both blocks it needs are allocated. *)
Definition check_list_create : M S (List A) :=
  emalloc 24 ;;
  emalloc (PTR_SIZE * LINIT) ;;
  mret (mkList 0 LINIT (-1) (-1) (replicate (Z.to_nat LINIT) None)).

(** memmove(data + 1, data, n): defined when the block has room for n + 1 cells *)
Definition memmove_up (n : nat) (d : list (option A)) : M S (list (option A)) :=
  if decide (n < length d)%nat then mret (take 1 d ++ take n d ++ drop (1 + n) d) else fault.

Definition check_list_add_front (lp : option (lptr S A)) (val : A) : M S unit :=
  match lp with
  | None => mret tt
  | Some p =>
    maybe_grow p ;;
    l ← load p;
    d ← memmove_up (Z.to_nat (n_elts l)) (data l);
    last' ← int_succ (last l);
    let current' := 0 in
    d' ← write_cell d current' val;
    store p (mkList (u32 (n_elts l + 1)) (max_elts l) current' last' d')
  end.

Definition check_list_add_end (lp : option (lptr S A)) (val : A) : M S unit :=
  match lp with
  | None => mret tt
  | Some p =>
    maybe_grow p ;;
    l ← load p;
    last' ← int_succ (last l);
    let current' := last' in
    d' ← write_cell (data l) current' val;
    store p (mkList (u32 (n_elts l + 1)) (max_elts l) current' last' d')
  end.

Definition check_list_at_end p : M S bool :=
  l ← load p;
  mret (if decide (current l = -1) then true else bool_decide (last l < current l)).

Definition check_list_front p : M S unit :=
  l ← load p;
  if decide (current l = -1) then mret tt else store p (set_current 0 l).

(** The value under the cursor; None is NULL. *)
Definition check_list_val (lp : option (lptr S A)) : M S (option A) :=
  match lp with
  | None => mret None
  | Some p =>
    l ← load p;
    if decide (current l = -1 \/ last l < current l) then mret None
    else if decide (current l < 0) then fault
    else v ← deref (data l !! Z.to_nat (current l)); v ← deref v; mret (Some v)
  end.

Definition check_list_advance (lp : option (lptr S A)) : M S unit :=
  match lp with
  | None => mret tt
  | Some p =>
    e ← check_list_at_end p;
    if (e : bool) then mret tt
    else l ← load p; c ← int_succ (current l); store p (set_current c l)
  end.

(** The loop every client writes:
    for(check_list_front(l); !check_list_at_end(l); check_list_advance(l)) body
    where [body v] returns [Some r] to leave the loop (break, return) and [None] to go on.
    [fuel] bounds the iterations; [list_for] starts with one more than the elements. *)
Fixpoint list_loop {R} (fuel : nat) p (body : A -> M S (option R)) : M S (option R) :=
  match fuel with
  | O => stop Hang
  | Datatypes.S fuel =>
    e ← check_list_at_end p;
    if (e : bool) then mret None
    else
      v ← check_list_val (Some p);
      v ← deref v;
      r ← body v;
      match r with
      | Some r => mret (Some r)
      | None => check_list_advance (Some p) ;; list_loop fuel p body
      end
  end.

Definition list_for {R} p (body : A -> M S (option R)) : M S (option R) :=
  check_list_front p ;;
  l ← load p;
  list_loop (1 + Z.to_nat (n_elts l)) p body.

Definition check_list_apply (lp : option (lptr S A)) (fp : option (A -> M S unit)) : M S unit :=
  match lp, fp with
  | Some p, Some fp => list_for (R:=unit) p (fun v => fp v ;; mret None) ;; mret tt
  | _, _ => mret tt
  end.

Definition check_list_contains `{EqDecision A} p (val : A) : M S bool :=
  r ← list_for p (fun v => mret (if decide (v = val) then Some tt else None));
  mret (if r is Some _ then true else false).
End Ops.

(** ** Specification: a sequence with an optional position *)

Record alist (A : Type) := mkAlist { items : list A; pos : option nat }.
Arguments mkAlist {A}. Arguments items {A}. Arguments pos {A}.

Section Spec.
Context {A : Type}.
Implicit Types (a : alist A) (v : A).

Definition spec_create : alist A := mkAlist [] None.
Definition spec_add_end v a : alist A := mkAlist (items a ++ [v]) (Some (length (items a))).
Definition spec_add_front v a : alist A := mkAlist (v :: items a) (Some 0%nat).
Definition spec_front a : alist A := mkAlist (items a) ((fun _ => 0%nat) <$> pos a).
Definition spec_at_end a : bool :=
  match pos a with None => true | Some k => bool_decide (length (items a) <= k)%nat end.
Definition spec_val a : option A := k ← pos a; items a !! k.
Definition spec_advance a : alist A :=
  if spec_at_end a then a else mkAlist (items a) (Datatypes.S <$> pos a).
End Spec.

(** [lrep l a]: the structure [l] represents the sequence and position [a]. *)
Record lrep {A} (l : List A) (a : alist A) : Prop := mkLrep {
  rep_n : n_elts l = Z.of_nat (length (items a));
  rep_last : last l = Z.of_nat (length (items a)) - 1;
  rep_data : take (length (items a)) (data l) = Some <$> items a;
  rep_len : Z.of_nat (length (data l)) = max_elts l;
  rep_max : exists k, max_elts l = 2 ^ k /\ 0 <= k <= 31;
  rep_fits : n_elts l <= max_elts l;
  rep_bound : Z.of_nat (length (items a)) <= INT_MAX;
  rep_cur : current l = match pos a with None => -1 | Some k => Z.of_nat k end;
  rep_pos : match pos a with
            | None => items a = []
            | Some k => items a <> [] /\ (k <= length (items a))%nat
            end
}.

Section Refinement.
Context {S : Type} `{!Sys S} {A : Type} (p : lptr S A) `{!Cell p}.
Implicit Types (l : List A) (a : alist A) (s : S) (v : A).

Lemma load_run s l : look p s = Some l -> load p s = (Ret l, s).
Proof. intros H. unfold load. by rewrite (bind_ret _ _ _ _ _ (gets_run _ s)), H. Qed.

Lemma store_run s l : store p l s = (Ret tt, put p l s).
Proof. done. Qed.

Lemma write_cell_run (d : list (option A)) i v s :
  0 <= i < Z.of_nat (length d) -> write_cell d i v s = (Ret (<[Z.to_nat i := Some v]> d), s).
Proof. intros H. unfold write_cell. by rewrite decide_True by done. Qed.

Lemma int_succ_run z s : z < INT_MAX -> int_succ (S:=S) z s = (Ret (z + 1), s).
Proof. intros H. unfold int_succ. by rewrite decide_True by done. Qed.

Lemma memmove_up_run n (d : list (option A)) s :
  (n < length d)%nat -> memmove_up n d s = (Ret (take 1 d ++ take n d ++ drop (1 + n) d), s).
Proof. intros H. unfold memmove_up. by rewrite decide_True by done. Qed.

Lemma lrep_set_current l a k :
  lrep l a -> items a <> [] -> (k <= length (items a))%nat ->
  lrep (set_current (Z.of_nat k) l) (mkAlist (items a) (Some k)).
Proof. intros [] ? ?. by constructor. Qed.

(** Growth keeps the contents and makes room for one more cell. *)
Lemma maybe_grow_spec s l a :
  look p s = Some l -> lrep l a -> Z.of_nat (length (items a)) < INT_MAX ->
  (exists l', maybe_grow p s = (Ret tt, put p l' s) /\ look p (put p l' s) = Some l' /\
     lrep l' a /\ n_elts l' < max_elts l') \/
  (exists s', maybe_grow p s = (Exit 2, s')).
Proof.
  intros Hl Hr Hb. pose proof Hr as []. unfold maybe_grow.
  rewrite (bind_ret _ _ _ _ _ (load_run s l Hl)).
  destruct (decide (max_elts l <= n_elts l)) as [Hge | Hlt].
  2: { left. exists l. rewrite (put_look s l Hl). split; [done |]. split; [done |].
       split; [done |]. lia. }
  destruct (erealloc_cases (u64 (u32 (max_elts l * LGROW) * PTR_SIZE)) s) as [E | [s' E]].
  2: { right. exists s'. by rewrite (bind_exit _ _ _ _ _ E). }
  left. rewrite (bind_ret _ _ _ _ _ E), store_run.
  destruct rep_max0 as (k & Hk & Hk0). unfold INT_MAX in *.
  assert (Hk' : k < 31).
  { destruct (decide (k = 31)) as [-> |]; [| lia]. change (2 ^ 31) with 2147483648 in Hk. lia. }
  assert (Hpow : max_elts l * LGROW = 2 ^ (k + 1)).
  { rewrite Hk, Z.pow_add_r by lia. unfold LGROW. lia. }
  assert (Hub : 2 ^ (k + 1) < 2 ^ 32) by (apply Z.pow_lt_mono_r; lia).
  assert (Hlb : 0 < 2 ^ k) by (apply Z.pow_pos_nonneg; lia).
  assert (Hu : u32 (max_elts l * LGROW) = 2 * max_elts l).
  { unfold wrap_u. rewrite Hpow, Z.mod_small by lia. rewrite <- Hpow. unfold LGROW. lia. }
  rewrite Hu. eexists. split; [done |].
  split; [apply look_put; eauto |].
  split; [| simpl; lia].
  constructor; simpl; try done.
  - rewrite resize_ge by lia. rewrite take_app_le by lia. done.
  - rewrite length_resize. lia.
  - exists (k + 1). unfold LGROW in *. lia.
  - lia.
Qed.

Lemma data_at l a v :
  lrep l a -> n_elts l < max_elts l ->
  <[length (items a) := Some v]> (data l) =
    (Some <$> items a) ++ [Some v] ++ drop (1 + length (items a)) (data l).
Proof.
  intros [] Hlt. rewrite <- rep_data0.
  rewrite insert_take_drop by lia. simpl. by rewrite Nat.add_1_r || done.
Qed.

(** check_list_add_end appends and moves the cursor to the new element. *)
Lemma add_end_spec s l a v :
  look p s = Some l -> lrep l a -> Z.of_nat (length (items a)) < INT_MAX ->
  (exists l', check_list_add_end (Some p) v s = (Ret tt, put p l' s) /\
     lrep l' (spec_add_end v a)) \/
  (exists s', check_list_add_end (Some p) v s = (Exit 2, s')).
Proof.
  intros Hl Hr Hb. unfold check_list_add_end.
  destruct (maybe_grow_spec s l a Hl Hr Hb) as [(l1 & E & Hl1 & Hr1 & Hroom) | [s' E]].
  2: { right. exists s'. by rewrite (bind_exit _ _ _ _ _ E). }
  left. rewrite (bind_ret _ _ _ _ _ E), (bind_ret _ _ _ _ _ (load_run _ _ Hl1)).
  pose proof Hr1 as [].
  erewrite bind_ret by (apply int_succ_run; lia). cbv zeta.
  erewrite bind_ret by (apply write_cell_run; lia).
  rewrite store_run, put_put.
  eexists. split; [done |].
  replace (Z.to_nat (last l1 + 1)) with (length (items a)) by lia.
  unfold INT_MAX, wrap_u in *.
  constructor; unfold INT_MAX; simpl; rewrite ?length_app, ?length_insert; simpl; try done; try lia.
  - rewrite Z.mod_small by lia. lia.
  - rewrite data_at by done. rewrite fmap_app, app_assoc.
    rewrite take_app_le by (rewrite length_app, length_fmap; simpl; lia).
    rewrite take_ge; [done | rewrite length_app, length_fmap; simpl; lia].
  - rewrite Z.mod_small by lia. lia.
  - split; [| lia]. by destruct (items a).
Qed.

(** check_list_add_front inserts at the head and moves the cursor there. *)
Lemma add_front_spec s l a v :
  look p s = Some l -> lrep l a -> Z.of_nat (length (items a)) < INT_MAX ->
  (exists l', check_list_add_front (Some p) v s = (Ret tt, put p l' s) /\
     lrep l' (spec_add_front v a)) \/
  (exists s', check_list_add_front (Some p) v s = (Exit 2, s')).
Proof.
  intros Hl Hr Hb. unfold check_list_add_front.
  destruct (maybe_grow_spec s l a Hl Hr Hb) as [(l1 & E & Hl1 & Hr1 & Hroom) | [s' E]].
  2: { right. exists s'. by rewrite (bind_exit _ _ _ _ _ E). }
  left. rewrite (bind_ret _ _ _ _ _ E), (bind_ret _ _ _ _ _ (load_run _ _ Hl1)).
  pose proof Hr1 as [].
  assert (Hn : Z.to_nat (n_elts l1) = length (items a)) by lia. rewrite Hn.
  erewrite bind_ret by (apply memmove_up_run; lia).
  erewrite bind_ret by (apply int_succ_run; lia). cbv zeta.
  rewrite rep_data0. destruct (data l1) as [| c d] eqn:Hd; [simpl in *; lia |].
  erewrite bind_ret by (apply write_cell_run; simpl; lia).
  rewrite store_run, put_put.
  eexists. split; [done |].
  unfold INT_MAX, wrap_u in *. simpl in *.
  constructor; unfold INT_MAX; simpl; try done; try lia.
  - rewrite Z.mod_small by lia. lia.
  - f_equal. rewrite take_app_le by (rewrite length_fmap; lia).
    rewrite take_ge; [done | rewrite length_fmap; lia].
  - rewrite length_app, length_fmap, length_drop. lia.
  - rewrite Z.mod_small by lia. lia.
  - split; [done | lia].
Qed.

Lemma at_end_spec s l a :
  look p s = Some l -> lrep l a -> check_list_at_end p s = (Ret (spec_at_end a), s).
Proof.
  intros Hl []. unfold check_list_at_end. rewrite (bind_ret _ _ _ _ _ (load_run s l Hl)).
  rewrite mret_run. do 2 f_equal. rewrite rep_cur0, rep_last0. unfold spec_at_end.
  destruct (pos a) as [k |]; case_decide; try done; try lia.
  apply bool_decide_ext. lia.
Qed.

Lemma front_spec s l a :
  look p s = Some l -> lrep l a ->
  exists l', check_list_front p s = (Ret tt, put p l' s) /\ lrep l' (spec_front a).
Proof.
  intros Hl Hr. pose proof Hr as []. unfold check_list_front, spec_front.
  rewrite (bind_ret _ _ _ _ _ (load_run s l Hl)).
  rewrite rep_cur0. destruct a as [vs [k |]]; simpl in *.
  - rewrite decide_False by lia. eexists. split; [apply store_run |].
    apply (lrep_set_current l _ 0 Hr); simpl; [tauto | lia].
  - exists l. by rewrite (put_look s l Hl).
Qed.

Lemma val_spec s l a :
  look p s = Some l -> lrep l a -> check_list_val (Some p) s = (Ret (spec_val a), s).
Proof.
  intros Hl Hr. pose proof Hr as []. unfold check_list_val, spec_val.
  rewrite (bind_ret _ _ _ _ _ (load_run s l Hl)).
  rewrite rep_cur0, rep_last0. destruct (pos a) as [k |]; simpl.
  2: done.
  case_decide.
  - rewrite mret_run. do 2 f_equal. symmetry. apply lookup_ge_None. lia.
  - rewrite decide_False by lia.
    destruct (lookup_lt_is_Some_2 (items a) k) as [v Hv]; [lia |].
    assert (Hd : data l !! k = Some (Some v)).
    { rewrite <- (lookup_take_lt (data l) (length (items a))) by lia.
      by rewrite rep_data0, list_lookup_fmap, Hv. }
    rewrite Nat2Z.id.
    erewrite bind_ret by (by apply deref_Some).
    erewrite bind_ret by (by apply deref_Some). by rewrite Hv.
Qed.

Lemma advance_spec s l a :
  look p s = Some l -> lrep l a ->
  exists l', check_list_advance (Some p) s = (Ret tt, put p l' s) /\ lrep l' (spec_advance a).
Proof.
  intros Hl Hr. unfold check_list_advance, spec_advance.
  rewrite (bind_ret _ _ _ _ _ (at_end_spec s l a Hl Hr)).
  destruct (spec_at_end a) eqn:He.
  { exists l. by rewrite (put_look s l Hl). }
  pose proof Hr as []. rewrite (bind_ret _ _ _ _ _ (load_run s l Hl)).
  unfold spec_at_end in He. destruct (pos a) as [k |] eqn:Hk; [| done].
  apply bool_decide_eq_false in He.
  erewrite bind_ret by (apply int_succ_run; lia).
  eexists. split; [apply store_run |]. rewrite rep_cur0.
  replace (Z.of_nat k + 1) with (Z.of_nat (1 + k)) by lia.
  apply (lrep_set_current l _ (1 + k) Hr); [tauto | lia].
Qed.
End Refinement.

(** ** Iteration *)

Section Iteration.
Context {S : Type} `{!Sys S} {A : Type} (p : lptr S A) `{!Cell p}.
Implicit Types (l : List A) (a : alist A) (s : S) (v : A).

(** The list after [k] steps of the loop. *)
Definition at_pos l (k : nat) : List A := set_current (Z.of_nat k) l.

(** What the loop amounts to when its body leaves the list alone: the body runs on each
    element in order, and the cursor is one further after each. *)
Fixpoint run_over {R} l (k : nat) (vs : list A) (body : A -> M S (option R)) : M S (option R) :=
  match vs with
  | [] => mret None
  | v :: vs =>
    r ← body v;
    match r with
    | Some r => mret (Some r)
    | None => modify (put p (at_pos l (1 + k))) ;; run_over l (1 + k) vs body
    end
  end.

(** The body gives the list back as it found it, whenever it returns. *)
Definition untouched {B} (m : M S B) : Prop :=
  forall s b s', m s = (Ret b, s') -> look p s' = look p s.

Lemma lrep_at_pos l vs q k :
  lrep l (mkAlist vs q) -> vs <> [] -> (k <= length vs)%nat ->
  lrep (at_pos l k) (mkAlist vs (Some k)).
Proof. intros Hr ? ?. by apply (lrep_set_current l _ k Hr). Qed.

Lemma at_pos_at_pos l j k : at_pos (at_pos l j) k = at_pos l k.
Proof. done. Qed.

Lemma at_pos_id l vs k : lrep l (mkAlist vs (Some k)) -> at_pos l k = l.
Proof. intros [? ? ? ? ? ? ? Hc ?]. simpl in Hc. destruct l. simpl in *. by subst. Qed.

Lemma advance_run s l vs k :
  look p s = Some (at_pos l k) -> lrep l (mkAlist vs (Some k)) -> (k < length vs)%nat ->
  check_list_advance (Some p) s = (Ret tt, put p (at_pos l (1 + k)) s).
Proof.
  intros Hl Hr Hk. rewrite (at_pos_id l vs k Hr) in Hl.
  pose proof Hr as []. simpl in *.
  unfold check_list_advance.
  erewrite bind_ret by (eapply at_end_spec; done).
  unfold spec_at_end. simpl. rewrite bool_decide_false by lia.
  rewrite (bind_ret _ _ _ _ _ (load_run p s l Hl)).
  erewrite bind_ret by (apply int_succ_run; lia).
  rewrite store_run, rep_cur0. unfold at_pos.
  by replace (Z.of_nat k + 1) with (Z.of_nat (1 + k)) by lia.
Qed.

Lemma list_loop_spec {R} (body : A -> M S (option R)) l vs :
  (forall v, v ∈ vs -> untouched (body v)) ->
  forall dn rest k fuel s,
  vs = dn ++ rest -> k = length dn -> (length rest < fuel)%nat ->
  look p s = Some (at_pos l k) -> lrep (at_pos l k) (mkAlist vs (Some k)) ->
  list_loop fuel p body s = run_over l k rest body s.
Proof.
  intros Hbody dn rest. revert dn.
  induction rest as [| v rest IH]; intros dn k fuel s Hvs Hk Hf Hl Hr;
    (destruct fuel as [| fuel]; [simpl in Hf; lia |]); simpl list_loop; simpl run_over.
  - erewrite bind_ret by (eapply at_end_spec; done). unfold spec_at_end. simpl.
    rewrite bool_decide_true; [done |]. subst. rewrite app_nil_r. lia.
  - assert (Hkl : (k < length vs)%nat) by (subst; rewrite length_app; simpl; lia).
    erewrite bind_ret by (eapply at_end_spec; done). unfold spec_at_end. simpl.
    rewrite bool_decide_false by lia.
    erewrite bind_ret by (eapply val_spec; done). unfold spec_val. simpl.
    assert (Hv : vs !! k = Some v) by (subst; by apply list_lookup_middle).
    erewrite bind_ret by (apply deref_Some; exact Hv).
    apply bind_ext. intros r s' Hrun. destruct r as [r |]; [done |].
    assert (Hl' : look p s' = Some (at_pos l k)).
    { rewrite (Hbody v (list_elem_of_lookup_2 _ _ _ Hv) _ _ _ Hrun). done. }
    erewrite bind_ret.
    2: { eapply (advance_run s' (at_pos l k) vs k); done. }
    erewrite bind_ret by apply modify_run.
    rewrite at_pos_at_pos.
    apply (IH (dn ++ [v])).
    + by rewrite <- app_assoc.
    + rewrite length_app. simpl. lia.
    + simpl in Hf. lia.
    + apply look_put. eauto.
    + apply (lrep_at_pos (at_pos l k) vs (Some k)); [done | | lia]. by intros ->.
Qed.

(** The for loop visits every element exactly once, in order, whatever the position the
    cursor was left at, provided the body does not touch this list. *)
Lemma list_for_spec {R} (body : A -> M S (option R)) l a s :
  look p s = Some l -> lrep l a ->
  (forall v, v ∈ items a -> untouched (body v)) ->
  list_for p body s =
    match items a with
    | [] => (Ret None, s)
    | vs => run_over l 0 vs body (put p (at_pos l 0) s)
    end.
Proof.
  intros Hl Hr Hbody. pose proof Hr as []. unfold list_for, check_list_front.
  rewrite bind_assoc, (bind_ret _ _ _ _ _ (load_run p s l Hl)).
  destruct a as [vs q]. cbn [items pos] in *.
  destruct q as [k |].
  - rewrite decide_False by lia. erewrite bind_ret by apply store_run.
    change (set_current 0 l) with (at_pos l 0).
    assert (Hl0 : look p (put p (at_pos l 0) s) = Some (at_pos l 0)).
    { apply look_put. eauto. }
    rewrite (bind_ret _ _ _ _ _ (load_run p _ _ Hl0)).
    destruct vs as [| v vs]; [tauto |].
    cbv beta. rewrite (list_loop_spec body l (v :: vs) Hbody [] (v :: vs) 0%nat); try done.
    + simpl in *. lia.
    + apply (lrep_at_pos l (v :: vs) (Some k)); [done | done | simpl; lia].
  - subst vs. rewrite decide_True by lia. erewrite bind_ret by apply mret_run.
    rewrite (bind_ret _ _ _ _ _ (load_run p s l Hl)).
    simpl.
    by erewrite bind_ret by (eapply at_end_spec; done).
Qed.
End Iteration.

(** A fresh list is empty and unpositioned. *)
Lemma create_spec {S A} `{!Sys S} (s : S) :
  (exists l : List A, check_list_create s = (Ret l, s) /\ lrep l spec_create) \/
  (exists s', check_list_create (A:=A) s = (Exit 2, s')).
Proof.
  unfold check_list_create.
  destruct (emalloc_cases 24 s) as [E | [s' E]].
  2: { right. exists s'. by rewrite (bind_exit _ _ _ _ _ E). }
  rewrite (bind_ret _ _ _ _ _ E).
  destruct (emalloc_cases (PTR_SIZE * LINIT) s) as [E' | [s' E']].
  2: { right. exists s'. by rewrite (bind_exit _ _ _ _ _ E'). }
  rewrite (bind_ret _ _ _ _ _ E').
  left. eexists. split; [done |]. constructor; simpl; try done.
  exists 0. done.
Qed.

(** ** Properties of the component *)

(** The operations of a client that owns a list. *)
Inductive list_op (A : Type) :=
| Op_add_front (v : A)
| Op_add_end (v : A)
| Op_front
| Op_advance.
Arguments Op_add_front {A} v. Arguments Op_add_end {A} v.
Arguments Op_front {A}. Arguments Op_advance {A}.

Definition spec_op {A} (a : alist A) (o : list_op A) : alist A :=
  match o with
  | Op_add_front v => spec_add_front v a
  | Op_add_end v => spec_add_end v a
  | Op_front => spec_front a
  | Op_advance => spec_advance a
  end.

Section Properties.
Context {S : Type} `{!Sys S} {A : Type} (p : lptr S A) `{!Cell p}.
Implicit Types (l : List A) (a : alist A) (s : S) (v : A).

Definition exec_op (o : list_op A) : M S unit :=
  match o with
  | Op_add_front v => check_list_add_front (Some p) v
  | Op_add_end v => check_list_add_end (Some p) v
  | Op_front => check_list_front p
  | Op_advance => check_list_advance (Some p)
  end.

Fixpoint exec_ops (os : list (list_op A)) : M S unit :=
  match os with [] => mret tt | o :: os => exec_op o ;; exec_ops os end.

Lemma spec_op_length a o : (length (items (spec_op a o)) <= 1 + length (items a))%nat.
Proof.
  destruct o; simpl; rewrite ?length_app; simpl; try lia.
  unfold spec_advance. by destruct (spec_at_end a); simpl; lia.
Qed.

Lemma exec_op_spec s l a o :
  look p s = Some l -> lrep l a -> Z.of_nat (length (items a)) < INT_MAX ->
  (exists l', exec_op o s = (Ret tt, put p l' s) /\ lrep l' (spec_op a o)) \/
  (exists s', exec_op o s = (Exit 2, s')).
Proof.
  intros Hl Hr Hb. destruct o; simpl.
  - by eapply add_front_spec.
  - by eapply add_end_spec.
  - left. by eapply front_spec.
  - left. by eapply advance_spec.
Qed.

(** C40: any sequence of list operations, on any well-formed list, either runs out of memory
    (the process exits with status 2) or leaves the list representing exactly what the same
    operations do to an abstract sequence with a position; in particular growth never
    loses or reorders an element and no access is out of bounds. *)
Theorem list_ops_refine os : forall s l a,
  look p s = Some l -> lrep l a ->
  Z.of_nat (length (items a)) + Z.of_nat (length os) <= INT_MAX ->
  (exists l', exec_ops os s = (Ret tt, put p l' s) /\ lrep l' (foldl spec_op a os)) \/
  (exists s', exec_ops os s = (Exit 2, s')).
Proof.
  induction os as [| o os IH]; intros s l a Hl Hr Hb; simpl.
  { left. exists l. by rewrite (put_look s l Hl). }
  simpl in Hb.
  destruct (exec_op_spec s l a o Hl Hr ltac:(lia)) as [(l1 & E & Hr1) | [s' E]].
  2: { right. exists s'. by rewrite (bind_exit _ _ _ _ _ E). }
  rewrite (bind_ret _ _ _ _ _ E).
  pose proof (spec_op_length a o).
  destruct (IH (put p l1 s) l1 (spec_op a o)) as [(l2 & E2 & Hr2) | [s' E2]]; [| done | lia | |].
  - apply look_put. eauto.
  - left. exists l2. by rewrite E2, put_put.
  - right. by exists s'.
Qed.

Lemma untouched_ret {B} (b : B) : untouched p (mret b).
Proof. intros s b' s' H. unfold mret, M_ret in H. congruence. Qed.

(** Check_list_apply calls its function once on every element, in list order, wherever
    the cursor was, and leaves the cursor past the last element. *)
Lemma check_list_apply_visits (fp : A -> M S unit) (trace : S -> list A) s l a :
  look p s = Some l -> lrep l a ->
  (forall v t, exists t', fp v t = (Ret tt, t') /\ look p t' = look p t /\
     trace t' = trace t ++ [v]) ->
  (forall l' t, trace (put p l' t) = trace t) ->
  exists s', check_list_apply (Some p) (Some fp) s = (Ret tt, s') /\
    trace s' = trace s ++ items a /\
    exists l' k, look p s' = Some l' /\ lrep l' (mkAlist (items a) k) /\
      spec_at_end (mkAlist (items a) k) = true.
Proof.
  intros Hl Hr Hfp Htr. unfold check_list_apply.
  assert (Hun : forall v, v ∈ items a -> untouched p (fp v ;; mret (@None unit))).
  { intros v _ t b t' H. destruct (Hfp v t) as (t1 & E & Hlk & _).
    rewrite (bind_ret _ _ _ _ _ E) in H. unfold mret, M_ret in H. congruence. }

  assert (Hgo : forall vs k t,
    look p t = Some (at_pos l k) ->
    exists t', run_over p l k vs (fun v => fp v ;; mret (@None unit)) t = (Ret None, t') /\
      trace t' = trace t ++ vs /\ look p t' = Some (at_pos l (k + length vs))).
  { induction vs as [| v vs IH]; intros k t Hk; simpl.
    { exists t. by rewrite app_nil_r, Nat.add_0_r. }
    destruct (Hfp v t) as (t1 & E & Hlk & Htv).
    rewrite bind_assoc, (bind_ret _ _ _ _ _ E). rewrite (bind_ret _ _ _ _ _ (mret_run _ _)).
    rewrite (bind_ret _ _ _ _ _ (modify_run _ _)).
    destruct (IH (1 + k)%nat (put p (at_pos l (1 + k)) t1)) as (t2 & E2 & H2 & H3).
    { apply look_put. rewrite Hlk, Hk. eauto. }
    exists t2. split; [exact E2 |]. rewrite H2, H3, Htr, Htv, <- app_assoc.
    split; [done |]. do 2 f_equal. lia. }
  pose proof (list_for_spec p (fun v => fp v ;; mret (@None unit)) l a s Hl Hr Hun) as Hfor.
  destruct a as [[| v vs] q]; cbn [items] in *.
  - exists s. split; [by rewrite (bind_ret _ _ _ _ _ Hfor) |]. rewrite app_nil_r.
    split; [done |]. exists l, q. split; [done |]. split; [done |].
    destruct Hr as [? ? ? ? ? ? ? ? Hp]. simpl in Hp. destruct q; [| done]. tauto.
  - destruct (Hgo (v :: vs) 0%nat (put p (at_pos l 0) s)) as (t & E & Ht & Hk).
    { apply look_put. eauto. }
    rewrite E in Hfor. exists t. split; [by rewrite (bind_ret _ _ _ _ _ Hfor) |].
    split; [by rewrite Ht, Htr |].
    exists (at_pos l (length (v :: vs))), (Some (length (v :: vs))).
    split; [done |]. split; [by eapply lrep_at_pos |].
    unfold spec_at_end. simpl. by apply bool_decide_true.
Qed.

(** Check_list_contains answers 1 exactly when the value is an element, on a list whose
    cursor is anywhere, and never changes the elements. *)
Lemma check_list_contains_spec `{EqDecision A} s l a val :
  look p s = Some l -> lrep l a ->
  exists s', check_list_contains p val s = (Ret (bool_decide (val ∈ items a)), s') /\
    exists l' k, s' = put p l' s /\ lrep l' (mkAlist (items a) k).
Proof.
  intros Hl Hr. unfold check_list_contains.
  set (body := fun v => mret (if decide (v = val) then Some tt else None)).
  assert (Hgo : forall vs k t,
    exists j, run_over p l k vs body (put p (at_pos l k) t) =
      (Ret (if decide (val ∈ vs) then Some tt else None), put p (at_pos l j) t) /\
      (k <= j <= k + length vs)%nat).
  { induction vs as [| v vs IH]; intros k t; simpl.
    { exists k. split; [done | lia]. }
    assert (Eb : forall t, body v t = (Ret (if decide (v = val) then Some tt else None), t)) by done.
    rewrite (bind_ret _ _ _ _ _ (Eb _)).
    destruct (decide (v = val)) as [-> | Hne].
    - exists k. rewrite decide_True by apply list_elem_of_here. split; [done | lia].
    - rewrite (bind_ret _ _ _ _ _ (modify_run _ _)), put_put.
      destruct (IH (1 + k)%nat t) as (j & E & Hj). exists j. split; [| lia].
      etrans; [exact E |]. do 2 f_equal.
      apply decide_ext. rewrite elem_of_cons. split; [by right | by intros [-> |]]. }
  pose proof (list_for_spec p body l a s Hl Hr ltac:(intros ??; apply untouched_ret)) as Hfor.
  destruct a as [vs q]. cbn [items] in *.
  destruct vs as [| v vs].
  - exists s. rewrite (bind_ret _ _ _ _ _ Hfor). split; [done |].
    exists l, q. by rewrite (put_look s l Hl).
  - destruct (Hgo (v :: vs) 0%nat s) as (j & E & Hj). rewrite E in Hfor.
    exists (put p (at_pos l j) s). rewrite (bind_ret _ _ _ _ _ Hfor). split.
    + unfold mret, M_ret. do 2 f_equal. repeat case_decide; case_bool_decide; done.
    + exists (at_pos l j), (Some j). split; [done |]. eapply lrep_at_pos; [done | done | lia].
Qed.
End Properties.

(** A concrete program state, for evaluating the operations: one list and a log. *)
Module ListDemo.
Definition state : Type := List Z * list Z.
Definition ptr : lptr state Z :=
  mkLptr (fun s => Some (fst s)) (fun l s => (l, snd s)).
#[global] Instance cell : Cell ptr.
Proof. split; intros [] *; simpl; intros; simplify_eq; done. Defined.
#[global] Instance sys : Sys state :=
  {| sys_malloc _ _ := true; sys_strerror _ := ""; sys_eputs _ s := s;
     sys_getenv _ _ := None |}.
Definition empty : List Z := mkList 0 1 (-1) (-1) [None].
Lemma empty_rep : lrep empty spec_create.
Proof. constructor; simpl; try done. by exists 0. Qed.
(** [3; 1; 2] with the cursor at the last element *)
Definition three : List Z := mkList 3 4 2 2 [Some 3; Some 1; Some 2; None].
Lemma three_rep : lrep three (mkAlist [3; 1; 2] (Some 2%nat)).
Proof. constructor; simpl; try done; [by exists 2 | by split; [| lia]]. Qed.
End ListDemo.

Lemma list_ops_refine_witness :
  (exists l', exec_ops ListDemo.ptr [Op_add_end 1; Op_add_end 2; Op_add_front 3; Op_advance]
                (ListDemo.empty, []) = (Ret tt, (l', [])) /\
     lrep l' (mkAlist [3; 1; 2] (Some 1%nat))) \/
  (exists s', exec_ops ListDemo.ptr [Op_add_end 1; Op_add_end 2; Op_add_front 3; Op_advance]
                (ListDemo.empty, []) = (Exit 2, s')).
Proof.
  apply (list_ops_refine ListDemo.ptr [Op_add_end 1; Op_add_end 2; Op_add_front 3; Op_advance]
           (ListDemo.empty, []) ListDemo.empty spec_create);
    [reflexivity | exact ListDemo.empty_rep | vm_compute; discriminate].
Defined.

Lemma check_list_apply_visits_witness :
  exists s', check_list_apply (Some ListDemo.ptr) (Some (fun v => modify (fun s => (fst s, snd s ++ [v]))))
               (ListDemo.three, [7]) = (Ret tt, s') /\
    snd s' = [7] ++ [3; 1; 2] /\
    exists l' k, look ListDemo.ptr s' = Some l' /\ lrep l' (mkAlist [3; 1; 2] k) /\
      spec_at_end (mkAlist [3; 1; 2] k) = true.
Proof.
  apply (check_list_apply_visits ListDemo.ptr (fun v => modify (fun s => (fst s, snd s ++ [v])))
           snd (ListDemo.three, [7]) ListDemo.three (mkAlist [3; 1; 2] (Some 2%nat)));
    [reflexivity | exact ListDemo.three_rep | | reflexivity].
  intros v t. exists (fst t, snd t ++ [v]). repeat split; reflexivity.
Defined.

Lemma check_list_contains_spec_witness :
  exists s', check_list_contains ListDemo.ptr 1 (ListDemo.three, []) =
      (Ret (bool_decide (1 ∈ [3; 1; 2])), s') /\
    exists l' k, s' = put ListDemo.ptr l' (ListDemo.three, []) /\ lrep l' (mkAlist [3; 1; 2] k).
Proof.
  apply (check_list_contains_spec ListDemo.ptr (ListDemo.three, []) ListDemo.three
           (mkAlist [3; 1; 2] (Some 2%nat)) 1); [reflexivity | exact ListDemo.three_rep].
Defined.

(** ** Local variables of a loop: a second component beside the state *)

Definition lift {S R A} (m : M S A) : M (S * R) A := fun sr =>
  let '(o, s') := m (fst sr) in (o, (s', snd sr)).
Definition get_local {S R} : M (S * R) R := fun sr => (Ret (snd sr), sr).
Definition set_local {S R} (r : R) : M (S * R) unit := fun sr => (Ret tt, (fst sr, r)).
Definition lift_ptr {S R A} (p : lptr S A) : lptr (S * R) A :=
  mkLptr (fun sr => look p (fst sr)) (fun l sr => (put p l (fst sr), snd sr)).
(** Declares a local variable, runs, and returns its last value. *)
Definition with_local {S R A} (r : R) (m : M (S * R) A) : M S (A * R) := fun s =>
  match m (s, r) with
  | (Ret a, (s', r')) => (Ret (a, r'), s')
  | (Exit c, (s', _)) => (Exit c, s')
  | (Killed g, (s', _)) => (Killed g, s')
  | (Jump, (s', _)) => (Jump, s')
  | (Hang, (s', _)) => (Hang, s')
  | (Fault, (s', _)) => (Fault, s')
  end.
#[export] Instance lift_cell {S R A} (p : lptr S A) `{!Cell p} : Cell (lift_ptr (R:=R) p).
Proof.
  split; intros [s r] *; simpl; intros.
  - by apply look_put.
  - by rewrite put_put.
  - by rewrite put_look.
Qed.
