(* ===== verification/Loops.v ===== *)
(** * Lists held in a state, and loops over them

    [holds p s xs]: the list at [p] contains [xs], wherever its cursor is.  The loops of the
    program leave the contents alone and move the cursor; their rules are stated with an
    invariant that does not look at the cursor. *)
From S2P Require Import Prelude Error CList.

Section Holds.
Context {S : Type} `{!Sys S} {A : Type} (p : lptr S A) `{!Cell p}.
Implicit Types (s t : S) (xs : list A).

Definition holds s xs : Prop := exists l q, look p s = Some l /\ lrep l (mkAlist xs q).

(** In the body of a loop: the cursor is at the element of index [k]. *)
Definition at_item s xs (k : nat) : Prop :=
  exists l, look p s = Some l /\ lrep l (mkAlist xs (Some k)).

Lemma at_item_holds s xs k : at_item s xs k -> holds s xs.
Proof. intros (l & Hl & Hr). by exists l, (Some k). Qed.

Lemma at_item_look s t xs k : look p t = look p s -> at_item s xs k -> at_item t xs k.
Proof. intros E (l & Hl & Hr). exists l. by rewrite E. Qed.

(** The value under the cursor. *)
Lemma at_item_val s xs k v : at_item s xs k -> xs !! k = Some v ->
  check_list_val (Some p) s = (Ret (Some v), s).
Proof.
  intros (l & Hl & Hr) Hv. rewrite (val_spec p s l _ Hl Hr). by unfold spec_val; simpl; rewrite Hv.
Qed.

Lemma holds_look s t xs : look p t = look p s -> holds s xs -> holds t xs.
Proof. intros E (l & q & Hl & Hr). exists l, q. by rewrite E. Qed.

(** With memory to spare, growth and insertion return. *)
Lemma maybe_grow_total `{!MallocTotal S} s l c s' :
  look p s = Some l -> maybe_grow p s <> (Exit c, s').
Proof.
  intros Hl. unfold maybe_grow. rewrite (bind_ret _ _ _ _ _ (load_run p s l Hl)).
  case_decide; [| done]. cbv zeta. by rewrite (bind_ret _ _ _ _ _ (erealloc_run _ _)).
Qed.

Lemma add_end_holds `{!MallocTotal S} s xs v :
  holds s xs -> Z.of_nat (length xs) < INT_MAX ->
  exists l, check_list_add_end (Some p) v s = (Ret tt, put p l s) /\ holds (put p l s) (xs ++ [v]).
Proof.
  intros (l & q & Hl & Hr) Hb.
  destruct (add_end_spec p s l _ v Hl Hr Hb) as [(l' & E & Hr') | [s' E]].
  - exists l'. split; [exact E |]. exists l', (Some (length xs)).
    split; [apply look_put; eauto | exact Hr'].
  - exfalso. revert E. unfold check_list_add_end.
    destruct (maybe_grow_spec p s l _ Hl Hr Hb) as [(l1 & E & Hl1 & Hr1 & Hroom) | [s1 E]].
    2: by destruct (maybe_grow_total s l 2 s1 Hl).
    rewrite (bind_ret _ _ _ _ _ E), (bind_ret _ _ _ _ _ (load_run p _ _ Hl1)).
    pose proof Hr1 as []. cbn [items] in *.
    erewrite bind_ret by (apply int_succ_run; lia). cbv zeta.
    erewrite bind_ret by (apply write_cell_run; lia). done.
Qed.

Lemma add_front_holds `{!MallocTotal S} s xs v :
  holds s xs -> Z.of_nat (length xs) < INT_MAX ->
  exists l, check_list_add_front (Some p) v s = (Ret tt, put p l s) /\ holds (put p l s) (v :: xs).
Proof.
  intros (l & q & Hl & Hr) Hb.
  destruct (add_front_spec p s l _ v Hl Hr Hb) as [(l' & E & Hr') | [s' E]].
  - exists l'. split; [exact E |]. exists l', (Some 0%nat).
    split; [apply look_put; eauto | exact Hr'].
  - exfalso. revert E. unfold check_list_add_front.
    destruct (maybe_grow_spec p s l _ Hl Hr Hb) as [(l1 & E & Hl1 & Hr1 & Hroom) | [s1 E]].
    2: by destruct (maybe_grow_total s l 2 s1 Hl).
    rewrite (bind_ret _ _ _ _ _ E), (bind_ret _ _ _ _ _ (load_run p _ _ Hl1)).
    pose proof Hr1 as []. cbn [items] in *.
    erewrite bind_ret by (apply memmove_up_run; lia).
    erewrite bind_ret by (apply int_succ_run; lia). cbv zeta.
    erewrite bind_ret; [| apply write_cell_run]; [done |]. rewrite !length_app, length_take.
    destruct (data l1); simpl in *; lia.
Qed.

(** A loop over an empty list does nothing. *)
Lemma list_for_empty {R : Type} (body : A -> M S (option R)) t : holds t [] -> list_for p body t = (Ret None, t).
Proof.
  intros (l & q & Hl & Hr). pose proof Hr as []. unfold list_for, check_list_front.
  rewrite bind_assoc, (bind_ret _ _ _ _ _ (load_run p t l Hl)).
  destruct q as [k |]; cbn [items pos] in *; [tauto |].
  rewrite decide_True by lia. rewrite (bind_ret _ _ _ _ _ (mret_run _ _)).
  rewrite (bind_ret _ _ _ _ _ (load_run p t l Hl)). cbn [list_loop Nat.add].
  by erewrite bind_ret by (eapply at_end_spec; done).
Qed.

(** The rule for a loop whose body answers [f v] on the element [v]: it stops at the first
    element on which the answer is not None. *)
Section Loop.
Context {R : Type} (I : nat -> S -> Prop) (f : A -> option R) (body : A -> M S (option R)).

(** Moving the cursor keeps the invariant. *)
Definition cursor_free xs : Prop := forall k l q t,
  I k t -> holds t xs -> lrep l (mkAlist xs q) -> I k (put p l t).
Definition body_ok xs : Prop := forall k v t, xs !! k = Some v -> I k t -> at_item t xs k ->
  exists t', body v t = (Ret (f v), t') /\ I (Datatypes.S k) t' /\ look p t' = look p t.

Lemma list_loop_inv l xs q : lrep l (mkAlist xs q) -> cursor_free xs -> body_ok xs ->
  forall rest k fuel t, drop k xs = rest -> (k <= length xs)%nat -> (length rest < fuel)%nat ->
  xs <> [] -> look p t = Some (at_pos l k) -> I k t ->
  exists t' j, list_loop fuel p body t = (Ret (head (omap f rest)), t') /\ I j t' /\
    (head (omap f rest) = None -> j = length xs) /\ holds t' xs.
Proof.
  intros Hr Hput Hbody. induction rest as [| v rest IH]; intros k fuel t Hd Hk Hf Hne Hl HI.
  all: destruct fuel as [| fuel]; [simpl in Hf; lia |].
  all: pose proof (lrep_at_pos l xs q k Hr Hne Hk) as Hrk.
  all: cbn [list_loop]; erewrite bind_ret by (eapply at_end_spec; done); unfold spec_at_end; cbn [pos items].
  - assert (k = length xs) as ->.
    { apply (f_equal length) in Hd. rewrite length_drop in Hd. simpl in Hd. lia. }
    rewrite bool_decide_true by lia. exists t, (length xs). split; [done |]. split; [done |].
    split; [done |]. by exists (at_pos l (length xs)), (Some (length xs)).
  - assert (Hlt : (k < length xs)%nat).
    { apply (f_equal length) in Hd. rewrite length_drop in Hd. simpl in Hd. lia. }
    assert (Hv : xs !! k = Some v) by (rewrite <- (Nat.add_0_r k), <- lookup_drop, Hd; done).
    rewrite bool_decide_false by lia. erewrite bind_ret by (eapply val_spec; done).
    unfold spec_val. cbn [pos items mbind option_bind].
    erewrite bind_ret by (apply deref_Some; exact Hv).
    destruct (Hbody k v t Hv HI ltac:(by exists (at_pos l k))) as (t1 & E & HI1 & Hlk).
    rewrite (bind_ret _ _ _ _ _ E). rewrite Hl in Hlk. cbn [omap list_omap].
    destruct (f v) as [r |].
    { exists t1, (Datatypes.S k). split; [done |]. split; [done |]. split; [done |].
      by exists (at_pos l k), (Some k). }
    erewrite bind_ret by (eapply (advance_run p t1 (at_pos l k) xs k); done).
    rewrite at_pos_at_pos. apply (IH (Datatypes.S k)); try done; try lia.
    + rewrite (drop_S xs v k Hv) in Hd. by injection Hd.
    + simpl in Hf. lia.
    + apply look_put. eauto.
    + apply (Hput _ _ (Some (Datatypes.S k))); [done | by exists (at_pos l k), (Some k) |].
      by apply (lrep_at_pos l xs q (Datatypes.S k)).
Qed.

Lemma list_for_inv xs t : holds t xs -> cursor_free xs -> body_ok xs -> I 0%nat t ->
  exists t' j, list_for p body t = (Ret (head (omap f xs)), t') /\ I j t' /\
    (head (omap f xs) = None -> j = length xs) /\ holds t' xs.
Proof.
  intros Hh Hput Hbody HI. pose proof Hh as (l & q & Hl & Hr). pose proof Hr as []. unfold list_for, check_list_front.
  rewrite bind_assoc, (bind_ret _ _ _ _ _ (load_run p t l Hl)).
  destruct (decide (xs = [])) as [-> | Hne].
  - destruct q as [k |]; cbn [items pos] in *; [tauto |].
    rewrite decide_True by lia. rewrite (bind_ret _ _ _ _ _ (mret_run _ _)).
    rewrite (bind_ret _ _ _ _ _ (load_run p t l Hl)). cbn [list_loop Nat.add].
    erewrite bind_ret by (eapply at_end_spec; done). exists t, 0%nat.
    split; [done |]. split; [done |]. split; [done |]. by exists l, None.
  - destruct q as [k |]; cbn [items pos] in *; [| done].
    rewrite decide_False by lia. rewrite (bind_ret _ _ _ _ _ (store_run p _ _)).
    change (set_current 0 l) with (at_pos l 0).
    assert (Hl0 : look p (put p (at_pos l 0) t) = Some (at_pos l 0)) by (apply look_put; eauto).
    rewrite (bind_ret _ _ _ _ _ (load_run p _ _ Hl0)).
    destruct (list_loop_inv l xs (Some k) Hr Hput Hbody xs 0%nat (1 + Z.to_nat (n_elts (at_pos l 0)))
      (put p (at_pos l 0) t)) as (t' & j & E & H); try done; [lia | simpl; lia | |].
    { apply (Hput _ _ (Some 0%nat)); [done | done |]. by apply (lrep_at_pos l xs (Some k)); [| | lia]. }
    exists t', j. split; [exact E | exact H].
Qed.
End Loop.
End Holds.

(** A move of the cursor of a list keeps its contents. *)
Lemma put_holds {S A} (p : lptr S A) `{!Cell p} l q s xs : holds p s xs -> lrep l (mkAlist xs q) ->
  holds p (put p l s) xs.
Proof. intros (l0 & q0 & Hl & _) Hr. exists l, q. split; [apply look_put; eauto | done]. Qed.

(** A loop that never stops early. *)
Section Each.
Context {S : Type} `{!Sys S} {A : Type} (p : lptr S A) `{!Cell p} {R : Type}.

Lemma omap_none {B C} (l : list B) : omap (fun _ => @None C) l = [].
Proof. by induction l. Qed.

Lemma list_for_each (I : nat -> S -> Prop) (body : A -> M S (option R)) xs t :
  (forall k l q t, I k t -> holds p t xs -> lrep l (mkAlist xs q) -> I k (put p l t)) ->
  (forall k v t, xs !! k = Some v -> I k t -> at_item p t xs k ->
     exists t', body v t = (Ret None, t') /\ I (Datatypes.S k) t' /\ look p t' = look p t) ->
  holds p t xs -> I 0%nat t ->
  exists t', list_for p body t = (Ret None, t') /\ I (length xs) t' /\ holds p t' xs.
Proof.
  intros Hput Hbody Hh H0.
  destruct (list_for_inv p I (fun _ => None) body xs t Hh Hput Hbody H0) as (t' & j & E & HI & Hj & Hh').
  rewrite omap_none in *. exists t'. by rewrite (Hj eq_refl) in HI.
Qed.
End Each.

(** A loop whose body may stop it: with an answer, or by leaving altogether.  [halts] collects
    the outcomes with which it stops. *)
Definition halts {A} (o : outcome (option A)) : Prop := o <> Ret None.
Section Until.
Context {S : Type} `{!Sys S} {A : Type} (p : lptr S A) `{!Cell p} {R : Type}.
Context (I : nat -> S -> Prop) (F : outcome (option R) -> S -> Prop) (body : A -> M S (option R)).
Context (xs : list A).
Hypothesis I_put : forall k l q t, I k t -> holds p t xs -> lrep l (mkAlist xs q) -> I k (put p l t).
Hypothesis I_body : forall k v t, xs !! k = Some v -> I k t -> at_item p t xs k ->
  (exists t', body v t = (Ret None, t') /\ I (Datatypes.S k) t' /\ look p t' = look p t) \/
  (exists o t', body v t = (o, t') /\ halts o /\ F o t').

Lemma list_loop_until l q : lrep l (mkAlist xs q) ->
  forall rest k fuel t, drop k xs = rest -> (k <= length xs)%nat -> (length rest < fuel)%nat ->
  xs <> [] -> look p t = Some (at_pos l k) -> I k t ->
  (exists t', list_loop fuel p body t = (Ret None, t') /\ I (length xs) t' /\ holds p t' xs) \/
  (exists o t', list_loop fuel p body t = (o, t') /\ halts o /\ F o t').
Proof.
  intros Hr. induction rest as [| v rest IH]; intros k fuel t Hd Hk Hf Hne Hl HI.
  all: destruct fuel as [| fuel]; [simpl in Hf; lia |].
  all: pose proof (lrep_at_pos l xs q k Hr Hne Hk) as Hrk.
  all: cbn [list_loop]; erewrite bind_ret by (eapply at_end_spec; done); unfold spec_at_end; cbn [pos items].
  all: apply (f_equal length) in Hd as Hlen; rewrite length_drop in Hlen; simpl in Hlen.
  - assert (k = length xs) as -> by lia. rewrite bool_decide_true by lia. left. exists t.
    split; [done |]. split; [done |]. by exists (at_pos l (length xs)), (Some (length xs)).
  - assert (Hv : xs !! k = Some v) by (rewrite <- (Nat.add_0_r k), <- lookup_drop, Hd; done).
    rewrite bool_decide_false by lia. erewrite bind_ret by (eapply val_spec; done).
    unfold spec_val. cbn [pos items mbind option_bind].
    erewrite bind_ret by (apply deref_Some; exact Hv).
    destruct (I_body k v t Hv HI ltac:(by exists (at_pos l k))) as [(t1 & E & HI1 & Hlk) | (o & t1 & E & Ho & HF)].
    2: { right. exists o, t1. split; [| done]. unfold mbind, M_bind. rewrite E.
         by destruct o as [[r |] | | | | |]. }
    rewrite (bind_ret _ _ _ _ _ E). rewrite Hl in Hlk.
    erewrite bind_ret by (eapply (advance_run p t1 (at_pos l k) xs k); done || lia).
    rewrite at_pos_at_pos. apply (IH (Datatypes.S k)); try done; try lia.
    + rewrite (drop_S xs v k Hv) in Hd. by injection Hd.
    + simpl in Hf. lia.
    + apply look_put. eauto.
    + apply (I_put _ _ (Some (Datatypes.S k))); [done | by exists (at_pos l k), (Some k) |].
      apply (lrep_at_pos l xs q (Datatypes.S k)); done || lia.
Qed.

Lemma list_for_until t : holds p t xs -> I 0%nat t ->
  (exists t', list_for p body t = (Ret None, t') /\ I (length xs) t' /\ holds p t' xs) \/
  (exists o t', list_for p body t = (o, t') /\ halts o /\ F o t').
Proof.
  intros Hh HI. pose proof Hh as (l & q & Hl & Hr). pose proof Hr as []. unfold list_for, check_list_front.
  rewrite bind_assoc, (bind_ret _ _ _ _ _ (load_run p t l Hl)).
  destruct (decide (xs = [])) as [E | Hne].
  - destruct q as [k |]; cbn [items pos] in *; [tauto |]. rewrite E in *.
    rewrite decide_True by (cbn in *; lia). rewrite (bind_ret _ _ _ _ _ (mret_run _ _)).
    rewrite (bind_ret _ _ _ _ _ (load_run p t l Hl)). cbn [list_loop Nat.add].
    erewrite bind_ret by (eapply at_end_spec; done). left. exists t.
    split; [done |]. split; [done |]. by exists l, None.
  - destruct q as [k |]; cbn [items pos] in *; [| done].
    rewrite decide_False by (destruct xs; [done | cbn [length] in *; lia]). rewrite (bind_ret _ _ _ _ _ (store_run p _ _)).
    change (set_current 0 l) with (at_pos l 0).
    assert (Hl0 : look p (put p (at_pos l 0) t) = Some (at_pos l 0)) by (apply look_put; eauto).
    rewrite (bind_ret _ _ _ _ _ (load_run p _ _ Hl0)).
    apply (list_loop_until l (Some k) Hr xs 0%nat); try done; [lia | simpl; lia |].
    apply (I_put _ _ (Some 0%nat)); [done | done |]. by apply (lrep_at_pos l xs (Some k)); [| | lia].
Qed.
End Until.

(** A loop whose body only reads: what is left of it is a move of the cursor. *)
Section Reads.
Context {S : Type} `{!Sys S} {A : Type} (p : lptr S A) `{!Cell p} {R : Type}.

Lemma list_for_reads (f : A -> option R) (body : A -> M S (option R)) xs t :
  (forall l v, v ∈ xs -> body v (put p l t) = (Ret (f v), put p l t)) -> holds p t xs ->
  exists l, list_for p body t = (Ret (head (omap f xs)), put p l t) /\ holds p (put p l t) xs.
Proof.
  intros Hbody Hh. pose proof Hh as (l0 & q0 & Hl0 & Hr0).
  destruct (list_for_inv p (fun _ s => exists l, s = put p l t) f body xs t Hh)
    as (t' & j & E & [l ->] & _ & Hh').
  - intros _ l q s [l' ->] _ _. exists l. by rewrite put_put.
  - intros k v s Hv [l ->] _. exists (put p l t). split; [| split; [by exists l | done]].
    apply Hbody. by apply list_elem_of_lookup_2 in Hv.
  - exists l0. by rewrite put_look.
  - by exists l.
Qed.
End Reads.

(** ** Distinct lists of one state *)

(** Writing the list at [p] does not change the one at [q]. *)
Class Apart {S A B} (p : lptr S A) (q : lptr S B) :=
  look_apart : forall l s, look q (put p l s) = look q s.

Lemma holds_apart {S A B} `{!Sys S} (p : lptr S A) (q : lptr S B) `{!Apart p q} l s xs :
  holds q s xs -> holds q (put p l s) xs.
Proof. apply holds_look, look_apart. Qed.
