(* ===== verification/Types.v ===== *)
(** * Enumerations of the public interface (src/check.h.in)

    An enumeration that can arrive from outside (decoded from the message stream, or passed
    by a caller) has an extra constructor for the other values of its C type. *)
From S2P Require Import Prelude.

Inductive ck_result_ctx :=
| CK_CTX_INVALID
| CK_CTX_SETUP
| CK_CTX_TEST
| CK_CTX_TEARDOWN
| CK_CTX_OTHER (n : Z).
#[export] Instance ck_result_ctx_eq_dec : EqDecision ck_result_ctx.
Proof. solve_decision. Defined.

Definition ctx_Z (c : ck_result_ctx) : Z :=
  match c with
  | CK_CTX_INVALID => 0 | CK_CTX_SETUP => 1 | CK_CTX_TEST => 2 | CK_CTX_TEARDOWN => 3
  | CK_CTX_OTHER n => n
  end.
Definition ctx_of_Z (z : Z) : ck_result_ctx :=
  if decide (z = 0) then CK_CTX_INVALID
  else if decide (z = 1) then CK_CTX_SETUP
  else if decide (z = 2) then CK_CTX_TEST
  else if decide (z = 3) then CK_CTX_TEARDOWN
  else CK_CTX_OTHER z.

(** A context that is a value of the 32-bit enumeration type. *)
Definition ctx_ok (c : ck_result_ctx) : Prop :=
  match c with CK_CTX_OTHER n => 4 <= n <= UINT32_MAX | _ => True end.

Lemma ctx_of_Z_Z c : ctx_ok c -> ctx_of_Z (ctx_Z c) = c.
Proof.
  destruct c; simpl; try done. unfold ctx_of_Z.
  intros H. repeat (rewrite decide_False by lia). done.
Qed.
Lemma ctx_Z_range c : ctx_ok c -> 0 <= ctx_Z c <= UINT32_MAX.
Proof. unfold UINT32_MAX. destruct c; simpl; unfold UINT32_MAX; lia. Qed.

Inductive test_result :=
| CK_TEST_RESULT_INVALID
| CK_PASS
| CK_FAILURE
| CK_ERROR.
#[export] Instance test_result_eq_dec : EqDecision test_result.
Proof. solve_decision. Defined.

Inductive fork_status :=
| CK_FORK_GETENV
| CK_FORK
| CK_NOFORK
| CK_FORK_OTHER (n : Z).
#[export] Instance fork_status_eq_dec : EqDecision fork_status.
Proof. solve_decision. Defined.

(** The verbosity levels are compared with < in the code, so they are their integers;
    CK_SUBUNIT is absent (ENABLE_SUBUNIT is 0). *)
Definition print_output : Type := Z.
Definition CK_SILENT : print_output := 0.
Definition CK_MINIMAL : print_output := 1.
Definition CK_NORMAL : print_output := 2.
Definition CK_VERBOSE : print_output := 3.
Definition CK_ENV : print_output := 4.
Definition CK_LAST : print_output := 5.
