(* ===== verification/Pack.v ===== *)
(** * The message codec and the stream reader (src/check_pack.c, src/check_pack.h)

    A child sends messages to its parent through a file; [pack] serialises one message,
    [upack] reads one back, [ppack] writes one to the file and [punpack] consumes a whole
    file through a sliding window, folding the messages into a [RcvMsg].

    Buffers are lists of cells ([None]: never written); an access outside a buffer, or of a
    cell never written, is [Fault]. *)
From S2P Require Import Prelude Error Types.

(** ** Messages (enum ck_msg_type and the union CheckMsg) *)

Definition CK_MSG_CTX : Z := 0.
Definition CK_MSG_FAIL : Z := 1.
Definition CK_MSG_LOC : Z := 2.
Definition CK_MSG_DURATION : Z := 3.
Definition CK_MSG_LAST : Z := 4.

Record CtxMsg := mkCtxMsg { ctx : ck_result_ctx }.
Record LocMsg := mkLocMsg { line : Z; file : option string }.
Record FailMsg := mkFailMsg { msg : option string }.
Record DurationMsg := mkDurationMsg { duration : Z }.

Inductive CheckMsg :=
| ctx_msg (m : CtxMsg)
| fail_msg (m : FailMsg)
| loc_msg (m : LocMsg)
| duration_msg (m : DurationMsg).

Record RcvMsg := mkRcvMsg {
  lastctx : ck_result_ctx;
  failctx : ck_result_ctx;
  fixture_file : option string;
  fixture_line : Z;
  test_file : option string;
  test_line : Z;
  rmsg_msg : option string;
  rmsg_duration : Z
}.
#[export] Instance RcvMsg_eq_dec : EqDecision RcvMsg.
Proof. solve_decision. Defined.

(** A stdio stream: its content, the read position, and whether the device fails. *)
Record FILE := mkFILE {
  f_content : bytes;
  f_pos : nat;
  f_read_err : bool;
  f_write_err : bool
}.
#[export] Instance FILE_eq_dec : EqDecision FILE.
Proof. solve_decision. Defined.

(** The static variable of this file, inside the program state. *)
Class PackState (S : Type) := {
  ck_max_msg_size : S -> Z;
  put_max_msg_size : Z -> S -> S
}.

Abbreviation mem := (list (option ascii)).

(** A write pointer into an allocated block. *)
Record wbuf := mkWbuf { w_mem : mem; w_off : nat }.

Definition DEFAULT_MAX_MSG_SIZE : Z := 4096.

Section Pack.
Context {S : Type} `{!Sys S, !PackState S}.

Definition check_set_max_msg_size (max_msg_size : Z) : M S unit :=
  modify (put_max_msg_size max_msg_size).

Definition get_max_msg_size : M S Z :=
  env ← getenv "CK_MAX_MSG_SIZE";
  let value := match env with Some e => strtoul10 e | None => 0 end in
  size ← gets ck_max_msg_size;
  let value := if decide (value = 0) then size else value in
  mret (if decide (value = 0) then DEFAULT_MAX_MSG_SIZE else value).

(** ** Primitive encoders: they write at the pointer and advance it *)

Definition write_bytes (bs : bytes) (b : wbuf) : M S wbuf :=
  if decide (w_off b + length bs <= length (w_mem b))%nat then
    mret (mkWbuf (take (w_off b) (w_mem b) ++ (Some <$> bs) ++
                  drop (w_off b + length bs) (w_mem b)) (w_off b + length bs))
  else fault.

Definition pack_int (val : Z) (buf : wbuf) : M S wbuf :=
  let uval := u32 val in
  write_bytes [Z_byte (Z.land (Z.shiftr uval 24) 255);
               Z_byte (Z.land (Z.shiftr uval 16) 255);
               Z_byte (Z.land (Z.shiftr uval 8) 255);
               Z_byte (Z.land uval 255)] buf.

Definition pack_str (val : option string) (buf : wbuf) : M S wbuf :=
  let strsz := match val with None => 0 | Some v => strlen v end in
  (if decide (UINT32_MAX < strsz) then
     eprintf ("Value of strsz (%zu) too big, max allowed %u" +:+ nl)
       ("Value of strsz (" +:+ dec strsz +:+ ") too big, max allowed " +:+ dec UINT32_MAX +:+ nl)
       "check_pack.c" 207
   else mret tt) ;;
  buf ← pack_int strsz buf;
  if decide (0 < strsz) then write_bytes (bytes_of (default "" val)) buf else mret buf.

Definition pack_type (type : Z) (buf : wbuf) : M S wbuf := pack_int type buf.

(** *buf = ptr = emalloc(len) *)
Definition new_block (len : Z) : M S wbuf :=
  emalloc len ;; mret (mkWbuf (replicate (Z.to_nat len) None) 0).

(** The four packers return the length and the block left in *buf. *)
Definition pack_ctx (cmsg : CtxMsg) : M S (Z * mem) :=
  let len := 4 + 4 in
  ptr ← new_block len;
  ptr ← pack_type CK_MSG_CTX ptr;
  ptr ← pack_int (ctx_Z (ctx cmsg)) ptr;
  mret (len, w_mem ptr).

Definition pack_duration (cmsg : DurationMsg) : M S (Z * mem) :=
  let len := 4 + 4 in
  ptr ← new_block len;
  ptr ← pack_type CK_MSG_DURATION ptr;
  (if decide (UINT32_MAX < u64 (duration cmsg)) then
     eprintf ("Value of cmsg->duration (%d) too big to pack, max allowed %u" +:+ nl)
       ("Value of cmsg->duration (" +:+ dec (duration cmsg) +:+
        ") too big to pack, max allowed " +:+ dec UINT32_MAX +:+ nl) "check_pack.c" 286
   else mret tt) ;;
  ptr ← pack_int (duration cmsg) ptr;
  mret (len, w_mem ptr).

Definition opt_strlen (s : option string) : Z := match s with Some s => strlen s | None => 0 end.

Definition pack_loc (lmsg : LocMsg) : M S (Z * mem) :=
  let len := 4 + 4 + opt_strlen (file lmsg) + 4 in
  ptr ← new_block len;
  ptr ← pack_type CK_MSG_LOC ptr;
  ptr ← pack_str (file lmsg) ptr;
  (if decide (UINT32_MAX < u64 (line lmsg)) then
     eprintf ("Value of lmsg->line (%d) too big, max allowed %u" +:+ nl)
       ("Value of lmsg->line (" +:+ dec (line lmsg) +:+ ") too big, max allowed " +:+
        dec UINT32_MAX +:+ nl) "check_pack.c" 313
   else mret tt) ;;
  ptr ← pack_int (line lmsg) ptr;
  mret (len, w_mem ptr).

Definition pack_fail (fmsg : FailMsg) : M S (Z * mem) :=
  let len := 4 + 4 + opt_strlen (msg fmsg) in
  ptr ← new_block len;
  ptr ← pack_type CK_MSG_FAIL ptr;
  ptr ← pack_str (msg fmsg) ptr;
  mret (len, w_mem ptr).

Definition check_type (type : Z) (file : string) (line : Z) : M S unit :=
  if decide (type < 0 \/ CK_MSG_LAST <= type) then
    eprintf "Bad message type arg %d" ("Bad message type arg " +:+ dec type) file line
  else mret tt.

(** pftab[type](buf, msg): reading a member of the union that was not stored is undefined *)
Definition pftab (type : Z) (m : CheckMsg) : M S (Z * mem) :=
  match m with
  | ctx_msg m => if decide (type = CK_MSG_CTX) then pack_ctx m else fault
  | fail_msg m => if decide (type = CK_MSG_FAIL) then pack_fail m else fault
  | loc_msg m => if decide (type = CK_MSG_LOC) then pack_loc m else fault
  | duration_msg m => if decide (type = CK_MSG_DURATION) then pack_duration m else fault
  end.

(** [pack type buf msg]: [buf = None] is a NULL [buf], [buf = Some b] points to [b];
    the result is the return value with the new [*buf]. *)
Definition pack (type : Z) (buf : option mem) (msg : option CheckMsg) : M S (Z * option mem) :=
  match buf, msg with
  | None, _ => mret (-1, None)
  | Some b, None => mret (0, Some b)
  | Some _, Some m =>
    check_type (s32 type) "check_pack.c" 135 ;;
    '(len, b) ← pftab type m;
    if decide (INT_MAX < len) then
      eprintf ("Value of len (%zu) too big, max allowed %u" +:+ nl)
        ("Value of len (" +:+ dec len +:+ ") too big, max allowed " +:+ dec INT_MAX +:+ nl)
        "check_pack.c" 137
    else mret (s32 len, Some b)
  end.

(** ** Primitive decoders: they read at the pointer and return the advanced one *)

Definition read_bytes (n : nat) (b : mem) : M S bytes :=
  if decide (n <= length b)%nat then deref (mapM (fun c => c) (take n b)) else fault.

Definition upack_int (buf : mem) : M S (Z * mem) :=
  ubuf ← read_bytes 4 buf;
  match ubuf with
  | [b0; b1; b2; b3] =>
    let uval := u32 (Z.lor (Z.lor (Z.lor (s32 (Z.shiftl (byte_Z b0) 24))
                                         (Z.shiftl (byte_Z b1) 16))
                                  (Z.shiftl (byte_Z b2) 8))
                           (byte_Z b3)) in
    mret (uval, drop 4 buf)
  | _ => fault
  end.

Definition upack_str (buf : mem) : M S (string * mem) :=
  '(strsz, buf) ← upack_int buf;
  if decide (0 < strsz) then
    emalloc (strsz + 1) ;;
    val ← read_bytes (Z.to_nat strsz) buf;
    mret (cstr val, drop (Z.to_nat strsz) buf)
  else emalloc 1 ;; mret ("", buf).

Definition upack_type (buf : mem) : M S (Z * mem) := upack_int buf.

Definition upack_ctx (buf : mem) : M S (CtxMsg * mem) :=
  '(v, buf) ← upack_int buf;
  mret (mkCtxMsg (ctx_of_Z v), buf).

Definition upack_duration (buf : mem) : M S (DurationMsg * mem) :=
  '(d, buf) ← upack_int buf;
  (if decide (INT_MAX < d) then
     eprintf ("Unpacked value (%u) too big for cmsg->duration, max allowed %d" +:+ nl)
       ("Unpacked value (" +:+ dec d +:+ ") too big for cmsg->duration, max allowed " +:+
        dec INT_MAX +:+ nl) "check_pack.c" 294
   else mret tt) ;;
  mret (mkDurationMsg d, buf).

Definition upack_loc (buf : mem) : M S (LocMsg * mem) :=
  '(f, buf) ← upack_str buf;
  '(l, buf) ← upack_int buf;
  (if decide (INT_MAX < l) then
     eprintf ("Unpacked value (%u) too big for lmsg->line, max allowed %d" +:+ nl)
       ("Unpacked value (" +:+ dec l +:+ ") too big for lmsg->line, max allowed " +:+
        dec INT_MAX +:+ nl) "check_pack.c" 323
   else mret tt) ;;
  mret (mkLocMsg l (Some f), buf).

Definition upack_fail (buf : mem) : M S (FailMsg * mem) :=
  '(m, buf) ← upack_str buf;
  mret (mkFailMsg (Some m), buf).

Definition upftab (type : Z) (buf : mem) : M S (CheckMsg * mem) :=
  if decide (type = CK_MSG_CTX) then '(m, b) ← upack_ctx buf; mret (ctx_msg m, b)
  else if decide (type = CK_MSG_FAIL) then '(m, b) ← upack_fail buf; mret (fail_msg m, b)
  else if decide (type = CK_MSG_LOC) then '(m, b) ← upack_loc buf; mret (loc_msg m, b)
  else if decide (type = CK_MSG_DURATION) then
    '(m, b) ← upack_duration buf; mret (duration_msg m, b)
  else fault.

(** The return value, the message and its type; a NULL buffer gives -1. *)
Definition upack (buf : option mem) : M S (Z * option (CheckMsg * Z)) :=
  match buf with
  | None => mret (-1, None)
  | Some buf =>
    '(type, b) ← upack_type buf;
    check_type (s32 type) "check_pack.c" 156 ;;
    '(m, b) ← upftab type b;
    let diff := Z.of_nat (length buf) - Z.of_nat (length b) in
    (if decide (INT_MAX < diff) then
       eprintf ("Value of diff (%td) too big, max allowed %d" +:+ nl)
         ("Value of diff (" +:+ dec diff +:+ ") too big, max allowed " +:+ dec INT_MAX +:+ nl)
         "check_pack.c" 160
     else mret tt) ;;
    (if decide (INT_MAX < diff \/ diff < INT_MIN) then
       eprintf ("Value of diff (%td) too small, min allowed %d" +:+ nl)
         ("Value of diff (" +:+ dec diff +:+ ") too small, min allowed " +:+ dec INT_MIN +:+ nl)
         "check_pack.c" 160
     else mret tt) ;;
    mret (s32 diff, Some (m, type))
  end.

(** ** The stream *)

(** fwrite(buf, 1, n, fdes): all the bytes reach the end of the file, or none does when
    the device fails; the count written is returned. *)
Definition fwrite (b : bytes) (fdes : FILE) : Z * FILE :=
  if f_write_err fdes then (0, fdes)
  else (Z.of_nat (length b),
        mkFILE (f_content fdes ++ b) (f_pos fdes) (f_read_err fdes) (f_write_err fdes)).

(** fread(_, 1, size, fdes): up to [size] bytes from the position. *)
Definition fread (size : nat) (fdes : FILE) : bytes * FILE :=
  let b := take size (drop (f_pos fdes) (f_content fdes)) in
  (b, mkFILE (f_content fdes) (f_pos fdes + length b) (f_read_err fdes) (f_write_err fdes)).

(** The mutex makes the write of one message atomic; it is released on every path. *)
Definition ppack (fdes : FILE) (type : Z) (msg : option CheckMsg) : M S FILE :=
  '(n, buf) ← pack type (Some []) msg;
  (if decide (n < 0) then eprintf "pack failed" "pack failed" "check_pack.c" 372
   else mret tt) ;;
  max ← get_max_msg_size;
  (if decide (max < u64 n) then
     eprintf "Message string too long" "Message string too long" "check_pack.c" 372
   else mret tt) ;;
  b ← read_bytes (Z.to_nat n) (default [] buf);
  let '(r, fdes) := fwrite b fdes in
  if decide (r <> u64 n) then
    eprintf "Error in call to fwrite:" "Error in call to fwrite:" "check_pack.c" 381
  else mret fdes.

(** Fills [buf] from offset [off] with at most [size] bytes of the stream. *)
Definition read_buf (fdes : FILE) (size : nat) (buf : mem) (off : nat)
    : M S (nat * mem * FILE) :=
  let '(b, fdes) := fread size fdes in
  if f_read_err fdes then
    eprintf "Error in call to fread:" "Error in call to fread:" "check_pack.c" 395
  else if decide (off + length b <= length buf)%nat then
    mret (length b, take off buf ++ (Some <$> b) ++ drop (off + length b) buf, fdes)
  else fault.

Definition reset_rcv_test (rmsg : RcvMsg) : RcvMsg :=
  mkRcvMsg (lastctx rmsg) (failctx rmsg) (fixture_file rmsg) (fixture_line rmsg)
    None (-1) (rmsg_msg rmsg) (rmsg_duration rmsg).

Definition reset_rcv_fixture (rmsg : RcvMsg) : RcvMsg :=
  mkRcvMsg (lastctx rmsg) (failctx rmsg) None (-1)
    (test_file rmsg) (test_line rmsg) (rmsg_msg rmsg) (rmsg_duration rmsg).

(** The fields as rcvmsg_create leaves them. *)
Definition rcvmsg_init : RcvMsg :=
  mkRcvMsg CK_CTX_INVALID CK_CTX_INVALID None (-1) None (-1) None (-1).

Definition rcvmsg_create : M S RcvMsg :=
  emalloc 56 ;;
  mret (reset_rcv_fixture (reset_rcv_test rcvmsg_init)).

Definition rcvmsg_update_ctx (rmsg : RcvMsg) (ctx : ck_result_ctx) : RcvMsg :=
  let rmsg := if decide (lastctx rmsg = CK_CTX_INVALID) then rmsg else reset_rcv_fixture rmsg in
  mkRcvMsg ctx (failctx rmsg) (fixture_file rmsg) (fixture_line rmsg)
    (test_file rmsg) (test_line rmsg) (rmsg_msg rmsg) (rmsg_duration rmsg).

Definition rcvmsg_update_loc (rmsg : RcvMsg) (file : option string) (line : Z) : M S RcvMsg :=
  f ← deref file;
  f ← strdup f;
  mret (if decide (lastctx rmsg = CK_CTX_TEST) then
          mkRcvMsg (lastctx rmsg) (failctx rmsg) (fixture_file rmsg) (fixture_line rmsg)
            f line (rmsg_msg rmsg) (rmsg_duration rmsg)
        else
          mkRcvMsg (lastctx rmsg) (failctx rmsg) f line
            (test_file rmsg) (test_line rmsg) (rmsg_msg rmsg) (rmsg_duration rmsg)).

(** Parses the message at the start of [buf] and folds it into [rmsg]; returns its size. *)
Definition get_result (buf : mem) (rmsg : RcvMsg) : M S (Z * RcvMsg) :=
  '(n, r) ← upack (Some buf);
  if decide (n < 0) then
    eprintf "Error in call to upack" "Error in call to upack" "check_pack.c" 412
  else
    let msgsz := n in
    '(m, _) ← deref r;
    match m with
    | ctx_msg cmsg => mret (msgsz, rcvmsg_update_ctx rmsg (ctx cmsg))
    | loc_msg lmsg =>
      if decide (failctx rmsg = CK_CTX_INVALID) then
        rmsg ← rcvmsg_update_loc rmsg (file lmsg) (line lmsg);
        mret (msgsz, rmsg)
      else mret (msgsz, rmsg)
    | fail_msg fmsg =>
      match rmsg_msg rmsg with
      | None =>
        t ← deref (msg fmsg);
        t ← strdup t;
        mret (msgsz, mkRcvMsg (lastctx rmsg) (lastctx rmsg) (fixture_file rmsg)
                (fixture_line rmsg) (test_file rmsg) (test_line rmsg) t (rmsg_duration rmsg))
      | Some _ => mret (msgsz, rmsg)
      end
    | duration_msg cmsg =>
      mret (msgsz, mkRcvMsg (lastctx rmsg) (failctx rmsg) (fixture_file rmsg)
              (fixture_line rmsg) (test_file rmsg) (test_line rmsg) (rmsg_msg rmsg)
              (duration cmsg))
    end.

(** The parsing loop of punpack; every turn consumes at least one byte of the stream, so
    the [fuel] that [punpack] gives, one more than the bytes of the file, is enough. *)
Fixpoint punpack_loop (fuel : nat) (fdes : FILE) (buf : mem) (nread nparse : nat)
    (rmsg : RcvMsg) : M S (RcvMsg * FILE) :=
  match fuel with
  | O => stop Hang
  | Datatypes.S fuel =>
    if decide (0 < nparse)%nat then
      '(n, rmsg) ← get_result buf rmsg;
      if decide (Z.of_nat nparse - n < 0) then
        eprintf "Error in call to get_result" "Error in call to get_result" "check_pack.c" 534
      else
        let n := Z.to_nat n in
        let nparse := (nparse - n)%nat in
        let buf := take nparse (drop n buf) ++ drop nparse buf in
        if decide (0 < nread)%nat then
          '(nread, buf, fdes) ← read_buf fdes n buf nparse;
          punpack_loop fuel fdes buf nread (nparse + nread) rmsg
        else punpack_loop fuel fdes buf nread nparse rmsg
    else mret (rmsg, fdes)
  end.

Definition punpack (fdes : FILE) : M S (option RcvMsg * FILE) :=
  rmsg ← rcvmsg_create;
  max ← get_max_msg_size;
  let size := u64 (max * 2) in
  emalloc size ;;
  let buf := replicate (Z.to_nat size) None in
  '(nread, buf, fdes) ← read_buf fdes (Z.to_nat size) buf 0;
  '(rmsg, fdes) ← punpack_loop (1 + length (f_content fdes)) fdes buf nread nread rmsg;
  mret (if decide (lastctx rmsg = CK_CTX_INVALID) then None else Some rmsg, fdes).
End Pack.
