(* ===== verification/PackSpec.v ===== *)
(** * Specification and theorems of the codec and the stream reader

    [enc] is the wire format; [pack] produces it and [upack] reads it back; [rcv_step] is the
    effect of one message on the record, and [punpack] computes its fold over a stream. *)
From S2P Require Import Prelude Error Types Pack.

Lemma byte_Z_Z_byte z : byte_Z (Z_byte z) = u8 z.
Proof.
  unfold byte_Z, Z_byte, wrap_u. pose proof (Z.mod_pos_bound z (2^8) eq_refl).
  rewrite N_ascii_embedding by lia. lia.
Qed.
Lemma u32_s32 z : u32 (s32 z) = u32 z.
Proof.
  unfold wrap_u, wrap_s. rewrite Zminus_mod, Z.mod_mod, <- Zminus_mod by lia.
  f_equal. lia.
Qed.
(** A 32-bit integer, most significant byte first. *)
Definition be32 (v : Z) : bytes :=
  [Z_byte (Z.land (Z.shiftr v 24) 255); Z_byte (Z.land (Z.shiftr v 16) 255);
   Z_byte (Z.land (Z.shiftr v 8) 255); Z_byte (Z.land v 255)].

Lemma byte_bits v k m : 0 <= k ->
  Z.testbit (u8 (Z.land (Z.shiftr v k) 255)) m = (0 <=? m) && (m <? 8) && Z.testbit v (m + k).
Proof.
  intros Hk. unfold wrap_u. change 255 with (Z.ones 8).
  rewrite Z.testbit_mod_pow2 by lia.
  destruct (Z.leb_spec 0 m); simpl; [| by rewrite Z.testbit_neg_r, andb_false_r by lia].
  destruct (Z.ltb_spec m 8); simpl; [| done].
  by rewrite Z.land_spec, Z.ones_spec_low, andb_true_r, Z.shiftr_spec by lia.
Qed.
Lemma be32_val v : 0 <= v <= UINT32_MAX ->
  u32 (Z.lor (Z.lor (Z.lor (s32 (Z.shiftl (byte_Z (Z_byte (Z.land (Z.shiftr v 24) 255))) 24))
                                           (Z.shiftl (byte_Z (Z_byte (Z.land (Z.shiftr v 16) 255))) 16))
                                    (Z.shiftl (byte_Z (Z_byte (Z.land (Z.shiftr v 8) 255))) 8))
                             (byte_Z (Z_byte (Z.land v 255)))) = v.
Proof.
  intros Hv. rewrite !byte_Z_Z_byte. 
  assert (Hu : forall a b, u32 (Z.lor a b) = Z.lor (u32 a) (u32 b)).
  { intros. unfold wrap_u. rewrite <- !Z.land_ones by lia. apply Z.land_lor_distr_l. }
  rewrite !Hu, u32_s32. unfold UINT32_MAX in Hv.
  change (Z.land v 255) with (Z.land (Z.shiftr v 0) 255).
  apply Z.bits_inj_iff'. intros n Hn.
  rewrite !Z.lor_spec. unfold wrap_u at 1 3 5 7.
  rewrite !Z.testbit_mod_pow2, !Z.shiftl_spec, !byte_bits by lia.
  rewrite !Z.sub_add, Z.add_0_r.
  destruct (Z.ltb_spec n 32).
  2: { simpl. rewrite <- (Z.mod_small v (2 ^ 32)) by lia.
       rewrite Z.testbit_mod_pow2 by lia. by destruct (Z.ltb_spec n 32); [lia |]. }
  destruct (Z.testbit v n); rewrite ?andb_true_r, ?andb_false_r; [| done].
  repeat (destruct (Z.leb_spec _ _) || destruct (Z.ltb_spec _ _)); simpl; lia.
Qed.


Lemma cstr_bytes_of s : no_nul s = true -> cstr (bytes_of s) = s.
Proof.
  unfold bytes_of. induction s as [| c s IH]; simpl; [done |].
  intros [Hc Hs]%andb_true_iff. apply bool_decide_eq_true in Hc.
  rewrite decide_False by done. by rewrite IH.
Qed.

Lemma mapM_Some (l : bytes) : mapM (fun c => c) (Some <$> l) = Some l.
Proof. by apply mapM_fmap_Some. Qed.

(** ** The wire format *)

Definition str_of (o : option string) : string := default "" o.

Definition enc_str (o : option string) : bytes :=
  be32 (opt_strlen o) ++ bytes_of (str_of o).

Definition type_of (m : CheckMsg) : Z :=
  match m with
  | ctx_msg _ => CK_MSG_CTX | fail_msg _ => CK_MSG_FAIL
  | loc_msg _ => CK_MSG_LOC | duration_msg _ => CK_MSG_DURATION
  end.

Definition enc (m : CheckMsg) : bytes :=
  be32 (type_of m) ++
  match m with
  | ctx_msg c => be32 (ctx_Z (ctx c))
  | fail_msg f => enc_str (msg f)
  | loc_msg l => enc_str (file l) ++ be32 (line l)
  | duration_msg d => be32 (duration d)
  end.

(** The messages that can be sent: values of their C types, non-negative where the
    encoders insist, and short enough for an int. *)
Definition msg_ok (m : CheckMsg) : Prop :=
  Z.of_nat (length (enc m)) <= INT_MAX /\
  match m with
  | ctx_msg c => ctx_ok (ctx c)
  | fail_msg f => no_nul (str_of (msg f)) = true
  | loc_msg l => no_nul (str_of (file l)) = true /\ 0 <= line l <= INT_MAX
  | duration_msg d => 0 <= duration d <= INT_MAX
  end.

(** What the receiver sees: a NULL string arrives as the empty one. *)
Definition norm (m : CheckMsg) : CheckMsg :=
  match m with
  | fail_msg f => fail_msg (mkFailMsg (Some (str_of (msg f))))
  | loc_msg l => loc_msg (mkLocMsg (line l) (Some (str_of (file l))))
  | m => m
  end.

Lemma be32_length v : length (be32 v) = 4%nat.
Proof. done. Qed.

Lemma enc_str_length o : Z.of_nat (length (enc_str o)) = 4 + opt_strlen o.
Proof.
  unfold enc_str. rewrite length_app, bytes_of_length, be32_length.
  destruct o; unfold opt_strlen, str_of, strlen; simpl; lia.
Qed.

Lemma opt_strlen_nonneg o : 0 <= opt_strlen o.
Proof. destruct o; simpl; unfold strlen; lia. Qed.

Lemma enc_length m :
  Z.of_nat (length (enc m)) =
  match m with
  | ctx_msg _ | duration_msg _ => 8
  | fail_msg f => 8 + opt_strlen (msg f)
  | loc_msg l => 12 + opt_strlen (file l)
  end.
Proof.
  unfold enc. rewrite length_app, be32_length.
  destruct m; rewrite ?length_app, ?be32_length, ?Nat2Z.inj_add, ?enc_str_length; lia.
Qed.

Lemma enc_length_ge m : (8 <= length (enc m))%nat.
Proof.
  pose proof (enc_length m). destruct m; try lia.
  - pose proof (opt_strlen_nonneg (msg m)). lia.
  - pose proof (opt_strlen_nonneg (file m)). lia.
Qed.

Section Codec.
Context {S : Type} `{!Sys S, !PackState S, !MallocTotal S}.
Implicit Types s : S.

(** The block being filled: [w] written, room for [r] more. *)
Definition filled (w : bytes) (r : nat) : wbuf :=
  mkWbuf ((Some <$> w) ++ replicate r None) (length w).

Lemma write_bytes_run bs w r s :
  write_bytes bs (filled w (length bs + r)) s = (Ret (filled (w ++ bs) r), s).
Proof.
  unfold write_bytes, filled. cbn [w_mem w_off].
  rewrite decide_True by (rewrite length_app, length_fmap, length_replicate; lia).
  rewrite mret_run. do 3 f_equal; [| by rewrite length_app].
  rewrite take_app_length' by by rewrite length_fmap.
  rewrite drop_app_ge by (rewrite length_fmap; lia). rewrite length_fmap.
  replace (length w + length bs - length w)%nat with (length bs) by lia.
  rewrite drop_replicate. replace (length bs + r - length bs)%nat with r by lia.
  by rewrite fmap_app, <- app_assoc.
Qed.

Lemma pack_int_run v w r s :
  0 <= v <= UINT32_MAX -> pack_int v (filled w (4 + r)) s = (Ret (filled (w ++ be32 v) r), s).
Proof.
  intros Hv. unfold pack_int. cbv zeta.
  replace (u32 v) with v by (unfold wrap_u, UINT32_MAX in *; rewrite Z.mod_small; lia).
  apply (write_bytes_run (be32 v)).
Qed.

Lemma pack_str_run o w r s :
  opt_strlen o <= UINT32_MAX ->
  pack_str o (filled w (4 + (Z.to_nat (opt_strlen o) + r))) s =
    (Ret (filled (w ++ enc_str o) r), s).
Proof.
  intros Ho. unfold pack_str, enc_str. cbv zeta. pose proof (opt_strlen_nonneg o).
  change (match o with None => 0 | Some v => strlen v end) with (opt_strlen o).
  rewrite decide_False by lia. rewrite (bind_ret _ _ _ _ _ (mret_run _ _)).
  erewrite bind_ret by (apply pack_int_run; lia).
  assert (Hlen : length (bytes_of (str_of o)) = Z.to_nat (opt_strlen o)).
  { rewrite bytes_of_length. destruct o; unfold str_of, opt_strlen, strlen; simpl; lia. }
  case_decide as Hpos.
  - rewrite <- Hlen. rewrite (write_bytes_run (bytes_of (str_of o))). by rewrite <- app_assoc.
  - rewrite (nil_length_inv (bytes_of (str_of o))) by lia.
    replace (Z.to_nat (opt_strlen o)) with 0%nat by lia. by rewrite app_nil_r.
Qed.

Lemma new_block_run n s : new_block n s = (Ret (filled [] (Z.to_nat n)), s).
Proof. unfold new_block. by rewrite (bind_ret _ _ _ _ _ (emalloc_run _ _)). Qed.

Lemma filled_full w : w_mem (filled w 0) = Some <$> w.
Proof. unfold filled. simpl. by rewrite app_nil_r. Qed.

(** The range check on an int about to be encoded does not fire on a non-negative value. *)
Lemma int_fits z : 0 <= z <= INT_MAX -> u64 z <= UINT32_MAX.
Proof. unfold wrap_u, INT_MAX, UINT32_MAX. intros. rewrite Z.mod_small; lia. Qed.

Lemma pftab_run m s :
  msg_ok m -> pftab (type_of m) m s = (Ret (Z.of_nat (length (enc m)), Some <$> enc m), s).
Proof.
  intros [Hlen Hm]. rewrite enc_length in *. unfold INT_MAX in Hlen.
  destruct m as [[c] | [f] | [l f] | [d]]; cbn [pftab type_of ctx msg line file duration] in *;
    (rewrite decide_True by done).
  - unfold pack_ctx. cbv zeta. rewrite (bind_ret _ _ _ _ _ (new_block_run _ _)).
    unfold pack_type. change (Z.to_nat (4 + 4)) with (4 + (4 + 0))%nat.
    erewrite bind_ret by (apply pack_int_run; unfold CK_MSG_CTX, UINT32_MAX; lia).
    erewrite bind_ret by (apply pack_int_run; by apply ctx_Z_range).
    by rewrite filled_full.
  - unfold pack_fail. cbv zeta. rewrite (bind_ret _ _ _ _ _ (new_block_run _ _)).
    pose proof (opt_strlen_nonneg f). cbn [msg].
    replace (Z.to_nat (4 + 4 + opt_strlen f)) with (4 + (4 + (Z.to_nat (opt_strlen f) + 0)))%nat by lia.
    unfold pack_type.
    erewrite bind_ret by (apply pack_int_run; unfold CK_MSG_FAIL, UINT32_MAX; lia).
    erewrite bind_ret by (apply pack_str_run; unfold UINT32_MAX; lia).
    by rewrite mret_run, filled_full.
  - unfold pack_loc. cbv zeta. rewrite (bind_ret _ _ _ _ _ (new_block_run _ _)).
    pose proof (opt_strlen_nonneg f). cbn [file line].
    replace (Z.to_nat (4 + 4 + opt_strlen f + 4))
      with (4 + (4 + (Z.to_nat (opt_strlen f) + (4 + 0))))%nat by lia.
    unfold pack_type.
    erewrite bind_ret by (apply pack_int_run; unfold CK_MSG_LOC, UINT32_MAX; lia).
    erewrite bind_ret by (apply pack_str_run; unfold UINT32_MAX; lia).
    pose proof (int_fits l (proj2 Hm)). rewrite decide_False by lia.
    rewrite (bind_ret _ _ _ _ _ (mret_run _ _)).
    erewrite bind_ret by (apply pack_int_run; unfold INT_MAX, UINT32_MAX in *; lia).
    rewrite mret_run, filled_full. unfold enc. cbn [type_of file line].
    rewrite <- app_assoc. change ([] ++ be32 CK_MSG_LOC) with (be32 CK_MSG_LOC).
    replace (4 + 4 + opt_strlen f + 4) with (12 + opt_strlen f) by lia.
    done.
  - unfold pack_duration. cbv zeta. rewrite (bind_ret _ _ _ _ _ (new_block_run _ _)).
    unfold pack_type. change (Z.to_nat (4 + 4)) with (4 + (4 + 0))%nat. cbn [duration].
    erewrite bind_ret by (apply pack_int_run; unfold CK_MSG_DURATION, UINT32_MAX; lia).
    pose proof (int_fits d Hm). rewrite decide_False by lia.
    rewrite (bind_ret _ _ _ _ _ (mret_run _ _)).
    erewrite bind_ret by (apply pack_int_run; unfold INT_MAX, UINT32_MAX in *; lia).
    by rewrite mret_run, filled_full.
Qed.


Lemma type_of_range m : 0 <= type_of m < CK_MSG_LAST.
Proof. by destruct m. Qed.

Lemma check_type_run m f l s : check_type (s32 (type_of m)) f l s = (Ret tt, s).
Proof.
  pose proof (type_of_range m). unfold CK_MSG_LAST in *. rewrite s32_small by (unfold INT_MAX; lia).
  unfold check_type, CK_MSG_LAST. by rewrite decide_False by lia.
Qed.

(** pack produces the wire format, in a block of exactly the length it computed. *)
Lemma pack_run m b s :
  msg_ok m ->
  pack (type_of m) (Some b) (Some m) s =
    (Ret (Z.of_nat (length (enc m)), Some (Some <$> enc m)), s).
Proof.
  intros Hm. unfold pack. rewrite (bind_ret _ _ _ _ _ (check_type_run _ _ _ _)).
  rewrite (bind_ret _ _ _ _ _ (pftab_run _ _ Hm)). destruct Hm as [Hlen _].
  rewrite decide_False by lia. by rewrite s32_small by lia.
Qed.

(** ** Decoding *)

Lemma read_bytes_run bs rest s :
  read_bytes (length bs) ((Some <$> bs) ++ rest) s = (Ret bs, s).
Proof.
  unfold read_bytes. rewrite decide_True by (rewrite length_app, length_fmap; lia).
  rewrite take_app_length' by by rewrite length_fmap. by rewrite mapM_Some.
Qed.

Lemma upack_int_run v rest s :
  0 <= v <= UINT32_MAX -> upack_int ((Some <$> be32 v) ++ rest) s = (Ret (v, rest), s).
Proof.
  intros Hv. unfold upack_int.
  rewrite (bind_ret _ _ _ _ _ (read_bytes_run (be32 v) rest s)). cbn [be32].
  by rewrite (be32_val v Hv).
Qed.

Lemma upack_str_run o rest s :
  opt_strlen o <= UINT32_MAX -> no_nul (str_of o) = true ->
  upack_str ((Some <$> enc_str o) ++ rest) s = (Ret (str_of o, rest), s).
Proof.
  intros Ho Hnn. pose proof (opt_strlen_nonneg o). unfold upack_str, enc_str.
  rewrite fmap_app, <- app_assoc.
  erewrite bind_ret by (apply upack_int_run; lia). cbv beta iota.
  assert (Hlen : length (bytes_of (str_of o)) = Z.to_nat (opt_strlen o)).
  { rewrite bytes_of_length. destruct o; unfold str_of, opt_strlen, strlen; simpl; lia. }
  case_decide as Hpos.
  - rewrite (bind_ret _ _ _ _ _ (emalloc_run _ _)). rewrite <- Hlen.
    rewrite (bind_ret _ _ _ _ _ (read_bytes_run _ _ _)).
    rewrite mret_run, cstr_bytes_of by done.
    by rewrite drop_app_length' by by rewrite length_fmap.
  - rewrite (bind_ret _ _ _ _ _ (emalloc_run _ _)).
    rewrite (nil_length_inv (bytes_of (str_of o))) by lia.
    destruct o as [[|] |]; unfold str_of, opt_strlen, strlen in *; simpl in *; by try lia.
Qed.

Lemma upftab_run m rest s :
  msg_ok m -> upftab (type_of m) ((Some <$> drop 4 (enc m)) ++ rest) s = (Ret (norm m, rest), s).
Proof.
  intros [Hlen Hm]. rewrite enc_length in Hlen. unfold INT_MAX in *.
  unfold enc. rewrite drop_app_length' by done.
  destruct m as [[c] | [f] | [l f] | [d]]; cbn [type_of ctx msg line file duration] in *;
    unfold upftab;
    repeat first [rewrite decide_True by done | rewrite decide_False by done].
  - unfold upack_ctx. rewrite bind_assoc.
    erewrite bind_ret by (apply upack_int_run; by apply ctx_Z_range). cbv beta iota.
    erewrite bind_ret by apply mret_run. by rewrite ctx_of_Z_Z.
  - unfold upack_fail. rewrite bind_assoc.
    erewrite bind_ret by (apply upack_str_run; [unfold UINT32_MAX; lia | done]). done.
  - unfold upack_loc. rewrite bind_assoc, fmap_app, <- app_assoc.
    erewrite bind_ret by (apply upack_str_run; [unfold UINT32_MAX; lia | tauto]).
    cbv beta iota. rewrite bind_assoc.
    erewrite bind_ret by (apply upack_int_run; unfold UINT32_MAX; lia).
    cbv beta iota. rewrite decide_False by (unfold INT_MAX; lia). done.
  - unfold upack_duration. rewrite bind_assoc.
    erewrite bind_ret by (apply upack_int_run; unfold UINT32_MAX; lia).
    cbv beta iota. rewrite decide_False by (unfold INT_MAX; lia). done.
Qed.

(** upack recovers the message, its type and its size, whatever follows it. *)
Lemma upack_run m rest s :
  msg_ok m ->
  upack (Some ((Some <$> enc m) ++ rest)) s =
    (Ret (Z.of_nat (length (enc m)), Some (norm m, type_of m)), s).
Proof.
  intros Hm. unfold upack, upack_type.
  assert (Henc : enc m = be32 (type_of m) ++ drop 4 (enc m)) by done.
  rewrite Henc at 1. rewrite fmap_app, <- app_assoc.
  pose proof (type_of_range m). unfold CK_MSG_LAST in *.
  erewrite bind_ret by (apply upack_int_run; unfold UINT32_MAX; lia). cbv beta iota.
  rewrite (bind_ret _ _ _ _ _ (check_type_run _ _ _ _)).
  rewrite (bind_ret _ _ _ _ _ (upftab_run _ _ _ Hm)). cbv beta iota zeta.
  destruct Hm as [Hlen _]. unfold INT_MIN in *.
  replace (Z.of_nat (length ((Some <$> enc m) ++ rest)) - Z.of_nat (length rest))
    with (Z.of_nat (length (enc m))) by (rewrite length_app, length_fmap; lia).
  rewrite !decide_False by lia. rewrite !(bind_ret _ _ _ _ _ (mret_run _ _)).
  by rewrite s32_small by lia.
Qed.
End Codec.

(** ** What the receiver makes of the messages *)

(** One message folded into the result under construction, strings as the receiver has them. *)
Definition rcv_step (r : RcvMsg) (m : CheckMsg) : RcvMsg :=
  match m with
  | ctx_msg c => rcvmsg_update_ctx r (ctx c)
  | loc_msg l =>
    if decide (failctx r = CK_CTX_INVALID) then
      let f := Some (str_of (file l)) in
      if decide (lastctx r = CK_CTX_TEST) then
        mkRcvMsg (lastctx r) (failctx r) (fixture_file r) (fixture_line r)
          f (line l) (rmsg_msg r) (rmsg_duration r)
      else
        mkRcvMsg (lastctx r) (failctx r) f (line l)
          (test_file r) (test_line r) (rmsg_msg r) (rmsg_duration r)
    else r
  | fail_msg f =>
    if decide (rmsg_msg r = None) then
      mkRcvMsg (lastctx r) (lastctx r) (fixture_file r) (fixture_line r)
        (test_file r) (test_line r) (Some (str_of (msg f))) (rmsg_duration r)
    else r
  | duration_msg d =>
    mkRcvMsg (lastctx r) (failctx r) (fixture_file r) (fixture_line r)
      (test_file r) (test_line r) (rmsg_msg r) (duration d)
  end.

(** The result of a whole stream; no context at all means no result. *)
Definition rcv_fold (ms : list CheckMsg) : RcvMsg := foldl rcv_step rcvmsg_init ms.
Definition rcv_result (ms : list CheckMsg) : option RcvMsg :=
  let r := rcv_fold ms in if decide (lastctx r = CK_CTX_INVALID) then None else Some r.

Definition wire (ms : list CheckMsg) : bytes := concat (enc <$> ms).

Section Stream.
Context {S : Type} `{!Sys S, !PackState S, !MallocTotal S}.
Implicit Types s : S.

Lemma rcvmsg_update_loc_run r f l s :
  rcvmsg_update_loc r (Some f) l s =
    (Ret (if decide (lastctx r = CK_CTX_TEST) then
            mkRcvMsg (lastctx r) (failctx r) (fixture_file r) (fixture_line r)
              (Some f) l (rmsg_msg r) (rmsg_duration r)
          else
            mkRcvMsg (lastctx r) (failctx r) (Some f) l
              (test_file r) (test_line r) (rmsg_msg r) (rmsg_duration r)), s).
Proof.
  unfold rcvmsg_update_loc. erewrite bind_ret by by apply deref_Some.
  by rewrite (bind_ret _ _ _ _ _ (strdup_run _ _)).
Qed.

Lemma get_result_run m rest r s :
  msg_ok m ->
  get_result ((Some <$> enc m) ++ rest) r s =
    (Ret (Z.of_nat (length (enc m)), rcv_step r m), s).
Proof.
  intros Hm. unfold get_result.
  rewrite (bind_ret _ _ _ _ _ (upack_run _ _ _ Hm)). cbv beta iota.
  rewrite decide_False by lia. cbv zeta.
  erewrite bind_ret by by apply deref_Some. cbv beta iota.
  destruct m as [[c] | [f] | [l f] | [d]]; cbn [norm rcv_step ctx msg line file duration]; try done.
  - destruct (rmsg_msg r) eqn:Er; [by rewrite decide_False by done |].
    rewrite decide_True by done. erewrite bind_ret by by apply deref_Some.
    by rewrite (bind_ret _ _ _ _ _ (strdup_run _ _)).
  - case_decide; [| done]. by rewrite (bind_ret _ _ _ _ _ (rcvmsg_update_loc_run _ _ _ _)).
Qed.

Lemma read_buf_run (fdes : FILE) n (w : bytes) (junk : mem) s :
  f_read_err fdes = false -> (n <= length junk)%nat ->
  let rest := drop (f_pos fdes) (f_content fdes) in
  exists junk',
    read_buf fdes n ((Some <$> w) ++ junk) (length w) s =
      (Ret (length (take n rest), (Some <$> w ++ take n rest) ++ junk',
            mkFILE (f_content fdes) (f_pos fdes + length (take n rest)) false (f_write_err fdes)),
       s) /\
    (length (take n rest) + length junk' = length junk)%nat.
Proof.
  intros He Hn rest. unfold read_buf, fread. cbn [f_read_err]. rewrite He.
  fold rest.
  assert (Hle : (length (take n rest) <= n)%nat) by (rewrite length_take; lia).
  rewrite decide_True by (rewrite length_app, length_fmap; lia).
  eexists. split.
  - rewrite mret_run. rewrite take_app_length' by by rewrite length_fmap.
    rewrite drop_app_ge by (rewrite length_fmap; lia). rewrite length_fmap.
    by rewrite fmap_app, <- app_assoc.
  - rewrite length_drop. lia.
Qed.

Lemma wire_cons m ms : wire (m :: ms) = enc m ++ wire ms.
Proof. done. Qed.

Lemma wire_nil_inv ms : wire ms = [] -> ms = [].
Proof.
  destruct ms as [| m ms]; [done |]. rewrite wire_cons. intros H.
  pose proof (enc_length_ge m). apply app_eq_nil in H as [H _]. rewrite H in *. simpl in *. lia.
Qed.

Lemma length_take_drop {A} n (l : list A) : take n l ++ drop (length (take n l)) l = l.
Proof.
  rewrite length_take. destruct (decide (n <= length l)%nat) as [H | H].
  - rewrite Nat.min_l by lia. apply take_drop.
  - rewrite Nat.min_r, drop_all, take_ge, app_nil_r by lia. done.
Qed.

(** When one message is removed from a full window (or from one that already holds the
    end of the stream), the first message is wholly inside it. *)
Lemma window_head m ms w rest W :
  w ++ rest = wire (m :: ms) -> (length (enc m) <= W)%nat -> (length w = W \/ rest = []) ->
  exists w', w = enc m ++ w' /\ w' ++ rest = wire ms.
Proof.
  rewrite wire_cons. intros Heq Hle Hw.
  assert (length (enc m) <= length w)%nat as Hmw.
  { destruct Hw as [-> | ->]; [done |]. rewrite app_nil_r in Heq. rewrite Heq, length_app. lia. }
  exists (drop (length (enc m)) w).
  assert (Ht : take (length (enc m)) w = enc m).
  { apply (f_equal (take (length (enc m)))) in Heq.
    by rewrite take_app_le, take_app_length in Heq by lia. }
  split; [by rewrite <- Ht at 1; rewrite take_drop |].
  apply (f_equal (drop (length (enc m)))) in Heq.
  by rewrite drop_app_le, drop_app_length in Heq by lia.
Qed.

(** The loop: the window holds a prefix of the wire format of the messages still to come. *)
Lemma punpack_loop_run ms : forall fuel fdes w junk nread r s,
  f_read_err fdes = false -> (f_pos fdes <= length (f_content fdes))%nat ->
  let rest := drop (f_pos fdes) (f_content fdes) in
  let W := (length w + length junk)%nat in
  w ++ rest = wire ms -> Forall (fun m => msg_ok m /\ (length (enc m) <= W)%nat) ms ->
  (length w = W \/ rest = []) -> (nread = 0%nat -> rest = []) -> (0 < W)%nat ->
  (length ms < fuel)%nat ->
  punpack_loop fuel fdes ((Some <$> w) ++ junk) nread (length w) r s =
    (Ret (foldl rcv_step r ms,
          mkFILE (f_content fdes) (length (f_content fdes)) false (f_write_err fdes)), s).
Proof.
  induction ms as [| m ms IH];
    intros [| fuel] fdes w junk nread r s He Hpos rest W Hw Hms Hfull Hread HW Hfuel; try lia;
    cbn [punpack_loop]; assert (HWeq : W = (length w + length junk)%nat) by done; clearbody W.
  - apply app_eq_nil in Hw as [-> Hrest]. rewrite decide_False by (simpl; lia).
    assert (Hr : length rest = 0%nat) by by rewrite Hrest.
    unfold rest in Hr. rewrite length_drop in Hr.
    rewrite mret_run. do 3 f_equal. destruct fdes as [c p e we]; simpl in *. f_equal; [lia | done].
  - apply Forall_cons in Hms as [[Hm HmW] Hms].
    destruct (window_head m ms w rest W) as (w' & -> & Hw'); [done.. |].
    pose proof (enc_length_ge m) as H8. rewrite length_app in *.
    rewrite decide_True by lia. rewrite fmap_app, <- app_assoc.
    rewrite (bind_ret _ _ _ _ _ (get_result_run _ _ _ _ Hm)). cbv beta iota.
    rewrite decide_False by lia. rewrite Nat2Z.id. cbv zeta.
    replace (length (enc m) + length w' - length (enc m))%nat with (length w') by lia.
    rewrite drop_app_length' by by rewrite length_fmap.
    rewrite take_app_length' by by rewrite length_fmap.
    set (j1 := drop _ (_ ++ _)).
    assert (Hj1 : length j1 = (length (enc m) + length junk)%nat).
    { unfold j1. rewrite length_drop, !length_app, !length_fmap. lia. }
    assert (HWj : W = (length w' + length j1)%nat) by lia. clearbody j1. clear HWeq. subst W.
    case_decide as Hn.
    + destruct (read_buf_run fdes (length (enc m)) w' j1 s He) as (j2 & Hrb & Hj2); [lia |].
      fold rest in Hrb, Hj2. rewrite (bind_ret _ _ _ _ _ Hrb). cbv beta iota.
      set (b := take (length (enc m)) rest) in *.
      assert (Hlb : length b = (length (enc m) `min` length rest)%nat) by apply length_take.
      assert (Hlr : length rest = (length (f_content fdes) - f_pos fdes)%nat)
        by apply length_drop.
      rewrite <- length_app.
      assert (HW2 : (length (w' ++ b) + length j2 = length w' + length j1)%nat)
        by (rewrite length_app; lia).
      rewrite IH; cbn [f_content f_pos f_read_err f_write_err]; rewrite ?HW2, <- ?drop_drop;
        fold rest; try done; try lia.
      * rewrite <- app_assoc. unfold b. by rewrite length_take_drop.
      * destruct Hfull as [Hfull | ->]; [| right; apply drop_nil].
        destruct (decide (length (enc m) <= length rest)%nat).
        -- left. rewrite length_app. lia.
        -- right. apply nil_length_inv. rewrite length_drop. lia.
      * intros Hb. apply nil_length_inv. rewrite length_drop. lia.
      * simpl in Hfuel. lia.
    + rewrite IH; try done.
      * right. apply Hread. lia.
      * simpl in Hfuel. lia.
Qed.

(** The limit in force: CK_MAX_MSG_SIZE, else the value set by the program, else 4096. *)
Definition msg_limit (s : S) : Z :=
  let value := match sys_getenv s "CK_MAX_MSG_SIZE" with Some e => strtoul10 e | None => 0 end in
  let value := if decide (value = 0) then ck_max_msg_size s else value in
  if decide (value = 0) then DEFAULT_MAX_MSG_SIZE else value.

Lemma get_max_msg_size_run s : get_max_msg_size s = (Ret (msg_limit s), s).
Proof. done. Qed.

Lemma wire_length ms : (length ms <= length (wire ms))%nat.
Proof.
  induction ms as [| m ms IH]; [done |]. rewrite wire_cons, length_app. simpl.
  pose proof (enc_length_ge m). lia.
Qed.

Lemma length_drop_le {A} n (l : list A) : (length (drop n l) <= length l)%nat.
Proof. rewrite length_drop. lia. Qed.

Definition at_eof (fdes : FILE) : FILE :=
  mkFILE (f_content fdes) (length (f_content fdes)) (f_read_err fdes) (f_write_err fdes).

Lemma punpack_run ms fdes s :
  0 < msg_limit s -> msg_limit s * 2 < 2 ^ 64 ->
  f_read_err fdes = false -> (f_pos fdes <= length (f_content fdes))%nat ->
  drop (f_pos fdes) (f_content fdes) = wire ms ->
  Forall (fun m => msg_ok m /\ Z.of_nat (length (enc m)) <= msg_limit s * 2) ms ->
  punpack fdes s = (Ret (rcv_result ms, at_eof fdes), s).
Proof.
  intros Hpos Hbig He Hp Hw Hms. unfold punpack, rcvmsg_create. rewrite bind_assoc.
  rewrite (bind_ret _ _ _ _ _ (emalloc_run _ _)). rewrite (bind_ret _ _ _ _ _ (mret_run _ _)).
  rewrite (bind_ret _ _ _ _ _ (get_max_msg_size_run _)). cbv zeta.
  unfold wrap_u. rewrite Z.mod_small by lia.
  rewrite (bind_ret _ _ _ _ _ (emalloc_run _ _)).
  set (W := Z.to_nat (msg_limit s * 2)).
  destruct (read_buf_run fdes W [] (replicate W None) s He) as (junk & Hrb & Hj);
    [by rewrite length_replicate |].
  rewrite length_replicate in Hj. change ((Some <$> []) ++ replicate W None)
    with (replicate W (@None ascii)) in Hrb. change (length (@nil ascii)) with 0%nat in Hrb.
  rewrite (bind_ret _ _ _ _ _ Hrb). cbv beta iota. clear Hrb.
  rewrite Hw in *. rewrite (app_nil_l (take W (wire ms))).
  pose proof (wire_length ms) as Hl.
  pose proof (length_drop_le (f_pos fdes) (f_content fdes)) as Hl2. rewrite Hw in Hl2.
  assert (Hlw : length (wire ms) = (length (f_content fdes) - f_pos fdes)%nat)
    by (rewrite <- Hw; apply length_drop).
  pose proof (length_take (wire ms) W) as Hlt.
  erewrite bind_ret by
    (apply (punpack_loop_run ms); cbn [f_content f_pos f_read_err f_write_err];
     rewrite <- ?drop_drop, ?Hw, ?Hj; try done; try lia;
     [ apply length_take_drop
     | eapply Forall_impl; [exact Hms |]; simpl; intros m [Hm Hle]; split; [done | lia]
     | destruct (decide (W <= length (wire ms))%nat);
       [left; lia | right; apply nil_length_inv; rewrite length_drop; lia]
     | intros; apply nil_length_inv; rewrite length_drop; lia ]).
  cbv beta iota. unfold at_eof, rcv_result, rcv_fold. by rewrite He.
Qed.

Lemma ppack_run m fdes s :
  msg_ok m -> Z.of_nat (length (enc m)) <= msg_limit s -> f_write_err fdes = false ->
  ppack fdes (type_of m) (Some m) s =
    (Ret (mkFILE (f_content fdes ++ enc m) (f_pos fdes) (f_read_err fdes) false), s).
Proof.
  intros Hm Hle He. unfold ppack. rewrite (bind_ret _ _ _ _ _ (pack_run _ _ _ Hm)).
  cbv beta iota. rewrite decide_False by lia. rewrite (bind_ret _ _ _ _ _ (mret_run _ _)).
  rewrite (bind_ret _ _ _ _ _ (get_max_msg_size_run _)).
  pose proof (proj1 Hm) as Hmax. unfold INT_MAX in Hmax.
  assert (Hu : u64 (Z.of_nat (length (enc m))) = Z.of_nat (length (enc m)))
    by (unfold wrap_u; rewrite Z.mod_small; lia).
  rewrite Hu. rewrite decide_False by lia. rewrite (bind_ret _ _ _ _ _ (mret_run _ _)).
  rewrite Nat2Z.id. change (default [] (Some (Some <$> enc m))) with (Some <$> enc m).
  rewrite <- (app_nil_r (Some <$> enc m)).
  rewrite (bind_ret _ _ _ _ _ (read_bytes_run _ _ _)). unfold fwrite. rewrite He.
  cbv beta iota. by rewrite decide_False by (intros Hn; apply Hn; reflexivity).
Qed.
End Stream.

(** ** Properties *)

Definition is_fail (m : CheckMsg) : bool := match m with fail_msg _ => true | _ => false end.

(** An open stream whose reads succeed, positioned at its start, holding the messages [ms]. *)
Record holds (fdes : FILE) (ms : list CheckMsg) (size : Z) : Prop := mkHolds {
  holds_err : f_read_err fdes = false;
  holds_pos : (f_pos fdes <= length (f_content fdes))%nat;
  holds_wire : drop (f_pos fdes) (f_content fdes) = wire ms;
  holds_ok : Forall (fun m => msg_ok m /\ Z.of_nat (length (enc m)) <= size) ms
}.

Lemma rcv_fold_app ms1 ms2 : rcv_fold (ms1 ++ ms2) = foldl rcv_step (rcv_fold ms1) ms2.
Proof. apply foldl_app. Qed.

(** Before any failure message, the result under construction has no failure in it. *)
Lemma rcv_no_fail ms : forallb (fun m => negb (is_fail m)) ms = true ->
  rmsg_msg (rcv_fold ms) = None /\ failctx (rcv_fold ms) = CK_CTX_INVALID.
Proof.
  induction ms as [| m ms IH] using rev_ind; [done |].
  rewrite forallb_app. simpl. rewrite andb_true_r. intros [Hms Hm]%andb_true_iff.
  destruct (IH Hms) as [E1 E2]. rewrite rcv_fold_app. simpl.
  destruct m; simpl in *; try done.
  - unfold rcvmsg_update_ctx. simpl. case_decide; simpl; done.
  - rewrite E2, decide_True by done. case_decide; simpl; done.
Qed.

(** Once a failure is recorded in a context, it and the test's location are frozen. *)
Definition frozen (r r' : RcvMsg) : Prop :=
  rmsg_msg r' = rmsg_msg r /\ failctx r' = failctx r /\
  test_file r' = test_file r /\ test_line r' = test_line r.

Lemma rcv_step_frozen r m :
  rmsg_msg r <> None -> failctx r <> CK_CTX_INVALID -> frozen r (rcv_step r m).
Proof.
  intros H1 H2. destruct m; simpl.
  - unfold rcvmsg_update_ctx. case_decide; done.
  - by rewrite decide_False.
  - by rewrite decide_False.
  - done.
Qed.

Lemma rcv_fold_frozen ms : forall r,
  rmsg_msg r <> None -> failctx r <> CK_CTX_INVALID -> frozen r (foldl rcv_step r ms).
Proof.
  induction ms as [| m ms IH]; intros r H1 H2; simpl; [done |].
  destruct (rcv_step_frozen r m H1 H2) as (E1 & E2 & E3 & E4).
  destruct (IH (rcv_step r m)) as (F1 & F2 & F3 & F4); [congruence.. |].
  repeat split; congruence.
Qed.

(** The range checks of the encoders fire on every negative int. *)
Lemma negative_too_big z : INT_MIN <= z < 0 -> UINT32_MAX < u64 z.
Proof.
  unfold INT_MIN, UINT32_MAX, wrap_u. intros.
  rewrite <- (Z.mod_add z 1), Z.mod_small by lia. lia.
Qed.

Section Properties.
Context {S : Type} `{!Sys S, !PackState S, !MallocTotal S}.
Implicit Types s : S.

(** C39: a message survives the codec: pack allocates exactly the bytes it fills, and upack
    returns the same message, its type and its length, whatever bytes follow it; a NULL
    string arrives as the empty string. *)
Theorem pack_upack_roundtrip m b s :
  msg_ok m ->
  exists buf, pack (type_of m) (Some b) (Some m) s = (Ret (Z.of_nat (length buf), Some buf), s) /\
    forall rest t, upack (Some (buf ++ rest)) t =
      (Ret (Z.of_nat (length buf), Some (norm m, type_of m)), t).
Proof.
  intros Hm. exists (Some <$> enc m). rewrite length_fmap.
  split; [by apply pack_run | intros; by apply upack_run].
Qed.

(** pack refuses what cannot be encoded: a type outside the enumeration, a negative line
    and a negative duration end the process with status 2 and a message naming the value;
    NULL arguments are answered without touching memory. *)
Theorem pack_rejects m f l d ty b s :
  pack ty None m s = (Ret (-1, None), s) /\
  pack ty (Some b) None s = (Ret (0, Some b), s) /\
  (s32 ty < 0 \/ CK_MSG_LAST <= s32 ty -> forall m',
     exists s', pack ty (Some b) (Some m') s = (Exit 2, s')) /\
  (INT_MIN <= l < 0 -> opt_strlen f <= UINT32_MAX ->
     pack CK_MSG_LOC (Some b) (Some (loc_msg (mkLocMsg l f))) s =
       (Exit 2, sys_eputs ("check_pack.c:313: Value of lmsg->line (" +:+ dec l +:+
                 ") too big, max allowed 4294967295" +:+ nl +:+ nl) s)) /\
  (INT_MIN <= d < 0 ->
     pack CK_MSG_DURATION (Some b) (Some (duration_msg (mkDurationMsg d))) s =
       (Exit 2, sys_eputs ("check_pack.c:286: Value of cmsg->duration (" +:+ dec d +:+
                 ") too big to pack, max allowed 4294967295" +:+ nl +:+ nl) s)).
Proof.
  split; [done |]. split; [by destruct b |]. split; [| split].
  - intros Hty m'. eexists. unfold pack. apply bind_exit. unfold check_type.
    by rewrite decide_True.
  - intros Hl Hf. unfold pack. erewrite bind_ret by by apply check_type_run with (m := loc_msg (mkLocMsg l f)).
    apply bind_exit. cbn [pftab]. rewrite decide_True by done. unfold pack_loc. cbv zeta.
    rewrite (bind_ret _ _ _ _ _ (new_block_run _ _)). pose proof (opt_strlen_nonneg f).
    cbn [file line]. unfold pack_type.
    replace (Z.to_nat (4 + 4 + opt_strlen f + 4))
      with (4 + (4 + (Z.to_nat (opt_strlen f) + 4)))%nat by lia.
    erewrite bind_ret by (apply pack_int_run; unfold CK_MSG_LOC, UINT32_MAX; lia).
    erewrite bind_ret by (apply pack_str_run; lia).
    apply bind_exit. rewrite decide_True by by apply negative_too_big.
    unfold eprintf, eprintf_line. do 2 f_equal. rewrite decide_False by done.
    by rewrite !string_app_assoc.
  - intros Hd. unfold pack.
    erewrite bind_ret by by apply check_type_run with (m := duration_msg (mkDurationMsg d)).
    apply bind_exit. cbn [pftab]. rewrite decide_True by done. unfold pack_duration. cbv zeta.
    rewrite (bind_ret _ _ _ _ _ (new_block_run _ _)). cbn [duration]. unfold pack_type.
    change (Z.to_nat (4 + 4)) with (4 + 4)%nat.
    erewrite bind_ret by (apply pack_int_run; unfold CK_MSG_DURATION, UINT32_MAX; lia).
    apply bind_exit. rewrite decide_True by by apply negative_too_big.
    unfold eprintf, eprintf_line. do 2 f_equal. rewrite decide_False by done.
    by rewrite !string_app_assoc.
Qed.

Lemma punpack_holds ms fdes s :
  0 < msg_limit s -> msg_limit s * 2 < 2 ^ 64 -> holds fdes ms (msg_limit s * 2) ->
  punpack fdes s = (Ret (rcv_result ms, at_eof fdes), s).
Proof. intros ?? []. by apply punpack_run. Qed.

(** C10: punpack terminates on every stream of whole messages, however long the stream is
    compared with its window of twice the message limit: it consumes the stream to its
    end and returns the fold of its messages, or NULL when none of them set a context. *)
Theorem punpack_folds_stream ms fdes s :
  0 < msg_limit s -> msg_limit s * 2 < 2 ^ 64 -> holds fdes ms (msg_limit s * 2) ->
  punpack fdes s = (Ret (rcv_result ms, at_eof fdes), s).
Proof. apply punpack_holds. Qed.

(** The first failure message decides: in the received result the message is the first
    one, the failure context is the context in force when it arrived, the location of the
    test stays where it was, and no later message of the stream changes any of them. *)
Theorem punpack_first_failure ms1 f ms2 fdes s :
  0 < msg_limit s -> msg_limit s * 2 < 2 ^ 64 ->
  holds fdes (ms1 ++ fail_msg f :: ms2) (msg_limit s * 2) ->
  forallb (fun m => negb (is_fail m)) ms1 = true -> lastctx (rcv_fold ms1) <> CK_CTX_INVALID ->
  forall r fdes' s', punpack fdes s = (Ret (Some r, fdes'), s') ->
    rmsg_msg r = Some (str_of (msg f)) /\ failctx r = lastctx (rcv_fold ms1) /\
    test_file r = test_file (rcv_fold ms1) /\ test_line r = test_line (rcv_fold ms1).
Proof.
  intros H1 H2 Hh Hms Hctx r fdes' s'. rewrite (punpack_holds _ _ _ H1 H2 Hh).
  unfold rcv_result. case_decide; [done |]. intros [= <- _ _]. rewrite rcv_fold_app. simpl.
  destruct (rcv_no_fail _ Hms) as [E1 E2]. rewrite decide_True by done.
  match goal with |- context [foldl rcv_step ?r0 ms2] => set (r1 := r0) end.
  destruct (rcv_fold_frozen ms2 r1) as (F1 & F2 & F3 & F4); [done.. |].
  repeat split; [exact F1 | exact F2 | exact F3 | exact F4].
Qed.

(** Sends messages one after the other. *)
Fixpoint ppack_all (fdes : FILE) (ms : list CheckMsg) : M S FILE :=
  match ms with
  | [] => mret fdes
  | m :: ms => fdes ← ppack fdes (type_of m) (Some m); ppack_all fdes ms
  end.

Lemma ppack_all_run ms : forall fdes s,
  f_write_err fdes = false ->
  Forall (fun m => msg_ok m /\ Z.of_nat (length (enc m)) <= msg_limit s) ms ->
  ppack_all fdes ms s =
    (Ret (mkFILE (f_content fdes ++ wire ms) (f_pos fdes) (f_read_err fdes) false), s).
Proof.
  induction ms as [| m ms IH]; intros fdes s He Hms; cbn [ppack_all].
  - rewrite mret_run. destruct fdes as [c p re we]; simpl in *. subst. by rewrite app_nil_r.
  - apply Forall_cons in Hms as [[Hm Hle] Hms].
    rewrite (bind_ret _ _ _ _ _ (ppack_run _ _ _ Hm Hle He)). rewrite IH by done.
    cbn [f_content f_pos f_read_err]. by rewrite wire_cons, <- app_assoc.
Qed.

(** C38: what a child sends is what its parent receives: the messages written by ppack to an
    empty file, read back from its start by punpack, give the fold of those messages. *)
Theorem ppack_punpack_roundtrip ms s :
  0 < msg_limit s -> msg_limit s * 2 < 2 ^ 64 ->
  Forall (fun m => msg_ok m /\ Z.of_nat (length (enc m)) <= msg_limit s) ms ->
  exists fdes, ppack_all (mkFILE [] 0 false false) ms s = (Ret fdes, s) /\
    punpack fdes s = (Ret (rcv_result ms, at_eof fdes), s).
Proof.
  intros H1 H2 Hms. eexists. split; [by apply ppack_all_run |]. apply punpack_holds; [done.. |].
  constructor; try done; [simpl; lia |].
  eapply Forall_impl; [exact Hms |]. simpl. intros m [??]. split; [done | lia].
Qed.

(** A message longer than the limit is never written: the sender exits with status 2. *)
Theorem ppack_too_long m fdes s :
  msg_ok m -> 0 <= msg_limit s < Z.of_nat (length (enc m)) ->
  ppack fdes (type_of m) (Some m) s =
    (Exit 2, sys_eputs ("check_pack.c:372: Message string too long" +:+ nl) s).
Proof.
  intros Hm Hle. unfold ppack. rewrite (bind_ret _ _ _ _ _ (pack_run _ _ _ Hm)).
  cbv beta iota. rewrite decide_False by lia. rewrite (bind_ret _ _ _ _ _ (mret_run _ _)).
  rewrite (bind_ret _ _ _ _ _ (get_max_msg_size_run _)). apply bind_exit.
  pose proof (proj1 Hm) as Hmax. unfold INT_MAX in Hmax.
  rewrite decide_True by (unfold wrap_u; rewrite Z.mod_small; lia). done.
Qed.
End Properties.

(** A concrete program state: the message limit and the text written to stderr. *)
Module PackDemo.
Definition state : Type := Z * string.
#[global] Instance sys : Sys state :=
  {| sys_malloc _ _ := true; sys_strerror _ := "Success";
     sys_eputs t s := (fst s, snd s +:+ t); sys_getenv _ _ := None |}.
#[global] Instance pack_state : PackState state :=
  {| ck_max_msg_size := fst; put_max_msg_size n s := (n, snd s) |}.
#[global] Instance total : MallocTotal state.
Proof. done. Defined.

Definition m_setup := ctx_msg (mkCtxMsg CK_CTX_SETUP).
Definition m_test := ctx_msg (mkCtxMsg CK_CTX_TEST).
Definition m_loc := loc_msg (mkLocMsg 42 (Some "a.c")).
Definition m_loc2 := loc_msg (mkLocMsg 43 (Some "a.c")).
Definition m_fail := fail_msg (mkFailMsg (Some "oops")).
Definition m_fail2 := fail_msg (mkFailMsg None).
Definition m_dur := duration_msg (mkDurationMsg 17).
Definition ms := [m_setup; m_test; m_loc; m_fail; m_loc2; m_fail2; m_dur].

(** A limit of 16 bytes: the window (32 bytes) is much smaller than the stream. *)
Definition small : state := (16, "").
Definition stream : FILE := mkFILE (wire ms) 0 false false.

Lemma ms_ok : Forall (fun m => msg_ok m /\ Z.of_nat (length (enc m)) <= 16) ms.
Proof. repeat constructor; vm_compute; discriminate. Defined.
Lemma stream_holds : holds stream ms (msg_limit small * 2).
Proof.
  constructor; try reflexivity; [simpl; lia |].
  repeat constructor; vm_compute; discriminate.
Defined.
End PackDemo.

Lemma pack_upack_roundtrip_witness :
  exists buf, pack CK_MSG_LOC (Some []) (Some PackDemo.m_loc) PackDemo.small =
      (Ret (Z.of_nat (length buf), Some buf), PackDemo.small) /\
    forall rest t, upack (Some (buf ++ rest)) t =
      (Ret (Z.of_nat (length buf), Some (PackDemo.m_loc, CK_MSG_LOC)), t : PackDemo.state).
Proof.
  apply (pack_upack_roundtrip PackDemo.m_loc [] PackDemo.small).
  repeat split; vm_compute; discriminate.
Defined.

Lemma pack_rejects_witness :
  (exists s', pack 4 (Some []) (Some PackDemo.m_loc) PackDemo.small = (Exit 2, s')) /\
  pack CK_MSG_LOC (Some []) (Some (loc_msg (mkLocMsg (-7) None))) PackDemo.small =
    (Exit 2, (16, "check_pack.c:313: Value of lmsg->line (-7) too big, max allowed 4294967295"
                  +:+ nl +:+ nl)).
Proof.
  destruct (pack_rejects None None (-7) 0 4 [] PackDemo.small) as (_ & _ & Hty & Hl & _).
  split.
  - apply Hty. right. vm_compute. discriminate.
  - apply Hl; [split; [vm_compute; discriminate | reflexivity] | vm_compute; discriminate].
Defined.

Lemma punpack_folds_stream_witness :
  punpack PackDemo.stream PackDemo.small =
    (Ret (Some (mkRcvMsg CK_CTX_TEST CK_CTX_TEST None (-1) (Some "a.c") 42 (Some "oops") 17),
          at_eof PackDemo.stream), PackDemo.small).
Proof.
  apply (punpack_folds_stream PackDemo.ms PackDemo.stream PackDemo.small);
    [vm_compute; reflexivity | vm_compute; reflexivity | exact PackDemo.stream_holds].
Defined.

Lemma punpack_first_failure_witness :
  exists r, punpack PackDemo.stream PackDemo.small =
      (Ret (Some r, at_eof PackDemo.stream), PackDemo.small) /\
    rmsg_msg r = Some "oops" /\ failctx r = CK_CTX_TEST /\
    test_file r = Some "a.c" /\ test_line r = 42.
Proof.
  exists (rcv_fold PackDemo.ms).
  assert (E : punpack PackDemo.stream PackDemo.small =
    (Ret (Some (rcv_fold PackDemo.ms), at_eof PackDemo.stream), PackDemo.small))
    by (vm_compute; reflexivity).
  split; [exact E |].
  eapply (punpack_first_failure [PackDemo.m_setup; PackDemo.m_test; PackDemo.m_loc]
            (mkFailMsg (Some "oops")) [PackDemo.m_loc2; PackDemo.m_fail2; PackDemo.m_dur]);
    [ | | exact PackDemo.stream_holds | | | exact E];
    [vm_compute; reflexivity | vm_compute; reflexivity | reflexivity | discriminate].
Defined.

Lemma ppack_punpack_roundtrip_witness :
  exists fdes, ppack_all (mkFILE [] 0 false false) PackDemo.ms PackDemo.small =
      (Ret fdes, PackDemo.small) /\
    punpack fdes PackDemo.small = (Ret (rcv_result PackDemo.ms, at_eof fdes), PackDemo.small).
Proof.
  apply (ppack_punpack_roundtrip PackDemo.ms PackDemo.small);
    [vm_compute; reflexivity | vm_compute; reflexivity | exact PackDemo.ms_ok].
Defined.

Lemma ppack_too_long_witness :
  ppack PackDemo.stream CK_MSG_LOC (Some PackDemo.m_loc) ((14, "") : PackDemo.state) =
    (Exit 2, sys_eputs ("check_pack.c:372: Message string too long" +:+ nl)
               ((14, "") : PackDemo.state)).
Proof.
  apply (ppack_too_long PackDemo.m_loc PackDemo.stream ((14, "") : PackDemo.state)).
  - repeat split; vm_compute; discriminate.
  - split; [vm_compute; discriminate | vm_compute; reflexivity].
Defined.
