(* ===== verification/World.v ===== *)
(** * The state of the program (src/check_impl.h, and the statics of src/*.c)

    A [world] is the process image [proc], which fork copies, and the operating system [os],
    which parent and child share.  Objects of the library live in the heap of the process, by
    address; freeing one removes it, and using it afterwards is [Fault].

    Code that is not the library's (test functions, fixtures, and the C library and kernel)
    enters as the traces [ucall] and as the interface [Platform]. *)
From Stdlib Require Export SpecFloat.
From S2P Require Import Prelude Error Types CList Pack.

Abbreviation loc := Z (only parsing).

(** ** User code

    What a test function or a fixture does, as the sequence of its calls to the library and
    to the system; it may depend on the loop index and on the memory of the user's code. *)
Abbreviation umem := (gmap string Z).

Inductive ucall :=
| u_mark_point (file : string) (line : Z)          (* mark_point(), or an assertion that holds *)
| u_assert_failed (file : string) (line : Z) (expr : string) (msg : option string)
| u_exit (code : Z)
| u_raise (sig : Z)                                (* a signal sent to the process itself *)
| u_elapse (ns : Z)                                (* computing for some time *)
| u_hang                                           (* never coming back *)
| u_write (x : string) (v : Z).                    (* an assignment to the user's memory *)

Abbreviation SFun := (umem -> list ucall).
Abbreviation TFun := (Z -> umem -> list ucall).

(** ** The objects of the library *)

Record TTest := mkTTest { tt_name : string; fn : TFun; tt_file : string; tt_line : Z }.

Record TF := mkTF {
  ttest : TTest;
  loop_start : Z;
  loop_end : Z;
  tf_signal : Z;
  allowed_exit_value : Z                           (* signed char *)
}.

Record Fixture := mkFixture { ischecked : Z; fun_ : SFun }.

Record timespec := mkTimespec { tv_sec : Z; tv_nsec : Z }.
#[export] Instance timespec_eq_dec : EqDecision timespec.
Proof. solve_decision. Defined.

Record Suite := mkSuite { s_name : string; tclst : List loc }.

Record TCase := mkTCase {
  tc_name : string;
  timeout : timespec;
  tflst : List TF;
  unch_sflst : List Fixture;
  unch_tflst : List Fixture;
  ch_sflst : List Fixture;
  ch_tflst : List Fixture;
  tags : option loc                                (* a list of strings of the heap *)
}.

Record TestStats := mkTestStats { n_checked : Z; n_failed : Z; n_errors : Z }.
#[export] Instance TestStats_eq_dec : EqDecision TestStats.
Proof. solve_decision. Defined.

Record TestResult := mkTestResult {
  rtype : test_result;
  tr_ctx : ck_result_ctx;
  tr_file : option string;
  tr_line : Z;
  tr_iter : option Z;                              (* None: not yet assigned *)
  tr_duration : Z;
  tr_tcname : option string;
  tr_tname : option string;
  tr_msg : option string
}.
#[export] Instance TestResult_eq_dec : EqDecision TestResult.
Proof. solve_decision. Defined.

(** enum cl_event, with the object each event carries *)
Inductive cl_event :=
| CLINITLOG_SR | CLENDLOG_SR | CLSTART_SR
| CLSTART_S (s : string)                           (* the suite, of which only the name is read *)
| CLEND_SR
| CLEND_S (s : string)
| CLSTART_T (name : string)
| CLEND_T (tr : TestResult).

(** The log functions of the library, in place of the function pointers. *)
Inductive LFun := stdout_lfun_ | lfile_lfun_ | xml_lfun_ | tap_lfun_.

(** A stream the log functions write to. *)
Inductive lstream := lf_stdout | lf_path (p : string).
#[export] Instance lstream_eq_dec : EqDecision lstream.
Proof. solve_decision. Defined.

Record Log := mkLog { lfile : lstream; lfun : LFun; log_close : bool; log_mode : print_output }.

Record SRunner := mkSRunner {
  slst : List loc;
  stats : TestStats;
  resultlst : List TestResult;
  log_fname : option string;
  xml_fname : option string;
  tap_fname : option string;
  loglst : option (List Log);
  fstat : fork_status
}.

(** ** The process image *)

Record heap := mkHeap {
  next_loc : loc;
  suites : gmap loc Suite;
  tcases : gmap loc TCase;
  taglists : gmap loc (List string);
  srunners : gmap loc SRunner
}.

(** The two nested message files of check_msg.c, by stream number. *)
Record pipes := mkPipes {
  send_file1 : option Z;
  send_file1_name : option string;
  send_file2 : option Z;
  send_file2_name : option string
}.
#[export] Instance pipes_eq_dec : EqDecision pipes.
Proof. solve_decision. Defined.

(** What the process does on a signal. *)
Inductive disposition := SIG_DFL | SIG_IGN | SIG_HANDLER.
#[export] Instance disposition_eq_dec : EqDecision disposition.
Proof. solve_decision. Defined.

(** The other static variables. *)
Record statics := mkStatics {
  fstat_cur : fork_status;                         (* _fstat of check.c *)
  current_test_name : option string;
  alarm_received : Z;
  group_pid : Z;
  max_msg_size : Z;
  num_tests_run : Z;                               (* in tap_lfun *)
  ts_start : timespec;                             (* in xml_lfun *)
  xml_t : string                                   (* in xml_lfun *)
}.

Record signals := mkSignals {
  sigact : gmap Z disposition;                     (* absent: the default action *)
  sigint_old_action : disposition;
  sigterm_old_action : disposition;
  sigalarm_old_action : disposition
}.

Record proc := mkProc {
  p_pid : Z;
  p_pgid : Z;
  env : gmap string string;
  p_heap : heap;
  p_pipes : pipes;
  p_statics : statics;
  p_signals : signals;
  p_umem : umem
}.

(** ** The operating system *)

Record os := mkOs {
  open_files : gmap Z FILE;                        (* the temporary files, by stream *)
  next_file : Z;
  tmp_names : list string;                         (* temporary files still in the directory *)
  paths : gmap string string;                      (* the log files *)
  out : string;
  err : string;
  clock : Z;                                       (* nanoseconds *)
  next_pid : Z;
  deadline : option Z;                             (* when the running child is killed *)
  alarm_fired : bool;
  kills : list (Z * Z)                             (* killpg calls: group, signal *)
}.

Record world := mkWorld { w_proc : proc; w_os : os }.

Inductive clockid_t := CLOCK_MONOTONIC | CLOCK_REALTIME.

(** The C library and the kernel, where their answer is not determined by the program. *)
Class Platform := {
  malloc_ok : os -> Z -> bool;
  strerror_of : os -> string;
  fork_ok : os -> bool;
  mkstemp_name : os -> string -> option string;
  fdopen_ok : os -> bool;
  unlink_ok : os -> string -> bool;
  timer_create_ok : os -> clockid_t -> bool;
  timer_settime_ok : os -> bool;
  fopen_ok : os -> string -> bool;
  fclose_ok : os -> bool;
  strsignal : Z -> string;
  core_dumped : Z -> bool;
  strtod : string -> spec_float * nat;             (* value, characters consumed *)
  localtime_text : os -> option string             (* strftime of the present local time *)
}.

(** ** Assignment to one component *)

Definition on_proc (f : proc -> proc) (w : world) : world := mkWorld (f (w_proc w)) (w_os w).
Definition on_os (f : os -> os) (w : world) : world := mkWorld (w_proc w) (f (w_os w)).

Definition set_heap (h : heap) (p : proc) : proc :=
  mkProc (p_pid p) (p_pgid p) (env p) h (p_pipes p) (p_statics p) (p_signals p) (p_umem p).
Definition set_pipes (x : pipes) (p : proc) : proc :=
  mkProc (p_pid p) (p_pgid p) (env p) (p_heap p) x (p_statics p) (p_signals p) (p_umem p).
Definition set_statics (x : statics) (p : proc) : proc :=
  mkProc (p_pid p) (p_pgid p) (env p) (p_heap p) (p_pipes p) x (p_signals p) (p_umem p).
Definition set_signals (x : signals) (p : proc) : proc :=
  mkProc (p_pid p) (p_pgid p) (env p) (p_heap p) (p_pipes p) (p_statics p) x (p_umem p).
Definition set_umem (x : umem) (p : proc) : proc :=
  mkProc (p_pid p) (p_pgid p) (env p) (p_heap p) (p_pipes p) (p_statics p) (p_signals p) x.
Definition set_ids (pid pgid : Z) (p : proc) : proc :=
  mkProc pid pgid (env p) (p_heap p) (p_pipes p) (p_statics p) (p_signals p) (p_umem p).

Definition the_heap (w : world) : heap := p_heap (w_proc w).
Definition the_pipes (w : world) : pipes := p_pipes (w_proc w).
Definition the_statics (w : world) : statics := p_statics (w_proc w).
Definition the_signals (w : world) : signals := p_signals (w_proc w).

Definition upd_heap (f : heap -> heap) (w : world) : world :=
  on_proc (set_heap (f (the_heap w))) w.
Definition upd_pipes (f : pipes -> pipes) (w : world) : world :=
  on_proc (set_pipes (f (the_pipes w))) w.
Definition upd_statics (f : statics -> statics) (w : world) : world :=
  on_proc (set_statics (f (the_statics w))) w.
Definition upd_signals (f : signals -> signals) (w : world) : world :=
  on_proc (set_signals (f (the_signals w))) w.

Definition put_suites (x : gmap loc Suite) (h : heap) : heap :=
  mkHeap (next_loc h) x (tcases h) (taglists h) (srunners h).
Definition put_tcases (x : gmap loc TCase) (h : heap) : heap :=
  mkHeap (next_loc h) (suites h) x (taglists h) (srunners h).
Definition put_taglists (x : gmap loc (List string)) (h : heap) : heap :=
  mkHeap (next_loc h) (suites h) (tcases h) x (srunners h).
Definition put_srunners (x : gmap loc SRunner) (h : heap) : heap :=
  mkHeap (next_loc h) (suites h) (tcases h) (taglists h) x.
Definition bump_loc (h : heap) : heap :=
  mkHeap (next_loc h + 1) (suites h) (tcases h) (taglists h) (srunners h).

Definition put_fstat_cur (x : fork_status) (s : statics) : statics :=
  mkStatics x (current_test_name s) (alarm_received s) (group_pid s) (max_msg_size s)
    (num_tests_run s) (ts_start s) (xml_t s).
Definition put_current_test_name (x : option string) (s : statics) : statics :=
  mkStatics (fstat_cur s) x (alarm_received s) (group_pid s) (max_msg_size s)
    (num_tests_run s) (ts_start s) (xml_t s).
Definition put_alarm_received (x : Z) (s : statics) : statics :=
  mkStatics (fstat_cur s) (current_test_name s) x (group_pid s) (max_msg_size s)
    (num_tests_run s) (ts_start s) (xml_t s).
Definition put_group_pid (x : Z) (s : statics) : statics :=
  mkStatics (fstat_cur s) (current_test_name s) (alarm_received s) x (max_msg_size s)
    (num_tests_run s) (ts_start s) (xml_t s).
Definition put_max_size (x : Z) (s : statics) : statics :=
  mkStatics (fstat_cur s) (current_test_name s) (alarm_received s) (group_pid s) x
    (num_tests_run s) (ts_start s) (xml_t s).
Definition put_num_tests_run (x : Z) (s : statics) : statics :=
  mkStatics (fstat_cur s) (current_test_name s) (alarm_received s) (group_pid s) (max_msg_size s)
    x (ts_start s) (xml_t s).
Definition put_xml_clock (x : timespec) (t : string) (s : statics) : statics :=
  mkStatics (fstat_cur s) (current_test_name s) (alarm_received s) (group_pid s) (max_msg_size s)
    (num_tests_run s) x t.

Definition put_sigact (x : gmap Z disposition) (s : signals) : signals :=
  mkSignals x (sigint_old_action s) (sigterm_old_action s) (sigalarm_old_action s).

Definition put_open_files (x : gmap Z FILE) (o : os) : os :=
  mkOs x (next_file o) (tmp_names o) (paths o) (out o) (err o) (clock o) (next_pid o)
    (deadline o) (alarm_fired o) (kills o).
Definition put_next_file (x : Z) (o : os) : os :=
  mkOs (open_files o) x (tmp_names o) (paths o) (out o) (err o) (clock o) (next_pid o)
    (deadline o) (alarm_fired o) (kills o).
Definition put_tmp_names (x : list string) (o : os) : os :=
  mkOs (open_files o) (next_file o) x (paths o) (out o) (err o) (clock o) (next_pid o)
    (deadline o) (alarm_fired o) (kills o).
Definition put_paths (x : gmap string string) (o : os) : os :=
  mkOs (open_files o) (next_file o) (tmp_names o) x (out o) (err o) (clock o) (next_pid o)
    (deadline o) (alarm_fired o) (kills o).
Definition put_out (x : string) (o : os) : os :=
  mkOs (open_files o) (next_file o) (tmp_names o) (paths o) x (err o) (clock o) (next_pid o)
    (deadline o) (alarm_fired o) (kills o).
Definition put_err (x : string) (o : os) : os :=
  mkOs (open_files o) (next_file o) (tmp_names o) (paths o) (out o) x (clock o) (next_pid o)
    (deadline o) (alarm_fired o) (kills o).
Definition put_clock (x : Z) (o : os) : os :=
  mkOs (open_files o) (next_file o) (tmp_names o) (paths o) (out o) (err o) x (next_pid o)
    (deadline o) (alarm_fired o) (kills o).
Definition put_next_pid (x : Z) (o : os) : os :=
  mkOs (open_files o) (next_file o) (tmp_names o) (paths o) (out o) (err o) (clock o) x
    (deadline o) (alarm_fired o) (kills o).
Definition put_alarm (d : option Z) (fired : bool) (o : os) : os :=
  mkOs (open_files o) (next_file o) (tmp_names o) (paths o) (out o) (err o) (clock o) (next_pid o)
    d fired (kills o).
Definition put_kills (x : list (Z * Z)) (o : os) : os :=
  mkOs (open_files o) (next_file o) (tmp_names o) (paths o) (out o) (err o) (clock o) (next_pid o)
    (deadline o) (alarm_fired o) x.

(** ** The interfaces of the lower components, for a world *)

Section Instances.
Context {plat : Platform}.

#[global] Instance world_sys : Sys world := {|
  sys_malloc w n := malloc_ok (w_os w) n;
  sys_strerror w := strerror_of (w_os w);
  sys_eputs t w := on_os (fun o => put_err (err o +:+ t) o) w;
  sys_getenv w x := env (w_proc w) !! x
|}.

#[global] Instance world_pack : PackState world := {|
  ck_max_msg_size w := max_msg_size (the_statics w);
  put_max_msg_size n := upd_statics (put_max_size n)
|}.
End Instances.

(** ** Lists inside objects of the heap *)

(** The list found by [fget] in the object at address [a] of one region of the heap. *)
Section Field.
Context {R A : Type} (region : heap -> gmap loc R) (put_region : gmap loc R -> heap -> heap).
Context (fget : R -> List A) (fset : List A -> R -> R).

Definition field_ptr (a : loc) : lptr world A := mkLptr
  (fun w => r ← region (the_heap w) !! a; Some (fget r))
  (fun l => upd_heap (fun h =>
     match region h !! a with Some r => put_region (<[a := fset l r]> (region h)) h | None => h end)).

Hypothesis region_put : forall x h, region (put_region x h) = x.
Hypothesis put_region_put : forall x y h, put_region x (put_region y h) = put_region x h.
Hypothesis put_region_id : forall h, put_region (region h) h = h.
Hypothesis fget_set : forall l r, fget (fset l r) = l.
Hypothesis fset_set : forall l l' r, fset l (fset l' r) = fset l r.
Hypothesis fset_get : forall r, fset (fget r) r = r.

Lemma field_cell a : Cell (field_ptr a).
Proof.
  split; intros w l *; unfold field_ptr; cbn [look put]; unfold upd_heap, on_proc;
    destruct w as [p o]; cbn [w_proc w_os the_heap].
  - unfold the_heap. cbn. intros [l' H]. destruct (region (p_heap p) !! a) eqn:E; [| done].
    rewrite region_put, lookup_insert. case_decide; [| done]. cbn. by rewrite fget_set.
  - unfold the_heap. cbn. destruct (region (p_heap p) !! a) eqn:E; [| by rewrite E].
    rewrite region_put, lookup_insert. case_decide; [| done]. cbn.
    by rewrite put_region_put, insert_insert, decide_True, fset_set by done.
  - unfold the_heap. cbn. destruct (region (p_heap p) !! a) as [r |] eqn:E; cbn; [| done].
    intros [= <-]. rewrite fset_get, insert_id, put_region_id by done. by destruct p.
Qed.
End Field.

(** ** The lists of the library, and that each is a memory cell *)

Definition with_tclst (l : List loc) (s : Suite) : Suite := mkSuite (s_name s) l.
Definition with_tflst (l : List TF) (t : TCase) : TCase :=
  mkTCase (tc_name t) (timeout t) l (unch_sflst t) (unch_tflst t) (ch_sflst t) (ch_tflst t) (tags t).
Definition with_unch_sflst (l : List Fixture) (t : TCase) : TCase :=
  mkTCase (tc_name t) (timeout t) (tflst t) l (unch_tflst t) (ch_sflst t) (ch_tflst t) (tags t).
Definition with_unch_tflst (l : List Fixture) (t : TCase) : TCase :=
  mkTCase (tc_name t) (timeout t) (tflst t) (unch_sflst t) l (ch_sflst t) (ch_tflst t) (tags t).
Definition with_ch_sflst (l : List Fixture) (t : TCase) : TCase :=
  mkTCase (tc_name t) (timeout t) (tflst t) (unch_sflst t) (unch_tflst t) l (ch_tflst t) (tags t).
Definition with_ch_tflst (l : List Fixture) (t : TCase) : TCase :=
  mkTCase (tc_name t) (timeout t) (tflst t) (unch_sflst t) (unch_tflst t) (ch_sflst t) l (tags t).
Definition with_timeout (x : timespec) (t : TCase) : TCase :=
  mkTCase (tc_name t) x (tflst t) (unch_sflst t) (unch_tflst t) (ch_sflst t) (ch_tflst t) (tags t).
Definition with_tags (x : option loc) (t : TCase) : TCase :=
  mkTCase (tc_name t) (timeout t) (tflst t) (unch_sflst t) (unch_tflst t) (ch_sflst t) (ch_tflst t) x.
Definition with_slst (l : List loc) (r : SRunner) : SRunner :=
  mkSRunner l (stats r) (resultlst r) (log_fname r) (xml_fname r) (tap_fname r) (loglst r) (fstat r).
Definition with_stats (x : TestStats) (r : SRunner) : SRunner :=
  mkSRunner (slst r) x (resultlst r) (log_fname r) (xml_fname r) (tap_fname r) (loglst r) (fstat r).
Definition with_resultlst (l : List TestResult) (r : SRunner) : SRunner :=
  mkSRunner (slst r) (stats r) l (log_fname r) (xml_fname r) (tap_fname r) (loglst r) (fstat r).
Definition with_log_fname (x : option string) (r : SRunner) : SRunner :=
  mkSRunner (slst r) (stats r) (resultlst r) x (xml_fname r) (tap_fname r) (loglst r) (fstat r).
Definition with_xml_fname (x : option string) (r : SRunner) : SRunner :=
  mkSRunner (slst r) (stats r) (resultlst r) (log_fname r) x (tap_fname r) (loglst r) (fstat r).
Definition with_tap_fname (x : option string) (r : SRunner) : SRunner :=
  mkSRunner (slst r) (stats r) (resultlst r) (log_fname r) (xml_fname r) x (loglst r) (fstat r).
Definition with_loglst (x : option (List Log)) (r : SRunner) : SRunner :=
  mkSRunner (slst r) (stats r) (resultlst r) (log_fname r) (xml_fname r) (tap_fname r) x (fstat r).
Definition with_fstat (x : fork_status) (r : SRunner) : SRunner :=
  mkSRunner (slst r) (stats r) (resultlst r) (log_fname r) (xml_fname r) (tap_fname r) (loglst r) x.

Definition tclst_ptr : loc -> lptr world loc := field_ptr suites put_suites tclst with_tclst.
Definition tflst_ptr : loc -> lptr world TF := field_ptr tcases put_tcases tflst with_tflst.
Definition unch_sflst_ptr : loc -> lptr world Fixture :=
  field_ptr tcases put_tcases unch_sflst with_unch_sflst.
Definition unch_tflst_ptr : loc -> lptr world Fixture :=
  field_ptr tcases put_tcases unch_tflst with_unch_tflst.
Definition ch_sflst_ptr : loc -> lptr world Fixture :=
  field_ptr tcases put_tcases ch_sflst with_ch_sflst.
Definition ch_tflst_ptr : loc -> lptr world Fixture :=
  field_ptr tcases put_tcases ch_tflst with_ch_tflst.
Definition taglist_ptr : loc -> lptr world string :=
  field_ptr taglists put_taglists (fun l => l) (fun l _ => l).
Definition slst_ptr : loc -> lptr world loc := field_ptr srunners put_srunners slst with_slst.
Definition resultlst_ptr : loc -> lptr world TestResult :=
  field_ptr srunners put_srunners resultlst with_resultlst.

(** sr->loglst is itself a pointer, NULL outside a run. *)
Definition loglst_ptr (a : loc) : lptr world Log := mkLptr
  (fun w => r ← srunners (the_heap w) !! a; loglst r)
  (fun l => upd_heap (fun h =>
     match srunners h !! a with
     | Some r => put_srunners (<[a := with_loglst ((fun _ => l) <$> loglst r) r]> (srunners h)) h
     | None => h
     end)).

Ltac solve_field :=
  apply field_cell; try done; let x := fresh in intros x; destruct x; reflexivity.

#[export] Instance tclst_cell a : Cell (tclst_ptr a).
Proof. solve_field. Qed.
#[export] Instance tflst_cell a : Cell (tflst_ptr a).
Proof. solve_field. Qed.
#[export] Instance unch_sflst_cell a : Cell (unch_sflst_ptr a).
Proof. solve_field. Qed.
#[export] Instance unch_tflst_cell a : Cell (unch_tflst_ptr a).
Proof. solve_field. Qed.
#[export] Instance ch_sflst_cell a : Cell (ch_sflst_ptr a).
Proof. solve_field. Qed.
#[export] Instance ch_tflst_cell a : Cell (ch_tflst_ptr a).
Proof. solve_field. Qed.
#[export] Instance taglist_cell a : Cell (taglist_ptr a).
Proof. solve_field. Qed.
#[export] Instance slst_cell a : Cell (slst_ptr a).
Proof. solve_field. Qed.
#[export] Instance resultlst_cell a : Cell (resultlst_ptr a).
Proof. solve_field. Qed.
#[export] Instance loglst_cell a : Cell (loglst_ptr a).
Proof.
  split; intros [p o] l *; unfold loglst_ptr; cbn [look put]; unfold upd_heap, on_proc, the_heap;
    cbn [w_proc w_os set_heap p_heap].
  - intros [l' H]. destruct (srunners (p_heap p) !! a) as [r |] eqn:E; [| done].
    cbn in *. rewrite lookup_insert, decide_True by done. cbn. by rewrite H.
  - destruct (srunners (p_heap p) !! a) as [r |] eqn:E; cbn; [| by rewrite E].
    rewrite lookup_insert, decide_True by done. cbn.
    rewrite insert_insert, decide_True by done. by destruct (loglst r).
  - destruct (srunners (p_heap p) !! a) as [r |] eqn:E; cbn; [| done]. intros H.
    rewrite H. cbn. destruct p as [? ? ? h]; destruct h; cbn in *.
    rewrite insert_id; [done |]. rewrite E. destruct r; cbn in *. by subst.
Qed.
