(* ===== verification/Assert.v ===== *)
(** * The assertion macros (src/check.h.in)

    An assertion is the call of the library that its macro makes: _mark_point when it holds,
    _ck_assert_failed with a message otherwise.  A macro takes the source text of its arguments
    besides their values. *)
From S2P Require Import Prelude Error Types CList Pack World.

(** The operator of an assertion, and its text. *)
Inductive cmp := op_eq | op_ne | op_lt | op_le | op_gt | op_ge.
#[export] Instance cmp_eq_dec : EqDecision cmp.
Proof. solve_decision. Defined.
Definition op_text (op : cmp) : string :=
  match op with
  | op_eq => "==" | op_ne => "!=" | op_lt => "<" | op_le => "<=" | op_gt => ">" | op_ge => ">="
  end.
Definition int_op (op : cmp) (x y : Z) : bool :=
  match op with
  | op_eq => x =? y
  | op_ne => negb (x =? y)
  | op_lt => x <? y
  | op_le => x <=? y
  | op_gt => y <? x
  | op_ge => y <=? x
  end.

Abbreviation s64 := (wrap_s 64).
(** An array of characters, None where nothing has been written. *)
Abbreviation chars := (list (option ascii)).

Section Macros.
(** __FILE__ and __LINE__ *)
Context (file : string) (line : Z).

(** [text] is #expr; the message has its arguments filled in. *)
Definition ck_assert_msg (expr : bool) (text : string) (msg : option string) : ucall :=
  if expr then u_mark_point file line
  else u_assert_failed file line ("Assertion '" +:+ text +:+ "' failed") msg.
Definition ck_assert (expr : bool) (text : string) : ucall := ck_assert_msg expr text None.

Definition ck_abort_msg (msg : option string) : ucall := u_assert_failed file line "Failed" msg.
Definition ck_abort : ucall := ck_abort_msg None.

(** The deprecated macros; a message is optional. *)
Definition fail_unless (expr : bool) (text : string) (msg : option string) : ucall :=
  if expr then u_mark_point file line
  else u_assert_failed file line ("Assertion '" +:+ text +:+ "' failed") msg.
Definition fail_if (expr : bool) (text : string) (msg : option string) : ucall :=
  if expr then u_assert_failed file line ("Failure '" +:+ text +:+ "' occurred") msg
  else u_mark_point file line.
Definition fail (msg : option string) : ucall := u_assert_failed file line "Failed" msg.

(** START_TEST declares the function and its TTest. *)
Definition START_TEST (testname : string) (body : TFun) : TTest := mkTTest testname body file line.

Definition mark_point : ucall := u_mark_point file line.

(** ** Integers *)

(** "Assertion 'X OP Y' failed: X == x, Y == y" *)
Definition assertion_text (tx : string) (op : cmp) (ty : string) : string :=
  "Assertion '" +:+ tx +:+ " " +:+ op_text op +:+ " " +:+ ty +:+ "' failed: ".
Definition two_values (tx x ty y : string) : string := tx +:+ " == " +:+ x +:+ ", " +:+ ty +:+ " == " +:+ y.

(** The arguments are converted to intmax_t, or to uintmax_t. *)
Definition ck_assert_int (X : Z) (op : cmp) (Y : Z) (tx ty : string) : ucall :=
  let x := s64 X in let y := s64 Y in
  ck_assert_msg (int_op op x y) ("_ck_x " +:+ op_text op +:+ " _ck_y")
    (Some (assertion_text tx op ty +:+ two_values tx (dec x) ty (dec y))).
Definition ck_assert_uint (X : Z) (op : cmp) (Y : Z) (tx ty : string) : ucall :=
  let x := u64 X in let y := u64 Y in
  ck_assert_msg (int_op op x y) ("_ck_x " +:+ op_text op +:+ " _ck_y")
    (Some (assertion_text tx op ty +:+ two_values tx (dec x) ty (dec y))).

(** ** Pointers, as addresses; printed with "%#lx" *)

Definition lower_hex (n : Z) : ascii := default "000"%char (String.get (Z.to_nat (Z.land n 15)) "0123456789abcdef").
(** The hexadecimal digits of a number of at most [fuel] of them. *)
Fixpoint hex_digits (fuel : nat) (n : Z) (acc : string) : string :=
  match fuel with
  | O => acc
  | Datatypes.S fuel => if decide (n = 0) then acc else hex_digits fuel (Z.shiftr n 4) (String (lower_hex n) acc)
  end.
Definition lx (n : Z) : string := if decide (n = 0) then "0" else "0x" +:+ hex_digits 16 n "".

(** OP is == or !=. *)
Definition ck_assert_ptr (X : Z) (op : cmp) (Y : Z) (tx ty : string) : ucall :=
  ck_assert_msg (int_op op X Y) ("_ck_x " +:+ op_text op +:+ " _ck_y")
    (Some (assertion_text tx op ty +:+ two_values tx (lx (u64 X)) ty (lx (u64 Y)))).
Definition ck_assert_ptr_null (X : Z) (op : cmp) (tx : string) : ucall :=
  ck_assert_msg (int_op op X 0) ("_ck_x " +:+ op_text op +:+ " NULL")
    (Some (assertion_text tx op "NULL" +:+ tx +:+ " == " +:+ lx (u64 X))).

(** ** Strings, None for NULL *)

(** strcmp, of which the sign is used. *)
Fixpoint strcmp (s t : string) : Z :=
  match s, t with
  | EmptyString, EmptyString => 0
  | EmptyString, String c _ => - byte_Z c
  | String c _, EmptyString => byte_Z c
  | String c s, String d t => if decide (c = d) then strcmp s t else byte_Z c - byte_Z d
  end.

Definition quote (x : option string) : string := if x is Some _ then String "034"%char "" else "".
Definition shown (x : option string) : string := quote x +:+ default "(null)" x +:+ quote x.
Definition is_null {A} (x : option A) : bool := if x is None then true else false.

(** The text of the condition, which no message shows. *)
Definition str_expr (op : cmp) (NULLEQ NULLNE : bool) : string :=
  let flag (b : bool) := if b then "1" else "0" in
  "(" +:+ flag NULLEQ +:+ " && (_ck_x == NULL) && (_ck_y == NULL)) || (" +:+ flag NULLNE +:+
  " && ((_ck_x == NULL) || (_ck_y == NULL)) && (_ck_x != _ck_y)) || ((_ck_x != NULL) && (_ck_y != NULL) && (0 " +:+
  op_text op +:+ " strcmp(_ck_y, _ck_x)))".

Definition ck_assert_str_ (X : option string) (op : cmp) (Y : option string) (NULLEQ NULLNE : bool)
    (tx ty : string) : ucall :=
  ck_assert_msg
    ((NULLEQ && is_null X && is_null Y) ||
     (NULLNE && (is_null X || is_null Y) && negb (is_null X && is_null Y)) ||
     match X, Y with Some x, Some y => int_op op 0 (strcmp y x) | _, _ => false end)
    (str_expr op NULLEQ NULLNE) (Some (assertion_text tx op ty +:+ two_values tx (shown X) ty (shown Y))).
Definition ck_assert_str X op Y : string -> string -> ucall := ck_assert_str_ X op Y false false.
Definition ck_assert_pstr_eq X Y : string -> string -> ucall := ck_assert_str_ X op_eq Y true false.
Definition ck_assert_pstr_ne X Y : string -> string -> ucall := ck_assert_str_ X op_ne Y false true.

(** ** Floating point

    [prec] and [emax] are those of the type; values are printed by the C library, with 6
    significant digits. *)
Section Floating.
Context (prec emax : Z) (print_g : spec_float -> string).

Definition float_op (op : cmp) (x y : spec_float) : bool :=
  match op with
  | op_eq => SFeqb x y
  | op_ne => negb (SFeqb x y)
  | op_lt => SFltb x y
  | op_le => SFleb x y
  | op_gt => SFltb y x
  | op_ge => SFleb y x
  end.
Definition is_nan (x : spec_float) : bool := if x is S754_nan then true else false.
Definition is_inf (x : spec_float) : bool := if x is S754_infinity _ then true else false.
Definition is_finite (x : spec_float) : bool := negb (is_nan x || is_inf x).

Definition ck_assert_floating (x : spec_float) (op : cmp) (y : spec_float) (tx ty : string) : ucall :=
  ck_assert_msg (float_op op x y) ("_ck_x " +:+ op_text op +:+ " _ck_y")
    (Some (assertion_text tx op ty +:+ two_values tx (print_g x) ty (print_g y))).

(** "Assertion 'X is ...' failed: X == x" *)
Definition floating_is (holds : bool) (expr what : string) (x : spec_float) (tx : string) : ucall :=
  ck_assert_msg holds expr (Some ("Assertion '" +:+ tx +:+ " is " +:+ what +:+ "' failed: " +:+
    tx +:+ " == " +:+ print_g x)).
Definition ck_assert_floating_finite (x : spec_float) : string -> ucall := floating_is (is_finite x) "isfinite(_ck_x)" "finite" x.
Definition ck_assert_floating_infinite (x : spec_float) : string -> ucall := floating_is (is_inf x) "isinf(_ck_x)" "infinite" x.
Definition ck_assert_floating_nan (x : spec_float) : string -> ucall := floating_is (is_nan x) "isnan(_ck_x)" "NaN" x.
Definition ck_assert_floating_nonnan (x : spec_float) : string -> ucall :=
  floating_is (negb (is_nan x)) "!isnan(_ck_x)" "not NaN" x.

Definition three_values (tx x ty y tt t : string) : string :=
  two_values tx x ty y +:+ ", " +:+ tt +:+ " == " +:+ t.

(** (x - y) OP t * D, with [op], [D] either >, -1 or <, 1 *)
Definition ck_assert_floating_op_tol (x : spec_float) (op : cmp) (y t : spec_float) (D : Z)
    (tx ty tt : string) : ucall :=
  ck_assert_msg (float_op op (SFsub prec emax x y) (SFmul prec emax t (binary_normalize prec emax D 0 false)))
    ("(_ck_x - _ck_y) " +:+ op_text op +:+ " _ck_t * (" +:+ dec D +:+ ")") (Some ("Assertion '" +:+ tx +:+ " " +:+ op_text op +:+ "= " +:+ ty +:+ ", error < " +:+ tt +:+
      "' failed: " +:+ three_values tx (print_g x) ty (print_g y) tt (print_g t))).

(** fabsl(y - x) OP t, with [op] either < or >= *)
Definition ck_assert_floating_absdiff_op_tol (x y : spec_float) (op : cmp) (t : spec_float)
    (tx ty tt : string) : ucall :=
  ck_assert_msg (float_op op (SFabs (SFsub prec emax y x)) t)
    ("fabsl(_ck_y - _ck_x) " +:+ op_text op +:+ " _ck_t") (Some ("Assertion 'fabsl(" +:+ ty +:+ " - " +:+ tx +:+ ") " +:+ op_text op +:+ " " +:+ tt +:+
      "' failed: " +:+ three_values tx (print_g x) ty (print_g y) tt (print_g t))).

Definition ck_assert_floating_ge_tol x y t : string -> string -> string -> ucall :=
  ck_assert_floating_op_tol x op_gt y t (-1).
Definition ck_assert_floating_le_tol x y t : string -> string -> string -> ucall :=
  ck_assert_floating_op_tol x op_lt y t 1.
Definition ck_assert_floating_eq_tol x y t : string -> string -> string -> ucall :=
  ck_assert_floating_absdiff_op_tol x y op_lt t.
Definition ck_assert_floating_ne_tol x y t : string -> string -> string -> ucall :=
  ck_assert_floating_absdiff_op_tol x y op_ge t.
End Floating.

(** ** Memory *)

Definition CK_MAX_ASSERT_MEM_PRINT_SIZE : Z := 64.

(** The two arrays of the macro. *)
Definition fresh_chars : chars := replicate (Z.to_nat (CK_MAX_ASSERT_MEM_PRINT_SIZE * 2 + 1)) None.

(** Outside an array, a read or a write is undefined. *)
Definition put_char (i : Z) (c : ascii) (b : chars) : M unit chars :=
  if decide (0 <= i < Z.of_nat (length b)) then mret (<[Z.to_nat i := Some c]> b) else fault.
Definition byte_at (i : Z) (x : bytes) : M unit Z :=
  if decide (0 <= i) then c ← deref (x !! Z.to_nat i); mret (byte_Z c) else fault.

Definition high_digit (v : Z) : ascii := lower_hex (Z.land (Z.shiftr v 4) 15).
Definition low_digit (v : Z) : ascii := lower_hex (Z.land v 15).

Fixpoint hex_loop (n : nat) (i : Z) (x y : bytes) (x_str y_str : chars) : M unit (chars * chars) :=
  match n with
  | O => mret (x_str, y_str)
  | Datatypes.S n =>
    v ← byte_at i x; x_str ← put_char (i * 2) (high_digit v) x_str;
    v ← byte_at i y; y_str ← put_char (i * 2) (high_digit v) y_str;
    v ← byte_at i x; x_str ← put_char (i * 2 + 1) (low_digit v) x_str;
    v ← byte_at i y; y_str ← put_char (i * 2 + 1) (low_digit v) y_str;
    hex_loop n (i + 1) x y x_str y_str
  end.

(** memcmp of [n] bytes from [i] on. *)
Fixpoint memcmp (n : nat) (i : Z) (x y : bytes) : M unit Z :=
  match n with
  | O => mret 0
  | Datatypes.S n =>
    a ← byte_at i x;
    b ← byte_at i y;
    if decide (a = b) then memcmp n (i + 1) x y else mret (a - b)
  end.

(** The string in an array, up to its NUL; a character never written is undefined. *)
Fixpoint text_in (b : chars) : M unit string :=
  match b with
  | [] => fault
  | None :: _ => fault
  | Some c :: b => if decide (c = "000"%char) then mret "" else s ← text_in b; mret (String c s)
  end.

(** Filling the arrays with the digits of the two objects, and dots when there is more. *)
Definition mem_strings (x y : bytes) (L : Z) : M unit (chars * chars) :=
  let maxl := if decide (CK_MAX_ASSERT_MEM_PRINT_SIZE < L) then CK_MAX_ASSERT_MEM_PRINT_SIZE else L in
  '(x_str, y_str) ← hex_loop (Z.to_nat maxl) 0 x y fresh_chars fresh_chars;
  x_str ← put_char (maxl * 2) "000"%char x_str;
  y_str ← put_char (maxl * 2) "000"%char y_str;
  if decide (maxl <> L) then
    x_str ← put_char (maxl * 2 - 2) "."%char x_str;
    y_str ← put_char (maxl * 2 - 2) "."%char y_str;
    x_str ← put_char (maxl * 2 - 1) "."%char x_str;
    y_str ← put_char (maxl * 2 - 1) "."%char y_str;
    mret (x_str, y_str)
  else mret (x_str, y_str).

Definition in_quotes (s : string) : string := String "034"%char "" +:+ s +:+ String "034"%char "".

(** [x] and [y] are the objects that X and Y point to. *)
Definition ck_assert_mem (x : bytes) (op : cmp) (y : bytes) (L : Z) (tx ty : string) : M unit ucall :=
  '(x_str, y_str) ← mem_strings x y L;
  c ← memcmp (Z.to_nat L) 0 y x;
  if int_op op 0 c then mret (u_mark_point file line) else
  sx ← text_in x_str;
  sy ← text_in y_str;
  mret (ck_assert_msg false ("0 " +:+ op_text op +:+ " memcmp(_ck_y, _ck_x, _ck_l)")
    (Some (assertion_text tx op ty +:+ two_values tx (in_quotes sx) ty (in_quotes sy)))).
End Macros.

(** ** Adding tests to a test case *)

Section Adding.
Definition tcase_add_args : Type := Z * Z * Z * Z. (* signal, allowed exit value, start, end *)
Definition add_test_raise_signal (signal : Z) : tcase_add_args := (signal, 0, 0, 1).
Definition add_test : tcase_add_args := add_test_raise_signal 0.
Definition add_exit_test (expected_exit_value : Z) : tcase_add_args := (0, expected_exit_value, 0, 1).
Definition add_loop_test (s e : Z) : tcase_add_args := (0, 0, s, e).
Definition add_loop_test_raise_signal (signal s e : Z) : tcase_add_args := (signal, 0, s, e).
Definition add_loop_exit_test (expected_exit_value s e : Z) : tcase_add_args := (0, expected_exit_value, s, e).
End Adding.
