(* ===== verification/Compat.v ===== *)
(** * Replacements of the C library (src/lib/)

    Functions compiled where the system lacks them.  Each is over what it calls of the system
    that is there: an allocator, a timer, a clock. *)
From S2P Require Import Prelude Error Types CList Pack World.

(** ** malloc.c, realloc.c: no call asks for nothing *)

Section Malloc.
Context {S : Type} (malloc : Z -> M S (option loc)) (realloc : loc -> Z -> M S (option loc)).

Definition rpl_malloc (n : Z) : M S (option loc) :=
  let n := if decide (n = 0) then 1 else n in malloc n.
Definition rpl_realloc (p : option loc) (n : Z) : M S (option loc) :=
  let n := if decide (n = 0) then 1 else n in
  match p with
  | None => malloc n
  | Some p => realloc p n
  end.
End Malloc.

(** ** getline.c

    [lineptr] is the block that the caller gave, None for NULL, and [cap] is *n; [stream] is what
    is left to read.  The results of malloc and realloc are not tested: [alloc n] says whether a
    block of [n] bytes can be had. *)
Section Getline.
Context (alloc : Z -> bool).

Record line_state := mkLineState {
  lineptr : option (list (option ascii));
  cap : Z;                                         (* size_t *)
  stream : bytes
}.
Definition set_block (b : option (list (option ascii))) (n : Z) (s : line_state) : line_state :=
  mkLineState b n (stream s).

Definition INITIAL_SIZE : Z := 16.
Definition DELIMITER : ascii := "010"%char.

Definition fgetc : M line_state (option ascii) :=
  s ← get;
  match stream s with
  | [] => mret None
  | c :: r => modify (fun s => mkLineState (lineptr s) (cap s) r) ;; mret (Some c)
  end.
Definition new_block (n : Z) (old : list (option ascii)) : option (list (option ascii)) :=
  if alloc n then Some (take (Z.to_nat n) old ++ replicate (Z.to_nat n - length old) None) else None.
(** ( *lineptr)[i] = c *)
Definition put_line (i : Z) (c : ascii) : M line_state unit :=
  s ← get;
  b ← deref (lineptr s);
  if decide (0 <= i < Z.of_nat (length b)) then
    modify (set_block (Some (<[Z.to_nat i := Some c]> b)) (cap s))
  else fault.

(** Each turn takes a character, so that [fuel] turns do for a stream shorter than [fuel]. *)
Fixpoint getline_loop (fuel : nat) (written : Z) : M line_state Z :=
  match fuel with
  | O => stop Hang
  | Datatypes.S fuel =>
    character ← fgetc;
    match character with
    | None => mret written
    | Some c =>
      let written := written + 1 in
      s ← get;
      (if decide (cap s <= written) then
         let n := u64 (cap s * 2) in
         modify (set_block (new_block n (default [] (lineptr s))) n)
       else mret tt) ;;
      put_line (written - 1) c ;;
      if decide (c = DELIMITER) then mret written else getline_loop fuel written
    end
  end.

Definition getline : M line_state Z :=
  s ← get;
  (if decide (lineptr s = None \/ cap s < INITIAL_SIZE) then
     modify (set_block (new_block INITIAL_SIZE []) INITIAL_SIZE)
   else mret tt) ;;
  written ← getline_loop (1 + length (stream s)) 0;
  put_line written "000"%char ;;
  mret written.
End Getline.

(** ** fpclassify.c: a double as its 64 bits *)

Definition FP_INFINITE : Z := 1.
Definition FP_NAN : Z := 2.
Definition FP_ZERO : Z := 4.
Definition FP_NORMAL : Z := 8.
Definition FP_SUBNORMAL : Z := 16.

Definition me : Z := 0x7FF0000000000000.
Definition mf : Z := 0x000FFFFFFFFFFFFF.

Definition fpclassify (p : Z) : Z :=
  if decide (Z.land p me <> me) then
    if decide (Z.land p mf <> 0) then
      if decide (Z.land p me <> 0) then FP_NORMAL else FP_SUBNORMAL
    else FP_ZERO
  else if decide (Z.land p mf <> 0) then FP_NAN
  else FP_INFINITE.

(** The macros of libcompat.h over it. *)
Definition isnan (p : Z) : bool := bool_decide (Z.land (fpclassify p) FP_NAN = FP_NAN).
Definition isinf (p : Z) : bool := bool_decide (Z.land (fpclassify p) FP_INFINITE = FP_INFINITE).
Definition isfinite (p : Z) : bool := bool_decide (Z.land (fpclassify p) (Z.lor FP_NAN FP_INFINITE) = 0).

(** ** strsignal.c *)

(** sprintf into an array of 40 characters: beyond it, undefined. *)
Definition compat_strsignal {S} (sig : Z) : M S string :=
  let t := "SIG #" +:+ dec sig in
  if decide (strlen t < 40) then mret t else fault.

(** ** timer_create.c, timer_settime.c, timer_delete.c *)

Record itimerspec := mkItimerspec { it_interval : timespec; it_value : timespec }.
(** struct timeval, and struct itimerval *)
Record timeval := mkTimeval { tv_sec_ : Z; tv_usec : Z }.
Record itimerval := mkItimerval { iv_interval : timeval; iv_value : timeval }.

Section Timers.
Context {S : Type} (setitimer : itimerval -> M S Z) (sys_alarm : Z -> M S Z).

Definition compat_timer_create : M S Z := mret 0.

Definition usec_of (t : timespec) : timeval := mkTimeval (tv_sec t) (Z.quot (tv_nsec t) 1000).

(** With setitimer *)
Definition timer_settime_itimer (new_value : itimerspec) : M S Z :=
  setitimer (mkItimerval (usec_of (it_interval new_value)) (usec_of (it_value new_value))).
Definition timer_delete_itimer : M S Z :=
  setitimer (mkItimerval (mkTimeval 0 0) (mkTimeval 0 0)).

(** With alarm: the seconds are an int, given as an unsigned int. *)
Definition alarm_seconds (new_value : itimerspec) : M S Z :=
  let seconds := s32 (tv_sec (it_value new_value)) in
  if decide (0 < tv_nsec (it_value new_value)) then
    if decide (seconds + 1 <= INT_MAX) then mret (seconds + 1) else fault
  else mret seconds.
Definition timer_settime_alarm (new_value : itimerspec) : M S Z :=
  seconds ← alarm_seconds new_value;
  sys_alarm (u32 seconds) ;;
  mret 0.
Definition timer_delete_alarm : M S Z := sys_alarm 0 ;; mret 0.

(** With neither *)
Definition timer_settime_none (new_value : itimerspec) : M S Z := mret 0.
Definition timer_delete_none : M S Z := mret 0.
End Timers.

(** ** clock_gettime.c *)

Section Clock.
(** mach_absolute_time, and the numerator and denominator that mach_timebase_info gives. *)
Context {S : Type} (mach_absolute_time : M S Z) (mach_timebase_info : M S (Z * Z)).
(** The static sTimebaseInfo. *)
Context (load_timebase : M S (Z * Z)) (store_timebase : Z * Z -> M S unit).

Definition NANOSECONDS_PER_SECOND : Z := 1000000000.

(** Nanoseconds as a time; the arithmetic is on uint64_t, and time_t and long have 64 bits. *)
Definition timespec_of_nanos (nanos : Z) : timespec :=
  let sec := nanos / NANOSECONDS_PER_SECOND in
  mkTimespec sec (wrap_s 64 (nanos - sec * NANOSECONDS_PER_SECOND)).

Definition clock_gettime_mach : M S (Z * timespec) :=
  rawTime ← mach_absolute_time;
  '(numer, denom) ← load_timebase;
  (if decide (denom = 0) then i ← mach_timebase_info; store_timebase i else mret tt) ;;
  '(numer, denom) ← load_timebase;
  if decide (denom = 0) then fault else
  let nanos := u64 (rawTime * numer) / denom in
  mret (0, timespec_of_nanos nanos).

(** Elsewhere there is no clock. *)
Definition clock_gettime_none : M S (Z * timespec) := mret (0, mkTimespec 0 0).
End Clock.

(** ** gettimeofday.c *)

Definition EPOCHFILETIME : Z := 116444736000000000.
(** The Windows branch: 100 ns units since 1601; long has 32 bits there. *)
Definition gettimeofday_windows (ns100 : Z) : Z * timeval :=
  (0, mkTimeval (s32 (Z.quot (ns100 - EPOCHFILETIME) 10000000)) (s32 (Z.rem (Z.quot ns100 10) 1000000))).
(** The other branch: errno is ENOSYS. *)
Definition gettimeofday_none {S} (set_errno : M S unit) : M S Z := set_errno ;; mret (-1).

(** ** localtime_r.c *)

Definition compat_localtime_r {S Tm} (localtime : Z -> M S (option Tm)) (store_result : Tm -> M S unit)
    (clock : Z) : M S bool :=
  now ← localtime clock;
  match now with
  | None => mret false
  | Some now => store_result now ;; mret true
  end.

(** ** alarm.c, strdup.c, libcompat.c: never called

    [ndebug] is whether assert is compiled out; SIGABRT is 6. *)
Definition c_assert_false {S} (ndebug : bool) : M S unit := if ndebug then mret tt else stop (Killed 6).
Definition compat_alarm {S} (ndebug : bool) : M S Z := c_assert_false ndebug ;; mret 0.
Definition compat_strdup {S} (ndebug : bool) : M S (option string) := c_assert_false ndebug ;; mret None.
Definition ck_do_nothing {S} (ndebug : bool) : M S unit := c_assert_false ndebug ;; stop (Exit 1).

(** ** pthread_mutex.c: a mutex made by its first use, over the Windows API

    The calls on [&mutex->init] and on handles are parameters; a handle is None for NULL. *)
Section Mutex.
Context {S H : Type}.
Context (InitOnceInitialize InitOnceComplete : M S unit) (CreateMutexW : M S (option H)).
(** None when it fails, else whether the initialisation is pending *)
Context (InitOnceBeginInitialize : M S (option bool)).
Context (load_mutex : M S (option H)) (store_mutex : option H -> M S unit).
(** Whether they succeed; for the wait, whether the answer is WAIT_OBJECT_0 *)
Context (CloseHandle ReleaseMutex WaitForSingleObject : option H -> M S bool).

Definition mutex_init : M S Z :=
  r ← InitOnceBeginInitialize;
  match r with
  | None => mret (-1)
  | Some pending =>
    ret ← (if (pending : bool) then
             h ← CreateMutexW;
             store_mutex h ;;
             mret (match h with None => -1 | Some _ => 0 end)
           else mret 0);
    InitOnceComplete ;;
    mret ret
  end.

Definition pthread_mutex_init : M S Z := InitOnceInitialize ;; mutex_init.
Definition pthread_mutex_destroy : M S Z :=
  h ← load_mutex; ok ← CloseHandle h; mret (if (ok : bool) then 0 else -1).
Definition pthread_mutex_lock : M S Z :=
  r ← mutex_init;
  if decide (r <> 0) then mret (-1) else
  h ← load_mutex; ok ← WaitForSingleObject h; mret (if (ok : bool) then 0 else -1).
Definition pthread_mutex_unlock : M S Z :=
  h ← load_mutex; ok ← ReleaseMutex h; mret (if (ok : bool) then 0 else -1).
End Mutex.
