(* ===== verification/Str.v ===== *)
(** * Rendering results as text (src/check_str.c)

    The formats of printf are written as concatenations; [%s] prints (null) for NULL, as
    glibc does.  [percent_passed] computes in binary32, with the arithmetic of SpecFloat. *)
From S2P Require Import Prelude Error Types CList Pack World.

(** printf's %s *)
Definition pr_s (o : option string) : string := default "(null)" o.

(** ** binary32, as the C type float *)

Definition f32_of_int (z : Z) : spec_float := binary_normalize 24 128 z 0 false.
Definition f32_div : spec_float -> spec_float -> spec_float := SFdiv 24 128.
Definition f32_mul : spec_float -> spec_float -> spec_float := SFmul 24 128.

(** Conversion to an integer type drops the fraction; None where it is undefined. *)
Definition sf_trunc (x : spec_float) : option Z :=
  match x with
  | S754_zero _ => Some 0
  | S754_finite s m e =>
    let v := if decide (0 <= e) then Zpos m * 2 ^ e else Zpos m / 2 ^ (- e) in
    Some (if (s : bool) then - v else v)
  | _ => None
  end.

Section Str.
Context {S : Type} `{!Sys S}.

(** vsnprintf(p, size, ...) of a text: what fits, and the length of the whole, or -1 when
    that is not an int. *)
Definition vsnprintf (size : Z) (text : string) : string * Z :=
  (string_of (take (Z.to_nat (size - 1)) (bytes_of text)),
   if decide (strlen text <= INT_MAX) then strlen text else -1).

(** The loop of ck_strdup_printf; [fuel] is spent only on a text of more than INT_MAX bytes,
    whose length vsnprintf cannot return: after 64 doublings [size] is 0 for ever. *)
Fixpoint ck_strdup_loop (fuel : nat) (size : Z) (text : string) : M S string :=
  match fuel with
  | O => stop Hang
  | Datatypes.S fuel =>
    let '(p, n) := vsnprintf size text in
    if decide (-1 < n /\ n < s32 size) then mret p
    else
      let size := if decide (-1 < n) then u64 (n + 1) else u64 (size * 2) in
      erealloc size ;; ck_strdup_loop fuel size text
  end.

Definition ck_strdup_printf (text : string) : M S string :=
  emalloc 100 ;; ck_strdup_loop 66 100 text.

Definition tr_type_str (tr : TestResult) : option string :=
  if decide (tr_ctx tr = CK_CTX_TEST) then
    if decide (rtype tr = CK_PASS) then Some "P"
    else if decide (rtype tr = CK_FAILURE) then Some "F"
    else if decide (rtype tr = CK_ERROR) then Some "E"
    else None
  else Some "S".

Definition exact_msg (tr : TestResult) : string :=
  if decide (rtype tr = CK_ERROR) then "(after this point) " else "".

Definition tr_str (tr : TestResult) : M S string :=
  iter ← deref (tr_iter tr);
  ck_strdup_printf
    (pr_s (tr_file tr) +:+ ":" +:+ dec (tr_line tr) +:+ ":" +:+ pr_s (tr_type_str tr) +:+ ":" +:+
     pr_s (tr_tcname tr) +:+ ":" +:+ pr_s (tr_tname tr) +:+ ":" +:+ dec iter +:+ ": " +:+
     exact_msg tr +:+ pr_s (tr_msg tr)).

Definition tr_short_str (tr : TestResult) : M S string :=
  ck_strdup_printf
    (pr_s (tr_file tr) +:+ ":" +:+ dec (tr_line tr) +:+ ": " +:+ exact_msg tr +:+ pr_s (tr_msg tr)).

Definition percent_passed (t : TestStats) : M S Z :=
  if decide (n_failed t = 0 /\ n_errors t = 0) then mret 100
  else if decide (n_checked t = 0) then mret 0
  else
    deref (sf_trunc (f32_mul (f32_div (f32_of_int (n_checked t - (n_failed t + n_errors t)))
                                      (f32_of_int (n_checked t)))
                             (f32_of_int 100))).

Definition sr_stat_str (ts : TestStats) : M S string :=
  pc ← percent_passed ts;
  ck_strdup_printf
    (dec pc +:+ "%: Checks: " +:+ dec (n_checked ts) +:+ ", Failures: " +:+ dec (n_failed ts) +:+
     ", Errors: " +:+ dec (n_errors ts)).

(** ** Facts *)

Context `{!MallocTotal S}.

Lemma take_all_string n t :
  (String.length t <= n)%nat -> string_of (take n (bytes_of t)) = t.
Proof.
  intros H. rewrite take_ge by by rewrite bytes_of_length.
  apply String.string_of_list_ascii_of_string.
Qed.

(** The two turns of the loop: the first attempt, and the second with the exact size. *)
Lemma ck_strdup_loop_run fuel size text s :
  strlen text < INT_MAX -> 0 < size <= INT_MAX ->
  ck_strdup_loop (2 + fuel) size text s = (Ret text, s).
Proof.
  unfold INT_MAX. intros Hl Hs. assert (0 <= strlen text) by (unfold strlen; lia).
  assert (Hfit : forall f z, strlen text < z <= INT_MAX ->
    ck_strdup_loop (1 + f) z text s = (Ret text, s)).
  { unfold INT_MAX. intros f z Hz. cbn [Nat.add ck_strdup_loop]. unfold vsnprintf, INT_MAX.
    rewrite (decide_True (P := strlen text <= 2147483647)) by lia.
    rewrite s32_small by (unfold INT_MAX; lia). rewrite decide_True by lia.
    rewrite take_all_string; [done |]. unfold strlen in *. lia. }
  destruct (decide (strlen text < size)).
  { apply (Hfit (1 + fuel)%nat). unfold INT_MAX. lia. }
  specialize (Hfit fuel). change (2 + fuel)%nat with (Datatypes.S (1 + fuel)).
  remember (1 + fuel)%nat as f1 eqn:Ef1. clear Ef1. cbn [ck_strdup_loop].
  unfold vsnprintf, INT_MAX.
  rewrite (decide_True (P := strlen text <= 2147483647)) by lia.
  rewrite s32_small by (unfold INT_MAX; lia). rewrite decide_False by lia.
  rewrite decide_True by lia. cbv zeta. rewrite (bind_ret _ _ _ _ _ (erealloc_run _ _)).
  apply Hfit. rewrite u64_small by lia. unfold INT_MAX. lia.
Qed.

Lemma ck_strdup_printf_run text s :
  strlen text < INT_MAX -> ck_strdup_printf text s = (Ret text, s).
Proof.
  intros H. unfold ck_strdup_printf. rewrite (bind_ret _ _ _ _ _ (emalloc_run _ _)).
  apply (ck_strdup_loop_run 64); [done | unfold INT_MAX; lia].
Qed.
End Str.
