(* ===== verification/Result.v ===== *)
(** * Test results, the fork status and the clock (the parts of src/check.c that
    src/check_msg.c and src/check_run.c call) *)
From S2P Require Import Prelude Error Types CList Pack World.

(** tr_init assigns every field but [iter]. *)
Definition tr_init (tr : TestResult) : TestResult :=
  mkTestResult CK_TEST_RESULT_INVALID CK_CTX_INVALID None (-1) (tr_iter tr) (-1) None None None.

Definition non_pass (val : test_result) : bool := bool_decide (val <> CK_PASS).

(** Assignments to one field. *)
Definition set_rtype (x : test_result) (tr : TestResult) : TestResult :=
  mkTestResult x (tr_ctx tr) (tr_file tr) (tr_line tr) (tr_iter tr) (tr_duration tr)
    (tr_tcname tr) (tr_tname tr) (tr_msg tr).
Definition set_ctx (x : ck_result_ctx) (tr : TestResult) : TestResult :=
  mkTestResult (rtype tr) x (tr_file tr) (tr_line tr) (tr_iter tr) (tr_duration tr)
    (tr_tcname tr) (tr_tname tr) (tr_msg tr).
Definition set_loc (f : option string) (l : Z) (tr : TestResult) : TestResult :=
  mkTestResult (rtype tr) (tr_ctx tr) f l (tr_iter tr) (tr_duration tr)
    (tr_tcname tr) (tr_tname tr) (tr_msg tr).
Definition set_duration (x : Z) (tr : TestResult) : TestResult :=
  mkTestResult (rtype tr) (tr_ctx tr) (tr_file tr) (tr_line tr) (tr_iter tr) x
    (tr_tcname tr) (tr_tname tr) (tr_msg tr).
Definition set_msg (x : option string) (tr : TestResult) : TestResult :=
  mkTestResult (rtype tr) (tr_ctx tr) (tr_file tr) (tr_line tr) (tr_iter tr) (tr_duration tr)
    (tr_tcname tr) (tr_tname tr) x.
(** The three assignments tr->tcname, tr->tname, tr->iter. *)
Definition set_names (tcname tname : string) (iter : Z) (tr : TestResult) : TestResult :=
  mkTestResult (rtype tr) (tr_ctx tr) (tr_file tr) (tr_line tr) (Some iter) (tr_duration tr)
    (Some tcname) (Some tname) (tr_msg tr).

Section Result.
Context {plat : Platform}.

Definition tr_create : M world TestResult :=
  emalloc 72 ;;
  mret (tr_init (mkTestResult CK_PASS CK_CTX_INVALID None 0 None 0 None None None)).

Definition set_fork_status (fstat : fork_status) : M world unit :=
  if decide (fstat = CK_FORK \/ fstat = CK_NOFORK \/ fstat = CK_FORK_GETENV) then
    modify (upd_statics (put_fstat_cur fstat))
  else eprintf "Bad status in set_fork_status" "Bad status in set_fork_status" "check.c" 589.

Definition cur_fork_status : M world fork_status := gets (fun w => fstat_cur (the_statics w)).

Definition check_get_clockid : M world clockid_t :=
  gets (fun w => if timer_create_ok (w_os w) CLOCK_MONOTONIC then CLOCK_MONOTONIC
                 else CLOCK_REALTIME).

(** Both clocks advance together. *)
Definition clock_gettime (_ : clockid_t) : M world timespec :=
  gets (fun w => mkTimespec (clock (w_os w) / 1000000000) (clock (w_os w) mod 1000000000)).

Definition US_PER_SEC : Z := 1000000.
Definition NANOS_PER_SECONDS : Z := 1000000000.

(** The division of C truncates. *)
Definition DIFF_IN_USEC (begin_ end_ : timespec) : Z :=
  (tv_sec end_ - tv_sec begin_) * US_PER_SEC +
  tv_nsec end_ `quot` 1000 - tv_nsec begin_ `quot` 1000.
End Result.
