(* ===== verification/Msg.v ===== *)
(** * Messaging between a test and its runner (src/check_msg.c)

    The channel is a temporary file; there are at most two, the second for a suite run
    nested inside a test. *)
From S2P Require Import Prelude Error Types CList Pack World Str Result.

Definition P_tmpdir : option string := Some "/tmp".

Definition with_files (f : gmap Z FILE -> gmap Z FILE) : world -> world :=
  on_os (fun o => put_open_files (f (open_files o)) o).

Section Msg.
Context {plat : Platform}.

Definition get_pipe : M world Z :=
  p ← gets the_pipes;
  match send_file2 p with
  | Some f => mret f
  | None =>
    match send_file1 p with
    | Some f => mret f
    | None =>
      eprintf "Unable to report test progress or a failure; was an ck_assert or ck_abort function called while not running tests?"
        "Unable to report test progress or a failure; was an ck_assert or ck_abort function called while not running tests?"
        "check_msg.c" 80
    end
  end.

(** A library call on an open stream: a stream that was closed is undefined behaviour. *)
Definition on_stream {A} (fp : Z) (m : FILE -> M world (A * FILE)) : M world A :=
  f ← gets (fun w => open_files (w_os w) !! fp);
  f ← deref f;
  '(a, f) ← m f;
  modify (with_files <[fp := f]>) ;;
  mret a.

(** ppack(get_pipe(), type, msg) *)
Definition ppack_pipe (type : Z) (msg : CheckMsg) : M world unit :=
  fp ← get_pipe;
  on_stream fp (fun f => f ← ppack f type (Some msg); mret (tt, f)).

Definition send_failure_info (msg : string) : M world unit :=
  m ← strdup msg;
  ppack_pipe CK_MSG_FAIL (fail_msg (mkFailMsg m)).

Definition send_duration_info (duration : Z) : M world unit :=
  ppack_pipe CK_MSG_DURATION (duration_msg (mkDurationMsg duration)).

Definition send_loc_info (file : string) (line : Z) : M world unit :=
  f ← strdup file;
  ppack_pipe CK_MSG_LOC (loc_msg (mkLocMsg line f)).

Definition send_ctx_info (ctx : ck_result_ctx) : M world unit :=
  ppack_pipe CK_MSG_CTX (ctx_msg (mkCtxMsg ctx)).

(** The location moves from the received message to the result. *)
Definition tr_set_loc_by_ctx (tr : TestResult) (ctx : ck_result_ctx) (rmsg : RcvMsg)
    : TestResult * RcvMsg :=
  if decide (ctx = CK_CTX_TEST) then
    (set_loc (test_file rmsg) (test_line rmsg) tr,
     mkRcvMsg (lastctx rmsg) (failctx rmsg) (fixture_file rmsg) (fixture_line rmsg)
       None (-1) (rmsg_msg rmsg) (rmsg_duration rmsg))
  else
    (set_loc (fixture_file rmsg) (fixture_line rmsg) tr,
     mkRcvMsg (lastctx rmsg) (failctx rmsg) None (-1)
       (test_file rmsg) (test_line rmsg) (rmsg_msg rmsg) (rmsg_duration rmsg)).

Definition construct_test_result (rmsg : option RcvMsg) (waserror : bool)
    : M world (option TestResult) :=
  match rmsg with
  | None => mret None
  | Some rmsg =>
    tr ← tr_create;
    mret (Some
      (if decide (rmsg_msg rmsg <> None \/ waserror = true) then
         let tr := set_ctx (if decide (failctx rmsg <> CK_CTX_INVALID) then failctx rmsg
                            else lastctx rmsg) tr in
         let tr := set_msg (rmsg_msg rmsg) tr in
         fst (tr_set_loc_by_ctx tr (tr_ctx tr) rmsg)
       else if decide (lastctx rmsg = CK_CTX_SETUP) then
         let tr := set_msg None (set_ctx CK_CTX_SETUP tr) in
         fst (tr_set_loc_by_ctx tr CK_CTX_SETUP rmsg)
       else
         let tr := set_msg None (set_ctx CK_CTX_TEST tr) in
         let tr := set_duration (rmsg_duration rmsg) tr in
         fst (tr_set_loc_by_ctx tr CK_CTX_TEST rmsg)))
  end.

(** unlink(name): the name leaves the directory; the result tells whether it returned 0. *)
Definition unlink (name : string) : M world bool :=
  ok ← gets (fun w => unlink_ok (w_os w) name);
  when ok (modify (on_os (fun o =>
    put_tmp_names (filter (fun n => n <> name) (tmp_names o)) o))) ;;
  mret ok.

(** mkstemp(template): creates a file, whose name replaces the template. *)
Definition mkstemp (template : string) : M world (option string) :=
  n ← gets (fun w => mkstemp_name (w_os w) template);
  match n with
  | Some n => modify (on_os (fun o => put_tmp_names (n :: tmp_names o) o)) ;; mret (Some n)
  | None => mret None
  end.

(** fdopen(fd, "w+b"): a new stream on the empty file. *)
Definition fdopen : M world (option Z) :=
  ok ← gets (fun w => fdopen_ok (w_os w));
  if (ok : bool) then
    fp ← gets (fun w => next_file (w_os w));
    modify (on_os (fun o =>
      put_next_file (fp + 1) (put_open_files (<[fp := mkFILE [] 0 false false]> (open_files o)) o))) ;;
    mret (Some fp)
  else mret None.

(** The stream and the value left in *name. *)
Definition open_tmp_file : M world (option Z * option string) :=
  tmp_dir ← getenv "TEMP";
  let tmp_dir := match tmp_dir with Some d => Some d | None => P_tmpdir end in
  tmp_dir ← match tmp_dir with Some d => mret (Some d) | None => getenv "TMPDIR" end;
  let tmp_dir := default "." tmp_dir in
  template ← ck_strdup_printf (tmp_dir +:+ "/check_XXXXXX");
  n ← mkstemp template;
  match n with
  | Some name =>
    file ← fdopen;
    unlinked ← unlink name;
    mret (file, if decide (unlinked = true \/ file = None) then None else Some name)
  | None => mret (None, Some template)
  end.

Definition setup_failed {A} (line : Z) : M world A :=
  eprintf "Unable to create temporary file for communication; may not have permissions to do so"
    "Unable to create temporary file for communication; may not have permissions to do so"
    "check_msg.c" line.

Definition setup_pipe : M world unit :=
  p ← gets the_pipes;
  if decide (send_file1 p = None) then
    '(file, name) ← open_tmp_file;
    modify (upd_pipes (fun p => mkPipes file name (send_file2 p) (send_file2_name p))) ;;
    if decide (file = None) then setup_failed 317 else mret tt
  else if decide (send_file2 p = None) then
    '(file, name) ← open_tmp_file;
    modify (upd_pipes (fun p => mkPipes (send_file1 p) (send_file1_name p) file name)) ;;
    if decide (file = None) then setup_failed 326 else mret tt
  else eprintf "Only one nesting of suite runs supported"
         "Only one nesting of suite runs supported" "check_msg.c" 333.

(** fclose of a temporary stream: no stream, undefined behaviour. *)
Definition fclose_tmp (fp : Z) : M world unit :=
  f ← gets (fun w => open_files (w_os w) !! fp);
  f ← deref f;
  modify (with_files (delete fp)).

Definition unlink_name (name : option string) : M world unit :=
  match name with Some n => unlink n ;; mret tt | None => mret tt end.

Definition teardown_pipe : M world unit :=
  p ← gets the_pipes;
  match send_file2 p, send_file1 p with
  | Some f, _ =>
    fclose_tmp f ;;
    modify (upd_pipes (fun p => mkPipes (send_file1 p) (send_file1_name p) None (send_file2_name p))) ;;
    unlink_name (send_file2_name p) ;;
    modify (upd_pipes (fun p => mkPipes (send_file1 p) (send_file1_name p) (send_file2 p) None))
  | None, Some f =>
    fclose_tmp f ;;
    modify (upd_pipes (fun p => mkPipes None (send_file1_name p) (send_file2 p) (send_file2_name p))) ;;
    unlink_name (send_file1_name p) ;;
    modify (upd_pipes (fun p => mkPipes (send_file1 p) None (send_file2 p) (send_file2_name p)))
  | None, None => eprintf "No messaging setup" "No messaging setup" "check_msg.c" 362
  end.

Definition setup_messaging : M world unit := setup_pipe.
Definition teardown_messaging : M world unit := teardown_pipe.

Definition rewind (fp : Z) : M world unit :=
  on_stream fp (fun f => mret (tt, mkFILE (f_content f) 0 (f_read_err f) (f_write_err f))).

Definition receive_test_result (waserror : bool) : M world (option TestResult) :=
  fp ← get_pipe;
  rewind fp ;;
  rmsg ← on_stream fp punpack;
  (if decide (rmsg = None) then
     eprintf "Error in call to punpack" "Error in call to punpack" "check_msg.c" 133
   else mret tt) ;;
  teardown_pipe ;;
  setup_pipe ;;
  construct_test_result rmsg waserror.
End Msg.
