(* ===== verification/MsgSpec.v ===== *)
(** * What messaging guarantees (src/check_msg.c)

    The channel of a process is the innermost of its temporary files; on a platform where
    the system calls succeed its content is the wire format of the messages sent so far, and
    receiving folds them and starts an empty channel. *)
From S2P Require Import Prelude Error Types CList Pack PackSpec World Str Result Msg.

(** A platform on which allocation and the system calls on temporary files succeed; mkstemp
    creates a name that did not exist. *)
Class PlatformOK `{!Platform} := {
  ok_malloc : forall o n, malloc_ok o n = true;
  ok_fork : forall o, fork_ok o = true;
  ok_mkstemp : forall o t, exists n, mkstemp_name o t = Some n /\ n ∉ tmp_names o;
  ok_fdopen : forall o, fdopen_ok o = true;
  ok_unlink : forall o n, unlink_ok o n = true;
  ok_timer : forall o c, timer_create_ok o c = true;
  ok_settime : forall o, timer_settime_ok o = true;
  ok_fopen : forall o n, fopen_ok o n = true;
  ok_fclose : forall o, fclose_ok o = true
}.

#[export] Instance world_malloc_total {plat : Platform} {plat_ok : PlatformOK} : MallocTotal world.
Proof. intros w n. apply ok_malloc. Qed.

(** The stream that holds the messages [ms] and is read from the start. *)
Definition stream (ms : list CheckMsg) : FILE := mkFILE (wire ms) 0 false false.

(** The streams a process can use as its channel, innermost first. *)
Definition pipe_stack (p : pipes) : list Z :=
  option_list (send_file2 p) ++ option_list (send_file1 p).

(** The channel of [w] is the stream [fp], holding [ms]. *)
Record channel (w : world) (fp : Z) (ms : list CheckMsg) : Prop := mkChannel {
  ch_pipe : head (pipe_stack (the_pipes w)) = Some fp;
  ch_stream : open_files (w_os w) !! fp = Some (stream ms)
}.

(** A message that can be sent in [w]. *)
Definition sendable `{!Platform} (w : world) (m : CheckMsg) : Prop :=
  msg_ok m /\ Z.of_nat (length (enc m)) <= msg_limit w.

(** The world with the stream [fp] holding [ms]. *)
Definition put_stream (fp : Z) (ms : list CheckMsg) : world -> world :=
  with_files <[fp := stream ms]>.

Lemma wire_app ms1 ms2 : wire (ms1 ++ ms2) = wire ms1 ++ wire ms2.
Proof. unfold wire. by rewrite fmap_app, concat_app. Qed.

Lemma wire_one m : wire [m] = enc m.
Proof. apply app_nil_r. Qed.

Section Spec.
Context {plat : Platform} {plat_ok : PlatformOK}.

Lemma get_pipe_run w fp :
  head (pipe_stack (the_pipes w)) = Some fp -> get_pipe w = (Ret fp, w).
Proof.
  unfold get_pipe, pipe_stack. intros H. rewrite (bind_ret _ _ _ _ _ (gets_run _ _)).
  destruct (the_pipes w) as [[f1 |] n1 [f2 |] n2]; simpl in *; by simplify_eq.
Qed.

(** With no channel, reporting ends the process. *)
Lemma get_pipe_none w :
  pipe_stack (the_pipes w) = [] -> exists w', get_pipe w = (Exit 2, w').
Proof.
  unfold get_pipe, pipe_stack. intros H. rewrite (bind_ret _ _ _ _ _ (gets_run _ _)).
  destruct (the_pipes w) as [[f1 |] n1 [f2 |] n2]; simpl in *; try done. by eexists.
Qed.

Lemma on_stream_run {A} fp f (m : FILE -> M world (A * FILE)) w a f' w' :
  open_files (w_os w) !! fp = Some f -> m f w = (Ret (a, f'), w') ->
  on_stream fp m w = (Ret a, with_files <[fp := f']> w').
Proof.
  intros Hf Hm. unfold on_stream. rewrite (bind_ret _ _ _ _ _ (gets_run _ _)).
  erewrite bind_ret by by apply deref_Some. by rewrite (bind_ret _ _ _ _ _ Hm).
Qed.

(** Sending appends one message to the channel and changes nothing else. *)
Lemma ppack_pipe_run w fp ms m :
  channel w fp ms -> sendable w m ->
  ppack_pipe (type_of m) m w = (Ret tt, put_stream fp (ms ++ [m]) w).
Proof.
  intros [Hp Hf] [Hm Hle]. unfold ppack_pipe.
  rewrite (bind_ret _ _ _ _ _ (get_pipe_run _ _ Hp)).
  erewrite on_stream_run; [reflexivity | exact Hf |].
  erewrite bind_ret by by apply ppack_run. rewrite mret_run. do 3 f_equal.
  unfold stream. cbn [f_content f_pos f_read_err]. by rewrite wire_app, wire_one.
Qed.

Lemma send_ctx_run w fp ms c :
  channel w fp ms -> sendable w (ctx_msg (mkCtxMsg c)) ->
  send_ctx_info c w = (Ret tt, put_stream fp (ms ++ [ctx_msg (mkCtxMsg c)]) w).
Proof. intros. by apply (ppack_pipe_run w fp ms (ctx_msg (mkCtxMsg c))). Qed.

Lemma send_loc_run w fp ms f l :
  channel w fp ms -> sendable w (loc_msg (mkLocMsg l (Some f))) ->
  send_loc_info f l w = (Ret tt, put_stream fp (ms ++ [loc_msg (mkLocMsg l (Some f))]) w).
Proof.
  intros. unfold send_loc_info. rewrite (bind_ret _ _ _ _ _ (strdup_run _ _)).
  by apply (ppack_pipe_run w fp ms (loc_msg (mkLocMsg l (Some f)))).
Qed.

Lemma send_failure_run w fp ms t :
  channel w fp ms -> sendable w (fail_msg (mkFailMsg (Some t))) ->
  send_failure_info t w = (Ret tt, put_stream fp (ms ++ [fail_msg (mkFailMsg (Some t))]) w).
Proof.
  intros. unfold send_failure_info. rewrite (bind_ret _ _ _ _ _ (strdup_run _ _)).
  by apply (ppack_pipe_run w fp ms (fail_msg (mkFailMsg (Some t)))).
Qed.

Lemma send_duration_run w fp ms d :
  channel w fp ms -> sendable w (duration_msg (mkDurationMsg d)) ->
  send_duration_info d w = (Ret tt, put_stream fp (ms ++ [duration_msg (mkDurationMsg d)]) w).
Proof. intros. by apply (ppack_pipe_run w fp ms (duration_msg (mkDurationMsg d))). Qed.
End Spec.

(** Rewriting a stream is idempotent, and keeps the channel. *)
Lemma with_files_compose f g w : with_files f (with_files g w) = with_files (f ∘ g) w.
Proof. done. Qed.
Lemma put_stream_twice fp ms ms' w : put_stream fp ms (put_stream fp ms' w) = put_stream fp ms w.
Proof.
  unfold put_stream, with_files, on_os. cbn. by rewrite insert_insert, decide_True by done.
Qed.
Lemma put_stream_channel fp ms ms' w : channel w fp ms -> channel (put_stream fp ms' w) fp ms'.
Proof.
  intros [Hp Hf]. constructor; [done |]. cbn. by rewrite lookup_insert, decide_True by done.
Qed.
Lemma put_stream_id fp ms w : channel w fp ms -> put_stream fp ms w = w.
Proof.
  intros [Hp Hf]. destruct w as [p o]. unfold put_stream, with_files, on_os. cbn in *.
  rewrite insert_id by done. by destruct o.
Qed.
Lemma put_stream_sendable `{!Platform} fp ms w m : sendable w m -> sendable (put_stream fp ms w) m.
Proof. done. Qed.

(** ** Opening, closing and receiving *)

(** The pipes as a quiet platform leaves them: no name kept, and the outer one opened first. *)
Record pipes_wf (p : pipes) : Prop := mkPipesWf {
  wf_name1 : send_file1_name p = None;
  wf_name2 : send_file2_name p = None;
  wf_nested : send_file1 p = None -> send_file2 p = None
}.

Definition push_pipe (fp : Z) (p : pipes) : pipes :=
  if decide (send_file1 p = None) then mkPipes (Some fp) None (send_file2 p) (send_file2_name p)
  else mkPipes (send_file1 p) (send_file1_name p) (Some fp) None.
Definition pop_pipe (p : pipes) : pipes :=
  match send_file2 p with
  | Some _ => mkPipes (send_file1 p) (send_file1_name p) None None
  | None => mkPipes None None (send_file2 p) (send_file2_name p)
  end.

Lemma pipe_stack_push fp p :
  pipes_wf p -> (length (pipe_stack p) < 2)%nat ->
  pipe_stack (push_pipe fp p) = fp :: pipe_stack p /\ pipes_wf (push_pipe fp p).
Proof.
  destruct p as [[f1 |] n1 [f2 |] n2]; intros [H1 H2 H3] Hl; simpl in *; subst; try lia;
    try (specialize (H3 eq_refl); done); (split; [done | by constructor]).
Qed.
Lemma pipe_stack_pop fp st p :
  pipes_wf p -> pipe_stack p = fp :: st -> pipe_stack (pop_pipe p) = st /\ pipes_wf (pop_pipe p).
Proof.
  destruct p as [[f1 |] n1 [f2 |] n2]; intros [H1 H2 H3] Hs;
    unfold pipe_stack in *; simpl in *; subst; simplify_eq;
    try (specialize (H3 eq_refl); done); (split; [done | by constructor]).
Qed.

(** A new empty stream. *)
Definition new_stream (w : world) : world :=
  on_os (fun o => put_next_file (next_file o + 1)
                    (put_open_files (<[next_file o := stream []]> (open_files o)) o)) w.

(** The directory for temporary files has a name of reasonable length. *)
Definition temp_ok (w : world) : Prop :=
  match env (w_proc w) !! "TEMP" with Some d => strlen d + 13 < INT_MAX | None => True end.

(** The channel replaced by an empty one. *)
Definition reset_channel (fp : Z) (w : world) : world :=
  upd_pipes (fun p => push_pipe (next_file (w_os w)) (pop_pipe p))
    (new_stream (with_files (delete fp) w)).

(** The test result made from the folded messages (construct_test_result). *)
Definition result_of (r : RcvMsg) (waserror : bool) : TestResult :=
  let failed := bool_decide (rmsg_msg r <> None) || waserror in
  let c := if failed then
             if decide (failctx r = CK_CTX_INVALID) then lastctx r else failctx r
           else if decide (lastctx r = CK_CTX_SETUP) then CK_CTX_SETUP else CK_CTX_TEST in
  mkTestResult CK_TEST_RESULT_INVALID c
    (if decide (c = CK_CTX_TEST) then test_file r else fixture_file r)
    (if decide (c = CK_CTX_TEST) then test_line r else fixture_line r)
    None (if negb failed && bool_decide (lastctx r <> CK_CTX_SETUP) then rmsg_duration r else -1)
    None None (rmsg_msg r).

Lemma strlen_app s t : strlen (s +:+ t) = strlen s + strlen t.
Proof.
  unfold strlen, String.app. rewrite <- Nat2Z.inj_add. f_equal.
  induction s; simpl; [done |]. by f_equal.
Qed.

Lemma filter_fresh (n : string) (l : list string) : n ∉ l -> filter (fun x => x <> n) l = l.
Proof.
  intros H. induction l as [| x l IH]; [done |]. apply not_elem_of_cons in H as [Hx Hl].
  rewrite filter_cons_True by auto. by rewrite IH.
Qed.

Section Receive.
Context {plat : Platform} {plat_ok : PlatformOK}.

Lemma tmp_dir_short w (d : string) : temp_ok w ->
  d = match env (w_proc w) !! "TEMP" with Some d => d | None => "/tmp" end ->
  strlen (d +:+ "/check_XXXXXX") < INT_MAX.
Proof.
  unfold temp_ok, INT_MAX. intros H ->. rewrite strlen_app. unfold strlen in *.
  destruct (env (w_proc w) !! "TEMP"); simpl in *; lia.
Qed.

Lemma open_tmp_file_run w :
  temp_ok w -> open_tmp_file w = (Ret (Some (next_file (w_os w)), None), new_stream w).
Proof.
  intros Ht. unfold open_tmp_file, getenv.
  rewrite (bind_ret _ _ _ _ _ (gets_run _ _)). cbv zeta.
  change (sys_getenv w "TEMP") with (env (w_proc w) !! "TEMP").
  set (d := match env (w_proc w) !! "TEMP" with Some d => d | None => "/tmp" end).
  assert (Ed : match env (w_proc w) !! "TEMP" with Some d => Some d | None => P_tmpdir end = Some d)
    by (unfold d; by destruct (env (w_proc w) !! "TEMP")).
  rewrite Ed. rewrite (bind_ret _ _ _ _ _ (mret_run _ _)). cbv zeta.
  change (default "." (Some d)) with d.
  erewrite bind_ret by (apply ck_strdup_printf_run; by eapply tmp_dir_short).
  destruct (ok_mkstemp (w_os w) (d +:+ "/check_XXXXXX")) as (n & En & Hn).
  unfold mkstemp. rewrite bind_assoc. rewrite (bind_ret _ _ _ _ _ (gets_run _ _)).
  rewrite En. rewrite bind_assoc.
  rewrite (bind_ret _ _ _ _ _ (modify_run _ _)). rewrite (bind_ret _ _ _ _ _ (mret_run _ _)).
  unfold fdopen. rewrite bind_assoc. rewrite (bind_ret _ _ _ _ _ (gets_run _ _)).
  rewrite ok_fdopen. rewrite bind_assoc. rewrite (bind_ret _ _ _ _ _ (gets_run _ _)).
  rewrite bind_assoc. rewrite (bind_ret _ _ _ _ _ (modify_run _ _)).
  rewrite (bind_ret _ _ _ _ _ (mret_run _ _)).
  unfold unlink. rewrite bind_assoc. rewrite (bind_ret _ _ _ _ _ (gets_run _ _)).
  rewrite ok_unlink. rewrite bind_assoc. unfold when.
  rewrite (bind_ret _ _ _ _ _ (modify_run _ _)). rewrite (bind_ret _ _ _ _ _ (mret_run _ _)).
  rewrite mret_run. rewrite decide_True by by left.
  unfold new_stream, on_os, put_tmp_names, put_next_file, put_open_files. cbn -[filter].
  rewrite filter_cons_False by auto. by rewrite (filter_fresh _ _ Hn).
Qed.

Lemma setup_pipe_run w :
  temp_ok w -> pipes_wf (the_pipes w) -> (length (pipe_stack (the_pipes w)) < 2)%nat ->
  setup_pipe w = (Ret tt, upd_pipes (push_pipe (next_file (w_os w))) (new_stream w)).
Proof.
  intros Ht [H1 H2 H3] Hl. unfold setup_pipe, push_pipe, pipe_stack in *.
  rewrite (bind_ret _ _ _ _ _ (gets_run _ _)).
  destruct (the_pipes w) as [[f1 |] n1 [f2 |] n2] eqn:Ep; simpl in *; subst; try lia.
  - rewrite (bind_ret _ _ _ _ _ (open_tmp_file_run w Ht)). cbv beta iota.
    rewrite (bind_ret _ _ _ _ _ (modify_run _ _)). rewrite decide_False, mret_run by done.
    unfold upd_pipes, new_stream. change (the_pipes (on_os _ w)) with (the_pipes w). by rewrite Ep.
  - by specialize (H3 eq_refl).
  - rewrite (bind_ret _ _ _ _ _ (open_tmp_file_run w Ht)). cbv beta iota.
    rewrite (bind_ret _ _ _ _ _ (modify_run _ _)). rewrite decide_False, mret_run by done.
    unfold upd_pipes, new_stream. change (the_pipes (on_os _ w)) with (the_pipes w). by rewrite Ep.
Qed.

Lemma fclose_tmp_run fp w :
  is_Some (open_files (w_os w) !! fp) -> fclose_tmp fp w = (Ret tt, with_files (delete fp) w).
Proof.
  intros [f Hf]. unfold fclose_tmp. rewrite (bind_ret _ _ _ _ _ (gets_run _ _)).
  by erewrite bind_ret by by apply deref_Some.
Qed.

Lemma teardown_pipe_run fp w :
  pipes_wf (the_pipes w) -> head (pipe_stack (the_pipes w)) = Some fp ->
  is_Some (open_files (w_os w) !! fp) ->
  teardown_pipe w = (Ret tt, upd_pipes pop_pipe (with_files (delete fp) w)).
Proof.
  intros [H1 H2 H3] Hh Hf. unfold teardown_pipe, pop_pipe, pipe_stack in *.
  rewrite (bind_ret _ _ _ _ _ (gets_run _ _)).
  destruct (the_pipes w) as [[f1 |] n1 [f2 |] n2] eqn:Ep; simpl in *; simplify_eq.
  all: rewrite (bind_ret _ _ _ _ _ (fclose_tmp_run _ _ Hf)), (bind_ret _ _ _ _ _ (modify_run _ _)).
  all: cbn [unlink_name]; rewrite (bind_ret _ _ _ _ _ (mret_run _ _)), modify_run.
  all: unfold upd_pipes, with_files, on_os, on_proc, the_pipes in *; cbn; rewrite Ep; done.
Qed.

Lemma construct_test_result_run r b w :
  construct_test_result (Some r) b w = (Ret (Some (result_of r b)), w).
Proof.
  unfold construct_test_result, tr_create. rewrite bind_assoc.
  rewrite (bind_ret _ _ _ _ _ (emalloc_run _ _)). rewrite (bind_ret _ _ _ _ _ (mret_run _ _)).
  rewrite mret_run. do 3 f_equal. unfold result_of, tr_set_loc_by_ctx, set_ctx, set_msg, set_loc.
  destruct (decide (rmsg_msg r <> None \/ b = true)) as [H | H].
  - assert (Hb : bool_decide (rmsg_msg r <> None) || b = true).
    { destruct H as [H | ->]; [by rewrite bool_decide_true | apply orb_true_r]. }
    rewrite Hb.
    cbn. destruct (decide (failctx r = CK_CTX_INVALID)) as [E | E].
    + rewrite (decide_False (P := failctx r <> CK_CTX_INVALID)) by (intros Hn; by apply Hn). by case_decide.
    + rewrite (decide_True (P := failctx r <> CK_CTX_INVALID)) by done. by case_decide.
  - assert (Hm : rmsg_msg r = None) by (destruct (rmsg_msg r); [exfalso; apply H; by left | done]).
    assert (b = false) as -> by (destruct b; [exfalso; apply H; by right | done]).
    rewrite Hm. rewrite bool_decide_false by auto. cbn.
    destruct (decide (lastctx r = CK_CTX_SETUP)); cbn; [by rewrite bool_decide_false by auto |].
    by rewrite bool_decide_true.
Qed.

(** The conditions under which a process can use its channel. *)
Record messaging (w : world) : Prop := mkMessaging {
  ms_temp : temp_ok w;
  ms_wf : pipes_wf (the_pipes w);
  ms_depth : (length (pipe_stack (the_pipes w)) <= 2)%nat;
  ms_limit : 0 < msg_limit w;
  ms_window : msg_limit w * 2 < 2 ^ 64
}.

Lemma receive_run w fp ms r b :
  messaging w -> channel w fp ms -> Forall (sendable w) ms -> rcv_result ms = Some r ->
  receive_test_result b w = (Ret (Some (result_of r b)), reset_channel fp w).
Proof.
  intros [Ht Hwf Hd Hl1 Hl2] Hch Hms Hr. pose proof Hch as [Hp Hf]. unfold receive_test_result.
  rewrite (bind_ret _ _ _ _ _ (get_pipe_run _ _ Hp)).
  assert (Erw : rewind fp w = (Ret tt, w)).
  { unfold rewind. erewrite on_stream_run; [| exact Hf | reflexivity].
    change (mkFILE _ 0 _ _) with (stream ms). f_equal. by apply put_stream_id. }
  rewrite (bind_ret _ _ _ _ _ Erw).
  assert (Epu : on_stream fp punpack w = (Ret (Some r), with_files <[fp := at_eof (stream ms)]> w)).
  { apply on_stream_run with (f := stream ms); [done |]. rewrite <- Hr. apply punpack_holds; [done.. |].
    constructor; try done; [simpl; lia |].
    eapply Forall_impl; [exact Hms |]. intros m [??]. split; [done | lia]. }
  rewrite (bind_ret _ _ _ _ _ Epu). rewrite decide_False by done.
  rewrite (bind_ret _ _ _ _ _ (mret_run _ _)).
  destruct (pipe_stack (the_pipes w)) as [| fp' st] eqn:Est; simpl in Hp; simplify_eq.
  destruct (pipe_stack_pop _ _ _ Hwf Est) as [Est' Hwf'].
  erewrite bind_ret by (apply (teardown_pipe_run fp); [done | by unfold the_pipes in *; simpl; rewrite Est |
    simpl; rewrite lookup_insert, decide_True by done; by eexists]).
  erewrite bind_ret by (apply setup_pipe_run; [done | done |
    change (the_pipes (upd_pipes pop_pipe _)) with (pop_pipe (the_pipes w)); rewrite Est'; simpl in Hd; lia]).
  rewrite construct_test_result_run. do 2 f_equal.
  unfold reset_channel, upd_pipes, new_stream, with_files, on_proc, on_os, put_open_files,
    put_next_file. cbn. by rewrite delete_insert_eq.
Qed.

(** As deep as before. *)
Lemma reset_channel_depth w fp ms : messaging w -> channel w fp ms -> forall w',
  the_pipes w' = the_pipes w -> length (pipe_stack (the_pipes (reset_channel fp w'))) =
    length (pipe_stack (the_pipes w)).
Proof.
  intros [_ Hwf Hd _ _] [Hp _] w' Ew.
  destruct (pipe_stack (the_pipes w)) as [| fp' st] eqn:Est; simpl in Hp; simplify_eq.
  destruct (pipe_stack_pop _ _ _ Hwf Est) as [Est' Hwf'].
  destruct (pipe_stack_push (next_file (w_os w')) (pop_pipe (the_pipes w))) as [Eps _];
    [done | rewrite Est'; simpl in Hd; lia |].
  assert (Ep : the_pipes (reset_channel fp w') = push_pipe (next_file (w_os w')) (pop_pipe (the_pipes w')))
    by done.
  rewrite Ep, Ew, Eps, Est'. done.
Qed.

Lemma reset_channel_channel w fp ms :
  messaging w -> channel w fp ms ->
  channel (reset_channel fp w) (next_file (w_os w)) [] /\ messaging (reset_channel fp w).
Proof.
  intros [Ht Hwf Hd Hl1 Hl2] [Hp Hf].
  destruct (pipe_stack (the_pipes w)) as [| fp' st] eqn:Est; simpl in Hp; simplify_eq.
  destruct (pipe_stack_pop _ _ _ Hwf Est) as [Est' Hwf'].
  destruct (pipe_stack_push (next_file (w_os w)) (pop_pipe (the_pipes w))) as [Eps Hwf2];
    [done | rewrite Est'; simpl in Hd; lia |].
  assert (Ep : the_pipes (reset_channel fp w) = push_pipe (next_file (w_os w)) (pop_pipe (the_pipes w)))
    by done.
  split.
  - constructor; [by rewrite Ep, Eps |]. cbn. by rewrite lookup_insert, decide_True by done.
  - constructor; try done. rewrite Ep, Eps, Est'. simpl in *. lia.
Qed.
End Receive.

(** ** Nesting *)

(** [d] channels are open, each a stream of its own. *)
Record nested (w : world) (d : nat) : Prop := mkNested {
  ns_temp : temp_ok w;
  ns_wf : pipes_wf (the_pipes w);
  ns_depth : length (pipe_stack (the_pipes w)) = d;
  ns_open : Forall (fun fp => is_Some (open_files (w_os w) !! fp) /\ fp < next_file (w_os w))
              (pipe_stack (the_pipes w));
  ns_distinct : NoDup (pipe_stack (the_pipes w))
}.

Section Nested.
Context {plat : Platform} {plat_ok : PlatformOK}.

Lemma setup_nested w d : nested w d -> (d < 2)%nat ->
  exists w', setup_messaging w = (Ret tt, w') /\ nested w' (1 + d) /\
    tmp_names (w_os w') = tmp_names (w_os w).
Proof.
  intros [Ht Hwf Hd Ho Hn] Hlt. unfold setup_messaging.
  rewrite setup_pipe_run by (done || lia). eexists. split; [reflexivity |]. split; [| done].
  destruct (pipe_stack_push (next_file (w_os w)) (the_pipes w) Hwf ltac:(lia)) as [Es Hwf'].
  set (w' := upd_pipes _ _).
  assert (Ep : the_pipes w' = push_pipe (next_file (w_os w)) (the_pipes w)) by done.
  constructor; try done; rewrite Ep, ?Es.
  - simpl. by rewrite Hd.
  - constructor; cbn; [rewrite lookup_insert_eq; split; [by eexists | lia] |].
    eapply Forall_impl; [exact Ho |]. intros fp [Hfp Hlt']. cbn. split; [| lia].
    rewrite lookup_insert_ne by lia. done.
  - constructor; [| done]. intros Hin. rewrite Forall_forall in Ho. destruct (Ho _ Hin). lia.
Qed.

Lemma teardown_nested w d : nested w (1 + d) ->
  exists w', teardown_messaging w = (Ret tt, w') /\ nested w' d /\
    tmp_names (w_os w') = tmp_names (w_os w).
Proof.
  intros [Ht Hwf Hd Ho Hn]. unfold teardown_messaging.
  destruct (pipe_stack (the_pipes w)) as [| fp st] eqn:Es; [done |].
  apply Forall_cons in Ho as [[Hfp _] Ho]. apply NoDup_cons in Hn as [Hni Hn].
  rewrite (teardown_pipe_run fp) by (done || by rewrite Es). eexists. split; [reflexivity |].
  split; [| done]. destruct (pipe_stack_pop fp st (the_pipes w) Hwf Es) as [Es' Hwf'].
  set (w' := upd_pipes _ _). assert (Ep : the_pipes w' = pop_pipe (the_pipes w)) by done.
  constructor; try done; rewrite Ep, ?Es'; try done.
  - by injection Hd.
  - rewrite Forall_forall in *. intros x Hx. destruct (Ho x Hx) as [Hs Hlt]. split; [| done]. cbn.
    rewrite lookup_delete_ne by (intros ->; done). done.
Qed.

(** The first channel of a process. *)
Lemma setup_first w : nested w 0 -> 0 < msg_limit w -> msg_limit w * 2 < 2 ^ 64 ->
  let w' := upd_pipes (push_pipe (next_file (w_os w))) (new_stream w) in
  setup_messaging w = (Ret tt, w') /\ messaging w' /\ length (pipe_stack (the_pipes w')) = 1%nat /\
  channel w' (next_file (w_os w)) [].
Proof.
  intros Hn Hl1 Hl2 w'. pose proof Hn as [Ht Hwf Hd _ _].
  assert (E : setup_messaging w = (Ret tt, w')) by (apply setup_pipe_run; [done | done | lia]).
  destruct (setup_nested w 0 Hn) as (w1 & E1 & [Ht1 Hwf1 Hd1 _ _] & _); [lia |].
  rewrite E in E1. injection E1 as <-. split; [exact E |].
  split; [constructor; try done; lia |]. split; [done |].
  destruct (pipe_stack_push (next_file (w_os w)) (the_pipes w) Hwf ltac:(lia)) as [Es _].
  assert (Ep : the_pipes w' = push_pipe (next_file (w_os w)) (the_pipes w)) by done.
  constructor; [by rewrite Ep, Es | apply lookup_insert_eq].
Qed.

(** ... and its end. *)
Lemma teardown_last w fp ms : messaging w -> length (pipe_stack (the_pipes w)) = 1%nat -> channel w fp ms ->
  let w' := upd_pipes pop_pipe (with_files (delete fp) w) in
  teardown_messaging w = (Ret tt, w') /\ nested w' 0.
Proof.
  intros [Ht Hwf _ _ _] Hd [Hp Hf] w'. split; [apply teardown_pipe_run; [done | done | by eexists] |].
  destruct (pipe_stack (the_pipes w)) as [| fp' [|]] eqn:Es; simpl in *; try done. simplify_eq.
  destruct (pipe_stack_pop fp [] (the_pipes w) Hwf Es) as [Es' Hwf'].
  assert (Ep : the_pipes w' = pop_pipe (the_pipes w)) by done.
  constructor; try done; rewrite Ep, Es'; [done | constructor | constructor].
Qed.
End Nested.
