(* ===== verification/Core.v ===== *)
(** * Suites, test cases and runners (src/check.c) *)
From S2P Require Import Prelude Error Types CList Pack World Str Result Msg.

Definition DEFAULT_TIMEOUT : Z := 4.
Definition WEXITSTATUS_MASK : Z := 255.
Definition BUFSIZ : Z := 8192.

(** ** binary64, as the C type double *)

Definition f64_of_int (z : Z) : spec_float := binary_normalize 53 1024 z 0 false.
Definition f64_mul : spec_float -> spec_float -> spec_float := SFmul 53 1024.
Definition f64_sub : spec_float -> spec_float -> spec_float := SFsub 53 1024.
(** x >= 0, false on a NaN *)
Definition f64_nonneg (x : spec_float) : bool := SFleb (S754_zero false) x.
Definition floor (x : spec_float) : spec_float :=
  match x with
  | S754_finite s m e =>
    if decide (0 <= e) then x
    else
      let q := (if (s : bool) then - Zpos m else Zpos m) / 2 ^ (- e) in
      if decide (q = 0) then S754_zero s else f64_of_int q
  | _ => x
  end.
(** Conversion to a 64-bit integer type, undefined when the value does not fit. *)
Definition to_int64 {S} (x : spec_float) : M S Z :=
  match sf_trunc x with
  | Some z => if decide (- 2 ^ 63 <= z < 2 ^ 63) then mret z else fault
  | None => fault
  end.

(** ** strtok(_, DELIM) with one delimiter, the space *)

Definition SPACE : ascii := " "%char.

Fixpoint skip_delim (s : string) : string :=
  match s with
  | String c s' => if decide (c = SPACE) then skip_delim s' else s
  | EmptyString => s
  end.
(** The characters before the next delimiter, and what follows it. *)
Fixpoint span_token (s : string) : string * string :=
  match s with
  | String c s' =>
    if decide (c = SPACE) then ("", s')
    else let '(t, r) := span_token s' in (String c t, r)
  | EmptyString => ("", "")
  end.
Definition strtok (s : string) : option (string * string) :=
  match skip_delim s with
  | EmptyString => None
  | s => Some (span_token s)
  end.

Section Core.
Context {plat : Platform}.

(** The address of a new object. *)
Definition new_loc : M world loc :=
  a ← gets (fun w => next_loc (the_heap w));
  modify (upd_heap bump_loc) ;;
  mret a.

Definition get_suite (s : loc) : M world Suite :=
  x ← gets (fun w => suites (the_heap w) !! s); deref x.
Definition get_tcase (tc : loc) : M world TCase :=
  x ← gets (fun w => tcases (the_heap w) !! tc); deref x.
Definition get_srunner (sr : loc) : M world SRunner :=
  x ← gets (fun w => srunners (the_heap w) !! sr); deref x.
Definition store_suite (a : loc) (x : Suite) : M world unit :=
  modify (upd_heap (fun h => put_suites (<[a := x]> (suites h)) h)).
Definition store_tcase (a : loc) (x : TCase) : M world unit :=
  modify (upd_heap (fun h => put_tcases (<[a := x]> (tcases h)) h)).
Definition store_srunner (a : loc) (x : SRunner) : M world unit :=
  modify (upd_heap (fun h => put_srunners (<[a := x]> (srunners h)) h)).
Definition store_taglist (a : loc) (x : List string) : M world unit :=
  modify (upd_heap (fun h => put_taglists (<[a := x]> (taglists h)) h)).

(** free of an object: freeing what is not allocated is undefined. *)
Definition free_suite (a : loc) : M world unit :=
  get_suite a ;; modify (upd_heap (fun h => put_suites (delete a (suites h)) h)).
Definition free_tcase (a : loc) : M world unit :=
  get_tcase a ;; modify (upd_heap (fun h => put_tcases (delete a (tcases h)) h)).
Definition free_srunner (a : loc) : M world unit :=
  get_srunner a ;; modify (upd_heap (fun h => put_srunners (delete a (srunners h)) h)).

(** check_list_free of a list of tags, which is an object of its own. *)
Definition check_list_free (lp : option loc) : M world unit :=
  match lp with
  | None => mret tt
  | Some a =>
    load (taglist_ptr a) ;; modify (upd_heap (fun h => put_taglists (delete a (taglists h)) h))
  end.

(** check_list_apply(l, free): the elements are owned by the list and have no other state. *)
Definition apply_free {A} (p : lptr world A) : M world unit :=
  check_list_apply (Some p) (Some (fun _ => mret tt)).

(** ** Tags *)

(** The loop over strtok; every token is at least one character, so [fuel] tokens suffice
    for a string shorter than [fuel]. *)
Fixpoint add_tags (fuel : nat) (l : loc) (tags : string) : M world unit :=
  match fuel with
  | O => stop Hang
  | Datatypes.S fuel =>
    match strtok tags with
    | None => mret tt
    | Some (tag, rest) =>
      t ← strdup tag;
      t ← deref t;
      check_list_add_end (Some (taglist_ptr l)) t ;;
      add_tags fuel l rest
    end
  end.

Definition tag_string_to_list (tags_string : option string) : M world loc :=
  l ← check_list_create;
  a ← new_loc;
  store_taglist a l ;;
  match tags_string with
  | None => mret a
  | Some tags_string =>
    t ← strdup tags_string;
    t ← deref t;
    add_tags (1 + String.length t) a t ;;
    mret a
  end.

Definition tcase_set_tags (tc : loc) (tags_orig : option string) : M world unit :=
  t ← get_tcase tc;
  match tags t with
  | Some old => apply_free (taglist_ptr old) ;; check_list_free (Some old)
  | None => mret tt
  end ;;
  l ← tag_string_to_list tags_orig;
  t ← get_tcase tc;
  store_tcase tc (with_tags (Some l) t).

Definition tcase_matching_tag (tc : loc) (check_for : option loc) : M world bool :=
  match check_for with
  | None => mret false
  | Some cf =>
    r ← list_for (R:=unit) (taglist_ptr cf) (fun _ =>
      t ← get_tcase tc;
      tl ← deref (tags t);
      list_for (taglist_ptr tl) (fun have =>
        want ← check_list_val (Some (taglist_ptr cf));
        want ← deref want;
        mret (if decide (have = want) then Some tt else None)));
    mret (if r is Some _ then true else false)
  end.

(** ** Suites *)

Definition suite_create (name : option string) : M world loc :=
  emalloc 16 ;;
  l ← check_list_create;
  a ← new_loc;
  store_suite a (mkSuite (default "" name) l) ;;
  mret a.

Definition suite_tcase (s : option loc) (tcname : string) : M world bool :=
  match s with
  | None => mret false
  | Some s =>
    r ← list_for (tclst_ptr s) (fun a =>
      tc ← get_tcase a;
      mret (if decide (tcname = tc_name tc) then Some tt else None));
    mret (if r is Some _ then true else false)
  end.

Definition tcase_free (tc : loc) : M world unit :=
  apply_free (tflst_ptr tc) ;;
  apply_free (unch_sflst_ptr tc) ;;
  apply_free (ch_sflst_ptr tc) ;;
  apply_free (unch_tflst_ptr tc) ;;
  apply_free (ch_tflst_ptr tc) ;;
  t ← get_tcase tc;
  match tags t with Some a => apply_free (taglist_ptr a) | None => mret tt end ;;
  check_list_free (tags t) ;;
  free_tcase tc.

Definition suite_free (s : option loc) : M world unit :=
  match s with
  | None => mret tt
  | Some s =>
    list_for (R:=unit) (tclst_ptr s) (fun tc => tcase_free tc ;; mret None) ;;
    free_suite s
  end.

Definition suite_add_tcase (s tc : option loc) : M world unit :=
  match s, tc with
  | Some s, Some tc =>
    c ← check_list_contains (tclst_ptr s) tc;
    if (c : bool) then mret tt else check_list_add_end (Some (tclst_ptr s)) tc
  | _, _ => mret tt
  end.

(** ** Test cases *)

(** A value of the environment read as a factor or a number of seconds: the whole of it must
    be a number, and not negative. *)
Definition env_double (name : string) : M world (option spec_float) :=
  e ← getenv name;
  mret (match e with
        | None => None
        | Some e =>
          let '(tmp, n) := strtod e in
          if f64_nonneg tmp && negb (n =? 0)%nat && (n =? String.length e)%nat then Some tmp
          else None
        end).

Definition timespec_of (t : spec_float) : M world timespec :=
  sec ← to_int64 (floor t);
  nsec ← to_int64 (f64_mul (f64_sub t (floor t)) (f64_of_int NANOS_PER_SECONDS));
  mret (mkTimespec sec nsec).

Definition tcase_create (name : option string) : M world loc :=
  emalloc 72 ;;
  d ← env_double "CK_DEFAULT_TIMEOUT";
  let timeout_sec := default (f64_of_int DEFAULT_TIMEOUT) d in
  m ← env_double "CK_TIMEOUT_MULTIPLIER";
  let timeout_sec := match m with Some tmp => f64_mul timeout_sec tmp | None => timeout_sec end in
  ts ← timespec_of timeout_sec;
  l1 ← check_list_create;
  l2 ← check_list_create;
  l3 ← check_list_create;
  l4 ← check_list_create;
  l5 ← check_list_create;
  l6 ← check_list_create;
  tg ← new_loc;
  store_taglist tg l6 ;;
  a ← new_loc;
  store_tcase a (mkTCase (default "" name) ts l1 l2 l4 l3 l5 (Some tg)) ;;
  mret a.

Definition tcase_set_timeout (tc : loc) (timeout : spec_float) : M world unit :=
  if f64_nonneg timeout then
    m ← env_double "CK_TIMEOUT_MULTIPLIER";
    let timeout := match m with Some tmp => f64_mul timeout tmp | None => timeout end in
    ts ← timespec_of timeout;
    t ← get_tcase tc;
    store_tcase tc (with_timeout ts t)
  else mret tt.

Definition tcase_add_test_ (tc : option loc) (ttest : option TTest)
    (signal allowed_exit_value start end_ : Z) : M world unit :=
  match tc, ttest with
  | Some tc, Some ttest =>
    emalloc 24 ;;
    check_list_add_end (Some (tflst_ptr tc))
      (mkTF ttest start end_ signal (s8 (Z.land WEXITSTATUS_MASK allowed_exit_value)))
  | _, _ => mret tt
  end.

Definition fixture_create (fun_ : SFun) (ischecked : Z) : M world Fixture :=
  emalloc 16 ;; mret (mkFixture ischecked fun_).

Definition tcase_add_fixture (tc : loc) (setup teardown : option SFun) (ischecked : Z)
    : M world unit :=
  match setup with
  | Some setup =>
    f ← fixture_create setup ischecked;
    if decide (ischecked <> 0) then check_list_add_end (Some (ch_sflst_ptr tc)) f
    else check_list_add_end (Some (unch_sflst_ptr tc)) f
  | None => mret tt
  end ;;
  match teardown with
  | Some teardown =>
    f ← fixture_create teardown ischecked;
    if decide (ischecked <> 0) then check_list_add_front (Some (ch_tflst_ptr tc)) f
    else check_list_add_front (Some (unch_tflst_ptr tc)) f
  | None => mret tt
  end.

Definition tcase_add_unchecked_fixture (tc : loc) (setup teardown : option SFun) : M world unit :=
  tcase_add_fixture tc setup teardown 0.
Definition tcase_add_checked_fixture (tc : loc) (setup teardown : option SFun) : M world unit :=
  tcase_add_fixture tc setup teardown 1.

(** ** Called by test functions *)

Definition tcase_fn_start (fname file : string) (line : Z) : M world unit :=
  send_ctx_info CK_CTX_TEST ;;
  send_loc_info file line ;;
  modify (upd_statics (put_current_test_name (Some fname))).

Definition tcase_name : M world (option string) := gets (fun w => current_test_name (the_statics w)).

Definition mark_point_ (file : string) (line : Z) : M world unit := send_loc_info file line.

(** [msg] is the message with its arguments filled in; the process exits or unwinds. *)
Definition ck_assert_failed_ (file : string) (line : Z) (expr : string) (msg : option string)
    : M world unit :=
  send_loc_info file line ;;
  let to_send := match msg with Some m => fst (vsnprintf BUFSIZ m) | None => expr end in
  send_failure_info to_send ;;
  st ← cur_fork_status;
  if decide (st = CK_FORK) then stop (Exit 1) else stop Jump.

(** ** Runners *)

(** The result list is assigned last; until then its field holds no list. *)
Definition srunner_create (s : option loc) : M world loc :=
  emalloc 72 ;;
  l ← check_list_create;
  a ← new_loc;
  store_srunner a (mkSRunner l (mkTestStats 0 0 0) (mkList 0 0 0 0 []) None None None None
                     CK_FORK_GETENV) ;;
  match s with Some s => check_list_add_end (Some (slst_ptr a)) s | None => mret tt end ;;
  emalloc 12 ;;
  r ← check_list_create;
  sr ← get_srunner a;
  store_srunner a (with_resultlst r sr) ;;
  mret a.

Definition srunner_add_suite (sr : loc) (s : option loc) : M world unit :=
  match s with
  | None => mret tt
  | Some s => check_list_add_end (Some (slst_ptr sr)) s
  end.

Definition srunner_free (sr : option loc) : M world unit :=
  match sr with
  | None => mret tt
  | Some sr =>
    list_for (R:=unit) (slst_ptr sr) (fun s => suite_free (Some s) ;; mret None) ;;
    list_for (R:=unit) (resultlst_ptr sr) (fun _ => mret None) ;;
    free_srunner sr
  end.

Definition srunner_ntests_failed (sr : loc) : M world Z :=
  r ← get_srunner sr; mret (n_failed (stats r) + n_errors (stats r)).
Definition srunner_ntests_run (sr : loc) : M world Z :=
  r ← get_srunner sr; mret (n_checked (stats r)).

(** trarray[i++] = tr, in an array of [size] elements of which i are filled *)
Definition array_push {A} (size : Z) (x : A) : M (world * list A) unit :=
  arr ← get_local;
  if decide (Z.of_nat (length arr) < size) then set_local (arr ++ [x]) else fault.

(** The array, filled up to i. *)
Definition srunner_failures (sr : loc) : M world (list TestResult) :=
  n ← srunner_ntests_failed sr;
  emalloc (PTR_SIZE * n) ;;
  '(_, arr) ← with_local [] (list_for (R:=unit) (lift_ptr (resultlst_ptr sr)) (fun tr =>
    (if non_pass (rtype tr) then array_push n tr else mret tt) ;; mret None));
  mret arr.

Definition srunner_results (sr : loc) : M world (list TestResult) :=
  n ← srunner_ntests_run sr;
  emalloc (PTR_SIZE * n) ;;
  '(_, arr) ← with_local [] (list_for (R:=unit) (lift_ptr (resultlst_ptr sr)) (fun tr =>
    array_push n tr ;; mret None));
  mret arr.

(** ** Accessors *)

Definition tr_msg_ (tr : TestResult) : option string := tr_msg tr.
Definition tr_lno (tr : TestResult) : Z := tr_line tr.
Definition tr_lfile (tr : TestResult) : option string := tr_file tr.
Definition tr_rtype_ (tr : TestResult) : test_result := rtype tr.
Definition tr_ctx_ (tr : TestResult) : ck_result_ctx := tr_ctx tr.
Definition tr_tcname_ (tr : TestResult) : option string := tr_tcname tr.
Definition tr_tname_ (tr : TestResult) : option string := tr_tname tr.

(** tr_free releases the file name, the message and the result. *)
End Core.
