(* ===== verification/CoreSpec.v ===== *)
(** * Suites, test cases and runners: the specification of src/check.c

    Reference definitions (words of a tag string, selection, statistics) and what each
    operation does to the lists of the heap. *)
From S2P Require Import Prelude Error Types CList Loops Pack World Str Result Msg MsgSpec Core.

(** ** The words of a string *)

(** The pieces between spaces, some of them empty. *)
Fixpoint pieces (s : string) : list string :=
  match s with
  | EmptyString => [""]
  | String c s =>
    if decide (c = SPACE) then "" :: pieces s
    else match pieces s with t :: ts => String c t :: ts | [] => [] end
  end.
Definition words (s : string) : list string := filter (fun t => t <> "") (pieces s).

Lemma pieces_cons s : exists t ts, pieces s = t :: ts.
Proof.
  induction s as [| c s (t & ts & E)]; simpl; [by eexists _, _ |].
  case_decide; [by eexists _, _ |]. rewrite E. by eexists _, _.
Qed.

Lemma words_space s : words (String SPACE s) = words s.
Proof. unfold words. cbn [pieces]. rewrite decide_True by done. by rewrite filter_cons_False by auto. Qed.

Lemma words_skip s : words (skip_delim s) = words s.
Proof.
  induction s as [| c s IH]; [done |]. cbn [skip_delim]. case_decide as Hc; [| done].
  subst. by rewrite words_space.
Qed.

(** The first piece of a string is its first token, up to the space. *)
Lemma pieces_span s : exists ts, pieces s = fst (span_token s) :: ts /\
  filter (fun t => t <> "") ts = words (snd (span_token s)).
Proof.
  induction s as [| c s (ts & E & Hts)]; [by exists [] |]. cbn [pieces span_token].
  case_decide; [by eexists |]. rewrite E. destruct (span_token s) as [t r]. cbn in *. by exists ts.
Qed.

Lemma skip_delim_head c s s' : skip_delim s = String c s' -> c <> SPACE.
Proof.
  induction s as [| d s IH]; [done |]. cbn [skip_delim]. case_decide as Hd; [apply IH |].
  by intros [= <- _].
Qed.

Lemma words_strtok s :
  words s = match strtok s with None => [] | Some (t, r) => t :: words r end.
Proof.
  rewrite <- words_skip. unfold strtok. destruct (skip_delim s) as [| c s'] eqn:E; [done |].
  pose proof (skip_delim_head _ _ _ E) as Hc.
  destruct (pieces_span (String c s')) as (ts & Ep & Hts). unfold words. rewrite Ep.
  cbn [span_token] in *. rewrite decide_False in * by done.
  destruct (span_token s') as [t r]. cbn [fst snd] in *.
  rewrite filter_cons_True by done. by rewrite Hts.
Qed.

Lemma span_token_length s :
  (String.length (fst (span_token s)) + String.length (snd (span_token s)) <= String.length s)%nat.
Proof.
  induction s as [| c s IH]; [done |]. cbn [span_token]. case_decide; [simpl; lia |].
  destruct (span_token s). simpl in *. lia.
Qed.

Lemma skip_delim_length s : (String.length (skip_delim s) <= String.length s)%nat.
Proof. induction s as [| c s IH]; simpl; [lia |]. case_decide; simpl; lia. Qed.

Lemma strtok_length s t r : strtok s = Some (t, r) -> (String.length r < String.length s)%nat.
Proof.
  unfold strtok. pose proof (skip_delim_length s) as Hl.
  destruct (skip_delim s) as [| c s'] eqn:E; [done |]. pose proof (skip_delim_head _ _ _ E) as Hc.
  cbn [span_token]. rewrite decide_False by done.
  pose proof (span_token_length s'). destruct (span_token s') as [t' r']. intros [= <- <-].
  simpl in *. lia.
Qed.

Lemma words_length s : (length (words s) <= String.length s)%nat.
Proof.
  remember (String.length s) as n eqn:En. revert s En.
  induction n as [n IH] using lt_wf_ind. intros s ->. rewrite words_strtok.
  destruct (strtok s) as [[t r] |] eqn:E; [| simpl; lia].
  pose proof (strtok_length _ _ _ E). specialize (IH _ H r eq_refl). simpl. lia.
Qed.

(** ** Lists of tags *)

Section Tags.
Context {plat : Platform} {plat_ok : PlatformOK}.

Lemma get_suite_run s x w : suites (the_heap w) !! s = Some x -> get_suite s w = (Ret x, w).
Proof.
  intros H. unfold get_suite. rewrite (bind_ret _ _ _ _ _ (gets_run _ _)). by apply deref_Some.
Qed.
Lemma get_tcase_run tc t w : tcases (the_heap w) !! tc = Some t -> get_tcase tc w = (Ret t, w).
Proof.
  intros H. unfold get_tcase. rewrite (bind_ret _ _ _ _ _ (gets_run _ _)). by apply deref_Some.
Qed.

(** The heap with the list of tags [l] at [a]. *)
Definition with_taglist (a : loc) (l : List string) : world -> world :=
  upd_heap (fun h => put_taglists (<[a := l]> (taglists h)) h).

Lemma with_taglist_twice a l l' w : with_taglist a l (with_taglist a l' w) = with_taglist a l w.
Proof.
  unfold with_taglist, upd_heap, on_proc, the_heap, put_taglists. cbn. by rewrite insert_insert_eq.
Qed.
Lemma look_taglist a w : look (taglist_ptr a) w = taglists (the_heap w) !! a.
Proof. cbn. by destruct (taglists (the_heap w) !! a). Qed.
Lemma with_taglist_look a l w : taglists (the_heap (with_taglist a l w)) !! a = Some l.
Proof. apply lookup_insert_eq. Qed.
Lemma put_taglist a l w : is_Some (taglists (the_heap w) !! a) ->
  put (taglist_ptr a) l w = with_taglist a l w.
Proof. intros [l' H]. unfold taglist_ptr, field_ptr, with_taglist, upd_heap. cbn. by rewrite H. Qed.

Lemma add_tags_run a fuel : forall tags w xs,
  holds (taglist_ptr a) w xs -> (String.length tags < fuel)%nat ->
  Z.of_nat (length xs) + strlen tags <= INT_MAX ->
  exists l, add_tags fuel a tags w = (Ret tt, with_taglist a l w) /\
    holds (taglist_ptr a) (with_taglist a l w) (xs ++ words tags).
Proof.
  induction fuel as [| fuel IH]; intros tags w xs Hh Hf Hb; [lia |]. cbn [add_tags].
  rewrite words_strtok. pose proof Hh as (l0 & q & Hl0 & Hr0). rewrite look_taglist in Hl0.
  assert (Hid : with_taglist a l0 w = w).
  { rewrite <- put_taglist by eauto. apply put_look. by rewrite look_taglist. }
  destruct (strtok tags) as [[t r] |] eqn:E.
  2: { exists l0. by rewrite Hid, app_nil_r. }
  rewrite (bind_ret _ _ _ _ _ (strdup_run _ _)). erewrite bind_ret by by apply deref_Some.
  pose proof (strtok_length _ _ _ E) as Hlt. unfold strlen in Hb.
  destruct (add_end_holds (taglist_ptr a) w xs t Hh ltac:(lia)) as (l1 & E1 & Hh1).
  rewrite (bind_ret _ _ _ _ _ E1). rewrite put_taglist in * by eauto.
  destruct (IH r _ _ Hh1) as (l2 & E2 & Hh2).
  { lia. } { rewrite length_app. unfold strlen. simpl. lia. }
  exists l2. rewrite E2. rewrite with_taglist_twice in *. by rewrite <- app_assoc in Hh2.
Qed.

(** The new list of the words of a string, at the next address. *)
Definition new_tags (l : List string) (w : world) : world :=
  with_taglist (next_loc (the_heap w)) l (upd_heap bump_loc w).

Definition words_opt (s : option string) : list string := from_option words [] s.

Lemma tag_string_to_list_run s w :
  (forall t, s = Some t -> strlen t <= INT_MAX) ->
  exists l, tag_string_to_list s w = (Ret (next_loc (the_heap w)), new_tags l w) /\
    exists q, lrep l (mkAlist (words_opt s) q).
Proof.
  intros Hs. unfold tag_string_to_list.
  destruct (create_spec (A:=string) w) as [(l & El & Hrl) | [w' E]].
  2: { exfalso. revert E. unfold check_list_create.
       rewrite !(bind_ret _ _ _ _ _ (emalloc_run _ _)). done. }
  rewrite (bind_ret _ _ _ _ _ El). unfold new_loc. rewrite bind_assoc.
  rewrite (bind_ret _ _ _ _ _ (gets_run _ _)). rewrite bind_assoc.
  rewrite (bind_ret _ _ _ _ _ (modify_run _ _)). rewrite (bind_ret _ _ _ _ _ (mret_run _ _)).
  set (a := next_loc (the_heap w)).
  assert (Est : store_taglist a l (upd_heap bump_loc w) = (Ret tt, new_tags l w)) by done.
  rewrite (bind_ret _ _ _ _ _ Est).
  assert (Hh : holds (taglist_ptr a) (new_tags l w) []).
  { exists l, None. rewrite look_taglist. split; [apply with_taglist_look | exact Hrl]. }
  destruct s as [t |]; cbn [words_opt from_option].
  2: { exists l. split; [done | by exists None]. }
  rewrite (bind_ret _ _ _ _ _ (strdup_run _ _)). erewrite bind_ret by by apply deref_Some.
  destruct (add_tags_run a (1 + String.length t) t _ [] Hh) as (l2 & E2 & l3 & q & Hl3 & Hr3).
  { lia. } { specialize (Hs t eq_refl). simpl. lia. }
  rewrite (bind_ret _ _ _ _ _ E2). unfold new_tags in *. rewrite with_taglist_twice in *.
  exists l2. split; [done |]. exists q. rewrite look_taglist, with_taglist_look in Hl3. by simplify_eq.
Qed.
End Tags.

(** ** Worlds that differ by the cursors of the lists of tags

    Matching and selection move these cursors and nothing else; no reader of a list looks at
    where its cursor was left. *)
Record tags_kept (w w' : world) : Prop := mkTagsKept {
  tk_world : exists x, w' = upd_heap (put_taglists x) w;
  tk_holds : forall a xs, holds (taglist_ptr a) w xs <-> holds (taglist_ptr a) w' xs;
  tk_dom : forall a, taglists (the_heap w) !! a = None <-> taglists (the_heap w') !! a = None
}.

Lemma put_taglists_twice x y w :
  upd_heap (put_taglists x) (upd_heap (put_taglists y) w) = upd_heap (put_taglists x) w.
Proof. done. Qed.
Lemma put_taglists_id w : upd_heap (put_taglists (taglists (the_heap w))) w = w.
Proof.
  destruct w as [[? ? ? h ? ? ? ?] ?]. unfold upd_heap, on_proc, the_heap. cbn. by destruct h.
Qed.

#[export] Instance tags_kept_equiv : Equivalence tags_kept.
Proof.
  split.
  - intros w. split; [| done | done]. exists (taglists (the_heap w)). by rewrite put_taglists_id.
  - intros w w' [[x ->] H D]. split; [| intros a xs; by rewrite (H a xs) | intros a; by rewrite D].
    exists (taglists (the_heap w)). by rewrite put_taglists_twice, put_taglists_id.
  - intros w1 w2 w3 [[x ->] H1 D1] [[y ->] H2 D2]. split; [by exists y | |].
    + intros a xs. by rewrite H1, H2.
    + intros a. by rewrite D1, D2.
Qed.

#[export] Instance holds_tags_proper a : Proper (tags_kept ==> eq ==> iff) (holds (taglist_ptr a)).
Proof. intros w w' H xs ? <-. apply H. Qed.

Lemma holds_inj {S A} (p : lptr S A) s xs ys : holds p s xs -> holds p s ys -> xs = ys.
Proof.
  intros (l & q & Hl & Hr) (l' & q' & Hl' & Hr'). rewrite Hl in Hl'. simplify_eq.
  destruct Hr, Hr'. cbn [items] in *. apply (inj (fmap Some)). rewrite <- rep_data, <- rep_data0.
  replace (length ys) with (length xs) by lia. done.
Qed.

Section Matching.
Context {plat : Platform} {plat_ok : PlatformOK}.

(** A move of the cursor of one list of tags. *)
Lemma put_taglist_kept a l q w xs : holds (taglist_ptr a) w xs -> lrep l (mkAlist xs q) ->
  tags_kept w (put (taglist_ptr a) l w).
Proof.
  intros Hh Hr. pose proof Hh as (l0 & q0 & Hl0 & Hr0). rewrite look_taglist in Hl0.
  rewrite put_taglist by eauto. split; [by eexists | |]; intros b; [intros ys |].
  2: { cbn. destruct (decide (b = a)) as [-> | Hne]; [by rewrite lookup_insert_eq, Hl0 |].
       by rewrite lookup_insert_ne by congruence. }
  destruct (decide (b = a)) as [-> | Hne].
  - assert (Ha : holds (taglist_ptr a) (with_taglist a l w) xs).
    { exists l, q. by rewrite look_taglist, with_taglist_look. }
    split; intros H; [by rewrite (holds_inj _ _ _ _ H Hh) | by rewrite (holds_inj _ _ _ _ H Ha)].
  - unfold holds. rewrite !look_taglist.
    assert (Heq : taglists (the_heap (with_taglist a l w)) !! b = taglists (the_heap w) !! b)
      by (apply lookup_insert_ne; congruence).
    by rewrite Heq.
Qed.

Lemma put_taglist_apart a b l w : a <> b ->
  look (taglist_ptr b) (put (taglist_ptr a) l w) = look (taglist_ptr b) w.
Proof.
  intros Hne. rewrite !look_taglist. unfold taglist_ptr, field_ptr, upd_heap. cbn.
  destruct (taglists (the_heap w) !! a); [| done]. by apply lookup_insert_ne.
Qed.
Lemma kept_tcases w w' : tags_kept w w' -> tcases (the_heap w') = tcases (the_heap w).
Proof. by intros [[x ->] _ _]. Qed.

Lemma head_omap_some {A} (P : A -> bool) xs :
  head (omap (fun v => if P v then Some tt else None) xs) =
  if existsb P xs then Some tt else None.
Proof. induction xs as [| x xs IH]; [done |]. simpl. by destruct (P x). Qed.

(** The inner loop: is [want] among the tags [xs] of the test case? *)
Lemma inner_match_run tl cf xs ys k want w :
  tl <> cf -> holds (taglist_ptr tl) w xs -> at_item (taglist_ptr cf) w ys k -> ys !! k = Some want ->
  exists w', list_for (taglist_ptr tl) (fun have =>
      want ← check_list_val (Some (taglist_ptr cf));
      want ← deref want;
      mret (if decide (have = want) then Some tt else None)) w =
    (Ret (if existsb (fun v => bool_decide (v = want)) xs then Some tt else None), w') /\
    tags_kept w w' /\ look (taglist_ptr cf) w' = look (taglist_ptr cf) w.
Proof.
  intros Hne Hh Hat Hk.
  destruct (list_for_inv (taglist_ptr tl)
    (fun _ t => tags_kept w t /\ look (taglist_ptr cf) t = look (taglist_ptr cf) w)
    (fun v => if bool_decide (v = want) then Some tt else None)
    (fun have => want ← check_list_val (Some (taglist_ptr cf));
      want ← deref want;
      mret (if decide (have = want) then Some tt else None)) xs w Hh) as (w' & j & E & [HI1 HI2] & _ & _).
  - intros j l q t [H1 H2] Ht Hr. split; [| by rewrite put_taglist_apart].
    etrans; [exact H1 |]. by eapply put_taglist_kept.
  - intros j v t Hv [H1 H2] _. exists t.
    erewrite bind_ret by (eapply at_item_val; [eapply at_item_look; [exact H2 | exact Hat] | exact Hk]).
    erewrite bind_ret by by apply deref_Some. rewrite mret_run. split; [| done].
    do 2 f_equal. repeat case_decide; repeat case_bool_decide; done.
  - done.
  - exists w'. by rewrite <- head_omap_some.
Qed.

Definition common (xs ys : list string) : bool :=
  existsb (fun y => existsb (fun x => bool_decide (x = y)) xs) ys.
Lemma common_spec xs ys : common xs ys = true <-> exists y, y ∈ xs /\ y ∈ ys.
Proof.
  unfold common. rewrite existsb_exists. split.
  - intros (y & Hy & (x & Hx & He)%existsb_exists). apply bool_decide_eq_true in He. subst.
    exists y. by rewrite !list_elem_of_In.
  - intros (y & Hx & Hy). rewrite !list_elem_of_In in *. exists y. split; [done |].
    apply existsb_exists. exists y. by rewrite bool_decide_true.
Qed.

Lemma tcase_matching_tag_run tc t tl cf xs ys w :
  tcases (the_heap w) !! tc = Some t -> tags t = Some tl -> tl <> cf ->
  holds (taglist_ptr tl) w xs -> holds (taglist_ptr cf) w ys ->
  exists w', tcase_matching_tag tc (Some cf) w = (Ret (common xs ys), w') /\ tags_kept w w'.
Proof.
  intros Ht Htl Hne Hx Hy. unfold tcase_matching_tag.
  set (body := fun _ : string => t ← get_tcase tc; _).
  destruct (list_for_inv (taglist_ptr cf) (fun _ => tags_kept w)
    (fun y => if existsb (fun x => bool_decide (x = y)) xs then Some tt else None)
    body ys w Hy) as (w' & j & E & HI & _ & _).
  - intros j l q s Hs Hh Hr. etrans; [exact Hs |]. by eapply put_taglist_kept.
  - intros j v s Hv Hs Hat. unfold body, get_tcase. rewrite bind_assoc.
    rewrite (bind_ret _ _ _ _ _ (gets_run _ _)).
    erewrite bind_ret by (apply deref_Some; by rewrite (kept_tcases _ _ Hs)).
    erewrite bind_ret by by apply deref_Some.
    destruct (inner_match_run tl cf xs ys j v s) as (s' & E & Hk & Hlk); try done.
    { by rewrite <- Hs. }
    exists s'. split; [exact E |]. split; [by etrans | done].
  - reflexivity.
  - exists w'. split; [| done]. rewrite (bind_ret _ _ _ _ _ E), mret_run, head_omap_some.
    unfold common. by destruct (existsb _ ys).
Qed.
(** ** Freeing lists of tags *)

Lemma apply_free_put {A} (p : lptr world A) `{!Cell p} w xs : holds p w xs ->
  exists l, apply_free p w = (Ret tt, put p l w) /\ holds p (put p l w) xs.
Proof.
  intros Hh. unfold apply_free, check_list_apply.
  destruct (list_for_reads p (R:=unit) (fun _ => None) (fun v => mret tt ;; mret None) xs w)
    as (l & E & Hh'); [done | done |].
  rewrite omap_none in E. exists l. by rewrite (bind_ret _ _ _ _ _ E), mret_run.
Qed.

Lemma apply_free_run a w xs : holds (taglist_ptr a) w xs ->
  exists w', apply_free (taglist_ptr a) w = (Ret tt, w') /\ tags_kept w w'.
Proof.
  intros Hh. destruct (apply_free_put _ _ _ Hh) as (l & E & Hh'). eexists. split; [exact E |].
  destruct Hh' as (l' & q & Hl' & Hr). rewrite look_put in Hl'
    by (destruct Hh as (l0 & q0 & Hl0 & _); eauto). injection Hl' as ->.
  by eapply put_taglist_kept.
Qed.

Definition without_tags (a : loc) : world -> world :=
  upd_heap (fun h => put_taglists (delete a (taglists h)) h).

Lemma check_list_free_run a w xs : holds (taglist_ptr a) w xs ->
  check_list_free (Some a) w = (Ret tt, without_tags a w).
Proof.
  intros (l & q & Hl & _). unfold check_list_free. by rewrite (bind_ret _ _ _ _ _ (load_run _ _ _ Hl)).
Qed.

Lemma without_tags_holds a b w xs : b <> a -> holds (taglist_ptr b) w xs ->
  holds (taglist_ptr b) (without_tags a w) xs.
Proof.
  intros Hne. apply holds_look. rewrite !look_taglist. by apply lookup_delete_ne.
Qed.
End Matching.

(** ** The lists of a suite and of a test case *)

(** Two lists in different fields of the objects of one region. *)
Lemma field_apart {R A B} (region : heap -> gmap loc R) (put_region : gmap loc R -> heap -> heap)
    (g1 : R -> List A) (s1 : List A -> R -> R) (g2 : R -> List B) (s2 : List B -> R -> R) a b :
  (forall x h, region (put_region x h) = x) -> (forall l r, g2 (s1 l r) = g2 r) ->
  Apart (field_ptr region put_region g1 s1 a) (field_ptr region put_region g2 s2 b).
Proof.
  intros Hreg Hg l w. cbn. unfold the_heap. destruct (region (p_heap (w_proc w)) !! a) as [r |] eqn:E; [| done].
  cbn. rewrite Hreg. destruct (decide (b = a)) as [-> | Hne].
  - rewrite lookup_insert_eq, E. cbn. by rewrite Hg.
  - by rewrite lookup_insert_ne by congruence.
Qed.

(** Whether a list of fixtures is checked, and whether it is a setup list. *)
Definition fixture_ptr (checked setup : bool) : loc -> lptr world Fixture :=
  match checked, setup with
  | true, true => ch_sflst_ptr
  | true, false => ch_tflst_ptr
  | false, true => unch_sflst_ptr
  | false, false => unch_tflst_ptr
  end.
#[export] Instance fixture_cell c s a : Cell (fixture_ptr c s a).
Proof. destruct c, s; apply _. Qed.
Lemma fixture_apart c s c' s' a b : (c, s) <> (c', s') -> Apart (fixture_ptr c s a) (fixture_ptr c' s' b).
Proof.
  destruct c, s, c', s'; intros H; try (by destruct H); by apply field_apart.
Qed.
Lemma fixture_tests_apart c s a b : Apart (fixture_ptr c s a) (tflst_ptr b).
Proof. destruct c, s; by apply field_apart. Qed.

(** A call that registers fixtures: whether checked, the setup and the teardown. *)
Definition registration : Type := bool * option SFun * option SFun.
Definition flag (b : bool) : Z := if b then 1 else 0.

(** The fixtures of one kind, in the order in which they run. *)
Definition setups (c : bool) (rg : registration) : list Fixture :=
  let '(c', s, _) := rg in
  if decide (c' = c) then mkFixture (flag c) <$> option_list s else [].
Definition teardowns (c : bool) (rg : registration) : list Fixture :=
  let '(c', _, t) := rg in
  if decide (c' = c) then mkFixture (flag c) <$> option_list t else [].
Definition in_order (c setup : bool) (rgs : list registration) : list Fixture :=
  if setup then concat (setups c <$> rgs) else concat (teardowns c <$> reverse rgs).

Section Fixtures.
Context {plat : Platform} {plat_ok : PlatformOK}.

Definition register (tc : loc) (rg : registration) : M world unit :=
  let '(c, s, t) := rg in
  if (c : bool) then tcase_add_checked_fixture tc s t else tcase_add_unchecked_fixture tc s t.
Fixpoint register_all (tc : loc) (rgs : list registration) : M world unit :=
  match rgs with [] => mret tt | rg :: rgs => register tc rg ;; register_all tc rgs end.

(** The four lists of fixtures of a test case, and its tests. *)
Definition fixtures_are (tc : loc) (w : world) (xs : bool -> bool -> list Fixture) (ts : list TF) : Prop :=
  (forall c s, holds (fixture_ptr c s tc) w (xs c s)) /\ holds (tflst_ptr tc) w ts.

Lemma put_fixture_are tc w xs ts c s l ys : fixtures_are tc w xs ts ->
  holds (fixture_ptr c s tc) (put (fixture_ptr c s tc) l w) ys ->
  fixtures_are tc (put (fixture_ptr c s tc) l w)
    (fun c' s' => if decide ((c', s') = (c, s)) then ys else xs c' s') ts.
Proof.
  intros [Hx Ht] Hy. split.
  - intros c' s'. case_decide as Hd; [by injection Hd as -> -> |].
    apply (holds_look (fixture_ptr c' s' tc) w); [| apply Hx].
    apply fixture_apart. congruence.
  - apply (holds_look (tflst_ptr tc) w); [apply fixture_tests_apart | exact Ht].
Qed.

Lemma fixtures_are_ext tc w xs ys ts : (forall c s, xs c s = ys c s) ->
  fixtures_are tc w xs ts -> fixtures_are tc w ys ts.
Proof. intros E [H Ht]. split; [intros c s; by rewrite <- E | done]. Qed.

(** One half of a registration: a setup goes to the end, a teardown to the front. *)
Definition add_setup (tc : loc) (c : bool) (f : option SFun) : M world unit :=
  match f with
  | Some f => g ← fixture_create f (flag c);
    if decide (flag c <> 0) then check_list_add_end (Some (ch_sflst_ptr tc)) g
    else check_list_add_end (Some (unch_sflst_ptr tc)) g
  | None => mret tt
  end.
Definition add_teardown (tc : loc) (c : bool) (f : option SFun) : M world unit :=
  match f with
  | Some f => g ← fixture_create f (flag c);
    if decide (flag c <> 0) then check_list_add_front (Some (ch_tflst_ptr tc)) g
    else check_list_add_front (Some (unch_tflst_ptr tc)) g
  | None => mret tt
  end.
Lemma register_halves tc c f g w : register tc (c, f, g) w = (add_setup tc c f ;; add_teardown tc c g) w.
Proof. by destruct c. Qed.

Lemma fixture_create_run f n w : fixture_create f n w = (Ret (mkFixture n f), w).
Proof. unfold fixture_create. by rewrite (bind_ret _ _ _ _ _ (emalloc_run _ _)). Qed.

Lemma holds_same {A} (p : lptr world A) `{!Cell p} w xs : holds p w xs ->
  exists l, put p l w = w.
Proof. intros (l & q & Hl & _). exists l. by apply put_look. Qed.

Lemma add_setup_run tc w xs c f : holds (fixture_ptr c true tc) w xs -> Z.of_nat (length xs) < INT_MAX ->
  exists l, add_setup tc c f w = (Ret tt, put (fixture_ptr c true tc) l w) /\
    holds (fixture_ptr c true tc) (put (fixture_ptr c true tc) l w) (xs ++ (mkFixture (flag c) <$> option_list f)).
Proof.
  intros Hx Hb. destruct f as [f |]; cbn [option_list add_setup fmap list_fmap].
  - rewrite (bind_ret _ _ _ _ _ (fixture_create_run _ _ _)).
    destruct (add_end_holds (fixture_ptr c true tc) w xs (mkFixture (flag c) f) Hx Hb) as (l & E & Hl).
    exists l. split; [destruct c; exact E | exact Hl].
  - rewrite app_nil_r. destruct (holds_same _ _ _ Hx) as [l El]. exists l. by rewrite El.
Qed.
Lemma add_teardown_run tc w xs c f : holds (fixture_ptr c false tc) w xs -> Z.of_nat (length xs) < INT_MAX ->
  exists l, add_teardown tc c f w = (Ret tt, put (fixture_ptr c false tc) l w) /\
    holds (fixture_ptr c false tc) (put (fixture_ptr c false tc) l w) ((mkFixture (flag c) <$> option_list f) ++ xs).
Proof.
  intros Hx Hb. destruct f as [f |]; cbn [option_list add_teardown fmap list_fmap].
  - rewrite (bind_ret _ _ _ _ _ (fixture_create_run _ _ _)).
    destruct (add_front_holds (fixture_ptr c false tc) w xs (mkFixture (flag c) f) Hx Hb) as (l & E & Hl).
    exists l. split; [destruct c; exact E | exact Hl].
  - destruct (holds_same _ _ _ Hx) as [l El]. exists l. by rewrite El.
Qed.

(** What a registration leaves: setups at the end, teardowns at the front. *)
Definition after (rgs : list registration) (xs : bool -> bool -> list Fixture) (c s : bool)
    : list Fixture :=
  if s then xs c s ++ in_order c s rgs else in_order c s rgs ++ xs c s.

(** The two halves make the whole. *)
Lemma after_halves xs c f g c' s' :
  (if decide ((c', s') = (c, false)) then (mkFixture (flag c) <$> option_list g) ++ xs c false
   else if decide ((c', s') = (c, true)) then xs c true ++ (mkFixture (flag c) <$> option_list f) else xs c' s')
  = after [(c, f, g)] xs c' s'.
Proof.
  unfold after, in_order, setups, teardowns. destruct c, c', s'; cbn; by rewrite ?app_nil_r.
Qed.

Lemma register_run tc w xs ts rg : fixtures_are tc w xs ts ->
  (forall c s, Z.of_nat (length (xs c s)) < INT_MAX) ->
  exists w', register tc rg w = (Ret tt, w') /\ fixtures_are tc w' (after [rg] xs) ts.
Proof.
  intros Hx Hb. destruct rg as [[c f] g]. rewrite register_halves.
  destruct (add_setup_run tc w _ c f (proj1 Hx c true) (Hb c true)) as (l1 & E1 & H1).
  rewrite (bind_ret _ _ _ _ _ E1). pose proof (put_fixture_are _ _ _ _ _ _ _ _ Hx H1) as Hx1. cbv beta in Hx1.
  pose proof (proj1 Hx1 c false) as Ht. cbv beta in Ht. rewrite decide_False in Ht by congruence.
  destruct (add_teardown_run tc _ _ c g Ht (Hb c false)) as (l2 & E2 & H2).
  eexists. split; [exact E2 |].
  eapply fixtures_are_ext; [| exact (put_fixture_are _ _ _ _ _ _ _ _ Hx1 H2)].
  intros c' s'. apply after_halves.
Qed.

Lemma after_cons rg rgs xs c s : after rgs (after [rg] xs) c s = after (rg :: rgs) xs c s.
Proof.
  unfold after, in_order. destruct s; cbn [fmap list_fmap concat].
  - by rewrite app_nil_r, <- app_assoc.
  - rewrite (reverse_cons rgs rg), fmap_app, concat_app. cbn. by rewrite !app_nil_r, <- app_assoc.
Qed.

Lemma after_one_length rg xs c s : (length (after [rg] xs c s) <= 1 + length (xs c s))%nat.
Proof.
  destruct rg as [[c' f] g]. unfold after, in_order, setups, teardowns.
  destruct s; cbn; rewrite app_nil_r, length_app; case_decide; rewrite ?length_fmap;
    [destruct f | | destruct g |]; simpl; lia.
Qed.

Lemma register_all_run tc ts rgs : forall w xs, fixtures_are tc w xs ts ->
  (forall c s, Z.of_nat (length (xs c s)) + Z.of_nat (length rgs) <= INT_MAX) ->
  exists w', register_all tc rgs w = (Ret tt, w') /\ fixtures_are tc w' (after rgs xs) ts.
Proof.
  induction rgs as [| rg rgs IH]; intros w xs Hx Hb.
  - exists w. split; [done |]. eapply fixtures_are_ext; [| exact Hx]. intros c s.
    unfold after, in_order. destruct s; simpl; by rewrite ?app_nil_r.
  - cbn [register_all length] in *.
    destruct (register_run tc w xs ts rg Hx) as (w1 & E1 & H1).
    { intros c s. specialize (Hb c s). lia. }
    rewrite (bind_ret _ _ _ _ _ E1). destruct (IH w1 _ H1) as (w2 & E2 & H2).
    { intros c s. pose proof (after_one_length rg xs c s). specialize (Hb c s). lia. }
    exists w2. split; [exact E2 |]. eapply fixtures_are_ext; [| exact H2]. intros c s. apply after_cons.
Qed.
End Fixtures.

(** ** Adding test cases and tests *)

Section Adding.
Context {plat : Platform} {plat_ok : PlatformOK}.

Lemma suite_add_tcase_run s tc w tcs : holds (tclst_ptr s) w tcs ->
  Z.of_nat (length tcs) < INT_MAX ->
  exists l, suite_add_tcase (Some s) (Some tc) w = (Ret tt, put (tclst_ptr s) l w) /\
    holds (tclst_ptr s) (put (tclst_ptr s) l w) (if decide (tc ∈ tcs) then tcs else tcs ++ [tc]).
Proof.
  intros Hh Hb. unfold suite_add_tcase.
  destruct (list_for_reads (tclst_ptr s) (fun v => if bool_decide (v = tc) then Some tt else None)
    (fun v => mret (if decide (v = tc) then Some tt else None)) tcs w) as (l & E & Hl); [| done |].
  { intros l v _. rewrite mret_run. do 2 f_equal. by case_decide; case_bool_decide. }
  assert (Ec : check_list_contains (tclst_ptr s) tc w =
    (Ret (bool_decide (tc ∈ tcs)), put (tclst_ptr s) l w)).
  { unfold check_list_contains. rewrite (bind_ret _ _ _ _ _ E), mret_run, head_omap_some.
    do 2 f_equal. case_bool_decide as Hin.
    - rewrite (proj2 (existsb_exists _ _)); [done |]. exists tc. rewrite <- list_elem_of_In.
      split; [done | by apply bool_decide_true].
    - destruct (existsb _ tcs) eqn:Ex; [| done]. apply existsb_exists in Ex as (v & Hv & He).
      apply bool_decide_eq_true in He. subst. by rewrite <- list_elem_of_In in Hv. }
  rewrite (bind_ret _ _ _ _ _ Ec). case_bool_decide as Hin.
  - rewrite decide_True by done. by exists l.
  - rewrite decide_False by done.
    destruct (add_end_holds (tclst_ptr s) _ tcs tc Hl Hb) as (l2 & E2 & Hl2).
    rewrite put_put in *. by exists l2.
Qed.

(** Exit statuses are kept as a signed byte. *)
Lemma allowed_exit_mod v : s8 (Z.land WEXITSTATUS_MASK v) = s8 (v mod 256).
Proof. unfold WEXITSTATUS_MASK. change 255 with (Z.ones 8). by rewrite Z.land_comm, Z.land_ones by lia. Qed.

Lemma tcase_add_test_run tc t sig allowed st en w ts : holds (tflst_ptr tc) w ts ->
  Z.of_nat (length ts) < INT_MAX ->
  exists l, tcase_add_test_ (Some tc) (Some t) sig allowed st en w = (Ret tt, put (tflst_ptr tc) l w) /\
    holds (tflst_ptr tc) (put (tflst_ptr tc) l w) (ts ++ [mkTF t st en sig (s8 (allowed mod 256))]).
Proof.
  intros Hh Hb. unfold tcase_add_test_. rewrite (bind_ret _ _ _ _ _ (emalloc_run _ _)).
  rewrite allowed_exit_mod. by apply (add_end_holds (tflst_ptr tc) w ts).
Qed.
End Adding.
