(* ===== verification/Alike.v ===== *)
(** * Heaps that differ by the cursors of their lists

    A run moves the cursors of the lists of suites, test cases, fixtures and tags, and adds to
    the results of its runner; [heap_alike] is what it leaves as it was. *)
From S2P Require Import Prelude Error Types CList Loops Pack World Str Result Msg MsgSpec Core.
From S2P Require Import CoreSpec.

(** The list structure [l] has the elements [xs]. *)
Definition lists {A} (l : List A) (xs : list A) : Prop := exists q, lrep l (mkAlist xs q).

Definition fixture_of (checked setup : bool) (t : TCase) : List Fixture :=
  match checked, setup with
  | true, true => ch_sflst t
  | true, false => ch_tflst t
  | false, true => unch_sflst t
  | false, false => unch_tflst t
  end.
Definition with_fixture (checked setup : bool) (l : List Fixture) (t : TCase) : TCase :=
  match checked, setup with
  | true, true => with_ch_sflst l t
  | true, false => with_ch_tflst l t
  | false, true => with_unch_sflst l t
  | false, false => with_unch_tflst l t
  end.

(** ** Lists of a field *)

Section Fields.
Context {R A : Type} (region : heap -> gmap loc R) (put_region : gmap loc R -> heap -> heap).
Context (fget : R -> List A) (fset : List A -> R -> R).
Abbreviation ptr := (field_ptr region put_region fget fset).

Lemma field_look a r w : region (the_heap w) !! a = Some r -> look (ptr a) w = Some (fget r).
Proof. intros Hr. cbn. by rewrite Hr. Qed.

Lemma field_holds a r w xs : region (the_heap w) !! a = Some r -> lists (fget r) xs -> holds (ptr a) w xs.
Proof. intros Hr [q Hq]. exists (fget r), q. cbn. by rewrite Hr. Qed.

Lemma field_put a r l w : region (the_heap w) !! a = Some r ->
  put (ptr a) l w = upd_heap (fun h => put_region (<[a := fset l r]> (region h)) h) w.
Proof. intros Hr. unfold field_ptr, upd_heap. cbn. by rewrite Hr. Qed.

Lemma field_lists a r l w xs `{!Cell (ptr a)} : region (the_heap w) !! a = Some r ->
  holds (ptr a) (put (ptr a) l w) xs -> lists l xs.
Proof.
  intros Hr (l' & q & Hl & Hrep). rewrite look_put in Hl by (cbn; rewrite Hr; eauto).
  injection Hl as <-. by exists q.
Qed.
End Fields.

Lemma fixture_ptr_field ck s :
  fixture_ptr ck s = field_ptr tcases put_tcases (fixture_of ck s) (with_fixture ck s).
Proof. by destruct ck, s. Qed.

Lemma fixture_of_with ck s ck' s' l t :
  fixture_of ck s (with_fixture ck' s' l t) = if decide ((ck, s) = (ck', s')) then l else fixture_of ck s t.
Proof. by destruct ck, s, ck', s'. Qed.

(** ** The same contents *)

Definition same_list {A} (l l' : List A) : Prop := forall xs, lists l xs -> lists l' xs.
#[export] Instance same_list_preorder {A} : PreOrder (@same_list A).
Proof. split; [by intros l xs | intros a b c H1 H2 xs H; auto]. Qed.

Record suite_alike (x x' : Suite) : Prop := mkSuiteAlike {
  sl_name : s_name x' = s_name x;
  sl_cases : same_list (tclst x) (tclst x')
}.
Record tcase_alike (t t' : TCase) : Prop := mkTCaseAlike {
  tl_name : tc_name t' = tc_name t;
  tl_timeout : timeout t' = timeout t;
  tl_tags : tags t' = tags t;
  tl_tests : same_list (tflst t) (tflst t');
  tl_fixtures : forall ck s, same_list (fixture_of ck s t) (fixture_of ck s t')
}.
(** Not the results, the counters and the logs. *)
Record settings_alike (r r' : SRunner) : Prop := mkSettingsAlike {
  rl_suites : same_list (slst r) (slst r');
  rl_log : log_fname r' = log_fname r;
  rl_xml : xml_fname r' = xml_fname r;
  rl_tap : tap_fname r' = tap_fname r;
  rl_fork : fstat r' = fstat r
}.
#[export] Instance suite_alike_preorder : PreOrder suite_alike.
Proof. split; [by intros x; constructor | intros a b c [] []; constructor; [congruence | by etrans]]. Qed.
#[export] Instance tcase_alike_preorder : PreOrder tcase_alike.
Proof.
  split; [by intros t; constructor |]. intros a b c [] [].
  constructor; [congruence.. | by etrans | intros ck s; etrans; eauto].
Qed.
#[export] Instance settings_alike_preorder : PreOrder settings_alike.
Proof. split; [by intros r; constructor | intros a b c [] []; constructor; [by etrans | congruence..]]. Qed.

(** Maps related key by key. *)
Abbreviation map_alike R := (map_Forall2 (fun _ => R)).
Lemma map_alike_lookup {A} (R : A -> A -> Prop) (m m' : gmap loc A) a x : map_alike R m m' ->
  m !! a = Some x -> exists x', m' !! a = Some x' /\ R x x'.
Proof. intros H Hx. specialize (H a). rewrite Hx in H. inversion H; eauto. Qed.
#[export] Instance map_alike_preorder {A} (R : A -> A -> Prop) `{!PreOrder R} :
  PreOrder (map_alike R : gmap loc A -> gmap loc A -> Prop).
Proof.
  split; [intros m a; exact (reflexivity (R := option_Forall2 R) (m !! a)) |].
  intros m1 m2 m3 H1 H2 a. exact (transitivity (R := option_Forall2 R) (H1 a) (H2 a)).
Qed.
Lemma map_alike_insert {A} (R : A -> A -> Prop) `{!PreOrder R} (m : gmap loc A) a x x' :
  m !! a = Some x -> R x x' -> map_alike R m (<[a := x']> m).
Proof.
  intros Hx HR b. destruct (decide (b = a)) as [-> | Hne].
  - rewrite Hx, lookup_insert_eq. by constructor.
  - rewrite lookup_insert_ne by congruence. exact (reflexivity (R := option_Forall2 R) (m !! b)).
Qed.

(** The contents of a heap, but for what a run of the runner [sr] adds to it. *)
Record heap_alike (sr : loc) (h h' : heap) : Prop := mkHeapAlike {
  ha_next : next_loc h' = next_loc h;
  ha_suites : map_alike suite_alike (suites h) (suites h');
  ha_tcases : map_alike tcase_alike (tcases h) (tcases h');
  ha_tags : map_alike same_list (taglists h) (taglists h');
  ha_runner : forall r, srunners h !! sr = Some r -> exists r', srunners h' !! sr = Some r' /\ settings_alike r r';
  ha_others : forall a, a <> sr -> srunners h' !! a = srunners h !! a
}.
#[export] Instance heap_alike_preorder sr : PreOrder (heap_alike sr).
Proof.
  split.
  - intros h. constructor; try done. intros r Hr. by exists r.
  - intros h1 h2 h3 [N1 S1 C1 T1 R1 O1] [N2 S2 C2 T2 R2 O2]. constructor; try by etrans.
    + intros r Hr. destruct (R1 r Hr) as (r' & Hr' & H1), (R2 r' Hr') as (r'' & Hr'' & H2).
      exists r''. split; [done | by etrans].
    + intros a Ha. by rewrite O2, O1.
Qed.

(** Nothing outside the heap that the tests to come depend on has changed. *)
Record steady (w w' : world) : Prop := mkSteady {
  sy_env : env (w_proc w') = env (w_proc w);
  sy_max : max_msg_size (the_statics w') = max_msg_size (the_statics w);
  sy_signals : the_signals w' = the_signals w
}.
#[export] Instance steady_preorder : PreOrder steady.
Proof. split; [by intros w | intros a b c [] []; constructor; congruence]. Qed.
(** ... nor inside. *)
Record still (sr : loc) (w w' : world) : Prop := mkStill {
  st_env : env (w_proc w') = env (w_proc w);
  st_max : max_msg_size (the_statics w') = max_msg_size (the_statics w);
  st_signals : the_signals w' = the_signals w;
  st_heap : heap_alike sr (the_heap w) (the_heap w')
}.
#[export] Instance still_preorder sr : PreOrder (still sr).
Proof. split; [by intros w; constructor | intros a b c [] []; constructor; [congruence.. | by etrans]]. Qed.
Lemma still_steady sr w w' : still sr w w' -> steady w w'.
Proof. by intros []. Qed.

(** ** Lists seen through their pointers *)

Lemma lists_holds {A} (l : List A) (xs : list A) q : lrep l (mkAlist xs q) -> lists l xs.
Proof. by exists q. Qed.

Lemma lists_inj {A} (l : List A) xs ys : lists l xs -> lists l ys -> xs = ys.
Proof.
  intros [q Hr] [q' Hr']. apply (holds_inj (mkLptr (fun _ : unit => Some l) (fun _ u => u)) tt); by eexists l, _.
Qed.

Section Seen.
Context {R A : Type} (region : heap -> gmap loc R) (put_region : gmap loc R -> heap -> heap).
Context (fget : R -> List A) (fset : List A -> R -> R).
Abbreviation ptr := (field_ptr region put_region fget fset).

Lemma field_holds_inv a w xs : holds (ptr a) w xs ->
  exists r, region (the_heap w) !! a = Some r /\ lists (fget r) xs.
Proof.
  intros (l & q & Hl & Hr). cbn in Hl. destruct (region (the_heap w) !! a) as [r |]; [| discriminate].
  injection Hl as <-. exists r. split; [done | by exists q].
Qed.

(** Lists of related objects. *)
Lemma alike_holds (P : R -> R -> Prop) a w w' xs : (forall r r', P r r' -> same_list (fget r) (fget r')) ->
  map_alike P (region (the_heap w)) (region (the_heap w')) -> holds (ptr a) w xs -> holds (ptr a) w' xs.
Proof.
  intros HP Hm Hh. destruct (field_holds_inv _ _ _ Hh) as (r & Hr & Hl).
  destruct (map_alike_lookup _ _ _ _ _ Hm Hr) as (r' & Hr' & H).
  eapply field_holds; [exact Hr' |]. by apply (HP _ _ H).
Qed.

(** Writing a list with the same elements. *)
Lemma same_list_of (l l' : List A) xs q : lists l xs -> lrep l' (mkAlist xs q) -> same_list l l'.
Proof.
  intros H0 H ys H1. exists q. by rewrite (lists_inj _ _ _ H1 H0).
Qed.
End Seen.

(** Writing to one region of the heap. *)
Lemma still_suites sr x w : map_alike suite_alike (suites (the_heap w)) x ->
  still sr w (upd_heap (put_suites x) w).
Proof. intros H. constructor; try done. constructor; try done. intros r Hr. by exists r. Qed.
Lemma still_tcases sr x w : map_alike tcase_alike (tcases (the_heap w)) x ->
  still sr w (upd_heap (put_tcases x) w).
Proof. intros H. constructor; try done. constructor; try done. intros r Hr. by exists r. Qed.
Lemma still_runner sr r r' w : srunners (the_heap w) !! sr = Some r -> settings_alike r r' ->
  still sr w (upd_heap (fun h => put_srunners (<[sr := r']> (srunners h)) h) w).
Proof.
  intros Hr Ha. constructor; try done. constructor; try done.
  - intros r0 Hr0. simplify_eq. exists r'. split; [apply lookup_insert_eq | done].
  - intros a Hne. by apply lookup_insert_ne.
Qed.
Lemma tags_kept_still sr w w' : tags_kept w w' -> still sr w w'.
Proof.
  intros [[x ->] Hh Hd]. constructor; try done. constructor; try done; [| intros r Hr; by exists r].
  intros a. cbn. pose proof (Hd a) as Ha. cbn in Ha.
  destruct (taglists (the_heap w) !! a) as [l |] eqn:El, (x !! a) as [l' |] eqn:El'; try constructor.
  - intros xs [q Hq]. destruct (proj1 (Hh a xs)) as (l2 & q2 & Hl2 & Hq2); [by exists l, q; rewrite look_taglist |].
    rewrite look_taglist in Hl2. cbn in Hl2. simplify_eq. by exists q2.
  - by discriminate (proj2 Ha eq_refl).
  - by discriminate (proj1 Ha eq_refl).
Qed.
Lemma heap_still sr w w' : env (w_proc w') = env (w_proc w) ->
  max_msg_size (the_statics w') = max_msg_size (the_statics w) -> the_signals w' = the_signals w ->
  the_heap w' = the_heap w -> still sr w w'.
Proof. intros H1 H2 H3 H4. constructor; try done. by rewrite H4. Qed.

(** Moving the cursor of a list. *)
Lemma put_cases_still sr s l q w xs : holds (tclst_ptr s) w xs -> lrep l (mkAlist xs q) ->
  still sr w (put (tclst_ptr s) l w).
Proof.
  intros Hh Hr. destruct (field_holds_inv _ _ _ _ _ _ _ Hh) as (x & Hx & Hl). unfold tclst_ptr.
  rewrite (field_put _ _ _ _ _ x l w Hx). apply still_suites. eapply map_alike_insert; [apply _ | exact Hx |].
  constructor; [done | by eapply same_list_of].
Qed.
Lemma moved_cases_still sr s l w xs : holds (tclst_ptr s) w xs -> holds (tclst_ptr s) (put (tclst_ptr s) l w) xs ->
  still sr w (put (tclst_ptr s) l w).
Proof.
  intros Hh Hr. destruct (field_holds_inv _ _ _ _ _ _ _ Hh) as (x & Hx & _).
  destruct (field_lists _ _ _ _ s x l w xs Hx Hr) as [q Hq]. by eapply put_cases_still.
Qed.
Lemma put_tests_still sr tc l q w xs : holds (tflst_ptr tc) w xs -> lrep l (mkAlist xs q) ->
  still sr w (put (tflst_ptr tc) l w).
Proof.
  intros Hh Hr. destruct (field_holds_inv _ _ _ _ _ _ _ Hh) as (x & Hx & Hl). unfold tflst_ptr.
  rewrite (field_put _ _ _ _ _ x l w Hx). apply still_tcases. eapply map_alike_insert; [apply _ | exact Hx |].
  constructor; [done.. | by eapply same_list_of | by intros [] []].
Qed.
Lemma put_fixtures_alike ck b tc l q w xs : holds (fixture_ptr ck b tc) w xs -> lrep l (mkAlist xs q) ->
  exists x, put (fixture_ptr ck b tc) l w = upd_heap (put_tcases x) w /\
    map_alike tcase_alike (tcases (the_heap w)) x.
Proof.
  rewrite fixture_ptr_field. intros Hh Hr. destruct (field_holds_inv _ _ _ _ _ _ _ Hh) as (x & Hx & Hl).
  eexists. rewrite (field_put _ _ _ _ _ x l w Hx). split; [reflexivity |].
  eapply map_alike_insert; [apply _ | exact Hx |]. constructor; try (by destruct ck, b).
  intros ck' b'. rewrite fixture_of_with. case_decide as E; [| done]. injection E as -> ->. by eapply same_list_of.
Qed.
Lemma put_suites_still sr l q w xs : holds (slst_ptr sr) w xs -> lrep l (mkAlist xs q) ->
  still sr w (put (slst_ptr sr) l w).
Proof.
  intros Hh Hr. destruct (field_holds_inv _ _ _ _ _ _ _ Hh) as (x & Hx & Hl). unfold slst_ptr.
  rewrite (field_put _ _ _ _ _ x l w Hx). eapply still_runner; [exact Hx |].
  constructor; try done. by eapply same_list_of.
Qed.

(** ** The suites and test cases of a runner, by their contents *)

Record case := mkCase {
  c_loc : loc;
  c_name : string;
  c_timeout : timespec;
  c_tl : loc;                                      (* the list of its tags *)
  c_tags : list string;
  c_tests : list TF;
  c_fixtures : bool -> bool -> list Fixture        (* whether checked, whether a setup *)
}.
Record suite_desc := mkSuiteDesc { su_loc : loc; su_title : string; su_cases : list case }.

(** The heap holds the test case [c]. *)
Record case_at (w : world) (c : case) : Prop := mkCaseAt {
  ca_tcase : exists t, tcases (the_heap w) !! c_loc c = Some t /\ tc_name t = c_name c /\
    timeout t = c_timeout c /\ tags t = Some (c_tl c);
  ca_tags : holds (taglist_ptr (c_tl c)) w (c_tags c);
  ca_tests : holds (tflst_ptr (c_loc c)) w (c_tests c);
  ca_fixtures : forall ck s, holds (fixture_ptr ck s (c_loc c)) w (c_fixtures c ck s)
}.

Record suite_at (w : world) (s : suite_desc) : Prop := mkSuiteAt {
  sa_suite : exists x, suites (the_heap w) !! su_loc s = Some x /\ s_name x = su_title s;
  sa_list : holds (tclst_ptr (su_loc s)) w (c_loc <$> su_cases s);
  sa_cases : Forall (case_at w) (su_cases s)
}.

(** The runner at [sr] has the suites [ss]. *)
Record program_at (w : world) (sr : loc) (ss : list suite_desc) : Prop := mkProgramAt {
  pa_list : holds (slst_ptr sr) w (su_loc <$> ss);
  pa_suites : Forall (suite_at w) ss
}.

Section StillHolds.
Context (sr : loc) (w w' : world).
Hypothesis (H : still sr w w').

Lemma still_cases s xs : holds (tclst_ptr s) w xs -> holds (tclst_ptr s) w' xs.
Proof. eapply alike_holds; [| apply (ha_suites _ _ _ (st_heap _ _ _ H))]. by intros r r' []. Qed.
Lemma still_tests tc xs : holds (tflst_ptr tc) w xs -> holds (tflst_ptr tc) w' xs.
Proof. eapply alike_holds; [| apply (ha_tcases _ _ _ (st_heap _ _ _ H))]. by intros r r' []. Qed.
Lemma still_fixtures ck b tc xs : holds (fixture_ptr ck b tc) w xs -> holds (fixture_ptr ck b tc) w' xs.
Proof.
  rewrite fixture_ptr_field. eapply alike_holds; [| apply (ha_tcases _ _ _ (st_heap _ _ _ H))].
  intros r r' []. auto.
Qed.
Lemma still_tags a xs : holds (taglist_ptr a) w xs -> holds (taglist_ptr a) w' xs.
Proof. eapply alike_holds; [| apply (ha_tags _ _ _ (st_heap _ _ _ H))]. done. Qed.
Lemma still_slst xs : holds (slst_ptr sr) w xs -> holds (slst_ptr sr) w' xs.
Proof.
  intros Hh. destruct (field_holds_inv _ _ _ _ _ _ _ Hh) as (r & Hr & Hl).
  destruct (ha_runner _ _ _ (st_heap _ _ _ H) r Hr) as (r' & Hr' & Ha).
  eapply field_holds; [exact Hr' |]. by apply (rl_suites _ _ Ha).
Qed.

Lemma still_case c : case_at w c -> case_at w' c.
Proof.
  intros [(t & Ht & E1 & E2 & E3) Hg Hs Hf].
  destruct (map_alike_lookup _ _ _ _ _ (ha_tcases _ _ _ (st_heap _ _ _ H)) Ht) as (t' & Ht' & []). constructor.
  - exists t'. repeat split; congruence.
  - by apply still_tags.
  - by apply still_tests.
  - intros ck b. by apply still_fixtures.
Qed.
Lemma still_suite s : suite_at w s -> suite_at w' s.
Proof.
  intros [(x & Hx & Hn) Hl Hc].
  destruct (map_alike_lookup _ _ _ _ _ (ha_suites _ _ _ (st_heap _ _ _ H)) Hx) as (x' & Hx' & []). constructor.
  - exists x'. split; congruence.
  - by apply still_cases.
  - eapply Forall_impl; [exact Hc |]. apply still_case.
Qed.
Lemma still_program ss : program_at w sr ss -> program_at w' sr ss.
Proof.
  intros [Hl Hs]. constructor; [by apply still_slst |]. eapply Forall_impl; [exact Hs |]. apply still_suite.
Qed.
End StillHolds.

(** Programs depend on the heap only, and on what the lists of tags contain. *)
Lemma more_program w w' sr ss : suites (the_heap w') = suites (the_heap w) ->
  tcases (the_heap w') = tcases (the_heap w) -> look (slst_ptr sr) w' = look (slst_ptr sr) w ->
  Forall (fun s => Forall (fun c => forall xs, holds (taglist_ptr (c_tl c)) w xs -> holds (taglist_ptr (c_tl c)) w' xs)
    (su_cases s)) ss ->
  program_at w sr ss -> program_at w' sr ss.
Proof.
  intros Es Ec El Ht [Hl Hs]. constructor; [by eapply holds_look |].
  rewrite Forall_forall in *. intros s Hin. specialize (Ht s Hin). destruct (Hs s Hin) as [S1 S2 S3].
  constructor; [by rewrite Es | eapply holds_look; [| exact S2]; cbn; by rewrite Es |].
  rewrite Forall_forall in *. intros c Hc. destruct (S3 c Hc) as [C1 C2 C3 C4].
  constructor; [by rewrite Ec | by apply Ht | eapply holds_look; [| exact C3]; cbn; by rewrite Ec |].
  intros ck b. eapply holds_look; [| apply C4]. rewrite fixture_ptr_field. cbn. by rewrite Ec.
Qed.
Lemma heap_program w w' sr ss : the_heap w' = the_heap w -> program_at w sr ss -> program_at w' sr ss.
Proof.
  intros E. apply more_program; cbn; rewrite ?E; try done.
  apply Forall_forall. intros s _. apply Forall_forall. intros c _ xs. apply holds_look. rewrite !look_taglist. by rewrite E.
Qed.
