(* ===== verification/Print.v ===== *)
(** * Printing results (src/check_print.c)

    Output goes to a stream of the operating system; printing to it is not buffered here,
    since the code flushes around every event. *)
From S2P Require Import Prelude Error Types CList Pack World Str Result Core.

(** The part of [s] before the last [c], and the part after it (strrchr). *)
Fixpoint strrchr (c : ascii) (s : string) : option (string * string) :=
  match s with
  | EmptyString => None
  | String d s' =>
    match strrchr c s' with
    | Some (before, after) => Some (String d before, after)
    | None => if decide (d = c) then Some ("", s') else None
    end
  end.

(** printf's %06d of a non-negative number *)
Definition dec06 (z : Z) : string :=
  let d := dec z in
  string_of (replicate (6 - String.length d) "0"%char) +:+ d.

(** printf's %X of the value of one byte *)
Definition hex_digit (n : Z) : ascii :=
  if decide (n < 10) then Z_byte (48 + n) else Z_byte (55 + n).
Definition hex_byte (n : Z) : string :=
  if decide (n < 16) then String (hex_digit n) "" else
    String (hex_digit (n / 16)) (String (hex_digit (n mod 16)) "").

Definition QUOT : ascii := "034"%char.
Definition APOS : ascii := "039"%char.
Definition BACKSLASH : ascii := "092"%char.
Definition quoted (s : string) : string := String QUOT s +:+ String QUOT "".

(** What fprint_xml_esc prints for one character; [char] is signed. *)
Definition xml_char (c : ascii) : string :=
  let next := s8 (byte_Z c) in
  if decide (c = QUOT \/ c = APOS \/ c = "<"%char \/ c = ">"%char \/ c = "&"%char) then
    if decide (c = QUOT) then "&quot;"
    else if decide (c = APOS) then "&apos;"
    else if decide (c = "<"%char) then "&lt;"
    else if decide (c = ">"%char) then "&gt;"
    else "&amp;"
  else if decide (32 <= next <= 126) then String c ""
  else if decide (next = 9 \/ next = 10 \/ next = 13 \/ 32 <= next) then
    "&#x" +:+ hex_byte next +:+ ";"
  else "".

Section Print.
Context {plat : Platform}.

(** fprintf to a stream, of a text already formatted. *)
Definition fprintf (file : lstream) (t : string) : M world unit :=
  modify (on_os (fun o =>
    match file with
    | lf_stdout => put_out (out o +:+ t) o
    | lf_path p => put_paths (<[p := default "" (paths o !! p) +:+ t]> (paths o)) o
    end)).

Definition get_env_printmode : M world print_output :=
  env ← getenv "CK_VERBOSITY";
  mret (match env with
        | None => CK_NORMAL
        | Some env =>
          if decide (env = "silent") then CK_SILENT
          else if decide (env = "minimal") then CK_MINIMAL
          else if decide (env = "verbose") then CK_VERBOSE
          else CK_NORMAL
        end).

Definition resolve_printmode (print_mode : print_output) : M world print_output :=
  if decide (print_mode = CK_ENV) then get_env_printmode else mret print_mode.

Fixpoint fprint_xml_esc (file : lstream) (str : string) : M world unit :=
  match str with
  | EmptyString => mret tt
  | String c str =>
    (if decide (xml_char c = "") then mret tt else fprintf file (xml_char c)) ;;
    fprint_xml_esc file str
  end.

Definition tr_fprint (file : lstream) (tr : TestResult) (print_mode : print_output)
    : M world unit :=
  print_mode ← resolve_printmode print_mode;
  if decide ((CK_VERBOSE <= print_mode /\ rtype tr = CK_PASS) \/
             (rtype tr <> CK_PASS /\ CK_NORMAL <= print_mode)) then
    trstr ← tr_str tr;
    fprintf file (trstr +:+ nl)
  else mret tt.

Definition srunner_fprint_summary (file : lstream) (sr : loc) (print_mode : print_output)
    : M world unit :=
  if decide (CK_MINIMAL <= print_mode) then
    r ← get_srunner sr;
    str ← sr_stat_str (stats r);
    fprintf file (str +:+ nl)
  else mret tt.

Definition srunner_fprint_results (file : lstream) (sr : loc) (print_mode : print_output)
    : M world unit :=
  list_for (R:=unit) (resultlst_ptr sr) (fun tr => tr_fprint file tr print_mode ;; mret None) ;;
  mret tt.

Definition srunner_fprint (file : lstream) (sr : loc) (print_mode : print_output)
    : M world unit :=
  print_mode ← resolve_printmode print_mode;
  srunner_fprint_summary file sr print_mode ;;
  srunner_fprint_results file sr print_mode.

Definition srunner_print (sr : loc) (print_mode : print_output) : M world unit :=
  srunner_fprint lf_stdout sr print_mode.

(** The path and the name of the file of a result: split at the last slash, or else at the
    last backslash. *)
Definition path_and_name (file : option string) : option string * option string :=
  match file with
  | None => (None, None)
  | Some f =>
    match strrchr "/"%char f with
    | Some (p, n) => (Some p, Some n)
    | None =>
      match strrchr BACKSLASH f with
      | Some (p, n) => (Some p, Some n)
      | None => (Some ".", Some f)
      end
    end
  end.

Definition SIGABRT : Z := 6.

Definition tr_xmlprint (file : lstream) (tr : TestResult) (print_mode : print_output)
    : M world unit :=
  result ← match rtype tr with
           | CK_PASS => mret "success"
           | CK_FAILURE => mret "failure"
           | CK_ERROR => mret "error"
           | CK_TEST_RESULT_INVALID => stop (Killed SIGABRT)
           end;
  let '(path_name, file_name) := path_and_name (tr_file tr) in
  fprintf file ("    <test result=" +:+ quoted result +:+ ">" +:+ nl) ;;
  fprintf file ("      <path>" +:+ default "" path_name +:+ "</path>" +:+ nl) ;;
  fprintf file ("      <fn>" +:+ default "" file_name +:+ ":" +:+ dec (tr_line tr) +:+ "</fn>" +:+ nl) ;;
  fprintf file ("      <id>" +:+ pr_s (tr_tname tr) +:+ "</id>" +:+ nl) ;;
  iter ← deref (tr_iter tr);
  fprintf file ("      <iteration>" +:+ dec iter +:+ "</iteration>" +:+ nl) ;;
  fprintf file ("      <duration>" +:+
     (if decide (tr_duration tr < 0) then dec (-1) else dec (tr_duration tr / US_PER_SEC)) +:+ "." +:+
     (if decide (tr_duration tr < 0) then dec06 0 else dec06 (tr_duration tr mod US_PER_SEC)) +:+
     "</duration>" +:+ nl) ;;
  fprintf file "      <description>" ;;
  tcname ← deref (tr_tcname tr);
  fprint_xml_esc file tcname ;;
  fprintf file ("</description>" +:+ nl) ;;
  fprintf file "      <message>" ;;
  msg ← deref (tr_msg tr);
  fprint_xml_esc file msg ;;
  fprintf file ("</message>" +:+ nl) ;;
  fprintf file ("    </test>" +:+ nl).
End Print.
