(* ===== verification/Log.v ===== *)
(** * Logging (src/check_log.c)

    Every event of a run is sent, in the order of registration, to the log functions of the
    runner: standard output, and the optional log, XML and TAP files. *)
From S2P Require Import Prelude Error Types CList Pack World Str Result Core Print.

Definition STDOUT_OVERRIDE_LOG_FILE_NAME : string := "-".

Section Log.
Context {plat : Platform}.

Definition srunner_set_log (sr : loc) (fname : option string) : M world unit :=
  r ← get_srunner sr;
  if decide (log_fname r = None) then store_srunner sr (with_log_fname fname r) else mret tt.
Definition srunner_log_fname (sr : loc) : M world (option string) :=
  r ← get_srunner sr;
  match log_fname r with Some f => mret (Some f) | None => getenv "CK_LOG_FILE_NAME" end.
Definition srunner_has_log (sr : loc) : M world bool :=
  f ← srunner_log_fname sr; mret (if f is Some _ then true else false).

Definition srunner_set_xml (sr : loc) (fname : option string) : M world unit :=
  r ← get_srunner sr;
  if decide (xml_fname r = None) then store_srunner sr (with_xml_fname fname r) else mret tt.
Definition srunner_xml_fname (sr : loc) : M world (option string) :=
  r ← get_srunner sr;
  match xml_fname r with Some f => mret (Some f) | None => getenv "CK_XML_LOG_FILE_NAME" end.
Definition srunner_has_xml (sr : loc) : M world bool :=
  f ← srunner_xml_fname sr; mret (if f is Some _ then true else false).

Definition srunner_set_tap (sr : loc) (fname : option string) : M world unit :=
  r ← get_srunner sr;
  if decide (tap_fname r = None) then store_srunner sr (with_tap_fname fname r) else mret tt.
Definition srunner_tap_fname (sr : loc) : M world (option string) :=
  r ← get_srunner sr;
  match tap_fname r with Some f => mret (Some f) | None => getenv "CK_TAP_LOG_FILE_NAME" end.
Definition srunner_has_tap (sr : loc) : M world bool :=
  f ← srunner_tap_fname sr; mret (if f is Some _ then true else false).

(** ** The log functions *)

Definition stdout_lfun (sr : loc) (file : lstream) (printmode : print_output) (evt : cl_event)
    : M world unit :=
  match evt with
  | CLSTART_SR => when (bool_decide (CK_SILENT < printmode)) (fprintf file "Running suite(s):")
  | CLSTART_S s => when (bool_decide (CK_SILENT < printmode)) (fprintf file (" " +:+ s +:+ nl))
  | CLEND_SR => when (bool_decide (CK_SILENT < printmode)) (srunner_fprint file sr printmode)
  | _ => mret tt
  end.

Definition lfile_lfun (sr : loc) (file : lstream) (printmode : print_output) (evt : cl_event)
    : M world unit :=
  match evt with
  | CLSTART_S s => fprintf file ("Running suite " +:+ s +:+ nl)
  | CLEND_SR =>
    fprintf file ("Results for all suites run:" +:+ nl) ;;
    srunner_fprint file sr CK_MINIMAL
  | CLEND_T tr => tr_fprint file tr CK_VERBOSE
  | _ => mret tt
  end.

(** Runs before every event until the static buffer [t] holds a date. *)
Definition xml_start_clock : M world unit :=
  st ← gets the_statics;
  if decide (xml_t st = "") then
    clk ← check_get_clockid;
    now ← clock_gettime clk;
    lt ← gets (fun w => localtime_text (w_os w));
    modify (upd_statics (put_xml_clock now (default "" lt)))
  else mret tt.

Definition xml_lfun (sr : loc) (file : lstream) (printmode : print_output) (evt : cl_event)
    : M world unit :=
  xml_start_clock ;;
  match evt with
  | CLINITLOG_SR =>
    t ← gets (fun w => xml_t (the_statics w));
    fprintf file
      ("<?xml version=" +:+ quoted "1.0" +:+ "?>" +:+ nl +:+
       "<?xml-stylesheet type=" +:+ quoted "text/xsl" +:+ " href=" +:+
       quoted "http://check.sourceforge.net/xml/check_unittest.xslt" +:+ "?>" +:+ nl +:+
       "<testsuites xmlns=" +:+ quoted "http://check.sourceforge.net/ns" +:+ ">" +:+ nl +:+
       "  <datetime>" +:+ t +:+ "</datetime>" +:+ nl)
  | CLENDLOG_SR =>
    clk ← check_get_clockid;
    ts_end ← clock_gettime clk;
    start ← gets (fun w => ts_start (the_statics w));
    let duration := u64 (DIFF_IN_USEC start ts_end) in
    fprintf file
      ("  <duration>" +:+ dec (duration / US_PER_SEC) +:+ "." +:+
       dec06 (duration mod US_PER_SEC) +:+ "</duration>" +:+ nl +:+ "</testsuites>" +:+ nl)
  | CLSTART_S s =>
    fprintf file ("  <suite>" +:+ nl +:+ "    <title>") ;;
    fprint_xml_esc file s ;;
    fprintf file ("</title>" +:+ nl)
  | CLEND_S _ => fprintf file ("  </suite>" +:+ nl)
  | CLEND_T tr => tr_xmlprint file tr CK_VERBOSE
  | _ => mret tt
  end.

Definition tap_lfun (sr : loc) (file : lstream) (printmode : print_output) (evt : cl_event)
    : M world unit :=
  match evt with
  | CLINITLOG_SR => modify (upd_statics (put_num_tests_run 0))
  | CLENDLOG_SR =>
    n ← gets (fun w => num_tests_run (the_statics w));
    fprintf file ("1.." +:+ dec n +:+ nl)
  | CLEND_T tr =>
    n ← gets (fun w => num_tests_run (the_statics w));
    n ← int_succ n;
    modify (upd_statics (put_num_tests_run n)) ;;
    fprintf file
      ((if decide (rtype tr = CK_PASS) then "ok" else "not ok") +:+ " " +:+ dec n +:+ " - " +:+
       pr_s (tr_file tr) +:+ ":" +:+ pr_s (tr_tcname tr) +:+ ":" +:+ pr_s (tr_tname tr) +:+ ": " +:+
       pr_s (tr_msg tr) +:+ nl)
  | _ => mret tt
  end.

(** The subunit log, compiled in with ENABLE_SUBUNIT; the calls of the subunit library are
    its arguments. *)
Definition subunit_lfun (subunit_test_start subunit_test_pass : string -> M world unit)
    (subunit_test_fail subunit_test_error : string -> string -> M world unit)
    (sr : loc) (file : lstream) (printmode : print_output) (evt : cl_event) : M world unit :=
  match evt with
  | CLEND_SR =>
    when (bool_decide (CK_SILENT < printmode)) (fprintf file nl ;; srunner_fprint file sr printmode)
  | CLSTART_T name => subunit_test_start name
  | CLEND_T tr =>
    name ← ck_strdup_printf (pr_s (tr_tcname tr) +:+ ":" +:+ pr_s (tr_tname tr));
    msg ← tr_short_str tr;
    match rtype tr with
    | CK_PASS => subunit_test_pass name
    | CK_FAILURE => subunit_test_fail name msg
    | CK_ERROR => subunit_test_error name msg
    | CK_TEST_RESULT_INVALID =>
      eprintf "Bad result type in subunit_lfun" "Bad result type in subunit_lfun" "check_log.c" 436
    end
  | _ => mret tt
  end.

Definition call_lfun (f : LFun) : loc -> lstream -> print_output -> cl_event -> M world unit :=
  match f with
  | stdout_lfun_ => stdout_lfun
  | lfile_lfun_ => lfile_lfun
  | xml_lfun_ => xml_lfun
  | tap_lfun_ => tap_lfun
  end.

Definition srunner_send_evt (sr : loc) (evt : cl_event) : M world unit :=
  list_for (R:=unit) (loglst_ptr sr) (fun lg =>
    call_lfun (lfun lg) sr (lfile lg) (log_mode lg) evt ;; mret None) ;;
  mret tt.

(** ** Registration *)

Definition srunner_register_lfun (sr : loc) (lfile : lstream) (close : bool) (lfun : LFun)
    (printmode : print_output) : M world unit :=
  emalloc 24 ;;
  printmode ← resolve_printmode printmode;
  r ← get_srunner sr;
  check_list_add_end ((fun _ => loglst_ptr sr) <$> loglst r) (mkLog lfile lfun close printmode).

Definition srunner_open_file (filename : string) : M world lstream :=
  if decide (filename = STDOUT_OVERRIDE_LOG_FILE_NAME) then mret lf_stdout
  else
    ok ← gets (fun w => fopen_ok (w_os w) filename);
    if (ok : bool) then
      modify (on_os (fun o => put_paths (<[filename := ""]> (paths o)) o)) ;;
      mret (lf_path filename)
    else
      eprintf "Error in call to fopen while opening file %s:"
        ("Error in call to fopen while opening file " +:+ filename +:+ ":") "check_log.c" 461.

(** The three srunner_open functions, over the accessor of the name. *)
Definition srunner_open_lfile (sr : loc) : M world (option lstream) :=
  has ← srunner_has_log sr;
  if (has : bool) then
    n ← srunner_log_fname sr; n ← deref n; f ← srunner_open_file n; mret (Some f)
  else mret None.
Definition srunner_open_xmlfile (sr : loc) : M world (option lstream) :=
  has ← srunner_has_xml sr;
  if (has : bool) then
    n ← srunner_xml_fname sr; n ← deref n; f ← srunner_open_file n; mret (Some f)
  else mret None.
Definition srunner_open_tapfile (sr : loc) : M world (option lstream) :=
  has ← srunner_has_tap sr;
  if (has : bool) then
    n ← srunner_tap_fname sr; n ← deref n; f ← srunner_open_file n; mret (Some f)
  else mret None.

Definition register_file (sr : loc) (f : option lstream) (lfun : LFun) (mode : print_output)
    : M world unit :=
  match f with
  | Some f => srunner_register_lfun sr f (bool_decide (f <> lf_stdout)) lfun mode
  | None => mret tt
  end.

Definition srunner_init_logging (sr : loc) (print_mode : print_output) : M world unit :=
  l ← check_list_create;
  r ← get_srunner sr;
  store_srunner sr (with_loglst (Some l) r) ;;
  srunner_register_lfun sr lf_stdout false stdout_lfun_ print_mode ;;
  f ← srunner_open_lfile sr;
  register_file sr f lfile_lfun_ print_mode ;;
  f ← srunner_open_xmlfile sr;
  register_file sr f xml_lfun_ print_mode ;;
  f ← srunner_open_tapfile sr;
  register_file sr f tap_lfun_ print_mode ;;
  srunner_send_evt sr CLINITLOG_SR.

Definition srunner_end_logging (sr : loc) : M world unit :=
  srunner_send_evt sr CLENDLOG_SR ;;
  list_for (R:=unit) (loglst_ptr sr) (fun lg =>
    (if log_close lg then
       ok ← gets (fun w => fclose_ok (w_os w));
       if (ok : bool) then mret tt
       else eprintf "Error in call to fclose while closing log file:"
              "Error in call to fclose while closing log file:" "check_log.c" 548
     else mret tt) ;;
    mret None) ;;
  r ← get_srunner sr;
  store_srunner sr (with_loglst None r).

(** ** The events *)

Definition log_srunner_start (sr : loc) : M world unit := srunner_send_evt sr CLSTART_SR.
Definition log_srunner_end (sr : loc) : M world unit := srunner_send_evt sr CLEND_SR.
Definition log_suite_start (sr s : loc) : M world unit :=
  x ← get_suite s; srunner_send_evt sr (CLSTART_S (s_name x)).
Definition log_suite_end (sr s : loc) : M world unit :=
  x ← get_suite s; srunner_send_evt sr (CLEND_S (s_name x)).
Definition log_test_start (sr tc : loc) (tfun : TF) : M world unit :=
  t ← get_tcase tc;
  let buffer := fst (vsnprintf 99 (tc_name t +:+ ":" +:+ tt_name (ttest tfun))) in
  srunner_send_evt sr (CLSTART_T buffer).
Definition log_test_end (sr : loc) (tr : TestResult) : M world unit :=
  srunner_send_evt sr (CLEND_T tr).
End Log.
