(* ===== verification/Run.v ===== *)
(** * Running tests (src/check_run.c)

    A test runs in the process itself (CK_NOFORK), where a failed assertion unwinds to the
    last setjmp, or in a child (CK_FORK), where it ends the child; the result of a child is
    made from the messages it sent and from its wait status. *)
From S2P Require Import Prelude Error Types CList Pack World Str Result Msg Core Print Log.

Definition SIGINT : Z := 2.
Definition SIGKILL : Z := 9.
Definition SIGALRM : Z := 14.
Definition SIGTERM : Z := 15.
Definition MSG_LEN : Z := 100.
(** Those whose default action is not to end the process: SIGCHLD, SIGCONT, SIGURG, SIGWINCH
    are ignored; SIGSTOP, SIGTSTP, SIGTTIN, SIGTTOU stop it. *)
Definition IGNORED_SIGNALS : list Z := [17; 18; 23; 28].
Definition STOP_SIGNALS : list Z := [19; 20; 21; 22].

(** ** The wait status of a child, as the macros of sys/wait.h read it *)

Definition WTERMSIG (status : Z) : Z := Z.land status 127.
Definition WIFEXITED (status : Z) : bool := bool_decide (WTERMSIG status = 0).
Definition WEXITSTATUS (status : Z) : Z := Z.shiftr (Z.land status 65280) 8.
Definition WIFSIGNALED (status : Z) : bool :=
  bool_decide (0 < Z.shiftr (s8 (Z.land status 127 + 1)) 1).

Definition exit_wstatus (code : Z) : Z := Z.shiftl (Z.land code 255) 8.

Section Run.
Context {plat : Platform}.

Definition killed_wstatus (sig : Z) : Z := Z.lor sig (if core_dumped sig then 128 else 0).

(** ** Signals *)

Definition sigaction_get (sig : Z) : M world disposition :=
  gets (fun w => default SIG_DFL (sigact (the_signals w) !! sig)).
Definition sigaction_set (sig : Z) (d : disposition) : M world unit :=
  modify (upd_signals (fun s => put_sigact (<[sig := d]> (sigact s)) s)).

(** killpg; the result tells whether the signal is now pending for the caller too. *)
Definition killpg (pgrp sig : Z) : M world bool :=
  modify (on_os (fun o => put_kills (kills o ++ [(pgrp, sig)]) o)) ;;
  own ← gets (fun w => p_pgid (w_proc w));
  if decide (pgrp = own \/ pgrp = 0) then
    if decide (sig = SIGKILL) then stop (Killed SIGKILL) else mret true
  else mret false.

(** The result tells whether [sig_nr] is pending again when the handler returns. *)
Definition sig_handler (sig_nr : Z) : M world bool :=
  if decide (sig_nr = SIGALRM) then
    modify (upd_statics (put_alarm_received 1)) ;;
    g ← gets (fun w => group_pid (the_statics w));
    killpg g SIGKILL ;;
    mret false
  else if decide (sig_nr = SIGTERM \/ sig_nr = SIGINT) then
    child_sig ←
      (if decide (sig_nr = SIGINT) then
         old ← gets (fun w => sigint_old_action (the_signals w));
         sigaction_set SIGINT old ;; mret SIGKILL
       else
         old ← gets (fun w => sigterm_old_action (the_signals w));
         sigaction_set SIGTERM old ;; mret SIGTERM);
    g ← gets (fun w => group_pid (the_statics w));
    killpg g child_sig ;;
    own_group_pid ← gets (fun w => p_pgid (w_proc w));
    killpg own_group_pid sig_nr
  else eprintf "Unhandled signal: %d" ("Unhandled signal: " +:+ dec sig_nr) "check_run.c" 142.

(** The default action of a signal: some are ignored, some stop the process. *)
Definition default_action (sig : Z) : M world unit :=
  if decide (sig ∈ IGNORED_SIGNALS) then mret tt
  else if decide (sig ∈ STOP_SIGNALS) then stop Hang
  else stop (Killed sig).

(** A signal delivered to the process; one that the handler leaves pending is delivered
    again under the disposition the handler restored. *)
Definition deliver (sig : Z) : M world unit :=
  if decide (sig = SIGKILL) then stop (Killed SIGKILL)
  else
    d ← sigaction_get sig;
    match d with
    | SIG_DFL => default_action sig
    | SIG_IGN => mret tt
    | SIG_HANDLER =>
      pending ← sig_handler sig;
      if (pending : bool) then
        d ← sigaction_get sig;
        match d with
        | SIG_DFL => default_action sig
        | SIG_IGN => mret tt
        | SIG_HANDLER => stop Hang
        end
      else mret tt
    end.

(** ** User code *)

(** Time passing; a process under a timer is killed when the timer expires, by its parent's
    handler of SIGALRM. *)
Definition elapse (ns : Z) : M world unit :=
  o ← gets w_os;
  match deadline o with
  | Some t =>
    if decide (t <= clock o + ns) then
      modify (on_os (fun o => put_alarm (deadline o) true (put_clock t o))) ;; stop (Killed SIGKILL)
    else modify (on_os (fun o => put_clock (clock o + ns) o))
  | None => modify (on_os (fun o => put_clock (clock o + ns) o))
  end.

Definition hang_forever : M world unit :=
  o ← gets w_os;
  match deadline o with
  | Some t =>
    modify (on_os (fun o => put_alarm (deadline o) true (put_clock t o))) ;; stop (Killed SIGKILL)
  | None => stop Hang
  end.

Definition run_ucall (c : ucall) : M world unit :=
  match c with
  | u_mark_point f l => mark_point_ f l
  | u_assert_failed f l e m => ck_assert_failed_ f l e m
  | u_exit c => stop (Exit c)
  | u_raise sig => deliver sig
  | u_elapse ns => elapse ns
  | u_hang => hang_forever
  | u_write x v => modify (on_proc (fun p => set_umem (<[x := v]> (p_umem p)) p))
  end.

Fixpoint run_ucalls (cs : list ucall) : M world unit :=
  match cs with
  | [] => mret tt
  | c :: cs => run_ucall c ;; run_ucalls cs
  end.

Definition call_sfun (f : SFun) : M world unit := m ← gets (fun w => p_umem (w_proc w)); run_ucalls (f m).
Definition call_tfun (f : TFun) (i : Z) : M world unit :=
  m ← gets (fun w => p_umem (w_proc w)); run_ucalls (f i m).

(** if(0 == setjmp(error_jmp_buffer)) m: the result is false when m was left by longjmp. *)
Definition setjmp (m : M world unit) : M world bool := fun w =>
  match m w with
  | (Ret _, w') => (Ret true, w')
  | (Jump, w') => (Ret false, w')
  | (Exit c, w') => (Exit c, w')
  | (Killed g, w') => (Killed g, w')
  | (Hang, w') => (Hang, w')
  | (Fault, w') => (Fault, w')
  end.

(** ** Results *)

Definition pass_msg : M world (option string) := strdup "Passed".

Definition set_nofork_info (tr : TestResult) : M world TestResult :=
  if decide (tr_msg tr = None) then
    m ← pass_msg; mret (set_msg m (set_rtype CK_PASS tr))
  else mret (set_rtype CK_FAILURE tr).

Definition receive_result_info_nofork (tcname tname : string) (iter duration : Z)
    : M world TestResult :=
  tr ← receive_test_result false;
  match tr with
  | None => eprintf "Failed to receive test result" "Failed to receive test result" "check_run.c" 440
  | Some tr => set_nofork_info (set_duration duration (set_names tcname tname iter tr))
  end.

(** snprintf(msg, MSG_LEN, ...) *)
Definition snprintf_msg (t : string) : string := fst (vsnprintf MSG_LEN t).

Definition the_alarm : M world bool :=
  a ← gets (fun w => alarm_received (the_statics w)); mret (bool_decide (a <> 0)).

Definition signal_msg (sig : Z) : M world string :=
  emalloc MSG_LEN ;;
  alarm ← the_alarm;
  mret (snprintf_msg (if (alarm : bool) then "Test timeout expired"
    else "Received signal " +:+ dec sig +:+ " (" +:+ strsignal sig +:+ ")")).

Definition signal_error_msg (signal_received signal_expected : Z) : M world string :=
  emalloc MSG_LEN ;;
  sig_r_str ← strdup (strsignal signal_received);
  sig_e_str ← strdup (strsignal signal_expected);
  alarm ← the_alarm;
  mret (snprintf_msg (if (alarm : bool) then
      "Test timeout expired, expected signal " +:+ dec signal_expected +:+ " (" +:+
      pr_s sig_e_str +:+ ")"
    else "Received signal " +:+ dec signal_received +:+ " (" +:+ pr_s sig_r_str +:+
      "), expected " +:+ dec signal_expected +:+ " (" +:+ pr_s sig_e_str +:+ ")")).

Definition exit_msg (exitval : Z) : M world string :=
  emalloc MSG_LEN ;;
  mret (snprintf_msg ("Early exit with return value " +:+ dec exitval)).

Definition waserror (status signal_expected : Z) : bool :=
  (WIFSIGNALED status && bool_decide (WTERMSIG status <> signal_expected)) ||
  (WIFEXITED status && bool_decide (WEXITSTATUS status <> 0)).

Definition set_fork_info (tr : TestResult) (status signal_expected allowed_exit_value : Z)
    : M world TestResult :=
  let was_sig := WIFSIGNALED status in
  let was_exit := WIFEXITED status in
  let exit_status := s8 (WEXITSTATUS status) in
  let signal_received := WTERMSIG status in
  if was_sig then
    if decide (signal_expected = signal_received) then
      alarm ← the_alarm;
      if (alarm : bool) then
        m ← signal_error_msg signal_received signal_expected;
        mret (set_msg (Some m) (set_rtype CK_ERROR tr))
      else
        m ← pass_msg; mret (set_msg m (set_rtype CK_PASS tr))
    else if decide (signal_expected <> 0) then
      m ← signal_error_msg signal_received signal_expected;
      mret (set_msg (Some m) (set_rtype CK_ERROR tr))
    else
      m ← signal_msg signal_received;
      mret (set_msg (Some m) (set_rtype CK_ERROR tr))
  else if decide (signal_expected = 0) then
    if was_exit && bool_decide (exit_status = allowed_exit_value) then
      m ← pass_msg; mret (set_msg m (set_rtype CK_PASS tr))
    else if was_exit && bool_decide (exit_status <> allowed_exit_value) then
      if decide (tr_msg tr = None) then
        m ← exit_msg exit_status; mret (set_msg (Some m) (set_rtype CK_ERROR tr))
      else mret (set_rtype CK_FAILURE tr)
    else mret tr
  else if was_exit then
    m ← exit_msg exit_status; mret (set_rtype CK_FAILURE (set_msg (Some m) tr))
  else mret tr.

Definition receive_result_info_fork (tcname tname : string) (iter status expected_signal
    allowed_exit_value : Z) : M world TestResult :=
  tr ← receive_test_result (waserror status expected_signal);
  match tr with
  | None => eprintf "Failed to receive test result" "Failed to receive test result" "check_run.c" 556
  | Some tr => set_fork_info (set_names tcname tname iter tr) status expected_signal allowed_exit_value
  end.

(** ** Fork status *)

Definition srunner_fork_status (sr : loc) : M world fork_status :=
  r ← get_srunner sr;
  if decide (fstat r = CK_FORK_GETENV) then
    env ← getenv "CK_FORK";
    mret (match env with
          | None => CK_FORK
          | Some env => if decide (env = "no") then CK_NOFORK else CK_FORK
          end)
  else mret (fstat r).

Definition srunner_set_fork_status (sr : loc) (fstat : fork_status) : M world unit :=
  r ← get_srunner sr; store_srunner sr (with_fstat fstat r).

(** ** Fixtures *)

Definition srunner_add_failure (sr : loc) (tr : TestResult) : M world unit :=
  check_list_add_end (Some (resultlst_ptr sr)) tr ;;
  r ← get_srunner sr;
  let st := stats r in
  n ← int_succ (n_checked st);
  if decide (rtype tr = CK_FAILURE) then
    f ← int_succ (n_failed st);
    store_srunner sr (with_stats (mkTestStats n f (n_errors st)) r)
  else if decide (rtype tr = CK_ERROR) then
    e ← int_succ (n_errors st);
    store_srunner sr (with_stats (mkTestStats n (n_failed st) e) r)
  else store_srunner sr (with_stats (mkTestStats n (n_failed st) (n_errors st)) r).

(** The first result that is not a pass, if any: it stops the setup (in NOFORK mode). *)
Definition srunner_run_setup (fixture_list : lptr world Fixture) (fork_usage : fork_status)
    (test_name setup_name : string) : M world (option TestResult) :=
  (if decide (fork_usage = CK_FORK) then send_ctx_info CK_CTX_SETUP else mret tt) ;;
  list_for fixture_list (fun setup_fixture =>
    if decide (fork_usage = CK_NOFORK) then
      send_ctx_info CK_CTX_SETUP ;;
      setjmp (call_sfun (fun_ setup_fixture)) ;;
      tr ← receive_result_info_nofork test_name setup_name 0 (-1);
      mret (if decide (rtype tr <> CK_PASS) then Some tr else None)
    else call_sfun (fun_ setup_fixture) ;; mret None).

Definition srunner_run_unchecked_setup (sr tc : loc) : M world bool :=
  set_fork_status CK_NOFORK ;;
  t ← get_tcase tc;
  tr ← srunner_run_setup (unch_sflst_ptr tc) CK_NOFORK (tc_name t) "unchecked_setup";
  st ← srunner_fork_status sr;
  set_fork_status st ;;
  match tr with
  | Some tr =>
    if decide (rtype tr <> CK_PASS) then srunner_add_failure sr tr ;; mret false else mret true
  | None => mret true
  end.

Definition tcase_run_checked_setup (sr tc : loc) : M world (option TestResult) :=
  st ← srunner_fork_status sr;
  t ← get_tcase tc;
  srunner_run_setup (ch_sflst_ptr tc) st (tc_name t) "checked_setup".

Definition srunner_run_teardown (fixture_list : lptr world Fixture) (fork_usage : fork_status)
    : M world unit :=
  list_for (R:=unit) fixture_list (fun fixture =>
    send_ctx_info CK_CTX_TEARDOWN ;;
    if decide (fork_usage = CK_NOFORK) then
      returned ← setjmp (call_sfun (fun_ fixture));
      mret (if (returned : bool) then None else Some tt)
    else call_sfun (fun_ fixture) ;; mret None) ;;
  mret tt.

Definition srunner_run_unchecked_teardown (sr tc : loc) : M world unit :=
  st ← srunner_fork_status sr;
  srunner_run_teardown (unch_tflst_ptr tc) st.

Definition tcase_run_checked_teardown (tc : loc) : M world unit :=
  srunner_run_teardown (ch_tflst_ptr tc) CK_NOFORK.

(** ** One test function *)

Definition tcase_run_tfun_nofork (sr tc : loc) (tfun : TF) (i : Z) : M world TestResult :=
  tr ← tcase_run_checked_setup sr tc;
  match tr with
  | None =>
    clk ← check_get_clockid;
    ts_start ← clock_gettime clk;
    setjmp
      (tcase_fn_start (tt_name (ttest tfun)) (tt_file (ttest tfun)) (tt_line (ttest tfun)) ;;
       call_tfun (fn (ttest tfun)) i) ;;
    ts_end ← clock_gettime clk;
    tcase_run_checked_teardown tc ;;
    t ← get_tcase tc;
    receive_result_info_nofork (tc_name t) (tt_name (ttest tfun)) i
      (s32 (DIFF_IN_USEC ts_start ts_end))
  | Some tr => mret tr
  end.

(** The branch of the child after fork; it never returns. *)
Definition child_main (sr tc : loc) (tfun : TF) (i : Z) : M world Empty_set :=
  modify (on_proc (fun p => set_ids (p_pid p) (p_pid p) p)) ;;
  own ← gets (fun w => p_pgid (w_proc w));
  modify (upd_statics (put_group_pid own)) ;;
  tcase_run_checked_setup sr tc ;;
  clk ← check_get_clockid;
  ts_start ← clock_gettime clk;
  tcase_fn_start (tt_name (ttest tfun)) (tt_file (ttest tfun)) (tt_line (ttest tfun)) ;;
  call_tfun (fn (ttest tfun)) i ;;
  ts_end ← clock_gettime clk;
  tcase_run_checked_teardown tc ;;
  send_duration_info (s32 (DIFF_IN_USEC ts_start ts_end)) ;;
  stop (Exit 0).

(** fork: a pid and the copy of the process image the child starts with. *)
Definition fork : M world (option (Z * proc)) :=
  ok ← gets (fun w => fork_ok (w_os w));
  if (ok : bool) then
    pid ← gets (fun w => next_pid (w_os w));
    p ← gets w_proc;
    modify (on_os (put_next_pid (pid + 1))) ;;
    mret (Some (pid, set_ids pid (p_pgid p) p))
  else mret None.

(** waitpid: the child runs to its end on its own process image and the shared system; then,
    if the timer expired, SIGALRM is delivered to the caller. *)
Definition waitpid (image : proc) (child : M world Empty_set) : M world Z := fun w =>
  let '(o, wc) := child (mkWorld image (w_os w)) in
  let w' := mkWorld (w_proc w) (w_os wc) in
  let reap status :=
    if alarm_fired (w_os w') then
      (deliver SIGALRM ;; mret status) (on_os (fun o => put_alarm (deadline o) false o) w')
    else (Ret status, w') in
  match o with
  | Ret e => match e : Empty_set with end
  | Exit c => reap (exit_wstatus c)
  | Killed sig => reap (killed_wstatus sig)
  | Jump => (Fault, w')
  | Hang => (Hang, w')
  | Fault => (Fault, w')
  end.

(** timer_settime with a one-shot value; zero disarms the timer. *)
Definition timer_settime (value : timespec) : M world bool :=
  ok ← gets (fun w => timer_settime_ok (w_os w));
  (if (ok : bool) then
     let ns := tv_sec value * NANOS_PER_SECONDS + tv_nsec value in
     modify (on_os (fun o =>
       put_alarm (if decide (ns = 0) then None else Some (clock o + ns)) false o))
   else mret tt) ;;
  mret ok.

Definition timer_delete : M world unit := modify (on_os (put_alarm None false)).

Definition tcase_run_tfun_fork (sr tc : loc) (tfun : TF) (i : Z) : M world TestResult :=
  f ← fork;
  match f with
  | None => eprintf "Error in call to fork:" "Error in call to fork:" "check_run.c" 485
  | Some (pid, image) =>
    modify (upd_statics (put_group_pid pid)) ;;
    modify (upd_statics (put_alarm_received 0)) ;;
    clk ← check_get_clockid;
    created ← gets (fun w => timer_create_ok (w_os w) clk);
    status ←
      (if (created : bool) then
         t ← get_tcase tc;
         armed ← timer_settime (timeout t);
         status ←
           (if (armed : bool) then waitpid image (child_main sr tc tfun i)
            else eprintf "Error in call to timer_settime:" "Error in call to timer_settime:"
                   "check_run.c" 528);
         timer_delete ;;
         mret status
       else eprintf "Error in call to timer_create:" "Error in call to timer_create:"
              "check_run.c" 536);
    killpg pid SIGKILL ;;
    t ← get_tcase tc;
    receive_result_info_fork (tc_name t) (tt_name (ttest tfun)) i status
      (tf_signal tfun) (allowed_exit_value tfun)
  end.

(** ** The loops *)

(** One turn of the loop over the iterations of a test function; both ways of running a test
    return a result, so the test NULL != tr holds. *)
Definition run_iteration (sr tc : loc) (tfun : TF) (i : Z) : M world unit :=
  log_test_start sr tc tfun ;;
  st ← srunner_fork_status sr;
  tr ← match st with
       | CK_FORK => tcase_run_tfun_fork sr tc tfun i
       | CK_NOFORK => tcase_run_tfun_nofork sr tc tfun i
       | _ => eprintf "Bad fork status in SRunner" "Bad fork status in SRunner" "check_run.c" 267
       end;
  srunner_add_failure sr tr ;;
  log_test_end sr tr.

(** for(i = loop_start; i < loop_end; i++), over the [n] values that remain. *)
Fixpoint iterate_loop (n : nat) (sr tc : loc) (tfun : TF) (i : Z) : M world unit :=
  match n with
  | O => mret tt
  | Datatypes.S n => run_iteration sr tc tfun i ;; iterate_loop n sr tc tfun (i + 1)
  end.

Definition srunner_iterate_tcase_tfuns (sr tc : loc) : M world unit :=
  list_for (R:=unit) (tflst_ptr tc) (fun tfun =>
    iterate_loop (Z.to_nat (loop_end tfun - loop_start tfun)) sr tc tfun (loop_start tfun) ;;
    mret None) ;;
  mret tt.

Definition srunner_run_tcase (sr tc : loc) : M world unit :=
  ok ← srunner_run_unchecked_setup sr tc;
  if (ok : bool) then
    srunner_iterate_tcase_tfuns sr tc ;;
    srunner_run_unchecked_teardown sr tc
  else mret tt.

(** The tests by which a test case of a selected suite is run. *)
Definition tcase_selected (tc : loc) (tcname include_tags exclude_tags : option string)
    (include_tag_lst exclude_tag_lst : loc) : M world bool :=
  t ← get_tcase tc;
  if decide (tcname <> None /\ tcname <> Some (tc_name t)) then mret false
  else
    inc ← (if decide (include_tags <> None) then tcase_matching_tag tc (Some include_tag_lst)
           else mret true);
    if (inc : bool) then
      exc ← (if decide (exclude_tags <> None) then tcase_matching_tag tc (Some exclude_tag_lst)
             else mret false);
      mret (negb exc)
    else mret false.

Definition suite_selected (s : loc) (sname tcname : option string) : M world bool :=
  x ← get_suite s;
  if decide (sname <> None /\ sname <> Some (s_name x)) then mret false
  else match tcname with
       | Some tcname => suite_tcase (Some s) tcname
       | None => mret true
       end.

Definition srunner_iterate_suites (sr : loc) (sname tcname include_tags exclude_tags : option string)
    (print_mode : print_output) : M world unit :=
  include_tag_lst ← tag_string_to_list include_tags;
  exclude_tag_lst ← tag_string_to_list exclude_tags;
  list_for (R:=unit) (slst_ptr sr) (fun s =>
    sel ← suite_selected s sname tcname;
    (if (sel : bool) then
       log_suite_start sr s ;;
       list_for (R:=unit) (tclst_ptr s) (fun tc =>
         sel ← tcase_selected tc tcname include_tags exclude_tags include_tag_lst exclude_tag_lst;
         (if (sel : bool) then srunner_run_tcase sr tc else mret tt) ;;
         mret None) ;;
       log_suite_end sr s
     else mret tt) ;;
    mret None) ;;
  apply_free (taglist_ptr include_tag_lst) ;;
  apply_free (taglist_ptr exclude_tag_lst) ;;
  check_list_free (Some include_tag_lst) ;;
  check_list_free (Some exclude_tag_lst).

(** ** A run *)

Definition srunner_run_init (sr : loc) (print_mode : print_output) : M world unit :=
  st ← srunner_fork_status sr;
  set_fork_status st ;;
  setup_messaging ;;
  srunner_init_logging sr print_mode ;;
  log_srunner_start sr.

Definition srunner_run_end (sr : loc) (print_mode : print_output) : M world unit :=
  log_srunner_end sr ;;
  srunner_end_logging sr ;;
  teardown_messaging ;;
  set_fork_status CK_FORK.

(** An argument that was not given comes from the environment. *)
Definition or_env (arg : option string) (name : string) : M world (option string) :=
  match arg with Some a => mret (Some a) | None => getenv name end.

Definition srunner_run_tagged (sr : option loc) (sname tcname include_tags exclude_tags : option string)
    (print_mode : print_output) : M world unit :=
  tcname ← or_env tcname "CK_RUN_CASE";
  sname ← or_env sname "CK_RUN_SUITE";
  include_tags ← or_env include_tags "CK_INCLUDE_TAGS";
  exclude_tags ← or_env exclude_tags "CK_EXCLUDE_TAGS";
  match sr with
  | None => mret tt
  | Some sr =>
    (if decide (CK_LAST <= print_mode) then
       eprintf "Bad print_mode argument to srunner_run_all: %d"
         ("Bad print_mode argument to srunner_run_all: " +:+ dec print_mode) "check_run.c" 798
     else mret tt) ;;
    old ← sigaction_get SIGALRM;
    sigaction_set SIGALRM SIG_HANDLER ;;
    modify (upd_signals (fun s => mkSignals (sigact s) (sigint_old_action s) (sigterm_old_action s) old)) ;;
    old ← sigaction_get SIGINT;
    sigaction_set SIGINT SIG_HANDLER ;;
    modify (upd_signals (fun s => mkSignals (sigact s) old (sigterm_old_action s) (sigalarm_old_action s))) ;;
    old ← sigaction_get SIGTERM;
    sigaction_set SIGTERM SIG_HANDLER ;;
    modify (upd_signals (fun s => mkSignals (sigact s) (sigint_old_action s) old (sigalarm_old_action s))) ;;
    srunner_run_init sr print_mode ;;
    srunner_iterate_suites sr sname tcname include_tags exclude_tags print_mode ;;
    srunner_run_end sr print_mode ;;
    old ← gets (fun w => sigalarm_old_action (the_signals w));
    sigaction_set SIGALRM old ;;
    old ← gets (fun w => sigint_old_action (the_signals w));
    sigaction_set SIGINT old ;;
    old ← gets (fun w => sigterm_old_action (the_signals w));
    sigaction_set SIGTERM old
  end.

Definition srunner_run (sr : option loc) (sname tcname : option string) (print_mode : print_output)
    : M world unit :=
  srunner_run_tagged sr sname tcname None None print_mode.

Definition srunner_run_all (sr : option loc) (print_mode : print_output) : M world unit :=
  srunner_run sr None None print_mode.

(** fork from inside a test: the child joins the process group of the test, so that it is
    killed with it. The result is the pid and the image of the child, or None for -1. *)
Definition check_fork : M world (option (Z * proc)) :=
  f ← fork;
  match f with
  | Some (pid, image) =>
    g ← gets (fun w => group_pid (the_statics w));
    mret (Some (pid, set_ids pid g image))
  | None => mret None
  end.

(** [do pid_w = waitpid(pid, &status, 0); while(pid_w == -1)], of which [replies] are the values and
    statuses that the calls give, one after the other; a call after the last does not return. *)
Fixpoint check_waitpid_loop (replies : list (Z * Z)) : M world Z :=
  match replies with
  | [] => stop Hang
  | (pid_w, status) :: replies => if decide (pid_w = -1) then check_waitpid_loop replies else mret status
  end.
Definition check_waitpid_and_exit (pid : Z) (replies : list (Z * Z)) : M world unit :=
  (if decide (0 < pid) then
     status ← check_waitpid_loop replies;
     if waserror status 0 then stop (Exit 1) else mret tt
   else mret tt) ;;
  stop (Exit 0).
End Run.
