(* ===== verification/SelectSpec.v ===== *)
(** * Which tests a run selects (src/check_run.c, srunner_iterate_suites)

    The conditions on names and tags, as one predicate, and that the code computes it. *)
From S2P Require Import Prelude Error Types CList Loops Pack World Str Result Msg MsgSpec Core.
From S2P Require Import CoreSpec Alike Print Log Run.

(** Is a test case of this name and with these tags to be run? *)
Definition selects (tcname include exclude : option string) (name : string) (xs : list string) : bool :=
  from_option (fun n => bool_decide (n = name)) true tcname &&
  from_option (fun i => common xs (words i)) true include &&
  negb (from_option (fun e => common xs (words e)) false exclude).

Section Selection.
Context {plat : Platform} {plat_ok : PlatformOK}.

Lemma put_tclst_tcases s l w : tcases (the_heap (put (tclst_ptr s) l w)) = tcases (the_heap w).
Proof. unfold tclst_ptr, field_ptr, upd_heap. cbn. by destruct (suites _ !! s). Qed.

(** The test cases at the addresses [tcs] exist; their names. *)
Definition live (w : world) (tcs : list loc) : Prop :=
  Forall (fun tc => is_Some (tcases (the_heap w) !! tc)) tcs.
Definition name_at (w : world) (tc : loc) : string :=
  from_option tc_name "" (tcases (the_heap w) !! tc).

Lemma suite_tcase_run s tcs tcname w : holds (tclst_ptr s) w tcs -> live w tcs ->
  exists l, suite_tcase (Some s) tcname w =
      (Ret (bool_decide (tcname ∈ name_at w <$> tcs)), put (tclst_ptr s) l w) /\
    holds (tclst_ptr s) (put (tclst_ptr s) l w) tcs.
Proof.
  intros Hh Hl.
  destruct (list_for_reads (tclst_ptr s)
    (fun a => if bool_decide (tcname = name_at w a) then Some tt else None)
    (fun a => tc ← get_tcase a; mret (if decide (tcname = tc_name tc) then Some tt else None))
    tcs w) as (l & E & Hh').
  - intros l a Ha. unfold live in Hl. rewrite Forall_forall in Hl. destruct (Hl a Ha) as [t Ht].
    unfold get_tcase, name_at. rewrite bind_assoc, (bind_ret _ _ _ _ _ (gets_run _ _)).
    rewrite put_tclst_tcases, Ht. cbn [deref]. rewrite (bind_ret _ _ _ _ _ (mret_run _ _)), mret_run. simpl.
    do 2 f_equal. by repeat case_decide; repeat case_bool_decide.
  - done.
  - exists l. split; [| done]. unfold suite_tcase. rewrite (bind_ret _ _ _ _ _ E), mret_run.
    rewrite head_omap_some. do 2 f_equal. case_bool_decide as Hin.
    + apply list_elem_of_fmap in Hin as (a & -> & Ha). rewrite (proj2 (existsb_exists _ _)); [done |].
      exists a. split; [by apply list_elem_of_In | by apply bool_decide_true].
    + destruct (existsb _ tcs) eqn:Ex; [| done]. apply existsb_exists in Ex as (a & Ha & He).
      apply bool_decide_eq_true in He. destruct Hin. apply list_elem_of_fmap. exists a.
      by rewrite list_elem_of_In.
Qed.

Lemma suite_selected_run s x tcs sname tcname w :
  suites (the_heap w) !! s = Some x -> holds (tclst_ptr s) w tcs -> live w tcs ->
  exists l, suite_selected s sname tcname w =
      (Ret (from_option (fun n => bool_decide (n = s_name x)) true sname &&
            from_option (fun n => bool_decide (n ∈ name_at w <$> tcs)) true tcname),
       put (tclst_ptr s) l w) /\
    holds (tclst_ptr s) (put (tclst_ptr s) l w) tcs.
Proof.
  intros Hx Hh Hl. unfold suite_selected. rewrite (bind_ret _ _ _ _ _ (get_suite_run _ _ _ Hx)).
  assert (Hstay : exists l, put (tclst_ptr s) l w = w).
  { destruct Hh as (l & q & Hlk & _). exists l. by apply put_look. }
  destruct Hstay as [l0 Hl0].
  assert (Hdef : forall b : bool, exists l, (Ret b, w) = (Ret b, put (tclst_ptr s) l w) /\
    holds (tclst_ptr s) (put (tclst_ptr s) l w) tcs) by (intros b; exists l0; by rewrite Hl0).
  destruct sname as [n |]; cbn [from_option].
  - destruct (decide (n = s_name x)) as [-> | Hne].
    + rewrite decide_False by (intros [_ H]; by apply H). rewrite bool_decide_true by done.
      cbn [andb]. destruct tcname; [by apply suite_tcase_run | apply Hdef].
    + rewrite decide_True by (split; congruence). rewrite bool_decide_false by done. apply Hdef.
  - rewrite decide_False by (by intros [H _]). cbn [andb].
    destruct tcname; [by apply suite_tcase_run | apply Hdef].
Qed.

(** The test case [tc] has the tags [xs], in a list of its own. *)
Definition tagged (w : world) (tc : loc) (t : TCase) (tl : loc) (xs : list string) : Prop :=
  tcases (the_heap w) !! tc = Some t /\ tags t = Some tl /\ holds (taglist_ptr tl) w xs.

(** One of the two tag conditions: nothing was asked, or the lists meet. *)
Lemma tag_condition_run tc t tl cf xs s b w :
  tagged w tc t tl xs -> tl <> cf -> holds (taglist_ptr cf) w (words_opt s) ->
  exists w', (if decide (s <> None) then tcase_matching_tag tc (Some cf) else mret b) w =
    (Ret (from_option (fun i => common xs (words i)) b s), w') /\ tags_kept w w'.
Proof.
  intros (Ht & Htl & Hh) Hne Hcf. destruct s as [i |]; cbn [from_option words_opt] in *.
  - rewrite decide_True by done. by eapply tcase_matching_tag_run.
  - rewrite decide_False by auto. by exists w.
Qed.

Lemma tcase_selected_run tc t tl inc exc xs tcname include exclude w :
  tagged w tc t tl xs -> tl <> inc -> tl <> exc ->
  holds (taglist_ptr inc) w (words_opt include) -> holds (taglist_ptr exc) w (words_opt exclude) ->
  exists w', tcase_selected tc tcname include exclude inc exc w =
      (Ret (selects tcname include exclude (tc_name t) xs), w') /\ tags_kept w w'.
Proof.
  intros Htag Hi He Hinc Hexc. pose proof Htag as (Ht & Htl & Hh). unfold tcase_selected, selects.
  assert (Eg : get_tcase tc w = (Ret t, w)).
  { unfold get_tcase. rewrite (bind_ret _ _ _ _ _ (gets_run _ _)). by apply deref_Some. }
  rewrite (bind_ret _ _ _ _ _ Eg).
  assert (Hn : from_option (fun n => bool_decide (n = tc_name t)) true tcname =
    bool_decide (~ (tcname <> None /\ tcname <> Some (tc_name t)))).
  { destruct tcname as [n |]; cbn [from_option].
    - apply bool_decide_ext. split; [intros -> [_ H]; by apply H |].
      intros H. destruct (decide (n = tc_name t)); [done |]. destruct H. split; congruence.
    - symmetry. apply bool_decide_true. by intros [H _]. }
  rewrite Hn. destruct (decide (tcname <> None /\ tcname <> Some (tc_name t))) as [Hd | Hd].
  { rewrite bool_decide_false by tauto. by exists w. }
  rewrite bool_decide_true by done. cbn [andb].
  destruct (tag_condition_run tc t tl inc xs include true w Htag Hi Hinc) as (w1 & E1 & Hk1).
  rewrite (bind_ret _ _ _ _ _ E1).
  destruct (from_option (fun i => common xs (words i)) true include).
  2: by exists w1.
  assert (Htag1 : tagged w1 tc t tl xs).
  { split; [by rewrite (kept_tcases _ _ Hk1) | split; [done | by rewrite <- Hk1]]. }
  destruct (tag_condition_run tc t tl exc xs exclude false w1 Htag1 He) as (w2 & E2 & Hk2).
  { by rewrite <- Hk1. }
  rewrite (bind_ret _ _ _ _ _ E2), mret_run. exists w2. split; [done | by etrans].
Qed.
End Selection.
