(* ===== verification/RunnerSpec.v ===== *)
(** * The results and the counts of a runner (src/check_run.c, src/check.c)

    The invariant [runner_has]: the three counters agree with the list of results.  Adding a
    result preserves it, and it is what makes the arrays of srunner_failures and
    srunner_results large enough. *)
From S2P Require Import Prelude Error Types CList Loops Pack World Str Result Msg MsgSpec Core.
From S2P Require Import CoreSpec Alike Print Log Run.

Definition of_type (c : test_result) (tr : TestResult) : bool := bool_decide (rtype tr = c).
Definition count (c : test_result) (rs : list TestResult) : Z :=
  Z.of_nat (length (filter (fun tr => of_type c tr = true) rs)).
Definition failing (rs : list TestResult) : list TestResult :=
  filter (fun tr => non_pass (rtype tr) = true) rs.

(** The statistics of a list of results. *)
Definition stats_of (rs : list TestResult) : TestStats :=
  mkTestStats (Z.of_nat (length rs)) (count CK_FAILURE rs) (count CK_ERROR rs).

Definition definite (tr : TestResult) : Prop := rtype tr <> CK_TEST_RESULT_INVALID.

Lemma count_snoc c rs tr :
  count c (rs ++ [tr]) = count c rs + (if decide (rtype tr = c) then 1 else 0).
Proof.
  unfold count. rewrite filter_app, length_app, Nat2Z.inj_add. f_equal. unfold of_type.
  destruct (decide (rtype tr = c)) as [H | H].
  - rewrite filter_cons_True by by apply bool_decide_true. done.
  - rewrite filter_cons_False by by rewrite bool_decide_false. done.
Qed.

Lemma count_bounds c rs : 0 <= count c rs <= Z.of_nat (length rs).
Proof. unfold count. pose proof (length_filter (fun tr => of_type c tr = true) rs). lia. Qed.

Lemma failing_length rs : Forall definite rs ->
  Z.of_nat (length (failing rs)) = count CK_FAILURE rs + count CK_ERROR rs.
Proof.
  unfold failing. induction rs as [| tr rs IH] using rev_ind; [done |].
  intros [Hrs Htr]%Forall_app. apply Forall_cons in Htr as [Htr _].
  rewrite filter_app, length_app, !count_snoc, Nat2Z.inj_add, IH by done. unfold definite in Htr.
  destruct (rtype tr) eqn:E; try done; cbn [decide].
  - rewrite filter_cons_False by by rewrite E. simpl. repeat (case_decide; try done). lia.
  - rewrite filter_cons_True by by rewrite E. simpl. repeat (case_decide; try done). lia.
  - rewrite filter_cons_True by by rewrite E. simpl. repeat (case_decide; try done). lia.
Qed.

(** No result is failing exactly when all are passes. *)
Lemma failing_none rs : Forall definite rs -> failing rs = [] <-> Forall (fun tr => rtype tr = CK_PASS) rs.
Proof.
  unfold failing. induction 1 as [| tr rs Hd _ IH]; [done |]. rewrite filter_cons, Forall_cons. unfold definite in Hd.
  case_decide as Hn; destruct (rtype tr) eqn:E; try done.
  - split; [done | by intros [? _]].
  - split; [done | by intros [? _]].
  - split; [intros H; split; [done | by apply IH] | intros [_ H]; by apply IH].
Qed.

(** The runner at [sr] holds the results [rs] and counts them. *)
Record runner_has (w : world) (sr : loc) (rs : list TestResult) : Prop := mkRunnerHas {
  rh_runner : exists r, srunners (the_heap w) !! sr = Some r /\ stats r = stats_of rs;
  rh_results : holds (resultlst_ptr sr) w rs;
  rh_definite : Forall definite rs
}.

Section Runner.
Context {plat : Platform} {plat_ok : PlatformOK}.

Lemma get_srunner_run sr r w : srunners (the_heap w) !! sr = Some r -> get_srunner sr w = (Ret r, w).
Proof.
  intros H. unfold get_srunner. rewrite (bind_ret _ _ _ _ _ (gets_run _ _)). by apply deref_Some.
Qed.

Lemma put_results_lookup sr r l w : srunners (the_heap w) !! sr = Some r ->
  srunners (the_heap (put (resultlst_ptr sr) l w)) !! sr = Some (with_resultlst l r).
Proof. intros H. cbn. rewrite H. apply lookup_insert_eq. Qed.

(** The world with other statistics in a runner. *)
Definition put_stats (sr : loc) (r : SRunner) (st : TestStats) : world -> world :=
  upd_heap (fun h => put_srunners (<[sr := with_stats st r]> (srunners h)) h).

Lemma put_stats_has w sr r st rs : srunners (the_heap w) !! sr = Some r ->
  holds (resultlst_ptr sr) w rs -> st = stats_of rs -> Forall definite rs ->
  runner_has (put_stats sr r st w) sr rs.
Proof.
  intros Hr Hh -> Hd. constructor; [| | done].
  - exists (with_stats (stats_of rs) r). split; [apply lookup_insert_eq | done].
  - eapply holds_look; [| exact Hh]. cbn. unfold the_heap in *. rewrite Hr.
    by rewrite lookup_insert_eq.
Qed.

(** The world after a result: one more in the list [l], and new statistics. *)
Definition recorded (sr : loc) (r : SRunner) (l : List TestResult) (st : TestStats) (w : world) : world :=
  put_stats sr (with_resultlst l r) st (put (resultlst_ptr sr) l w).

Lemma add_failure_run w sr rs tr : runner_has w sr rs -> definite tr ->
  Z.of_nat (length rs) < INT_MAX ->
  exists l r, srunners (the_heap w) !! sr = Some r /\
    srunner_add_failure sr tr w = (Ret tt, recorded sr r l (stats_of (rs ++ [tr])) w) /\
    runner_has (recorded sr r l (stats_of (rs ++ [tr])) w) sr (rs ++ [tr]).
Proof.
  intros [(r & Hr & Hst) Hh Hd] Htr Hb. unfold srunner_add_failure.
  destruct (add_end_holds (resultlst_ptr sr) w rs tr Hh Hb) as (l & E & Hh1).
  rewrite (bind_ret _ _ _ _ _ E). pose proof (put_results_lookup sr r l w Hr) as Hr1.
  exists l, r. split; [exact Hr |]. unfold recorded.
  assert (Hd' : Forall definite (rs ++ [tr])) by (apply Forall_app; split; [done | by constructor]).
  split; [| by apply put_stats_has].
  rewrite (bind_ret _ _ _ _ _ (get_srunner_run _ _ _ Hr1)). cbv zeta. cbn [stats with_resultlst].
  rewrite Hst. cbn [n_checked n_failed n_errors stats_of].
  pose proof (count_bounds CK_FAILURE rs). pose proof (count_bounds CK_ERROR rs).
  erewrite bind_ret by (apply int_succ_run; lia).
  unfold stats_of. rewrite !count_snoc, length_app, Nat2Z.inj_add.
  unfold definite in Htr. destruct (rtype tr) eqn:Et; try done; repeat (case_decide; try done).
  - by rewrite !Z.add_0_r.
  - erewrite bind_ret by (apply int_succ_run; lia). by rewrite !Z.add_0_r.
  - erewrite bind_ret by (apply int_succ_run; lia). by rewrite !Z.add_0_r.
Qed.

(** The arrays: a loop over the results that pushes those that satisfy [P] into an array with
    room for all of them. *)
Definition push_loop (sr : loc) (n : Z) (P : TestResult -> bool) : M (world * list TestResult) (option unit) :=
  list_for (lift_ptr (resultlst_ptr sr)) (fun tr =>
    (if P tr then array_push n tr else mret tt) ;; mret None).

Lemma filter_take_lt (P : TestResult -> bool) rs k tr : rs !! k = Some tr -> P tr = true ->
  (length (filter (fun x => P x = true) (take k rs)) < length (filter (fun x => P x = true) rs))%nat.
Proof.
  intros Hk HP. rewrite <- (take_drop_middle rs k tr Hk) at 2.
  rewrite filter_app, filter_cons_True, length_app by done. simpl. lia.
Qed.

(** The counts that the interface gives. *)
Lemma ntests_run_run sr w rs : runner_has w sr rs -> srunner_ntests_run sr w = (Ret (Z.of_nat (length rs)), w).
Proof.
  intros [(r & Hr & Hst) _ _]. unfold srunner_ntests_run. by rewrite (bind_ret _ _ _ _ _ (get_srunner_run _ _ _ Hr)), Hst.
Qed.
Lemma ntests_failed_run sr w rs : runner_has w sr rs ->
  srunner_ntests_failed sr w = (Ret (Z.of_nat (length (failing rs))), w).
Proof.
  intros [(r & Hr & Hst) _ Hd]. unfold srunner_ntests_failed.
  rewrite (bind_ret _ _ _ _ _ (get_srunner_run _ _ _ Hr)), Hst. by rewrite (failing_length _ Hd).
Qed.

Lemma push_loop_run sr P rs w n : holds (resultlst_ptr sr) w rs ->
  n = Z.of_nat (length (filter (fun x => P x = true) rs)) ->
  exists l, push_loop sr n P (w, []) =
      (Ret None, (put (resultlst_ptr sr) l w, filter (fun x => P x = true) rs)) /\
    holds (resultlst_ptr sr) (put (resultlst_ptr sr) l w) rs.
Proof.
  intros Hh ->. pose proof Hh as (l0 & q0 & Hl0 & Hr0).
  destruct (list_for_each (lift_ptr (resultlst_ptr sr)) (R:=unit)
    (fun k (s : world * list TestResult) => exists l,
       s = (put (resultlst_ptr sr) l w, filter (fun x => P x = true) (take k rs)))
    (fun tr => (if P tr then array_push (Z.of_nat (length (filter (fun x => P x = true) rs))) tr
                else mret tt) ;; mret None) rs (w, []))
    as ([w' arr] & E & [l Hl] & Hh').
  - intros k l q s [l' ->] _ _. exists l. cbn [put lift_ptr fst snd]. by rewrite put_put.
  - intros k tr s Hk [l ->] _. rewrite (take_S_r _ _ _ Hk), filter_app.
    pose proof (filter_take_lt P rs k tr Hk) as Hlt. destruct (P tr) eqn:EP.
    + eexists. split; [| split; [by exists l; rewrite filter_cons_True by done | done]].
      unfold array_push. rewrite bind_assoc. cbn [mbind M_bind get_local].
      unfold mbind, M_bind, get_local. cbn [snd]. rewrite decide_True by (specialize (Hlt eq_refl); lia).
      reflexivity.
    + eexists. split; [reflexivity |]. split; [| done].
      exists l. rewrite filter_cons_False by by rewrite EP. by rewrite app_nil_r.
  - by exists l0, q0.
  - exists l0. by rewrite put_look.
  - rewrite firstn_all in Hl. injection Hl as -> ->. exists l. split; [exact E |].
    destruct Hh' as (l1 & q1 & Hl1 & Hr1). by exists l1, q1.
Qed.
End Runner.
