(* ===== verification/Image.v ===== *)
(** * What a client builds: an abstract specification of src/check.c

    An [image] is the contents of the suites, test cases, lists of tags and runners, by address,
    without cursors, capacities and cells.  [step] says what each call of the interface does to
    an image, and for which arguments it may be made; [wf] is the type invariant of images, and
    every step keeps it. *)
From S2P Require Import Prelude Error Types CList Loops Pack World Str Result Msg MsgSpec Core.
From S2P Require Import CoreSpec Alike Print Log Run RunnerSpec.

Record asuite := mkASuite { as_name : string; as_cases : list loc }.

Record acase := mkACase {
  ac_name : string;
  ac_timeout : timespec;
  ac_tests : list TF;
  ac_fixtures : bool -> bool -> list Fixture;      (* whether checked, whether a setup *)
  ac_tags : loc
}.

Record arunner := mkARunner {
  ar_suites : list loc;
  ar_results : list TestResult;
  ar_log : option string;
  ar_xml : option string;
  ar_tap : option string;
  ar_fork : fork_status
}.

Record image := mkImage {
  im_next : loc;                                   (* the next address *)
  im_suites : gmap loc asuite;
  im_cases : gmap loc acase;
  im_tags : gmap loc (list string);
  im_runners : gmap loc arunner
}.

Definition put_next (n : loc) (i : image) : image :=
  mkImage n (im_suites i) (im_cases i) (im_tags i) (im_runners i).
Definition put_suite (a : loc) (d : asuite) (i : image) : image :=
  mkImage (im_next i) (<[a := d]> (im_suites i)) (im_cases i) (im_tags i) (im_runners i).
Definition put_case (a : loc) (d : acase) (i : image) : image :=
  mkImage (im_next i) (im_suites i) (<[a := d]> (im_cases i)) (im_tags i) (im_runners i).
Definition put_tags (a : loc) (ts : list string) (i : image) : image :=
  mkImage (im_next i) (im_suites i) (im_cases i) (<[a := ts]> (im_tags i)) (im_runners i).
Definition drop_tags (a : loc) (i : image) : image :=
  mkImage (im_next i) (im_suites i) (im_cases i) (delete a (im_tags i)) (im_runners i).
Definition put_runner (a : loc) (d : arunner) (i : image) : image :=
  mkImage (im_next i) (im_suites i) (im_cases i) (im_tags i) (<[a := d]> (im_runners i)).

Definition set_ac_timeout (x : timespec) (d : acase) : acase :=
  mkACase (ac_name d) x (ac_tests d) (ac_fixtures d) (ac_tags d).
Definition set_ac_tests (x : list TF) (d : acase) : acase :=
  mkACase (ac_name d) (ac_timeout d) x (ac_fixtures d) (ac_tags d).
Definition set_ac_fixtures (x : bool -> bool -> list Fixture) (d : acase) : acase :=
  mkACase (ac_name d) (ac_timeout d) (ac_tests d) x (ac_tags d).
Definition set_ac_tags (x : loc) (d : acase) : acase :=
  mkACase (ac_name d) (ac_timeout d) (ac_tests d) (ac_fixtures d) x.

(** What a runner owns: its suites, their test cases, and the tags of these. *)
Definition cases_of (i : image) (ss : list loc) : list loc :=
  mbind (fun s => from_option as_cases [] (im_suites i !! s)) ss.
Definition tags_of (i : image) (cs : list loc) : list loc :=
  omap (fun c => ac_tags <$> im_cases i !! c) cs.

Definition delete_all {A} (ks : list loc) (m : gmap loc A) : gmap loc A := foldr delete m ks.
Definition erase (ss cs ts : list loc) (i : image) : image :=
  mkImage (im_next i) (delete_all ss (im_suites i)) (delete_all cs (im_cases i))
    (delete_all ts (im_tags i)) (im_runners i).
Definition drop_runner (a : loc) (i : image) : image :=
  mkImage (im_next i) (im_suites i) (im_cases i) (im_tags i) (delete a (im_runners i)).
(** The image without the runner [sr] of the suites [ss]. *)
Definition erase_runner (sr : loc) (ss : list loc) (i : image) : image :=
  drop_runner sr (erase ss (cases_of i ss) (tags_of i (cases_of i ss)) i).

(** The runner shares nothing: no suite is in it twice, no test case in two of its suites, no
    suite in another runner, no test case in another suite. *)
Definition sole_owner (i : image) (sr : loc) (ss : list loc) : Prop :=
  NoDup ss /\ NoDup (cases_of i ss) /\
  map_Forall (fun a r => a = sr \/ Forall (fun s => s ∉ ss) (ar_suites r)) (im_runners i) /\
  map_Forall (fun a d => a ∈ ss \/ Forall (fun c => c ∉ cases_of i ss) (as_cases d)) (im_suites i).
#[export] Instance sole_owner_dec i sr ss : Decision (sole_owner i sr ss).
Proof. unfold sole_owner. apply _. Defined.

(** ** The calls of a client *)

Inductive call :=
| c_suite_create (name : option string)
| c_suite_tcase (s : option loc) (name : string)
| c_suite_add_tcase (s tc : option loc)
| c_tcase_create (name : option string)
| c_tcase_set_tags (tc : loc) (tags : option string)
| c_tcase_set_timeout (tc : loc) (timeout : spec_float)
| c_tcase_add_test (tc : option loc) (t : option TTest) (signal allowed start end_ : Z)
| c_tcase_add_fixture (tc : loc) (rg : registration)
| c_srunner_create (s : option loc)
| c_srunner_add_suite (sr : loc) (s : option loc)
| c_srunner_set_log (sr : loc) (fname : option string)
| c_srunner_set_xml (sr : loc) (fname : option string)
| c_srunner_set_tap (sr : loc) (fname : option string)
| c_srunner_set_fork_status (sr : loc) (st : fork_status)
| c_srunner_free (sr : option loc).

Section Step.
Context {plat : Platform}.

(** A time read from the environment, and a number of seconds as a timespec. *)
Definition env_number (e : gmap string string) (name : string) : option spec_float :=
  match e !! name with
  | None => None
  | Some t =>
    let '(x, n) := strtod t in
    if f64_nonneg x && negb (n =? 0)%nat && (n =? String.length t)%nat then Some x else None
  end.
Definition scaled (e : gmap string string) (t : spec_float) : spec_float :=
  match env_number e "CK_TIMEOUT_MULTIPLIER" with Some x => f64_mul t x | None => t end.
Definition int64_opt (x : spec_float) : option Z :=
  match sf_trunc x with
  | Some z => if decide (- 2 ^ 63 <= z < 2 ^ 63) then Some z else None
  | None => None
  end.
Definition timespec_opt (t : spec_float) : option timespec :=
  sec ← int64_opt (floor t);
  nsec ← int64_opt (f64_mul (f64_sub t (floor t)) (f64_of_int NANOS_PER_SECONDS));
  Some (mkTimespec sec nsec).
Definition initial_timeout (e : gmap string string) : option timespec :=
  timespec_opt (scaled e (default (f64_of_int DEFAULT_TIMEOUT) (env_number e "CK_DEFAULT_TIMEOUT"))).

(** A list has room for one more element. *)
Definition room {A} (xs : list A) : Prop := Z.of_nat (length xs) < INT_MAX.
#[global] Instance room_dec {A} (xs : list A) : Decision (room xs).
Proof. unfold room. apply _. Defined.

(** The address of a suite. *)
Definition live (i : image) (s : loc) : Prop := is_Some (im_suites i !! s).
#[global] Instance live_dec i s : Decision (live i s).
Proof. unfold live. apply _. Defined.

Definition on_runner (sr : loc) (i : image) (f : arunner -> arunner) : option (Z * image) :=
  r ← im_runners i !! sr; Some (0, put_runner sr (f r) i).
(** The file names of the logs are set once. *)
Definition first_set (old new : option string) : option string :=
  match old with Some f => Some f | None => new end.

(** A call on the image [i], in the environment [e]: its answer (0 for void) and the image that
    it leaves; [None] when it may not be made. *)
Definition step (e : gmap string string) (c : call) (i : image) : option (Z * image) :=
  let a := im_next i in
  match c with
  | c_suite_create name => Some (a, put_suite a (mkASuite (default "" name) []) (put_next (a + 1) i))
  | c_suite_tcase None _ => Some (0, i)
  | c_suite_tcase (Some s) name =>
    d ← im_suites i !! s;
    Some (Z.b2z (existsb (fun tc => bool_decide (ac_name <$> im_cases i !! tc = Some name)) (as_cases d)), i)
  | c_suite_add_tcase (Some s) (Some tc) =>
    d ← im_suites i !! s;
    if decide (is_Some (im_cases i !! tc) /\ room (as_cases d)) then
      Some (0, put_suite s (mkASuite (as_name d)
        (if decide (tc ∈ as_cases d) then as_cases d else as_cases d ++ [tc])) i)
    else None
  | c_suite_add_tcase _ _ => Some (0, i)
  | c_tcase_create name =>
    ts ← initial_timeout e;
    Some (a + 1, put_case (a + 1) (mkACase (default "" name) ts [] (fun _ _ => []) a)
      (put_tags a [] (put_next (a + 2) i)))
  | c_tcase_set_tags tc tags =>
    d ← im_cases i !! tc;
    if decide (strlen (default "" tags) <= INT_MAX) then
      Some (0, put_case tc (set_ac_tags a d) (put_tags a (words_opt tags)
        (put_next (a + 1) (drop_tags (ac_tags d) i))))
    else None
  | c_tcase_set_timeout tc t =>
    d ← im_cases i !! tc;
    if f64_nonneg t then ts ← timespec_opt (scaled e t); Some (0, put_case tc (set_ac_timeout ts d) i)
    else Some (0, i)
  | c_tcase_add_test (Some tc) (Some t) signal allowed start end_ =>
    d ← im_cases i !! tc;
    if decide (room (ac_tests d)) then
      Some (0, put_case tc (set_ac_tests
        (ac_tests d ++ [mkTF t start end_ signal (s8 (allowed mod 256))]) d) i)
    else None
  | c_tcase_add_test _ _ _ _ _ _ => Some (0, i)
  | c_tcase_add_fixture tc rg =>
    d ← im_cases i !! tc;
    if decide (room (ac_fixtures d true true) /\ room (ac_fixtures d true false) /\
               room (ac_fixtures d false true) /\ room (ac_fixtures d false false)) then
      Some (0, put_case tc (set_ac_fixtures (after [rg] (ac_fixtures d)) d) i)
    else None
  | c_srunner_create s =>
    if decide (Forall (live i) (option_list s)) then
      Some (a, put_runner a (mkARunner (option_list s) [] None None None CK_FORK_GETENV) (put_next (a + 1) i))
    else None
  | c_srunner_add_suite sr s =>
    r ← im_runners i !! sr;
    if decide (Forall (live i) (option_list s) /\ room (ar_suites r)) then
      Some (0, put_runner sr (mkARunner (ar_suites r ++ option_list s) (ar_results r)
        (ar_log r) (ar_xml r) (ar_tap r) (ar_fork r)) i)
    else None
  | c_srunner_set_log sr f => on_runner sr i (fun r => mkARunner (ar_suites r) (ar_results r)
      (first_set (ar_log r) f) (ar_xml r) (ar_tap r) (ar_fork r))
  | c_srunner_set_xml sr f => on_runner sr i (fun r => mkARunner (ar_suites r) (ar_results r)
      (ar_log r) (first_set (ar_xml r) f) (ar_tap r) (ar_fork r))
  | c_srunner_set_tap sr f => on_runner sr i (fun r => mkARunner (ar_suites r) (ar_results r)
      (ar_log r) (ar_xml r) (first_set (ar_tap r) f) (ar_fork r))
  | c_srunner_set_fork_status sr st => on_runner sr i (fun r => mkARunner (ar_suites r) (ar_results r)
      (ar_log r) (ar_xml r) (ar_tap r) st)
  | c_srunner_free (Some sr) =>
    r ← im_runners i !! sr;
    if decide (sole_owner i sr (ar_suites r)) then Some (0, erase_runner sr (ar_suites r) i) else None
  | c_srunner_free None => Some (0, i)
  end.

(** The call of the library. *)
Definition perform (c : call) : M world Z :=
  match c with
  | c_suite_create name => suite_create name
  | c_suite_tcase s name => b ← suite_tcase s name; mret (Z.b2z b)
  | c_suite_add_tcase s tc => suite_add_tcase s tc ;; mret 0
  | c_tcase_create name => tcase_create name
  | c_tcase_set_tags tc tags => tcase_set_tags tc tags ;; mret 0
  | c_tcase_set_timeout tc t => tcase_set_timeout tc t ;; mret 0
  | c_tcase_add_test tc t signal allowed start end_ => tcase_add_test_ tc t signal allowed start end_ ;; mret 0
  | c_tcase_add_fixture tc rg => register tc rg ;; mret 0
  | c_srunner_create s => srunner_create s
  | c_srunner_add_suite sr s => srunner_add_suite sr s ;; mret 0
  | c_srunner_set_log sr f => srunner_set_log sr f ;; mret 0
  | c_srunner_set_xml sr f => srunner_set_xml sr f ;; mret 0
  | c_srunner_set_tap sr f => srunner_set_tap sr f ;; mret 0
  | c_srunner_set_fork_status sr st => srunner_set_fork_status sr st ;; mret 0
  | c_srunner_free sr => srunner_free sr ;; mret 0
  end.
End Step.

(** ** The type invariant *)

(** Addresses in use are below the next one; a suite has distinct, live test cases; a test case
    owns a list of tags; a runner has live suites and results that are known. *)
Record wf (i : image) : Prop := mkWf {
  wf_suites_fresh : map_Forall (fun a _ => a < im_next i) (im_suites i);
  wf_cases_fresh : map_Forall (fun a _ => a < im_next i) (im_cases i);
  wf_tags_fresh : map_Forall (fun a _ => a < im_next i) (im_tags i);
  wf_runners_fresh : map_Forall (fun a _ => a < im_next i) (im_runners i);
  wf_suites : map_Forall (fun _ d => NoDup (as_cases d) /\
    Forall (fun tc => is_Some (im_cases i !! tc)) (as_cases d)) (im_suites i);
  wf_cases : map_Forall (fun _ d => is_Some (im_tags i !! ac_tags d)) (im_cases i);
  wf_owner : forall a b c d, im_cases i !! a = Some c -> im_cases i !! b = Some d ->
    ac_tags c = ac_tags d -> a = b;
  wf_runners : map_Forall (fun _ r => Forall (live i) (ar_suites r) /\ Forall definite (ar_results r))
    (im_runners i)
}.

Lemma live_insert {A} (m : gmap loc A) k x a : is_Some (m !! a) -> is_Some (<[k := x]> m !! a).
Proof. rewrite lookup_insert_is_Some'. by right. Qed.
#[export] Hint Resolve live_insert : core.

(** An empty image. *)
Lemma wf_empty n : wf (mkImage n ∅ ∅ ∅ ∅).
Proof. by constructor. Qed.

Lemma wf_next i n : wf i -> im_next i <= n -> wf (put_next n i).
Proof.
  intros [H1 H2 H3 H4 ? ? ? ?] Hn. constructor; try done; intros a x Hx; cbn in *.
  - specialize (H1 a x Hx). cbn in H1. lia.
  - specialize (H2 a x Hx). cbn in H2. lia.
  - specialize (H3 a x Hx). cbn in H3. lia.
  - specialize (H4 a x Hx). cbn in H4. lia.
Qed.

Lemma wf_put_suite i a d : wf i -> a < im_next i -> NoDup (as_cases d) ->
  Forall (fun tc => is_Some (im_cases i !! tc)) (as_cases d) -> wf (put_suite a d i).
Proof.
  intros [] Ha Hd Hl. constructor; try done.
  - by apply map_Forall_insert_2.
  - by apply map_Forall_insert_2.
  - eapply map_Forall_impl; [eassumption |]. intros r x [H1 H2]. split; [| done].
    eapply Forall_impl; [exact H1 |]. unfold live. cbn. eauto.
Qed.

Lemma wf_put_tags i a ts : wf i -> a < im_next i -> wf (put_tags a ts i).
Proof.
  intros [] Ha. constructor; try done.
  - by apply map_Forall_insert_2.
  - eapply map_Forall_impl; [eassumption |]. cbn. eauto.
Qed.

Lemma wf_put_case i a d : wf i -> a < im_next i -> is_Some (im_tags i !! ac_tags d) ->
  (forall b c, b <> a -> im_cases i !! b = Some c -> ac_tags c <> ac_tags d) -> wf (put_case a d i).
Proof.
  intros [] Ha Ht Ho. constructor; try done.
  - by apply map_Forall_insert_2.
  - eapply map_Forall_impl; [eassumption |]. intros s x [H1 H2]. split; [done |].
    eapply Forall_impl; [exact H2 |]. cbn. eauto.
  - by apply map_Forall_insert_2.
  - intros b1 b2 c1 c2. cbn. rewrite !lookup_insert_Some. naive_solver.
Qed.

(** An update that leaves the tags where they are. *)
Lemma wf_update_case i a d d' : wf i -> im_cases i !! a = Some d -> ac_tags d' = ac_tags d ->
  wf (put_case a d' i).
Proof.
  intros H Hd E. apply wf_put_case; [done | by eapply (wf_cases_fresh i) | |].
  - rewrite E. by eapply (wf_cases i).
  - intros b c Hne Hc. rewrite E. intros Et. by apply Hne, (wf_owner i H b a c d).
Qed.

Lemma wf_put_runner i a d : wf i -> a < im_next i -> Forall (live i) (ar_suites d) ->
  Forall definite (ar_results d) -> wf (put_runner a d i).
Proof. intros [] Ha Hs Hr. by constructor; try apply map_Forall_insert_2. Qed.

Lemma wf_update_runner i a d d' : wf i -> im_runners i !! a = Some d -> ar_suites d' = ar_suites d ->
  ar_results d' = ar_results d -> wf (put_runner a d' i).
Proof.
  intros H Hd E1 E2. destruct (wf_runners i H a d Hd). apply wf_put_runner; rewrite ?E1, ?E2; try done.
  by eapply (wf_runners_fresh i).
Qed.

(** New tags for a test case: the old list is freed. *)
Lemma wf_replace_tags i a d ts : wf i -> im_cases i !! a = Some d ->
  wf (put_case a (set_ac_tags (im_next i) d)
       (put_tags (im_next i) ts (put_next (im_next i + 1) (drop_tags (ac_tags d) i)))).
Proof.
  intros H Hd. pose proof (wf_cases i H) as Hc. pose proof (wf_tags_fresh i H) as Ht.
  pose proof (wf_cases_fresh i H a d Hd) as Ha. cbn in Ha.
  destruct (wf_next i (im_next i + 1) H ltac:(lia)) as [F1 F2 F3 F4 G1 G2 G3 G4].
  constructor; cbn in *.
  - done.
  - apply map_Forall_insert_2; [lia | done].
  - apply map_Forall_insert_2; [lia |]. by apply map_Forall_delete.
  - done.
  - eapply map_Forall_impl; [exact G1 |]. cbn. intros s x [H1 H2]. split; [done |].
    eapply Forall_impl; [exact H2 |]. eauto.
  - intros b c. rewrite lookup_insert_Some. intros [[<- <-] | [Hne Hb]]; cbn.
    + rewrite lookup_insert_eq. eauto.
    + apply live_insert. rewrite lookup_delete_ne; [by eapply Hc |].
      intros E. by apply Hne, (G3 a b d c).
  - intros b1 b2 c1 c2. rewrite !lookup_insert_Some.
    assert (Hlt : forall b c, im_cases i !! b = Some c -> ac_tags c <> im_next i).
    { intros b c Hb E. destruct (Hc b c Hb) as [t Ht']. pose proof (Ht _ _ Ht') as Hl. cbn in Hl. lia. }
    intros [[<- <-] | [? H1]] [[<- <-] | [? H2]] E; cbn in *; try done.
    + by destruct (Hlt b2 c2 H2).
    + by destruct (Hlt b1 c1 H1).
    + by apply (G3 b1 b2 c1 c2).
  - done.
Qed.

(** ** Erasing *)

Lemma lookup_delete_all {A} ks (m : gmap loc A) k :
  delete_all ks m !! k = if decide (k ∈ ks) then None else m !! k.
Proof.
  unfold delete_all. induction ks as [| k' ks IH]; cbn [foldr].
  - by rewrite decide_False by set_solver.
  - destruct (decide (k = k')) as [-> | Hne].
    + by rewrite lookup_delete_eq, decide_True by set_solver.
    + rewrite lookup_delete_ne, IH by congruence. repeat case_decide; set_solver.
Qed.
Lemma lookup_delete_all_Some {A} ks (m : gmap loc A) k x :
  delete_all ks m !! k = Some x <-> (k ∉ ks) /\ m !! k = Some x.
Proof. rewrite lookup_delete_all. case_decide; naive_solver. Qed.
Lemma delete_all_live {A} ks (m : gmap loc A) k : k ∉ ks -> is_Some (m !! k) -> is_Some (delete_all ks m !! k).
Proof. intros Hk [x Hx]. exists x. by rewrite lookup_delete_all_Some. Qed.
Lemma delete_all_Forall {A} ks (m : gmap loc A) (P : loc -> A -> Prop) :
  map_Forall P m -> map_Forall P (delete_all ks m).
Proof. intros H k x [_ Hx]%lookup_delete_all_Some. by apply H. Qed.

Lemma delete_all_snoc {A} ks k (m : gmap loc A) : delete_all (ks ++ [k]) m = delete k (delete_all ks m).
Proof.
  apply map_eq. intros a. rewrite lookup_delete_all. destruct (decide (a = k)) as [-> | Hne].
  - by rewrite lookup_delete_eq, decide_True by set_solver.
  - rewrite lookup_delete_ne, lookup_delete_all by congruence. repeat case_decide; set_solver.
Qed.
Lemma delete_all_app {A} ks ks' (m : gmap loc A) : delete_all (ks ++ ks') m = delete_all ks' (delete_all ks m).
Proof. apply map_eq. intros a. rewrite !lookup_delete_all. repeat case_decide; set_solver. Qed.
Lemma erase_erase ss cs ts ss' cs' ts' i :
  erase ss' cs' ts' (erase ss cs ts i) = erase (ss ++ ss') (cs ++ cs') (ts ++ ts') i.
Proof. unfold erase. cbn. by rewrite !delete_all_app. Qed.

Lemma tags_of_snoc i cs c d : im_cases i !! c = Some d -> tags_of i (cs ++ [c]) = tags_of i cs ++ [ac_tags d].
Proof. intros Hd. unfold tags_of. rewrite omap_app. cbn. by rewrite Hd. Qed.
Lemma cases_of_snoc i ss s d : im_suites i !! s = Some d -> cases_of i (ss ++ [s]) = cases_of i ss ++ as_cases d.
Proof. intros Hd. unfold cases_of. rewrite bind_app. cbn. by rewrite Hd, app_nil_r. Qed.

Lemma elem_of_tags_of i cs a : a ∈ tags_of i cs <-> exists c d, c ∈ cs /\ im_cases i !! c = Some d /\ ac_tags d = a.
Proof.
  unfold tags_of. rewrite list_elem_of_omap. split.
  - intros (c & Hc & E). apply fmap_Some in E as (d & Hd & ->). eauto.
  - intros (c & d & Hc & Hd & <-). exists c. by rewrite Hd.
Qed.

(** What is left does not refer to what is erased. *)
Lemma wf_erase_runner i sr r : wf i -> im_runners i !! sr = Some r -> sole_owner i sr (ar_suites r) ->
  wf (erase_runner sr (ar_suites r) i).
Proof.
  intros [F1 F2 F3 F4 G1 G2 G3 G4] Hr (_ & _ & Hors & Hoss). set (ss := ar_suites r) in *.
  set (cs := cases_of i ss) in *. constructor; cbn.
  1-3: by apply delete_all_Forall.
  - by apply map_Forall_delete.
  - intros s d [Hs Hd]%lookup_delete_all_Some. destruct (G1 s d Hd) as [Hn Hl]. split; [done |].
    destruct (Hoss s d Hd) as [? | Ho]; [done |]. rewrite Forall_forall in *. intros c Hc.
    apply delete_all_live; auto.
  - intros c d [Hc Hd]%lookup_delete_all_Some. apply delete_all_live; [| by eapply G2].
    rewrite elem_of_tags_of. intros (c' & d' & Hc' & Hd' & E). by rewrite (G3 c c' d d') in Hc by done.
  - intros a b c d [_ Ha]%lookup_delete_all_Some [_ Hb]%lookup_delete_all_Some. by apply G3.
  - intros a x [Hne Hx]%lookup_delete_Some. destruct (G4 a x Hx) as [H1 H2]. split; [| done].
    destruct (Hors a x Hx) as [? | Ho]; [congruence |]. rewrite Forall_forall in *. intros s Hs.
    apply delete_all_live; auto. by apply H1.
Qed.

Section Keeps.
Context {plat : Platform}.

(** Every step keeps the invariant. *)
Lemma step_wf e c i v i' : wf i -> step e c i = Some (v, i') -> wf i'.
Proof.
  intros H E. pose proof (wf_next i (im_next i + 1) H ltac:(lia)) as H1.
  pose proof (wf_next i (im_next i + 2) H ltac:(lia)) as H2.
  destruct c; cbn [step] in E; unfold on_runner in E; repeat case_match; simplify_option_eq;
    destruct_and?; try done;
    try (by eapply wf_update_case); try (by eapply wf_update_runner); try (by apply wf_replace_tags).
  - apply wf_put_suite; cbn; [done | lia | constructor | constructor].
  - destruct (wf_suites i H _ _ ltac:(eassumption)) as [Hd Hl].
    apply wf_put_suite; cbn; [done | by eapply (wf_suites_fresh i) | done | done].
  - destruct (wf_suites i H _ _ ltac:(eassumption)) as [Hd Hl].
    apply wf_put_suite; cbn; [done | by eapply (wf_suites_fresh i) | |].
    + apply NoDup_app. split; [done |]. split; [| apply NoDup_singleton].
      by intros x Hx ->%list_elem_of_singleton.
    + apply Forall_app. split; [done |]. by apply Forall_singleton.
  - apply wf_put_case; cbn; [apply wf_put_tags; cbn; [done | lia] | lia | |].
    + rewrite lookup_insert_eq. eauto.
    + intros b c _ Hc Et. destruct (wf_cases i H b c Hc) as [t Ht]. rewrite Et in Ht.
      pose proof (wf_tags_fresh i H _ _ Ht) as Hlt. cbn in Hlt. lia.
  - apply wf_put_runner; cbn; [done | lia | done | constructor].
  - destruct (wf_runners i H _ _ ltac:(eassumption)) as [Hd Hl].
    apply wf_put_runner; cbn; [done | by eapply (wf_runners_fresh i) | | done].
    by apply Forall_app.
  - by apply wf_erase_runner.
Qed.
End Keeps.
