(* ===== verification/BuildSpec.v ===== *)
(** * The calls that build a program, against the images of Image.v

    [models w i]: the heap of [w] has the contents [i].  Each call allowed by [step] returns,
    with the answer and the contents that [step] gives, and changes nothing but the heap. *)
From S2P Require Import Prelude Error Types CList Loops Pack World Str Result Msg MsgSpec Core.
From S2P Require Import CoreSpec Alike Print Log Run SelectSpec RunnerSpec Image.

Record suite_is (x : Suite) (d : asuite) : Prop := mkSuiteIs {
  si_name : s_name x = as_name d;
  si_cases : lists (tclst x) (as_cases d)
}.
Record tcase_is (t : TCase) (d : acase) : Prop := mkTCaseIs {
  ti_name : tc_name t = ac_name d;
  ti_timeout : timeout t = ac_timeout d;
  ti_tests : lists (tflst t) (ac_tests d);
  ti_fixtures : forall ck s, lists (fixture_of ck s t) (ac_fixtures d ck s);
  ti_tags : tags t = Some (ac_tags d)
}.
Record srunner_is (r : SRunner) (d : arunner) : Prop := mkSRunnerIs {
  ri_suites : lists (slst r) (ar_suites d);
  ri_stats : stats r = stats_of (ar_results d);
  ri_results : lists (resultlst r) (ar_results d);
  ri_log : log_fname r = ar_log d;
  ri_xml : xml_fname r = ar_xml d;
  ri_tap : tap_fname r = ar_tap d;
  ri_logs : loglst r = None;
  ri_fork : fstat r = ar_fork d
}.

Record models (w : world) (i : image) : Prop := mkModels {
  md_next : next_loc (the_heap w) = im_next i;
  md_suites : map_Forall2 (fun _ => suite_is) (suites (the_heap w)) (im_suites i);
  md_cases : map_Forall2 (fun _ => tcase_is) (tcases (the_heap w)) (im_cases i);
  md_tags : map_Forall2 (fun _ => lists) (taglists (the_heap w)) (im_tags i);
  md_runners : map_Forall2 (fun _ => srunner_is) (srunners (the_heap w)) (im_runners i)
}.

(** Only the heap differs. *)
Definition heap_only (w w' : world) : Prop := exists h, w' = upd_heap (fun _ => h) w.
#[export] Instance heap_only_preorder : PreOrder heap_only.
Proof.
  split.
  - intros [[] o]. by eexists.
  - intros w w1 w2 [h1 ->] [h2 ->]. by exists h2.
Qed.
Lemma heap_only_upd f w : heap_only w (upd_heap f w).
Proof. by eexists. Qed.

(** ** Updates of the heap and of the image *)

Section Updates.
Context (w : world) (i : image).
Hypothesis (Hm : models w i).

Lemma models_suite a d : im_suites i !! a = Some d ->
  exists x, suites (the_heap w) !! a = Some x /\ suite_is x d.
Proof. intros Hd. pose proof (md_suites _ _ Hm a) as H. rewrite Hd in H. inversion H; eauto. Qed.
Lemma models_case a d : im_cases i !! a = Some d ->
  exists t, tcases (the_heap w) !! a = Some t /\ tcase_is t d.
Proof. intros Hd. pose proof (md_cases _ _ Hm a) as H. rewrite Hd in H. inversion H; eauto. Qed.
Lemma models_tags a ts : im_tags i !! a = Some ts -> holds (taglist_ptr a) w ts.
Proof.
  intros Hd. pose proof (md_tags _ _ Hm a) as H. rewrite Hd in H. inversion H as [l ? [q Hq] |]; subst.
  exists l, q. by rewrite look_taglist.
Qed.
Lemma models_runner a d : im_runners i !! a = Some d ->
  exists r, srunners (the_heap w) !! a = Some r /\ srunner_is r d.
Proof. intros Hd. pose proof (md_runners _ _ Hm a) as H. rewrite Hd in H. inversion H; eauto. Qed.

Lemma models_bump n : im_next i + 1 = n -> models (upd_heap bump_loc w) (put_next n i).
Proof. intros <-. destruct Hm as [E ? ? ? ?]. constructor; cbn; [by rewrite E | done..]. Qed.
Lemma models_put_suite a x d : suite_is x d ->
  models (upd_heap (fun h => put_suites (<[a := x]> (suites h)) h) w) (put_suite a d i).
Proof. intros H. destruct Hm. constructor; try done. by apply map_Forall2_insert_2. Qed.
Lemma models_put_case a x d : tcase_is x d ->
  models (upd_heap (fun h => put_tcases (<[a := x]> (tcases h)) h) w) (put_case a d i).
Proof. intros H. destruct Hm. constructor; try done. by apply map_Forall2_insert_2. Qed.
Lemma models_put_tags a l ts : lists l ts -> models (with_taglist a l w) (put_tags a ts i).
Proof. intros H. destruct Hm. constructor; try done. by apply map_Forall2_insert_2. Qed.
Lemma models_drop_tags a : models (without_tags a w) (drop_tags a i).
Proof. destruct Hm. constructor; try done. by apply map_Forall2_delete. Qed.
Lemma models_put_runner a x d : srunner_is x d ->
  models (upd_heap (fun h => put_srunners (<[a := x]> (srunners h)) h) w) (put_runner a d i).
Proof. intros H. destruct Hm. constructor; try done. by apply map_Forall2_insert_2. Qed.
End Updates.

(** An update that leaves the contents as they were. *)
Lemma put_suite_id i a d : im_suites i !! a = Some d -> put_suite a d i = i.
Proof. intros H. unfold put_suite. rewrite insert_id by done. by destruct i. Qed.
Lemma put_tags_id i a ts : im_tags i !! a = Some ts -> put_tags a ts i = i.
Proof. intros H. unfold put_tags. rewrite insert_id by done. by destruct i. Qed.

(** ** The calls *)

Section Calls.
Context {plat : Platform} {plat_ok : PlatformOK}.

(** What is proved of a call: its answer, and the contents that it leaves. *)
Definition refines (m : M world Z) (w : world) (v : Z) (i : image) : Prop :=
  exists w', m w = (Ret v, w') /\ models w' i /\ heap_only w w'.

Lemma refines_unit (m : M world unit) w w' i : m w = (Ret tt, w') -> models w' i -> heap_only w w' ->
  refines (m ;; mret 0) w 0 i.
Proof. intros E Hm Hh. exists w'. by rewrite (bind_ret _ _ _ _ _ E). Qed.

Lemma create_run {A} (w : world) : exists l : List A, check_list_create w = (Ret l, w) /\ lists l [].
Proof.
  destruct (create_spec (A:=A) w) as [(l & E & H) | [w' E]]; [exists l; split; [done | by exists None] |].
  exfalso. revert E. unfold check_list_create. by rewrite !(bind_ret _ _ _ _ _ (emalloc_run _ _)).
Qed.

Lemma new_loc_run w : new_loc w = (Ret (next_loc (the_heap w)), upd_heap bump_loc w).
Proof. done. Qed.

(** Two updates of one test case, the second one given up to its lists. *)
Lemma models_put_case_twice w i a d0 d1 d2 : models w (put_case a d1 (put_case a d0 i)) ->
  (forall t, tcase_is t d1 -> tcase_is t d2) -> models w (put_case a d2 i).
Proof.
  intros [H1 H2 H3 H4 H5] Hd. constructor; try done. cbn in *. rewrite insert_insert_eq in H3.
  intros b. specialize (H3 b). destruct (decide (b = a)) as [-> | Hne].
  - rewrite lookup_insert_eq in *. inversion H3; subst. constructor. by apply Hd.
  - by rewrite lookup_insert_ne in * by congruence.
Qed.

(** A list of a test case gets new contents. *)
Lemma models_put_tests w i a d l xs : models w i -> im_cases i !! a = Some d ->
  holds (tflst_ptr a) (put (tflst_ptr a) l w) xs ->
  models (put (tflst_ptr a) l w) (put_case a (set_ac_tests xs d) i).
Proof.
  intros Hm Hd Hh. destruct (models_case _ _ Hm _ _ Hd) as (t & Ht & []). pose proof (field_lists _ _ _ _ a t l w xs Ht Hh).
  unfold tflst_ptr. rewrite (field_put _ _ _ _ a t l w Ht). apply models_put_case; [done |]. by constructor.
Qed.
Lemma models_put_fixture w i a d ck s l xs : models w i -> im_cases i !! a = Some d ->
  holds (fixture_ptr ck s a) (put (fixture_ptr ck s a) l w) xs ->
  models (put (fixture_ptr ck s a) l w) (put_case a (set_ac_fixtures (fun ck' s' =>
    if decide ((ck', s') = (ck, s)) then xs else ac_fixtures d ck' s') d) i).
Proof.
  intros Hm Hd Hh. destruct (models_case _ _ Hm _ _ Hd) as (t & Ht & [Hn Hto Hts Hf Htg]).
  assert (Hl : lists l xs).
  { destruct Hh as (l' & q & Hl & Hr). rewrite look_put in Hl; [injection Hl as <-; by exists q |].
    rewrite fixture_ptr_field. cbn. rewrite Ht. eauto. }
  rewrite fixture_ptr_field, (field_put _ _ _ _ a t l w Ht). apply models_put_case; [done |].
  constructor; try by destruct ck, s.
  intros ck' s'. rewrite fixture_of_with. cbn. case_decide; [done | apply Hf].
Qed.

(** ** Suites *)

Lemma suite_create_refines w i name : models w i ->
  refines (suite_create name) w (im_next i)
    (put_suite (im_next i) (mkASuite (default "" name) []) (put_next (im_next i + 1) i)).
Proof.
  intros Hm. unfold suite_create. destruct (create_run (A:=loc) w) as (l & El & Hl).
  unfold refines. rewrite (bind_ret _ _ _ _ _ (emalloc_run _ _)), (bind_ret _ _ _ _ _ El).
  rewrite (bind_ret _ _ _ _ _ (new_loc_run _)), (md_next _ _ Hm).
  eexists. split; [reflexivity |]. split; [| by eexists].
  apply (models_put_suite (upd_heap bump_loc w)); [by apply models_bump | by constructor].
Qed.

(** A move of the cursor of a list of test cases, or new contents for it. *)
Lemma models_put_cases w i a d l xs : models w i -> im_suites i !! a = Some d ->
  holds (tclst_ptr a) (put (tclst_ptr a) l w) xs ->
  models (put (tclst_ptr a) l w) (put_suite a (mkASuite (as_name d) xs) i).
Proof.
  intros Hm Hd Hh. destruct (models_suite _ _ Hm _ _ Hd) as (x & Hx & []).
  pose proof (field_lists _ _ _ _ a x l w xs Hx Hh).
  unfold tclst_ptr. rewrite (field_put _ _ _ _ a x l w Hx). apply models_put_suite; [done |]. by constructor.
Qed.

Lemma put_heap_only {R A} (region : heap -> gmap loc R) put_region (f : R -> List A) g a l w :
  heap_only w (put (field_ptr region put_region f g a) l w).
Proof. apply heap_only_upd. Qed.

Lemma models_cases_hold w i a d : models w i -> im_suites i !! a = Some d ->
  holds (tclst_ptr a) w (as_cases d).
Proof. intros Hm Hd. destruct (models_suite _ _ Hm _ _ Hd) as (x & Hx & []). by eapply field_holds. Qed.
Lemma models_tests_hold w i a d : models w i -> im_cases i !! a = Some d ->
  holds (tflst_ptr a) w (ac_tests d).
Proof. intros Hm Hd. destruct (models_case _ _ Hm _ _ Hd) as (x & Hx & []). by eapply field_holds. Qed.
Lemma models_fixtures_hold w i a d ck s : models w i -> im_cases i !! a = Some d ->
  holds (fixture_ptr ck s a) w (ac_fixtures d ck s).
Proof.
  intros Hm Hd. destruct (models_case _ _ Hm _ _ Hd) as (x & Hx & [_ _ _ Hf _]).
  rewrite fixture_ptr_field. by eapply field_holds.
Qed.

Lemma asuite_eta d : mkASuite (as_name d) (as_cases d) = d.
Proof. by destruct d. Qed.

Lemma suite_tcase_refines w i s d name : models w i -> wf i -> im_suites i !! s = Some d ->
  refines (b ← suite_tcase (Some s) name; mret (Z.b2z b)) w
    (Z.b2z (existsb (fun tc => bool_decide (ac_name <$> im_cases i !! tc = Some name)) (as_cases d))) i.
Proof.
  intros Hm Hwf Hd. pose proof (models_cases_hold _ _ _ _ Hm Hd) as Hh. unfold suite_tcase.
  destruct (list_for_reads (tclst_ptr s)
    (fun tc => if bool_decide (ac_name <$> im_cases i !! tc = Some name) then Some tt else None)
    (fun a => tc ← get_tcase a; mret (if decide (name = tc_name tc) then Some tt else None))
    (as_cases d) w) as (l & E & Hl); [| done |].
  - intros l tc Htc. destruct (wf_suites i Hwf s d Hd) as [_ Hlive].
    rewrite Forall_forall in Hlive. destruct (Hlive tc Htc) as [c Hc].
    destruct (models_case _ _ Hm _ _ Hc) as (t & Ht & []).
    erewrite bind_ret by by apply get_tcase_run; rewrite put_tclst_tcases.
    rewrite mret_run, Hc. cbn. rewrite ti_name0. do 2 f_equal.
    case_decide; case_bool_decide; congruence.
  - exists (put (tclst_ptr s) l w). split; [| split; [| apply put_heap_only]].
    + rewrite bind_assoc. rewrite (bind_ret _ _ _ _ _ E), head_omap_some. by destruct (existsb _ _).
    + pose proof (models_put_cases _ _ _ _ _ _ Hm Hd Hl) as H.
      by rewrite asuite_eta, (put_suite_id _ _ _ Hd) in H.
Qed.

Lemma suite_add_tcase_refines w i s tc d : models w i -> im_suites i !! s = Some d -> room (as_cases d) ->
  refines (suite_add_tcase (Some s) (Some tc) ;; mret 0) w 0
    (put_suite s (mkASuite (as_name d) (if decide (tc ∈ as_cases d) then as_cases d else as_cases d ++ [tc])) i).
Proof.
  intros Hm Hd Hr. destruct (suite_add_tcase_run s tc w _ (models_cases_hold _ _ _ _ Hm Hd) Hr) as (l & E & Hl).
  eapply refines_unit; [exact E | by apply models_put_cases | apply put_heap_only].
Qed.

(** ** Test cases *)

Lemma env_double_run name (w : world) : env_double name w = (Ret (env_number (env (w_proc w)) name), w).
Proof. done. Qed.
Lemma to_int64_run x z (w : world) : int64_opt x = Some z -> to_int64 x w = (Ret z, w).
Proof. unfold int64_opt, to_int64. destruct (sf_trunc x); [| done]. case_decide; [| done]. by intros [= ->]. Qed.
Lemma timespec_of_run t ts (w : world) : timespec_opt t = Some ts -> timespec_of t w = (Ret ts, w).
Proof.
  unfold timespec_opt, timespec_of. intros H. simplify_option_eq.
  by do 2 erewrite bind_ret by by apply to_int64_run.
Qed.

Lemma tcase_create_refines w i name ts : models w i -> initial_timeout (env (w_proc w)) = Some ts ->
  refines (tcase_create name) w (im_next i + 1)
    (put_case (im_next i + 1) (mkACase (default "" name) ts [] (fun _ _ => []) (im_next i))
      (put_tags (im_next i) [] (put_next (im_next i + 2) i))).
Proof.
  intros Hm Hts. unfold tcase_create, refines.
  rewrite (bind_ret _ _ _ _ _ (emalloc_run _ _)). rewrite !(bind_ret _ _ _ _ _ (env_double_run _ _)). cbv zeta.
  erewrite bind_ret by by apply timespec_of_run.
  destruct (create_run (A:=TF) w) as (l1 & E1 & H1), (create_run (A:=Fixture) w) as (l2 & E2 & H2).
  destruct (create_run (A:=string) w) as (l6 & E6 & H6).
  rewrite (bind_ret _ _ _ _ _ E1), !(bind_ret _ _ _ _ _ E2), (bind_ret _ _ _ _ _ E6).
  rewrite (bind_ret _ _ _ _ _ (new_loc_run _)). unfold store_taglist. rewrite (bind_ret _ _ _ _ _ (modify_run _ _)).
  rewrite (bind_ret _ _ _ _ _ (new_loc_run _)). unfold store_tcase. rewrite (bind_ret _ _ _ _ _ (modify_run _ _)).
  cbn [the_heap upd_heap on_proc w_proc set_heap p_heap next_loc bump_loc put_taglists].
  rewrite (md_next _ _ Hm). eexists. split; [reflexivity |]. split; [| by eexists].
  match goal with |- models (upd_heap _ (upd_heap bump_loc ?w1)) _ => set (w2 := w1) end.
  apply (models_put_case (upd_heap bump_loc w2)).
  - apply (models_bump w2 (put_tags (im_next i) [] (put_next (im_next i + 1) i))); [| cbn; lia].
    apply (models_put_tags (upd_heap bump_loc w)); [by apply models_bump | done].
  - constructor; try done. by intros [] [].
Qed.

(** The old list of tags is freed: first its cursor moves. *)
Lemma free_old_tags w i a ts : models w i -> im_tags i !! a = Some ts ->
  exists w', (apply_free (taglist_ptr a) ;; check_list_free (Some a)) w = (Ret tt, w') /\
    models w' (drop_tags a i) /\ heap_only w w' /\ tcases (the_heap w') = tcases (the_heap w) /\
    suites (the_heap w') = suites (the_heap w) /\ srunners (the_heap w') = srunners (the_heap w).
Proof.
  intros Hm Ha. pose proof (models_tags _ _ Hm _ _ Ha) as Hh.
  destruct (apply_free_put _ _ _ Hh) as (l & E & Hh'). rewrite (bind_ret _ _ _ _ _ E).
  rewrite (check_list_free_run a _ _ Hh'). eexists. split; [reflexivity |].
  assert (Hl : is_Some (taglists (the_heap w) !! a)).
  { destruct Hh as (l0 & q & Hl0 & _). rewrite look_taglist in Hl0. eauto. }
  rewrite (put_taglist a l w Hl) in *. split; [| split; [by eexists | done]].
  apply models_drop_tags. rewrite <- (put_tags_id i a ts Ha). apply models_put_tags; [done |].
  destruct Hh' as (l' & q & Hl' & Hr). rewrite look_taglist, with_taglist_look in Hl'.
  injection Hl' as <-. by exists q.
Qed.

Lemma tcase_set_tags_refines w i tc d tags : models w i -> wf i -> im_cases i !! tc = Some d ->
  strlen (default "" tags) <= INT_MAX ->
  refines (tcase_set_tags tc tags ;; mret 0) w 0
    (put_case tc (set_ac_tags (im_next i) d) (put_tags (im_next i) (words_opt tags)
      (put_next (im_next i + 1) (drop_tags (ac_tags d) i)))).
Proof.
  intros Hm Hwf Hd Hlen. destruct (wf_cases i Hwf _ _ Hd) as [ts Hts].
  destruct (models_case _ _ Hm _ _ Hd) as (t & Ht & [Hn Hto Htt Hf Htg]).
  destruct (free_old_tags _ _ _ _ Hm Hts) as (w1 & E1 & Hm1 & Hh1 & Ec1 & _).
  destruct (tag_string_to_list_run tags w1) as (l & E2 & q & Hq).
  { intros s ->. exact Hlen. }
  eapply refines_unit.
  - unfold tcase_set_tags. rewrite (bind_ret _ _ _ _ _ (get_tcase_run _ _ _ Ht)), Htg.
    rewrite (bind_ret _ _ _ _ _ E1), (bind_ret _ _ _ _ _ E2).
    erewrite bind_ret by (apply get_tcase_run; rewrite <- Ec1 in Ht; exact Ht). reflexivity.
  - rewrite (md_next _ _ Hm1). change (im_next (drop_tags _ i)) with (im_next i).
    apply (models_put_case (new_tags l w1)); [| by constructor].
    unfold new_tags. rewrite (md_next _ _ Hm1).
    apply (models_put_tags (upd_heap bump_loc w1)); [by apply models_bump | by exists q].
  - etrans; [exact Hh1 |]. by eexists.
Qed.

Lemma tcase_set_timeout_refines w i tc d t : models w i -> im_cases i !! tc = Some d ->
  forall i', (if f64_nonneg t
    then ts ← timespec_opt (scaled (env (w_proc w)) t); Some (put_case tc (set_ac_timeout ts d) i)
    else Some i) = Some i' ->
  refines (tcase_set_timeout tc t ;; mret 0) w 0 i'.
Proof.
  intros Hm Hd i' Hi'. unfold tcase_set_timeout. destruct (f64_nonneg t).
  2: { injection Hi' as <-. by eapply refines_unit. }
  destruct (models_case _ _ Hm _ _ Hd) as (x & Hx & [Hn Hto Htt Hf Htg]).
  simplify_option_eq. eapply refines_unit.
  - rewrite (bind_ret _ _ _ _ _ (env_double_run _ _)). cbv zeta.
    erewrite bind_ret by by apply timespec_of_run.
    rewrite (bind_ret _ _ _ _ _ (get_tcase_run _ _ _ Hx)). reflexivity.
  - apply models_put_case; [done |]. by constructor.
  - by eexists.
Qed.

Lemma tcase_add_test_refines w i tc d t sig allowed st en : models w i -> im_cases i !! tc = Some d ->
  room (ac_tests d) ->
  refines (tcase_add_test_ (Some tc) (Some t) sig allowed st en ;; mret 0) w 0
    (put_case tc (set_ac_tests (ac_tests d ++ [mkTF t st en sig (s8 (allowed mod 256))]) d) i).
Proof.
  intros Hm Hd Hr.
  destruct (tcase_add_test_run tc t sig allowed st en w _ (models_tests_hold _ _ _ _ Hm Hd) Hr) as (l & E & Hl).
  eapply refines_unit; [exact E | by apply models_put_tests | apply put_heap_only].
Qed.

Lemma tcase_add_fixture_refines w i tc d rg : models w i -> im_cases i !! tc = Some d ->
  (forall ck s, room (ac_fixtures d ck s)) ->
  refines (register tc rg ;; mret 0) w 0 (put_case tc (set_ac_fixtures (after [rg] (ac_fixtures d)) d) i).
Proof.
  intros Hm Hd Hr. destruct rg as [[c f] g].
  destruct (add_setup_run tc w _ c f (models_fixtures_hold _ _ _ _ c true Hm Hd) (Hr c true)) as (l1 & E1 & H1).
  pose proof (models_put_fixture _ _ _ _ _ _ _ _ Hm Hd H1) as Hm1.
  set (i1 := put_case tc _ i) in Hm1. set (d1 := set_ac_fixtures _ d) in i1.
  assert (Hd1 : im_cases i1 !! tc = Some d1) by apply lookup_insert_eq.
  assert (Ef : ac_fixtures d1 c false = ac_fixtures d c false).
  { cbn. by rewrite decide_False by congruence. }
  pose proof (models_fixtures_hold _ _ _ _ c false Hm1 Hd1) as Ht. rewrite Ef in Ht.
  destruct (add_teardown_run tc _ _ c g Ht (Hr c false)) as (l2 & E2 & H2).
  pose proof (models_put_fixture _ _ _ _ _ _ _ _ Hm1 Hd1 H2) as Hm2.
  eapply refines_unit.
  - rewrite register_halves. by rewrite (bind_ret _ _ _ _ _ E1), E2.
  - eapply models_put_case_twice; [exact Hm2 |]. intros t [H3 H4 H5 H6 H7]. constructor; try done.
    intros ck s. specialize (H6 ck s). cbn in *. by rewrite <- after_halves.
  - rewrite !fixture_ptr_field. etrans; apply heap_only_upd.
Qed.

(** ** Runners *)

Lemma store_runner_refines w i sr r d : models w i -> srunner_is r d ->
  exists w', store_srunner sr r w = (Ret tt, w') /\ models w' (put_runner sr d i) /\ heap_only w w'.
Proof.
  intros Hm Hr. eexists. split; [reflexivity |]. split; [by apply models_put_runner | by eexists].
Qed.

Lemma models_suites_hold w i sr d : models w i -> im_runners i !! sr = Some d ->
  holds (slst_ptr sr) w (ar_suites d).
Proof. intros Hm Hd. destruct (models_runner _ _ Hm _ _ Hd) as (x & Hx & []). by eapply field_holds. Qed.

Definition set_ar_suites (x : list loc) (d : arunner) : arunner :=
  mkARunner x (ar_results d) (ar_log d) (ar_xml d) (ar_tap d) (ar_fork d).

Lemma models_put_suites w i sr d l xs : models w i -> im_runners i !! sr = Some d ->
  holds (slst_ptr sr) (put (slst_ptr sr) l w) xs ->
  models (put (slst_ptr sr) l w) (put_runner sr (set_ar_suites xs d) i).
Proof.
  intros Hm Hd Hh. destruct (models_runner _ _ Hm _ _ Hd) as (x & Hx & []).
  pose proof (field_lists _ _ _ _ sr x l w xs Hx Hh).
  unfold slst_ptr. rewrite (field_put _ _ _ _ sr x l w Hx). apply models_put_runner; [done |]. by constructor.
Qed.

Lemma srunner_add_suite_refines w i sr d s : models w i -> im_runners i !! sr = Some d ->
  room (ar_suites d) ->
  refines (srunner_add_suite sr s ;; mret 0) w 0
    (put_runner sr (set_ar_suites (ar_suites d ++ option_list s) d) i).
Proof.
  intros Hm Hd Hr. destruct s as [s |]; cbn [option_list].
  - destruct (add_end_holds (slst_ptr sr) w _ s (models_suites_hold _ _ _ _ Hm Hd) Hr) as (l & E & Hl).
    eapply refines_unit; [exact E | by apply models_put_suites | apply put_heap_only].
  - rewrite app_nil_r. eapply refines_unit; [done | | done]. destruct d; cbn. unfold put_runner.
    rewrite insert_id by done. by destruct i.
Qed.

Lemma srunner_create_refines w i s : models w i ->
  refines (srunner_create s) w (im_next i)
    (put_runner (im_next i) (mkARunner (option_list s) [] None None None CK_FORK_GETENV)
      (put_next (im_next i + 1) i)).
Proof.
  intros Hm. unfold srunner_create, refines.
  rewrite (bind_ret _ _ _ _ _ (emalloc_run _ _)).
  destruct (create_run (A:=loc) w) as (l & El & Hl). rewrite (bind_ret _ _ _ _ _ El).
  rewrite (bind_ret _ _ _ _ _ (new_loc_run _)), (md_next _ _ Hm). unfold store_srunner.
  rewrite (bind_ret _ _ _ _ _ (modify_run _ _)). set (a := im_next i) in *.
  set (r0 := mkSRunner _ _ _ _ _ _ _ _). set (w1 := upd_heap _ _).
  assert (Hr0 : srunners (the_heap w1) !! a = Some r0) by apply lookup_insert_eq.
  pose proof (models_bump _ _ Hm (im_next i + 1) eq_refl) as Hmb.
  assert (Hadd : exists l', match s with Some s => check_list_add_end (Some (slst_ptr a)) s | None => mret tt end w1 =
      (Ret tt, put (slst_ptr a) l' w1) /\ lists l' (option_list s)).
  { assert (Hh : holds (slst_ptr a) w1 []) by exact (field_holds _ _ _ _ a r0 w1 [] Hr0 Hl).
    destruct s as [s |]; cbn [option_list].
    - destruct (add_end_holds (slst_ptr a) w1 _ s Hh) as (l' & E & Hl'); [done |].
      exists l'. split; [exact E | exact (field_lists _ _ _ _ a r0 l' w1 _ Hr0 Hl')].
    - exists l. split; [| done]. rewrite put_look; [done | exact (field_look _ _ _ _ a r0 w1 Hr0)]. }
  destruct Hadd as (l' & E & Hl'). rewrite (bind_ret _ _ _ _ _ E), (bind_ret _ _ _ _ _ (emalloc_run _ _)).
  unfold slst_ptr. rewrite (field_put _ _ _ _ a r0 l' w1 Hr0). cbn [with_slst r0].
  destruct (create_run (A:=TestResult) w) as (l2 & El2 & Hl2).
  set (r1 := with_slst l' r0). set (w2 := upd_heap _ w1).
  assert (Ec : check_list_create (A:=TestResult) w2 = (Ret l2, w2)).
  { revert El2. unfold check_list_create. by rewrite !(bind_ret _ _ _ _ _ (emalloc_run _ _)); intros [= <-]. }
  rewrite (bind_ret _ _ _ _ _ Ec).
  assert (Hr1 : srunners (the_heap w2) !! a = Some r1) by apply lookup_insert_eq.
  rewrite (bind_ret _ _ _ _ _ (get_srunner_run _ _ _ Hr1)).
  rewrite (bind_ret _ _ _ _ _ (modify_run _ _)). eexists. split; [reflexivity |]. split; [| by eexists].
  set (w3 := upd_heap _ w2).
  assert (E3 : w3 = upd_heap (fun h => put_srunners (<[a := with_resultlst l2 r1]> (srunners h)) h) (upd_heap bump_loc w)).
  { unfold w3, w2, w1, upd_heap, on_proc, the_heap, put_srunners. cbn. by rewrite !insert_insert_eq. }
  rewrite E3. apply models_put_runner; [done |]. by constructor.
Qed.

(** The name of a log is kept from the first call that gives one. *)
Lemma set_field_refines w i sr d r r' d' (m : M world unit) : models w i ->
  srunners (the_heap w) !! sr = Some r ->
  im_runners i !! sr = Some d -> srunner_is r' d' ->
  m w = store_srunner sr r' w \/ m w = (Ret tt, w) /\ d' = d ->
  refines (m ;; mret 0) w 0 (put_runner sr d' i).
Proof.
  intros Hm Hr Hd Hr' [E | [E ->]].
  - eapply refines_unit; [exact E | by apply models_put_runner | by eexists].
  - eapply refines_unit; [exact E | | done]. unfold put_runner. rewrite insert_id by done. by destruct i.
Qed.

Lemma srunner_set_refines w i sr d c : models w i -> im_runners i !! sr = Some d ->
  forall d', match c with
    | c_srunner_set_log a f => a = sr /\ d' = mkARunner (ar_suites d) (ar_results d)
        (first_set (ar_log d) f) (ar_xml d) (ar_tap d) (ar_fork d)
    | c_srunner_set_xml a f => a = sr /\ d' = mkARunner (ar_suites d) (ar_results d)
        (ar_log d) (first_set (ar_xml d) f) (ar_tap d) (ar_fork d)
    | c_srunner_set_tap a f => a = sr /\ d' = mkARunner (ar_suites d) (ar_results d)
        (ar_log d) (ar_xml d) (first_set (ar_tap d) f) (ar_fork d)
    | c_srunner_set_fork_status a st => a = sr /\ d' = mkARunner (ar_suites d) (ar_results d)
        (ar_log d) (ar_xml d) (ar_tap d) st
    | _ => False
    end ->
  refines (perform c) w 0 (put_runner sr d' i).
Proof.
  intros Hm Hd d' Hc. destruct (models_runner _ _ Hm _ _ Hd) as (r & Hr & [Hs Ht Hrs Hl Hx Hp Hlg Hf]).
  destruct c; try done; destruct Hc as [-> ->]; cbn [perform].
  all: unfold srunner_set_log, srunner_set_xml, srunner_set_tap, srunner_set_fork_status.
  4: { eapply (set_field_refines w i sr d r (with_fstat st r)); try done.
       left. by rewrite (bind_ret _ _ _ _ _ (get_srunner_run _ _ _ Hr)). }
  - eapply (set_field_refines w i sr d r (if decide (log_fname r = None) then with_log_fname fname r else r));
      [done | done | done | |].
    + case_decide as Hdec; constructor; try done; cbn; rewrite <- Hl; [by rewrite Hdec | by destruct (log_fname r)].
    + rewrite (bind_ret _ _ _ _ _ (get_srunner_run _ _ _ Hr)). case_decide as Hdec; [by left | right].
      split; [done |]. rewrite <- Hl. destruct (log_fname r) eqn:E; [| done]. cbn. rewrite Hl. by destruct d.
  - eapply (set_field_refines w i sr d r (if decide (xml_fname r = None) then with_xml_fname fname r else r));
      [done | done | done | |].
    + case_decide as Hdec; constructor; try done; cbn; rewrite <- Hx; [by rewrite Hdec | by destruct (xml_fname r)].
    + rewrite (bind_ret _ _ _ _ _ (get_srunner_run _ _ _ Hr)). case_decide as Hdec; [by left | right].
      split; [done |]. rewrite <- Hx. destruct (xml_fname r) eqn:E; [| done]. cbn. rewrite Hx. by destruct d.
  - eapply (set_field_refines w i sr d r (if decide (tap_fname r = None) then with_tap_fname fname r else r));
      [done | done | done | |].
    + case_decide as Hdec; constructor; try done; cbn; rewrite <- Hp; [by rewrite Hdec | by destruct (tap_fname r)].
    + rewrite (bind_ret _ _ _ _ _ (get_srunner_run _ _ _ Hr)). case_decide as Hdec; [by left | right].
      split; [done |]. rewrite <- Hp. destruct (tap_fname r) eqn:E; [| done]. cbn. rewrite Hp. by destruct d.
Qed.
End Calls.
