(* ===== verification/FreeSpec.v ===== *)
(** * Freeing a runner (src/check.c)

    srunner_free frees the suites of a runner, their test cases and the tags of these, each
    once, and nothing else, provided that the runner shares none of them ([sole_owner]). *)
From S2P Require Import Prelude Error Types CList Loops Pack World Str Result Msg MsgSpec Core.
From S2P Require Import CoreSpec Alike Print Log Run SelectSpec RunnerSpec Image BuildSpec.

Section Free.
Context {plat : Platform} {plat_ok : PlatformOK}.

(** ** A test case *)

Lemma models_put_case_same w i a d d1 : models w (put_case a d1 i) -> im_cases i !! a = Some d ->
  (forall t, tcase_is t d1 -> tcase_is t d) -> models w i.
Proof.
  intros [H1 H2 H3 H4 H5] Hd Hi. constructor; try done. cbn in *.
  intros b. specialize (H3 b). destruct (decide (b = a)) as [-> | Hne].
  - rewrite lookup_insert_eq in H3. rewrite Hd. inversion H3; subst. constructor. by apply Hi.
  - by rewrite lookup_insert_ne in H3 by congruence.
Qed.

(** Freeing the elements of a list moves its cursor. *)
Lemma free_fixtures w i tc d ck s : models w i -> im_cases i !! tc = Some d ->
  exists w', apply_free (fixture_ptr ck s tc) w = (Ret tt, w') /\ models w' i /\ heap_only w w' /\
    suites (the_heap w') = suites (the_heap w) /\ srunners (the_heap w') = srunners (the_heap w).
Proof.
  intros Hm Hd. destruct (apply_free_put _ _ _ (models_fixtures_hold _ _ _ _ ck s Hm Hd)) as (l & E & Hl).
  pose proof (models_put_fixture _ _ _ _ _ _ _ _ Hm Hd Hl) as Hm'. eexists. split; [exact E |].
  split; [| rewrite fixture_ptr_field; split; [apply heap_only_upd |]].
  - eapply models_put_case_same; [exact Hm' | exact Hd |]. intros t [H1 H2 H3 H4 H5]. constructor; try done.
    intros ck' s'. specialize (H4 ck' s'). cbn in H4. case_decide; [by simplify_eq | done].
  - destruct (models_case _ _ Hm _ _ Hd) as (t & Ht & _). rewrite (field_put _ _ _ _ tc t l w Ht). done.
Qed.
Lemma free_tests w i tc d : models w i -> im_cases i !! tc = Some d ->
  exists w', apply_free (tflst_ptr tc) w = (Ret tt, w') /\ models w' i /\ heap_only w w' /\
    suites (the_heap w') = suites (the_heap w) /\ srunners (the_heap w') = srunners (the_heap w).
Proof.
  intros Hm Hd. destruct (apply_free_put _ _ _ (models_tests_hold _ _ _ _ Hm Hd)) as (l & E & Hl).
  pose proof (models_put_tests _ _ _ _ _ _ Hm Hd Hl) as Hm'. eexists. split; [exact E |].
  split; [| split; [apply heap_only_upd |]].
  - eapply models_put_case_same; [exact Hm' | exact Hd |]. by intros t [].
  - destruct (models_case _ _ Hm _ _ Hd) as (t & Ht & _). unfold tflst_ptr.
    by rewrite (field_put _ _ _ _ tc t l w Ht).
Qed.

Definition drop_case (a : loc) (i : image) : image :=
  mkImage (im_next i) (im_suites i) (delete a (im_cases i)) (im_tags i) (im_runners i).
Definition drop_suite (a : loc) (i : image) : image :=
  mkImage (im_next i) (delete a (im_suites i)) (im_cases i) (im_tags i) (im_runners i).

Lemma tcase_free_run w i tc d : models w i -> im_cases i !! tc = Some d -> is_Some (im_tags i !! ac_tags d) ->
  exists w', tcase_free tc w = (Ret tt, w') /\ models w' (drop_case tc (drop_tags (ac_tags d) i)) /\
    heap_only w w' /\
    suites (the_heap w') = suites (the_heap w) /\ srunners (the_heap w') = srunners (the_heap w).
Proof.
  intros Hm Hd [ts Hts]. unfold tcase_free.
  destruct (free_tests _ _ _ _ Hm Hd) as (w1 & E1 & Hm1 & Hh1 & Es1 & Er1).
  destruct (free_fixtures _ _ _ _ false true Hm1 Hd) as (w2 & E2 & Hm2 & Hh2 & Es2 & Er2).
  destruct (free_fixtures _ _ _ _ true true Hm2 Hd) as (w3 & E3 & Hm3 & Hh3 & Es3 & Er3).
  destruct (free_fixtures _ _ _ _ false false Hm3 Hd) as (w4 & E4 & Hm4 & Hh4 & Es4 & Er4).
  destruct (free_fixtures _ _ _ _ true false Hm4 Hd) as (w5 & E5 & Hm5 & Hh5 & Es5 & Er5).
  cbn [fixture_ptr] in *.
  rewrite (bind_ret _ _ _ _ _ E1), (bind_ret _ _ _ _ _ E2), (bind_ret _ _ _ _ _ E3).
  rewrite (bind_ret _ _ _ _ _ E4), (bind_ret _ _ _ _ _ E5).
  destruct (models_case _ _ Hm5 _ _ Hd) as (t & Ht & Hti).
  rewrite (bind_ret _ _ _ _ _ (get_tcase_run _ _ _ Ht)), (ti_tags _ _ Hti).
  destruct (free_old_tags _ _ _ _ Hm5 Hts) as (w6 & E6 & Hm6 & Hh6 & Ec6 & Es6 & Er6).
  rewrite <- bind_assoc. rewrite (bind_ret _ _ _ _ _ E6).
  rewrite <- Ec6 in Ht. unfold free_tcase. rewrite (bind_ret _ _ _ _ _ (get_tcase_run _ _ _ Ht)), modify_run.
  eexists. split; [reflexivity |]. split; [| split; [| cbn; split; congruence]].
  - destruct Hm6. constructor; try done. by apply map_Forall2_delete.
  - do 6 (etrans; [eassumption |]). apply heap_only_upd.
Qed.

(** ** The test cases of a suite *)

(** What freeing needs of an image: test cases own their tags. *)
Definition owned (i : image) : Prop :=
  map_Forall (fun _ d => is_Some (im_tags i !! ac_tags d)) (im_cases i) /\
  forall a b c d, im_cases i !! a = Some c -> im_cases i !! b = Some d -> ac_tags c = ac_tags d -> a = b.

Lemma owned_erase i ss cs : owned i -> owned (erase ss cs (tags_of i cs) i).
Proof.
  intros [H1 H2]. split; cbn.
  - intros c d [Hc Hd]%lookup_delete_all_Some. apply delete_all_live; [| by eapply H1].
    rewrite elem_of_tags_of. intros (c' & d' & Hc' & Hd' & E). by rewrite (H2 c c' d d') in Hc by done.
  - intros a b c d [_ Ha]%lookup_delete_all_Some [_ Hb]%lookup_delete_all_Some. by apply H2.
Qed.

Lemma drop_case_erase i ss cs ts c t : drop_case c (drop_tags t (erase ss cs ts i)) = erase ss (cs ++ [c]) (ts ++ [t]) i.
Proof. unfold erase, drop_case, drop_tags. cbn. by rewrite !delete_all_snoc. Qed.

Lemma take_not_elem (l : list loc) k x : NoDup l -> l !! k = Some x -> x ∉ take k l.
Proof.
  intros Hn Hx. rewrite <- (take_drop_middle l k x Hx) in Hn. apply NoDup_app in Hn as (_ & Hn & _).
  intros Hin. apply (Hn x Hin). by left.
Qed.

(** What a loop that frees has done so far. *)
Record freed (w : world) (i : image) (t : world) : Prop := mkFreed {
  fr_models : models t i;
  fr_heap : heap_only w t;
  fr_runners : srunners (the_heap t) = srunners (the_heap w)
}.

Lemma freed_put_cases w i s d l t : freed w i t -> im_suites i !! s = Some d ->
  holds (tclst_ptr s) (put (tclst_ptr s) l t) (as_cases d) -> freed w i (put (tclst_ptr s) l t).
Proof.
  intros [Hm Hh Hr] Hd Hl. constructor.
  - pose proof (models_put_cases _ _ _ _ _ _ Hm Hd Hl) as H. by rewrite asuite_eta, (put_suite_id _ _ _ Hd) in H.
  - etrans; [exact Hh | apply heap_only_upd].
  - destruct (models_suite _ _ Hm _ _ Hd) as (x & Hx & _). unfold tclst_ptr. by rewrite (field_put _ _ _ _ s x l t Hx).
Qed.

Lemma cases_free_run w i s d : models w i -> owned i -> im_suites i !! s = Some d ->
  NoDup (as_cases d) -> Forall (fun c => is_Some (im_cases i !! c)) (as_cases d) ->
  exists w', list_for (R:=unit) (tclst_ptr s) (fun tc => tcase_free tc ;; mret None) w = (Ret None, w') /\
    freed w (erase [] (as_cases d) (tags_of i (as_cases d)) i) w'.
Proof.
  intros Hm Ho Hd Hn Hl. set (cs := as_cases d) in *.
  pose (I := fun k => freed w (erase [] (take k cs) (tags_of i (take k cs)) i)).
  destruct (list_for_each (tclst_ptr s) (R:=unit) I (fun tc => tcase_free tc ;; mret None) cs w) as (w' & E & HI & _).
  - intros k l q t HI Hh Hr. eapply freed_put_cases; [exact HI | exact Hd |]. exact (put_holds _ _ _ _ _ Hh Hr).
  - intros k c t Hc [Hmt Hht Hrt] _. pose proof (Forall_lookup_1 _ _ _ _ Hl Hc) as [x Hx].
    pose proof (take_not_elem _ _ _ Hn Hc) as Hnot.
    destruct (owned_erase i [] (take k cs) Ho) as [Ht _].
    assert (Hx' : im_cases (erase [] (take k cs) (tags_of i (take k cs)) i) !! c = Some x)
      by by apply lookup_delete_all_Some.
    destruct (tcase_free_run _ _ _ _ Hmt Hx' (Ht _ _ Hx')) as (t' & Et & Hmt' & Hht' & Es & Er).
    exists t'. split; [by rewrite (bind_ret _ _ _ _ _ Et) |]. split; [| cbn; by rewrite Es].
    unfold I. rewrite (take_S_r _ _ _ Hc), (tags_of_snoc _ _ _ _ Hx), <- drop_case_erase.
    constructor; [done | by etrans | by rewrite Er].
  - by eapply models_cases_hold.
  - constructor; [by destruct i | done | done].
  - exists w'. split; [exact E |]. unfold I in HI. by rewrite firstn_all in HI.
Qed.

Lemma suite_free_run w i s d : models w i -> owned i -> im_suites i !! s = Some d ->
  NoDup (as_cases d) -> Forall (fun c => is_Some (im_cases i !! c)) (as_cases d) ->
  exists w', suite_free (Some s) w = (Ret tt, w') /\
    freed w (erase [s] (as_cases d) (tags_of i (as_cases d)) i) w'.
Proof.
  intros Hm Ho Hd Hn Hl. destruct (cases_free_run w i s d Hm Ho Hd Hn Hl) as (w1 & E1 & [Hm1 Hh1 Hr1]).
  unfold suite_free. rewrite (bind_ret _ _ _ _ _ E1).
  destruct (models_suite _ _ Hm1 s d Hd) as (x & Hx & _).
  unfold free_suite. rewrite (bind_ret _ _ _ _ _ (get_suite_run _ _ _ Hx)), modify_run.
  eexists. split; [reflexivity |]. constructor; [| etrans; [exact Hh1 | apply heap_only_upd] | exact Hr1].
  destruct Hm1. constructor; try done. by apply map_Forall2_delete.
Qed.

(** ** The suites of a runner *)

Lemma suites_free_run w i sr r : models w i -> wf i -> im_runners i !! sr = Some r ->
  NoDup (ar_suites r) -> NoDup (cases_of i (ar_suites r)) ->
  exists w', list_for (R:=unit) (slst_ptr sr) (fun s => suite_free (Some s) ;; mret None) w = (Ret None, w') /\
    models w' (erase (ar_suites r) (cases_of i (ar_suites r)) (tags_of i (cases_of i (ar_suites r))) i) /\
    heap_only w w'.
Proof.
  intros Hm Hwf Hr Hn Hnc. set (ss := ar_suites r) in *.
  pose (j := fun k => erase (take k ss) (cases_of i (take k ss)) (tags_of i (cases_of i (take k ss))) i).
  pose (I := fun k t => models t (j k) /\ heap_only w t).
  assert (Hrj : forall k, im_runners (j k) !! sr = Some r) by done.
  destruct (list_for_each (slst_ptr sr) (R:=unit) I (fun s => suite_free (Some s) ;; mret None) ss w) as (w' & E & HI & _).
  - intros k l q t [Hmt Hht] Hh Hq. split; [| etrans; [exact Hht | apply heap_only_upd]].
    assert (Hl : holds (slst_ptr sr) (put (slst_ptr sr) l t) (ar_suites r)) by exact (put_holds _ _ _ _ _ Hh Hq).
    pose proof (models_put_suites _ _ _ _ _ _ Hmt (Hrj k) Hl) as H.
    unfold set_ar_suites, put_runner in H. rewrite insert_id in H; [exact H |]. rewrite Hrj. by destruct r.
  - intros k s t Hs [Hmt Hht] _. pose proof (take_not_elem _ _ _ Hn Hs) as Hnot.
    assert (Hd : exists d, im_suites i !! s = Some d).
    { destruct (wf_runners i Hwf sr r Hr) as [Hl _]. exact (Forall_lookup_1 _ _ _ _ Hl Hs). }
    destruct Hd as [d Hd]. destruct (wf_suites i Hwf s d Hd) as [Hnd Hlive].
    assert (Hd' : im_suites (j k) !! s = Some d) by by apply lookup_delete_all_Some.
    assert (Hdisj : forall c, c ∈ as_cases d -> c ∉ cases_of i (take k ss)).
    { assert (Hsp : NoDup (cases_of i (take (S k) ss))).
      { rewrite <- (take_drop (S k) ss) in Hnc. unfold cases_of in Hnc. rewrite bind_app in Hnc.
        by apply NoDup_app in Hnc as [? _]. }
      rewrite (take_S_r _ _ _ Hs), (cases_of_snoc _ _ _ _ Hd) in Hsp.
      apply NoDup_app in Hsp as (_ & Hsp & _). intros c Hc Hin. by apply (Hsp c). }
    assert (Htg : tags_of (j k) (as_cases d) = tags_of i (as_cases d)).
    { unfold tags_of. apply list_omap_ext. apply Forall2_same_length_lookup_2; [done |].
      intros n c c' Hc Hc'. simplify_eq. cbn. rewrite lookup_delete_all, decide_False; [done |].
      apply Hdisj. by apply list_elem_of_lookup_2 in Hc. }
    destruct (suite_free_run t (j k) s d Hmt) as (t' & Et & [Hmt' Hht' Hrt]); [| done | done | |].
    { apply owned_erase. split; apply Hwf. }
    { rewrite Forall_forall in *. intros c Hc. apply delete_all_live; [by apply Hdisj | by apply Hlive]. }
    exists t'. split; [by rewrite (bind_ret _ _ _ _ _ Et) |]. split; [| cbn; by rewrite Hrt].
    split; [| by etrans]. unfold j in *. rewrite erase_erase, Htg in Hmt'.
    rewrite (take_S_r _ _ _ Hs), (cases_of_snoc _ _ _ _ Hd). unfold tags_of in *. by rewrite omap_app.
  - by eapply models_suites_hold.
  - split; [by destruct i | done].
  - exists w'. destruct HI as [HI1 HI2]. unfold j in HI1. rewrite firstn_all in HI1. done.
Qed.

(** Freeing the results moves the cursor of their list. *)
Lemma results_free_run w i sr r : models w i -> im_runners i !! sr = Some r ->
  exists w', list_for (R:=unit) (resultlst_ptr sr) (fun _ => mret None) w = (Ret None, w') /\
    models w' i /\ heap_only w w'.
Proof.
  intros Hm Hr. destruct (models_runner _ _ Hm _ _ Hr) as (x & Hx & [H1 H2 H3 H4 H5 H6 H7 H8]).
  assert (Hh : holds (resultlst_ptr sr) w (ar_results r)) by by eapply field_holds.
  destruct (list_for_reads (resultlst_ptr sr) (R:=unit) (fun _ => None) (fun _ => mret None) (ar_results r) w) as (l & E & Hl);
    [done | exact Hh |].
  rewrite omap_none in E. eexists. split; [exact E |]. split; [| apply heap_only_upd].
  pose proof (field_lists _ _ _ _ sr x l w _ Hx Hl) as Hll.
  unfold resultlst_ptr. rewrite (field_put _ _ _ _ sr x l w Hx).
  assert (Hi : put_runner sr r i = i) by (unfold put_runner; rewrite insert_id by done; by destruct i).
  rewrite <- Hi. apply models_put_runner; [done |]. by constructor.
Qed.

Lemma srunner_free_refines w i sr r : models w i -> wf i -> im_runners i !! sr = Some r ->
  sole_owner i sr (ar_suites r) ->
  refines (srunner_free (Some sr) ;; mret 0) w 0 (erase_runner sr (ar_suites r) i).
Proof.
  intros Hm Hwf Hr (Hn & Hnc & _). unfold srunner_free.
  destruct (suites_free_run w i sr r Hm Hwf Hr Hn Hnc) as (w1 & E1 & Hm1 & Hh1).
  destruct (results_free_run w1 _ sr r Hm1 Hr) as (w2 & E2 & Hm2 & Hh2).
  destruct (models_runner _ _ Hm2 sr r Hr) as (x & Hx & _).
  eapply refines_unit.
  - rewrite (bind_ret _ _ _ _ _ E1), (bind_ret _ _ _ _ _ E2). unfold free_srunner.
    by rewrite (bind_ret _ _ _ _ _ (get_srunner_run _ _ _ Hx)), modify_run.
  - destruct Hm2. constructor; try done. by apply map_Forall2_delete.
  - etrans; [exact Hh1 |]. etrans; [exact Hh2 |]. apply heap_only_upd.
Qed.
End Free.
