(* ===== verification/ClientSpec.v ===== *)
(** * Clients: sequences of calls that build a program and free it

    A client makes the calls that [step] allows; it returns, with its result and the contents
    that [step] gives. *)
From S2P Require Import Prelude Error Types CList Loops Pack World Str Result Msg MsgSpec Core.
From S2P Require Import CoreSpec Alike Print Log Run SelectSpec RunnerSpec Image BuildSpec.
From S2P Require Import FreeSpec.

(** ** Every call *)

Section Calls.
Context {plat : Platform} {plat_ok : PlatformOK}.

Lemma call_refines c w i v i' : models w i -> wf i -> step (env (w_proc w)) c i = Some (v, i') ->
  refines (perform c) w v i'.
Proof.
  intros Hm Hwf E.
  destruct c as [name | [s |] name | [s |] [tc |] | name | tc ts | tc t | [tc |] [t |] sig al st en | tc rg
    | s | sr s | sr f | sr f | sr f | sr st | [sr |]];
    cbn [step perform] in *; unfold on_runner in E.
  all: try (injection E as <- <-; by eapply refines_unit).
  all: try (apply bind_Some in E as (d & Hd & E)).
  - injection E as <- <-. by apply suite_create_refines.
  - injection E as <- <-. by apply suite_tcase_refines.
  - injection E as <- <-. by exists w.
  - destruct (decide _) as [[_ Hr] |]; [| done]. injection E as <- <-. by apply suite_add_tcase_refines.
  - injection E as <- <-. by apply tcase_create_refines.
  - destruct (decide _) as [Hl |]; [| done]. injection E as <- <-. by apply tcase_set_tags_refines.
  - destruct (f64_nonneg t) eqn:Ef.
    + apply bind_Some in E as (x & Hx & E). injection E as <- <-.
      apply (tcase_set_timeout_refines w i tc d t Hm Hd). by rewrite Ef, Hx.
    + injection E as <- <-. apply (tcase_set_timeout_refines w i tc d t Hm Hd). by rewrite Ef.
  - destruct (decide _) as [Hr |]; [| done]. injection E as <- <-. by apply tcase_add_test_refines.
  - destruct (decide _) as [(H1 & H2 & H3 & H4) |]; [| done]. injection E as <- <-.
    apply tcase_add_fixture_refines; [done | done |]. by intros [] [].
  - destruct (decide _) as [Hl |]; [| done]. injection E as <- <-. by apply srunner_create_refines.
  - destruct (decide _) as [[_ Hr] |]; [| done]. injection E as <- <-.
    by apply (srunner_add_suite_refines w i sr d s).
  - injection E as <- <-. by apply (srunner_set_refines w i sr d (c_srunner_set_log sr f)).
  - injection E as <- <-. by apply (srunner_set_refines w i sr d (c_srunner_set_xml sr f)).
  - injection E as <- <-. by apply (srunner_set_refines w i sr d (c_srunner_set_tap sr f)).
  - injection E as <- <-. by apply (srunner_set_refines w i sr d (c_srunner_set_fork_status sr st)).
  - destruct (decide _) as [Ho |]; [| done]. injection E as <- <-. by apply srunner_free_refines.
Qed.
End Calls.

(** ** Clients: sequences of calls, each with the answers of those before it, and a result *)

Inductive client := c_ret (v : Z) | c_call (c : call) (k : Z -> client).
(** A client, and then another that is given its result. *)
Fixpoint c_bind (p : client) (k : Z -> client) : client :=
  match p with c_ret v => k v | c_call c k' => c_call c (fun v => c_bind (k' v) k) end.

Section Clients.
Context {plat : Platform} {plat_ok : PlatformOK}.

Fixpoint image_after (e : gmap string string) (p : client) (i : image) : option (Z * image) :=
  match p with
  | c_ret v => Some (v, i)
  | c_call c k => '(v, i) ← step e c i; image_after e (k v) i
  end.
Fixpoint run_client (p : client) : M world Z :=
  match p with c_ret v => mret v | c_call c k => v ← perform c; run_client (k v) end.

Lemma heap_only_env w w' : heap_only w w' -> env (w_proc w') = env (w_proc w).
Proof. by intros [h ->]. Qed.

Lemma client_run p : forall w i v i', models w i -> wf i -> image_after (env (w_proc w)) p i = Some (v, i') ->
  exists w', run_client p w = (Ret v, w') /\ models w' i' /\ wf i' /\ heap_only w w'.
Proof.
  induction p as [v | c k IH]; intros w i a i' Hm Hwf E; cbn [image_after run_client] in *.
  - injection E as <- <-. by exists w.
  - apply bind_Some in E as ([v i1] & E1 & E2).
    destruct (call_refines c w i v i1 Hm Hwf E1) as (w1 & Ec & Hm1 & Hh1).
    rewrite (bind_ret _ _ _ _ _ Ec).
    destruct (IH v w1 i1 a i' Hm1) as (w2 & Ek & Hm2 & Hwf2 & Hh2).
    + by eapply step_wf.
    + by rewrite (heap_only_env _ _ Hh1).
    + exists w2. split; [done |]. split; [done |]. split; [done |]. by etrans.
Qed.
End Clients.
