(* ===== verification/RenderSpec.v ===== *)
(** * What the renderers write (src/check_str.c, src/check_print.c)

    Texts as functions of the results: the line of a result, the summary, the report, and the
    escaping of XML; and that the code writes them, to a stream that is open. *)
From S2P Require Import Prelude Error Types CList Loops Pack World Str Result Msg MsgSpec Core.
From S2P Require Import CoreSpec Alike Print Log Run RunnerSpec.

(** ** Streams *)

Definition emit (file : lstream) (t : string) : world -> world := on_os (fun o =>
  match file with
  | lf_stdout => put_out (out o +:+ t) o
  | lf_path p => put_paths (<[p := default "" (paths o !! p) +:+ t]> (paths o)) o
  end).
Definition opened (w : world) (file : lstream) : Prop :=
  match file with lf_stdout => True | lf_path p => is_Some (paths (w_os w) !! p) end.
(** What a stream contains. *)
Definition contents (w : world) (file : lstream) : string :=
  match file with lf_stdout => out (w_os w) | lf_path p => default "" (paths (w_os w) !! p) end.

Lemma string_app_nil_r (s : string) : s +:+ "" = s.
Proof. unfold String.app. induction s as [| c s IH]; simpl; [done |]. by f_equal. Qed.

Lemma emit_emit file t u w : emit file u (emit file t w) = emit file (t +:+ u) w.
Proof.
  destruct file as [| p]; unfold emit, on_os; cbn.
  - by rewrite string_app_assoc.
  - rewrite lookup_insert_eq, insert_insert_eq. cbn. by rewrite string_app_assoc.
Qed.
Lemma emit_nil file w : opened w file -> emit file "" w = w.
Proof.
  destruct w as [p o]. destruct file as [| q]; unfold emit, on_os, opened; cbn.
  - intros _. rewrite string_app_nil_r. by destruct o.
  - intros [t E]. rewrite E. cbn. rewrite string_app_nil_r, insert_id by done. by destruct o.
Qed.
Lemma emit_opened file t w f : opened w f -> opened (emit file t w) f.
Proof.
  destruct f as [| p]; [done |]. destruct file as [| q]; [done |]. cbn. intros [u E].
  destruct (decide (p = q)) as [-> | Hne].
  - rewrite lookup_insert_eq. by eexists.
  - rewrite lookup_insert_ne by congruence. by eexists.
Qed.
Lemma emit_contents file t w : contents (emit file t w) file = contents w file +:+ t.
Proof. destruct file as [| p]; cbn; [done |]. by rewrite lookup_insert_eq. Qed.
Lemma emit_contents_other file g t w : g <> file -> contents (emit file t w) g = contents w g.
Proof.
  destruct file as [| p], g as [| q]; intros H; cbn; try done.
  by rewrite lookup_insert_ne by congruence.
Qed.

(** ** XML *)

Fixpoint xml_text (s : string) : string :=
  match s with EmptyString => "" | String c s => xml_char c +:+ xml_text s end.

(** The characters that survive: tab, newline, carriage return, and 32 to 127. *)
Definition representable (c : ascii) : bool :=
  let n := byte_Z c in (n =? 9) || (n =? 10) || (n =? 13) || ((32 <=? n) && (n <=? 127)).
Fixpoint keep (P : ascii -> bool) (s : string) : string :=
  match s with EmptyString => "" | String c s => if P c then String c (keep P s) else keep P s end.

(** A reader of character data: the five entities, and character references in hexadecimal. *)
Definition hex_value (c : ascii) : Z :=
  let n := byte_Z c in if decide (n <= 57) then n - 48 else n - 55.
Fixpoint hex_number (acc : Z) (s : string) : Z :=
  match s with EmptyString => acc | String c s => hex_number (16 * acc + hex_value c) s end.
Definition entity (e : string) : ascii :=
  if decide (e = "quot") then QUOT else if decide (e = "apos") then APOS
  else if decide (e = "lt") then "<"%char else if decide (e = "gt") then ">"%char
  else if decide (e = "amp") then "&"%char
  else match e with String _ (String _ h) => Z_byte (hex_number 0 h) | _ => "000"%char end.
Fixpoint unescape (inside : option string) (s : string) : string :=
  match s with
  | EmptyString => ""
  | String c s =>
    match inside with
    | None => if decide (c = "&"%char) then unescape (Some "") s else String c (unescape None s)
    | Some e => if decide (c = ";"%char) then String (entity e) (unescape None s)
                else unescape (Some (e +:+ String c "")) s
    end
  end.

(** Markup characters. *)
Definition markup (c : ascii) : bool :=
  bool_decide (c = "<"%char \/ c = ">"%char \/ c = QUOT \/ c = APOS).
Fixpoint any (P : ascii -> bool) (s : string) : bool :=
  match s with EmptyString => false | String c s => P c || any P s end.

Lemma any_app P s t : any P (s +:+ t) = any P s || any P t.
Proof. unfold String.app. induction s as [| c s IH]; simpl; [done |]. by rewrite IH, orb_assoc. Qed.

Lemma xml_char_plain c : any markup (xml_char c) = false.
Proof. destruct c as [[] [] [] [] [] [] [] []]; vm_compute; reflexivity. Qed.

(** Reading a prefix: what it yields, and whether it ends inside a reference. *)
Fixpoint scan (inside : option string) (s : string) : string * option string :=
  match s with
  | EmptyString => ("", inside)
  | String c s =>
    match inside with
    | None => if decide (c = "&"%char) then scan (Some "") s
              else let '(t, i) := scan None s in (String c t, i)
    | Some e => if decide (c = ";"%char) then let '(t, i) := scan None s in (String (entity e) t, i)
                else scan (Some (e +:+ String c "")) s
    end
  end.

Lemma unescape_scan s rest : forall inside,
  unescape inside (s +:+ rest) = fst (scan inside s) +:+ unescape (snd (scan inside s)) rest.
Proof.
  unfold String.app. induction s as [| c s IH]; intros inside; [done |]. cbn [String.append unescape scan].
  destruct inside as [e |]; case_decide; rewrite IH; try done; by destruct (scan None s).
Qed.

Lemma scan_char c :
  scan None (xml_char c) = (if representable c then String c "" else "", None).
Proof. destruct c as [[] [] [] [] [] [] [] []]; vm_compute; reflexivity. Qed.

Lemma unescape_char c rest : unescape None (xml_char c +:+ rest) =
  (if representable c then String c "" else "") +:+ unescape None rest.
Proof. by rewrite unescape_scan, scan_char. Qed.

Lemma xml_text_plain s : any markup (xml_text s) = false.
Proof. induction s as [| c s IH]; [done |]. simpl. by rewrite any_app, xml_char_plain, IH. Qed.

Lemma unescape_text s : unescape None (xml_text s) = keep representable s.
Proof.
  induction s as [| c s IH]; [done |]. cbn [xml_text keep]. rewrite unescape_char, IH.
  by destruct (representable c).
Qed.

Section Xml.
Context {plat : Platform} {plat_ok : PlatformOK}.

Lemma fprintf_run file t w : fprintf file t w = (Ret tt, emit file t w).
Proof. done. Qed.

Lemma fprint_xml_esc_run file s : forall w, opened w file ->
  fprint_xml_esc file s w = (Ret tt, emit file (xml_text s) w).
Proof.
  induction s as [| c s IH]; intros w Ho; cbn [fprint_xml_esc xml_text].
  - by rewrite emit_nil.
  - destruct (decide (xml_char c = "")) as [E | E].
    + rewrite (bind_ret _ _ _ _ _ (mret_run _ _)), E. by apply IH.
    + rewrite (bind_ret _ _ _ _ _ (fprintf_run _ _ _)).
      rewrite IH by by apply emit_opened. by rewrite emit_emit.
Qed.
End Xml.

(** ** Text *)

Definition shown (mode : print_output) (tr : TestResult) : bool :=
  bool_decide ((CK_VERBOSE <= mode /\ rtype tr = CK_PASS) \/ (rtype tr <> CK_PASS /\ CK_NORMAL <= mode)).

Definition result_line (tr : TestResult) : string :=
  pr_s (tr_file tr) +:+ ":" +:+ dec (tr_line tr) +:+ ":" +:+ pr_s (tr_type_str tr) +:+ ":" +:+
  pr_s (tr_tcname tr) +:+ ":" +:+ pr_s (tr_tname tr) +:+ ":" +:+ dec (default 0 (tr_iter tr)) +:+ ": " +:+
  exact_msg tr +:+ pr_s (tr_msg tr).
(** A result that ran, with a line of reasonable length. *)
Definition printable (tr : TestResult) : Prop :=
  is_Some (tr_iter tr) /\ strlen (result_line tr) < INT_MAX.

Definition summary_line (ts : TestStats) (pc : Z) : string :=
  dec pc +:+ "%: Checks: " +:+ dec (n_checked ts) +:+ ", Failures: " +:+ dec (n_failed ts) +:+
  ", Errors: " +:+ dec (n_errors ts).

Definition lines (ls : list string) : string := foldr (fun l t => l +:+ nl +:+ t) "" ls.

(** The report of a run: the summary, then the lines shown. *)
Definition report (mode : print_output) (rs : list TestResult) (pc : Z) : string :=
  lines ((if decide (CK_MINIMAL <= mode) then [summary_line (stats_of rs) pc] else []) ++
         (result_line <$> filter (fun tr => shown mode tr = true) rs)).

Lemma lines_app l1 l2 : lines (l1 ++ l2) = lines l1 +:+ lines l2.
Proof.
  unfold lines. induction l1 as [| l l1 IH]; simpl; [done |]. by rewrite IH, !string_app_assoc.
Qed.
Lemma lines_one l : lines [l] = l +:+ nl.
Proof. unfold lines. simpl. by rewrite string_app_nil_r. Qed.

Section Text.
Context {plat : Platform} {plat_ok : PlatformOK}.

Lemma tr_str_run tr (w : world) : printable tr -> tr_str tr w = (Ret (result_line tr), w).
Proof.
  intros [[i Hi] Hl]. unfold tr_str. erewrite bind_ret by (apply deref_Some; exact Hi).
  unfold result_line in *. rewrite Hi in *. cbn [default from_option id] in *.
  by apply ck_strdup_printf_run.
Qed.

Lemma resolve_printmode_run mode w : mode <> CK_ENV -> resolve_printmode mode w = (Ret mode, w).
Proof. intros H. unfold resolve_printmode. by rewrite decide_False. Qed.

Lemma tr_fprint_run file tr mode w : printable tr -> mode <> CK_ENV -> opened w file ->
  tr_fprint file tr mode w =
    (Ret tt, emit file (lines (if shown mode tr then [result_line tr] else [])) w).
Proof.
  intros Hp Hm Ho. unfold tr_fprint. rewrite (bind_ret _ _ _ _ _ (resolve_printmode_run _ _ Hm)).
  unfold shown. case_decide as Hd.
  - rewrite bool_decide_true by done. rewrite (bind_ret _ _ _ _ _ (tr_str_run _ _ Hp)).
    by rewrite fprintf_run, lines_one.
  - rewrite bool_decide_false by done. unfold lines. cbn [foldr]. by rewrite emit_nil.
Qed.

Lemma emit_results file t sr l w : emit file t (put (resultlst_ptr sr) l w) = put (resultlst_ptr sr) l (emit file t w).
Proof. unfold emit, on_os. cbn. unfold upd_heap, on_proc, the_heap. done. Qed.

Lemma fprint_results_run file sr mode rs w : holds (resultlst_ptr sr) w rs -> opened w file ->
  Forall printable rs -> mode <> CK_ENV ->
  exists l, srunner_fprint_results file sr mode w =
      (Ret tt, put (resultlst_ptr sr) l
                 (emit file (lines (result_line <$> filter (fun tr => shown mode tr = true) rs)) w)) /\
    holds (resultlst_ptr sr) (put (resultlst_ptr sr) l w) rs.
Proof.
  intros Hh Ho Hp Hm. pose proof Hh as (l0 & q0 & Hl0 & Hr0). unfold srunner_fprint_results.
  set (text := fun k => lines (result_line <$> filter (fun tr => shown mode tr = true) (take k rs))).
  destruct (list_for_each (resultlst_ptr sr) (R:=unit)
    (fun k s => exists l, s = put (resultlst_ptr sr) l (emit file (text k) w))
    (fun tr => tr_fprint file tr mode ;; mret None) rs w) as (w' & E & [l ->] & Hh').
  - intros k l q s [l' ->] _ _. exists l. by rewrite put_put.
  - intros k tr s Hk [l ->] _. rewrite Forall_forall in Hp.
    erewrite bind_ret by (apply tr_fprint_run;
      [apply (Hp tr (list_elem_of_lookup_2 _ _ _ Hk)) | done
      | rewrite <- emit_results; by apply emit_opened]).
    eexists. split; [reflexivity |]. split.
    + exists l. rewrite emit_results, emit_emit. do 2 f_equal. unfold text.
      rewrite (take_S_r _ _ _ Hk), filter_app, fmap_app, lines_app. do 2 f_equal.
      destruct (shown mode tr) eqn:Es; [by rewrite filter_cons_True by done |].
      by rewrite filter_cons_False by by rewrite Es.
    + by rewrite emit_results.
  - done.
  - exists l0. change (text 0%nat) with "". rewrite emit_nil by done. symmetry. by apply put_look.
  - rewrite (bind_ret _ _ _ _ _ E), mret_run. unfold text in *. rewrite firstn_all in *. exists l.
    split; [done |]. destruct Hh' as (l1 & q1 & Hl1 & Hr1). exists l1, q1. split; [| done].
    rewrite <- Hl1. by rewrite <- emit_results.
Qed.

Lemma srunner_fprint_run file sr mode rs pc w :
  runner_has w sr rs -> opened w file -> Forall printable rs -> mode <> CK_ENV ->
  percent_passed (stats_of rs) w = (Ret pc, w) -> strlen (summary_line (stats_of rs) pc) < INT_MAX ->
  exists l, srunner_fprint file sr mode w =
      (Ret tt, put (resultlst_ptr sr) l (emit file (report mode rs pc) w)) /\
    holds (resultlst_ptr sr) (put (resultlst_ptr sr) l w) rs.
Proof.
  intros [(r & Hr & Hst) Hh _] Ho Hp Hm Hpc Hl. unfold srunner_fprint.
  rewrite (bind_ret _ _ _ _ _ (resolve_printmode_run _ _ Hm)).
  set (t1 := lines (if decide (CK_MINIMAL <= mode) then [summary_line (stats_of rs) pc] else [])).
  assert (E1 : srunner_fprint_summary file sr mode w = (Ret tt, emit file t1 w)).
  { unfold srunner_fprint_summary, t1. case_decide; [| unfold lines; cbn; by rewrite emit_nil].
    rewrite (bind_ret _ _ _ _ _ (get_srunner_run _ _ _ Hr)), Hst. unfold sr_stat_str.
    rewrite bind_assoc, (bind_ret _ _ _ _ _ Hpc).
    erewrite bind_ret by (apply ck_strdup_printf_run; exact Hl).
    by rewrite fprintf_run, lines_one. }
  rewrite (bind_ret _ _ _ _ _ E1).
  destruct (fprint_results_run file sr mode rs (emit file t1 w)) as (l & E2 & Hh2);
    [by apply (holds_look _ w) | by apply emit_opened | done | done |].
  exists l. rewrite E2, emit_emit. unfold t1, report. rewrite <- lines_app. split; [done |].
  destruct Hh2 as (l1 & q1 & Hl1 & Hr1). exists l1, q1. split; [| done].
  rewrite <- Hl1, <- !emit_results. done.
Qed.
End Text.

(** ** The TAP log *)

Definition tap_line (k : Z) (tr : TestResult) : string :=
  (if decide (rtype tr = CK_PASS) then "ok" else "not ok") +:+ " " +:+ dec k +:+ " - " +:+
  pr_s (tr_file tr) +:+ ":" +:+ pr_s (tr_tcname tr) +:+ ":" +:+ pr_s (tr_tname tr) +:+ ": " +:+
  pr_s (tr_msg tr).
(** The lines of some results, numbered from [k] + 1. *)
Fixpoint tap_lines (k : Z) (rs : list TestResult) : list string :=
  match rs with [] => [] | tr :: rs => tap_line (k + 1) tr :: tap_lines (k + 1) rs end.

(** The results among the events of a run. *)
Definition ended (e : cl_event) : option TestResult :=
  match e with CLEND_T tr => Some tr | _ => None end.
(** An event between the start and the end of the log. *)
Definition inner (e : cl_event) : bool :=
  match e with CLINITLOG_SR | CLENDLOG_SR => false | _ => true end.

Section Tap.
Context {plat : Platform} {plat_ok : PlatformOK}.

Fixpoint tap_events (sr : loc) (file : lstream) (mode : print_output) (es : list cl_event)
    : M world unit :=
  match es with [] => mret tt | e :: es => tap_lfun sr file mode e ;; tap_events sr file mode es end.

Definition tap_count (n : Z) : world -> world := upd_statics (put_num_tests_run n).

Lemma tap_count_twice n m w : tap_count n (tap_count m w) = tap_count n w.
Proof. done. Qed.
Lemma tap_count_id w : tap_count (num_tests_run (the_statics w)) w = w.
Proof. destruct w as [[? ? ? ? ? st ? ?] ?]. unfold tap_count, upd_statics, on_proc. cbn. by destruct st. Qed.
Lemma tap_count_emit n file t w : tap_count n (emit file t w) = emit file t (tap_count n w).
Proof. done. Qed.

Lemma tap_init_run sr file mode w : tap_lfun sr file mode CLINITLOG_SR w = (Ret tt, tap_count 0 w).
Proof. done. Qed.
Lemma tap_plan_run sr file mode w : tap_lfun sr file mode CLENDLOG_SR w =
  (Ret tt, emit file ("1.." +:+ dec (num_tests_run (the_statics w)) +:+ nl) w).
Proof. done. Qed.

Lemma tap_end_t_run sr file mode tr k w : num_tests_run (the_statics w) = k -> k < INT_MAX ->
  tap_lfun sr file mode (CLEND_T tr) w =
    (Ret tt, emit file (tap_line (k + 1) tr +:+ nl) (tap_count (k + 1) w)).
Proof.
  intros Hk Hb. unfold tap_lfun. rewrite (bind_ret _ _ _ _ _ (gets_run _ _)), Hk.
  erewrite bind_ret by by apply int_succ_run.
  rewrite (bind_ret _ _ _ _ _ (modify_run _ _)), fprintf_run. do 2 f_equal.
  unfold tap_line. by rewrite !string_app_assoc.
Qed.

Lemma tap_events_run sr file mode es : forall k w,
  opened w file -> forallb inner es = true -> num_tests_run (the_statics w) = k ->
  k + Z.of_nat (length (omap ended es)) <= INT_MAX ->
  tap_events sr file mode es w =
    (Ret tt, emit file (lines (tap_lines k (omap ended es)))
               (tap_count (k + Z.of_nat (length (omap ended es))) w)).
Proof.
  induction es as [| e es IH]; intros k w Ho Hi Hk Hb.
  - cbn. rewrite Z.add_0_r, <- Hk, tap_count_id. by rewrite emit_nil.
  - cbn [forallb] in Hi. apply andb_true_iff in Hi as [He Hi]. cbn [tap_events].
    destruct (ended e) as [tr |] eqn:Ee.
    + destruct e; try discriminate. injection Ee as ->. cbn [omap list_omap ended tap_lines length] in *.
      rewrite (bind_ret _ _ _ _ _ (tap_end_t_run _ _ _ _ _ _ Hk ltac:(lia))).
      rewrite (IH (k + 1)); [| by apply emit_opened | done | done | lia].
      rewrite tap_count_emit, tap_count_twice, emit_emit. unfold lines. cbn [foldr].
      rewrite string_app_assoc. do 3 f_equal. lia.
    + assert (En : tap_lfun sr file mode e w = (Ret tt, w)) by by destruct e.
      rewrite (bind_ret _ _ _ _ _ En). cbn [omap list_omap] in *. rewrite Ee in *. by apply IH.
Qed.
End Tap.

(** ** The percentage of tests passed *)

(** In binary32, of [k] passed tests among [n]. *)
Definition percent32 (k n : Z) : option Z :=
  sf_trunc (f32_mul (f32_div (f32_of_int k) (f32_of_int n)) (f32_of_int 100)).
Definition percent_ok (k n : Z) : bool :=
  match percent32 k n with
  | Some p => (100 * k / n - 1 <=? p) && (p <=? 100 * k / n) && (bool_decide (p = 100) || (k <? n))
              && ((negb (p =? 100)) || (k =? n))
  | None => false
  end.
Lemma percent_table :
  forallb (fun n => forallb (fun k => percent_ok (Z.of_nat k) (Z.of_nat n)) (seq 0 n)) (seq 1 100) = true.
Proof. vm_compute. reflexivity. Qed.

Lemma percent_range k n : 0 <= k < n -> n <= 100 ->
  exists p, percent32 k n = Some p /\ 100 * k / n - 1 <= p <= 100 * k / n /\ p <> 100.
Proof.
  intros Hk Hn. pose proof percent_table as H. rewrite forallb_forall in H.
  specialize (H (Z.to_nat n)). rewrite Z2Nat.id in H by lia.
  assert (Hin : List.In (Z.to_nat n) (seq 1 100)) by (apply in_seq; lia).
  specialize (H Hin). rewrite forallb_forall in H. specialize (H (Z.to_nat k)).
  rewrite Z2Nat.id in H by lia. assert (Hik : List.In (Z.to_nat k) (seq 0 (Z.to_nat n))) by (apply in_seq; lia).
  specialize (H Hik). unfold percent_ok in H. destruct (percent32 k n) as [p |]; [| done].
  exists p. split; [done |]. apply andb_true_iff in H as [[[H1 H2]%andb_true_iff _]%andb_true_iff H3].
  apply orb_true_iff in H3. split; [lia |]. intros ->. destruct H3; [done | lia].
Qed.
