(* ===== verification/LogSpec.v ===== *)
(** * What logging leaves alone (src/check_log.c)

    Whatever log functions are registered, sending an event writes to the streams and to the
    static variables of the log functions, moves cursors of the runner's lists, and returns. *)
From S2P Require Import Prelude Error Types CList Loops Pack World Str Result Msg MsgSpec Core.
From S2P Require Import CoreSpec Alike Print Log Run RunnerSpec RenderSpec.

(** Two runners that differ by the cursors of their lists. *)
Record alike (r r' : SRunner) : Prop := mkAlike {
  al_slst : slst r' = slst r;
  al_stats : stats r' = stats r;
  al_log : log_fname r' = log_fname r;
  al_xml : xml_fname r' = xml_fname r;
  al_tap : tap_fname r' = tap_fname r;
  al_fstat : fstat r' = fstat r
}.
#[export] Instance alike_preorder : PreOrder alike.
Proof. split; [by intros r | intros a b c [] []; constructor; congruence]. Qed.

(** What logging may change. *)
Record logged (sr : loc) (w w' : world) : Prop := mkLogged {
  lg_os : exists a b, w_os w' = put_out a (put_paths b (w_os w));
  lg_streams : forall f, opened w f -> opened w' f;
  lg_env : env (w_proc w') = env (w_proc w);
  lg_pid : p_pid (w_proc w') = p_pid (w_proc w);
  lg_pgid : p_pgid (w_proc w') = p_pgid (w_proc w);
  lg_pipes : the_pipes w' = the_pipes w;
  lg_signals : the_signals w' = the_signals w;
  lg_umem : p_umem (w_proc w') = p_umem (w_proc w);
  lg_fstat : fstat_cur (the_statics w') = fstat_cur (the_statics w);
  lg_max : max_msg_size (the_statics w') = max_msg_size (the_statics w);
  lg_group : group_pid (the_statics w') = group_pid (the_statics w);
  lg_alarm : alarm_received (the_statics w') = alarm_received (the_statics w);
  lg_suites : suites (the_heap w') = suites (the_heap w);
  lg_tcases : tcases (the_heap w') = tcases (the_heap w);
  lg_tags : taglists (the_heap w') = taglists (the_heap w);
  lg_next : next_loc (the_heap w') = next_loc (the_heap w);
  lg_runner : forall r, srunners (the_heap w) !! sr = Some r ->
    exists r', srunners (the_heap w') !! sr = Some r' /\ alike r r';
  lg_others : forall a, a <> sr -> srunners (the_heap w') !! a = srunners (the_heap w) !! a;
  lg_results : forall rs, holds (resultlst_ptr sr) w rs -> holds (resultlst_ptr sr) w' rs
}.

#[export] Instance logged_preorder sr : PreOrder (logged sr).
Proof.
  split.
  - intros w. constructor; try done.
    + exists (out (w_os w)), (paths (w_os w)). by destruct (w_os w).
    + intros r Hr. by exists r.
  - intros w1 w2 w3 H1 H2. destruct H1 as [(a1 & b1 & E1)], H2 as [(a2 & b2 & E2)].
    constructor; try congruence; try (by auto).
    + exists a2, b2. by rewrite E2, E1.
    + intros r Hr. destruct (lg_runner0 r Hr) as (r1 & Hr1 & Ha1).
      destruct (lg_runner1 r1 Hr1) as (r2 & Hr2 & Ha2). exists r2. split; [done | by etrans].
    + intros a Ha. by rewrite lg_others1, lg_others0.
Qed.

Section Frames.
Context {plat : Platform} {plat_ok : PlatformOK}.

Lemma emit_logged sr file t w : logged sr w (emit file t w).
Proof.
  constructor; try done.
  - unfold emit, on_os. cbn. destruct file as [| p].
    + exists (out (w_os w) +:+ t), (paths (w_os w)). by destruct (w_os w).
    + exists (out (w_os w)), (<[p := default "" (paths (w_os w) !! p) +:+ t]> (paths (w_os w))).
      by destruct (w_os w).
  - intros f. apply emit_opened.
  - intros r Hr. by exists r.
Qed.

(** An assignment to the static variables of a log function. *)
Lemma statics_logged sr f w :
  fstat_cur (f (the_statics w)) = fstat_cur (the_statics w) ->
  max_msg_size (f (the_statics w)) = max_msg_size (the_statics w) ->
  group_pid (f (the_statics w)) = group_pid (the_statics w) ->
  alarm_received (f (the_statics w)) = alarm_received (the_statics w) ->
  logged sr w (upd_statics f w).
Proof.
  intros H1 H2 H3 H4. constructor; try done.
  - exists (out (w_os w)), (paths (w_os w)). by destruct w as [? []].
  - intros r Hr. by exists r.
Qed.

Lemma put_logs_results sr l w : look (resultlst_ptr sr) (put (loglst_ptr sr) l w) = look (resultlst_ptr sr) w.
Proof.
  cbn. destruct (srunners (the_heap w) !! sr) as [r |] eqn:E; cbn; [| by rewrite E].
  by rewrite lookup_insert_eq.
Qed.
Lemma put_logs_logged sr l w : logged sr w (put (loglst_ptr sr) l w).
Proof.
  constructor; try done; unfold loglst_ptr, upd_heap; cbn; try by destruct (srunners _ !! sr).
  - exists (out (w_os w)), (paths (w_os w)). by destruct (w_os w).
  - intros r Hr. rewrite Hr. cbn. rewrite lookup_insert_eq. by eexists.
  - intros a Ha. destruct (srunners _ !! sr); [cbn; by apply lookup_insert_ne | done].
  - intros rs. apply holds_look. apply (put_logs_results sr l w).
Qed.
Lemma emit_look_logs sr file t w : look (loglst_ptr sr) (emit file t w) = look (loglst_ptr sr) w.
Proof. done. Qed.

(** A computation that only writes to a stream. *)
Definition emits (file : lstream) (m : M world unit) (w : world) : Prop :=
  exists t, m w = (Ret tt, emit file t w).

Lemma emits_fprintf file t w : emits file (fprintf file t) w.
Proof. by exists t. Qed.
Lemma emits_xml_esc file s w : opened w file -> emits file (fprint_xml_esc file s) w.
Proof. intros Ho. exists (xml_text s). by apply fprint_xml_esc_run. Qed.
Lemma emits_ret file w : opened w file -> emits file (mret tt) w.
Proof. intros Ho. exists "". by rewrite emit_nil. Qed.
Lemma emits_seq file m (k : M world unit) w : opened w file -> emits file m w ->
  (forall w', opened w' file -> emits file k w') -> emits file (m ;; k) w.
Proof.
  intros Ho [t E] Hk. destruct (Hk (emit file t w)) as [u Eu]; [by apply emit_opened |].
  exists (t +:+ u). by rewrite (bind_ret _ _ _ _ _ E), Eu, emit_emit.
Qed.
Lemma emits_read {A} file (m : M world A) (k : A -> M world unit) w a :
  m w = (Ret a, w) -> emits file (k a) w -> emits file (m ≫= k) w.
Proof. intros E [t Ek]. exists t. by rewrite (bind_ret _ _ _ _ _ E). Qed.

(** A result that can be logged: it has a verdict, names, a message and an iteration. *)
Record loggable (tr : TestResult) : Prop := mkLoggable {
  lb_definite : definite tr;
  lb_printable : printable tr;
  lb_tcname : is_Some (tr_tcname tr);
  lb_msg : is_Some (tr_msg tr)
}.

Lemma xmlprint_emits file tr mode w : loggable tr -> opened w file ->
  emits file (tr_xmlprint file tr mode) w.
Proof.
  intros [Hd [[i Hi] _] [n Hn] [m Hm]] Ho. unfold tr_xmlprint, definite in *.
  apply emits_read with (a := match rtype tr with CK_PASS => "success" | CK_FAILURE => "failure"
    | CK_ERROR => "error" | _ => "" end).
  { by destruct (rtype tr). }
  destruct (path_and_name (tr_file tr)) as [path name].
  repeat (apply emits_seq; [done | apply emits_fprintf |]; clear dependent w; intros w Ho).
  apply (emits_read _ _ _ _ i); [by apply deref_Some |].
  repeat (apply emits_seq; [done | apply emits_fprintf |]; clear dependent w; intros w Ho).
  apply (emits_read _ _ _ _ n); [by apply deref_Some |].
  apply emits_seq; [done | by apply emits_xml_esc |]. clear dependent w; intros w Ho.
  repeat (apply emits_seq; [done | apply emits_fprintf |]; clear dependent w; intros w Ho).
  apply (emits_read _ _ _ _ m); [by apply deref_Some |].
  apply emits_seq; [done | by apply emits_xml_esc |]. clear dependent w; intros w Ho.
  repeat (apply emits_seq; [done | apply emits_fprintf |]; clear dependent w; intros w Ho).
  apply emits_fprintf.
Qed.
End Frames.

(** ** Events *)

(** The events during the tests of a run: not those at its ends. *)
Definition test_event (e : cl_event) : Prop :=
  match e with
  | CLSTART_T _ | CLSTART_S _ | CLEND_S _ => True
  | CLEND_T tr => loggable tr
  | _ => False
  end.

(** ** What the terminal shows

    Each log adds a text to its stream; [told f logs]: what the logs on standard output add,
    each the text that [f] gives for it. The files of a tidy list of logs are not standard output. *)
Definition says (f : Log -> string) (lg : Log) : string :=
  match lfile lg with
  | lf_stdout => if bool_decide (CK_SILENT < log_mode lg) then f lg else ""
  | lf_path _ => ""
  end.
Definition told (f : Log -> string) (logs : list Log) : string := foldr (fun lg t => says f lg +:+ t) "" logs.
Definition tidy (logs : list Log) : Prop := Forall (fun lg => lfile lg = lf_stdout -> lfun lg = stdout_lfun_) logs.

(** Nothing shown. *)
Definition mute (logs : list Log) (w w' : world) : Prop := tidy logs -> out (w_os w') = out (w_os w).
#[export] Instance mute_preorder logs : PreOrder (mute logs).
Proof. split; [by intros w | intros a b c H1 H2 Ht; by rewrite H2, H1]. Qed.

(** At an event between the ends of a run. *)
Definition event_text (e : cl_event) (lg : Log) : string :=
  match e with CLSTART_S s => " " +:+ s +:+ nl | _ => "" end.

Lemma tidy_lookup logs k lg : tidy logs -> logs !! k = Some lg -> lfile lg = lf_stdout -> lfun lg = stdout_lfun_.
Proof. unfold tidy. rewrite Forall_lookup. intros H Hk. by apply (H k). Qed.

Lemma told_snoc f logs lg : told f (logs ++ [lg]) = told f logs +:+ says f lg.
Proof.
  unfold told. induction logs as [| l logs IH]; cbn; [by rewrite string_app_nil_r |].
  by rewrite IH, string_app_assoc.
Qed.
Lemma told_nothing f logs : (forall lg, f lg = "") -> told f logs = "".
Proof.
  intros H. unfold told. induction logs as [| l logs IH]; cbn; [done |]. rewrite IH. unfold says.
  destruct (lfile l); [| done]. by case_bool_decide; [rewrite H |].
Qed.
Lemma unsaid f logs w w' : (tidy logs -> out (w_os w') = out (w_os w) +:+ told f logs) -> (forall lg, f lg = "") ->
  mute logs w w'.
Proof. intros H Hf Ht. by rewrite (H Ht), told_nothing, string_app_nil_r. Qed.
Lemma told_files f logs : tidy logs -> Forall (fun lg => lfun lg <> stdout_lfun_) logs -> told f logs = "".
Proof.
  unfold tidy, told. induction logs as [| lg logs IH]; [done |]. rewrite !Forall_cons. intros [Hf Ht] [Hn H].
  cbn. rewrite (IH Ht H). unfold says. destruct (lfile lg); [by destruct Hn, Hf | done].
Qed.
Lemma emit_out file t w : out (w_os (emit file t w)) =
  match file with lf_stdout => out (w_os w) +:+ t | lf_path _ => out (w_os w) end.
Proof. by destruct file. Qed.
Lemma says_out f lg w w' : (lfile lg <> lf_stdout -> out (w_os w') = out (w_os w)) ->
  (lfun lg = stdout_lfun_ -> out (w_os w') = out (w_os w) +:+ says f lg) ->
  (lfile lg = lf_stdout -> lfun lg = stdout_lfun_) -> out (w_os w') = out (w_os w) +:+ says f lg.
Proof.
  intros Hq Hs Hl. unfold says in *. destruct (lfile lg); [by apply Hs, Hl |].
  by rewrite Hq, string_app_nil_r by done.
Qed.

Definition tap_below (b : Z) (w : world) : Prop := num_tests_run (the_statics w) <= b.

(** One log: its mode is not the one read from the environment. *)
Definition log_ok (w : world) (lg : Log) : Prop := opened w (lfile lg) /\ log_mode lg <> CK_ENV.

Section Events.
Context {plat : Platform} {plat_ok : PlatformOK}.

(** What one log function does with an event. *)
Definition quiet (sr : loc) (file : lstream) (w w' : world) : Prop :=
  logged sr w w' /\ look (loglst_ptr sr) w' = look (loglst_ptr sr) w /\
  tap_below (num_tests_run (the_statics w) + 1) w' /\ (file <> lf_stdout -> out (w_os w') = out (w_os w)).

Lemma quiet_emit sr file t w : quiet sr file w (emit file t w).
Proof.
  split; [apply emit_logged |]. split; [done |]. split; [unfold tap_below, the_statics; cbn; lia |].
  intros Hf. rewrite emit_out. by destruct file.
Qed.
Lemma quiet_refl sr file w : quiet sr file w w.
Proof. split; [done |]. split; [done |]. split; [unfold tap_below; lia | done]. Qed.
Lemma emits_quiet sr file m w : emits file m w -> exists w', m w = (Ret tt, w') /\ quiet sr file w w'.
Proof. intros [t E]. eexists. split; [exact E | apply quiet_emit]. Qed.

Lemma xml_clock_run sr w : exists w', xml_start_clock w = (Ret tt, w') /\ logged sr w w' /\
  look (loglst_ptr sr) w' = look (loglst_ptr sr) w /\
  num_tests_run (the_statics w') = num_tests_run (the_statics w) /\ out (w_os w') = out (w_os w).
Proof.
  unfold xml_start_clock. rewrite (bind_ret _ _ _ _ _ (gets_run _ _)). case_decide.
  - unfold check_get_clockid. rewrite (bind_ret _ _ _ _ _ (gets_run _ _)).
    unfold clock_gettime. rewrite (bind_ret _ _ _ _ _ (gets_run _ _)).
    rewrite (bind_ret _ _ _ _ _ (gets_run _ _)), modify_run.
    eexists. split; [reflexivity |]. split; [by apply statics_logged | done].
  - exists w. by split.
Qed.

(** A log function leaves the terminal alone, unless it is that of the terminal. *)
Lemma not_stdout (fn : LFun) sr file e mode w (P Q : world -> Prop) : fn <> stdout_lfun_ ->
  (exists w', call_lfun fn sr file mode e w = (Ret tt, w') /\ Q w') ->
  exists w', call_lfun fn sr file mode e w = (Ret tt, w') /\ Q w' /\ (fn = stdout_lfun_ -> P w').
Proof. intros Hne (w' & E & Hq). by exists w'. Qed.

Lemma call_lfun_run sr lg e w : test_event e -> log_ok w lg ->
  num_tests_run (the_statics w) < INT_MAX ->
  exists w', call_lfun (lfun lg) sr (lfile lg) (log_mode lg) e w = (Ret tt, w') /\ quiet sr (lfile lg) w w' /\
    (lfun lg = stdout_lfun_ -> out (w_os w') = out (w_os w) +:+ says (event_text e) lg).
Proof.
  intros He [Ho Hm] Hn. destruct (lfun lg); [| apply not_stdout; [done |].. ]; cbn [call_lfun].
  - unfold says. destruct e; try done; cbn [stdout_lfun event_text];
      try (exists w; split; [done |]; split; [apply quiet_refl |]; intros _;
           destruct (lfile lg); [case_bool_decide |]; by rewrite string_app_nil_r).
    unfold when. case_bool_decide.
    + eexists (emit (lfile lg) _ w). split; [reflexivity |]. split; [apply quiet_emit |]. intros _. rewrite emit_out.
      destruct (lfile lg); [done | by rewrite string_app_nil_r].
    + exists w. split; [done |]. split; [apply quiet_refl |]. intros _. destruct (lfile lg); by rewrite string_app_nil_r.
  - destruct e; try done; cbn [lfile_lfun]; try (exists w; by split; [| apply quiet_refl]).
    + apply emits_quiet with (file := lfile lg), emits_fprintf.
    + apply emits_quiet with (file := lfile lg). destruct He. eexists. by apply tr_fprint_run.
  - unfold xml_lfun. destruct (xml_clock_run sr w) as (w1 & E1 & Hl1 & Hk1 & Hn1 & Ho1').
    rewrite (bind_ret _ _ _ _ _ E1). pose proof (lg_streams _ _ _ Hl1 _ Ho) as Ho1.
    assert (Hx : emits (lfile lg) (match e with
      | CLSTART_S s => fprintf (lfile lg) ("  <suite>" +:+ nl +:+ "    <title>") ;;
          fprint_xml_esc (lfile lg) s ;; fprintf (lfile lg) ("</title>" +:+ nl)
      | CLEND_S _ => fprintf (lfile lg) ("  </suite>" +:+ nl)
      | CLEND_T tr => tr_xmlprint (lfile lg) tr CK_VERBOSE
      | _ => mret tt end) w1).
    { destruct e; try done; try by apply emits_ret.
      - apply emits_seq; [done | apply emits_fprintf |]. intros w2 Ho2.
        apply emits_seq; [done | by apply emits_xml_esc |]. intros w3 Ho3. apply emits_fprintf.
      - apply emits_fprintf.
      - by apply xmlprint_emits. }
    destruct (emits_quiet sr _ _ _ Hx) as (w2 & E2 & Hl2 & Hk2 & Ht2 & Hs2). exists w2.
    split; [by destruct e |]. split; [by etrans |]. split; [by rewrite Hk2 |]. rewrite Hn1 in Ht2.
    split; [done |]. intros Hf. by rewrite (Hs2 Hf).
  - destruct e; try done; cbn [tap_lfun]; try (exists w; by split; [| apply quiet_refl]).
    eexists. split; [by apply (tap_end_t_run sr _ (log_mode lg) tr (num_tests_run (the_statics w))) |].
    split; [etrans; [apply (statics_logged sr (put_num_tests_run (num_tests_run (the_statics w) + 1))); done | apply emit_logged] |].
    split; [done |]. split; [unfold tap_below, the_statics; cbn; lia |].
    intros Hf. cbn. by destruct (lfile lg).
Qed.

(** Sending an event to all the logs of a runner. *)
Lemma send_evt_run sr e logs w : test_event e -> holds (loglst_ptr sr) w logs ->
  Forall (log_ok w) logs -> num_tests_run (the_statics w) + Z.of_nat (length logs) <= INT_MAX ->
  exists w', srunner_send_evt sr e w = (Ret tt, w') /\ logged sr w w' /\
    holds (loglst_ptr sr) w' logs /\
    tap_below (num_tests_run (the_statics w) + Z.of_nat (length logs)) w' /\
    (tidy logs -> out (w_os w') = out (w_os w) +:+ told (event_text e) logs).
Proof.
  intros He Hh Hok Hn. unfold srunner_send_evt.
  destruct (list_for_each (loglst_ptr sr) (R:=unit)
    (fun k t => logged sr w t /\ tap_below (num_tests_run (the_statics w) + Z.of_nat k) t /\
       (tidy logs -> out (w_os t) = out (w_os w) +:+ told (event_text e) (take k logs)))
    (fun lg => call_lfun (lfun lg) sr (lfile lg) (log_mode lg) e ;; mret None) logs w)
    as (w' & E & (Hl & Ht & Hs) & Hh').
  - intros k l q t [Hl Ht] _ _. split; [etrans; [exact Hl | apply put_logs_logged] | exact Ht].
  - intros k lg t Hk (Hl & Ht & Hs) _. rewrite Forall_forall in Hok.
    destruct (Hok lg (list_elem_of_lookup_2 _ _ _ Hk)) as [Ho Hm].
    assert (Hlt : (k < length logs)%nat) by by eapply lookup_lt_Some. unfold tap_below in Ht.
    destruct (call_lfun_run sr lg e t He) as (t' & E & (Hl' & Hk' & Ht' & Hq') & Hs').
    { split; [by apply (lg_streams _ _ _ Hl) | done]. } { lia. }
    exists t'. rewrite (bind_ret _ _ _ _ _ E). split; [done |].
    split; [| done]. split; [by etrans |]. split; [unfold tap_below in *; lia |]. intros Htd.
    rewrite (take_S_r _ _ _ Hk), told_snoc, <- string_app_assoc, <- Hs by done.
    by apply says_out, (tidy_lookup _ _ _ Htd Hk).
  - done.
  - split; [done |]. split; [unfold tap_below; lia |]. intros _. by rewrite string_app_nil_r.
  - exists w'. rewrite firstn_all in Hs. by rewrite (bind_ret _ _ _ _ _ E).
Qed.
End Events.
