(* ===== verification/LogRunSpec.v ===== *)
(** * The logs of a run (src/check_log.c)

    Which logs a run has, from the names given to the runner or in the environment; that they
    are opened, that the events at the ends of a run reach them, and that they are closed. *)
From S2P Require Import Prelude Error Types CList Loops Pack World Str Result Msg MsgSpec Core.
From S2P Require Import CoreSpec Alike Print Log Run RunnerSpec RenderSpec LogSpec.

(** ** The events at the ends of a run *)

Definition end_event (e : cl_event) : Prop :=
  match e with CLINITLOG_SR | CLENDLOG_SR | CLSTART_SR | CLEND_SR => True | _ => False end.

(** The summary of [n] results can be made. *)
Definition reportable (n : nat) : Prop := forall rs, length rs = n ->
  exists pc, (forall w : world, percent_passed (stats_of rs) w = (Ret pc, w)) /\
    strlen (summary_line (stats_of rs) pc) < INT_MAX.

(** The percentage of the results that passed. *)
Definition percent (rs : list TestResult) : Z :=
  match percent_passed (stats_of rs) tt with (Ret pc, _) => pc | _ => 0 end.
Lemma percent_run rs pc (w : world) : percent_passed (stats_of rs) w = (Ret pc, w) -> percent rs = pc.
Proof.
  unfold percent, percent_passed. repeat case_decide; [by intros [=].. |]. by destruct (sf_trunc _); intros [=].
Qed.

(** What the terminal shows at such an event, of a runner with the results [rs]. *)
Definition end_text (rs : list TestResult) (e : cl_event) (lg : Log) : string :=
  match e with
  | CLSTART_SR => "Running suite(s):"
  | CLEND_SR => report (log_mode lg) rs (percent rs)
  | _ => ""
  end.

(** A runner whose results can be reported. *)
Record reports {plat : Platform} (w : world) (sr : loc) (rs : list TestResult) : Prop := mkReports {
  rp_has : runner_has w sr rs;
  rp_printable : Forall printable rs;
  rp_reportable : reportable (length rs)
}.

(** Up to a hundred results are reportable. *)
Lemma count_sum rs : count CK_FAILURE rs + count CK_ERROR rs <= Z.of_nat (length rs).
Proof.
  induction rs as [| tr rs IH] using rev_ind; [done |]. rewrite !count_snoc, length_app, Nat2Z.inj_add. simpl.
  repeat case_decide; try lia. congruence.
Qed.
Lemma dec_short z : -1 <= z <= 100 -> strlen (dec z) <= 3.
Proof.
  intros Hz. assert (H : forallb (fun n => strlen (dec (Z.of_nat n - 1)) <=? 3) (seq 0 102) = true)
    by (vm_compute; reflexivity).
  rewrite forallb_forall in H. specialize (H (Z.to_nat (z + 1))). rewrite Z2Nat.id in H by lia.
  replace (z + 1 - 1) with z in H by lia. apply Z.leb_le, H, in_seq. lia.
Qed.
Lemma reportable_100 n : (n <= 100)%nat -> reportable n.
Proof.
  intros Hn rs Hlen. pose proof (count_sum rs) as Hs.
  pose proof (count_bounds CK_FAILURE rs) as Hf. pose proof (count_bounds CK_ERROR rs) as He.
  assert (Hp : exists pc, (forall w : world, percent_passed (stats_of rs) w = (Ret pc, w)) /\ -1 <= pc <= 100).
  { unfold percent_passed. cbn [n_failed n_errors n_checked stats_of].
    case_decide; [by exists 100 |]. case_decide; [by exists 0 |].
    destruct (percent_range (Z.of_nat (length rs) - (count CK_FAILURE rs + count CK_ERROR rs)) (Z.of_nat (length rs)))
      as (p & E & Hr & _); [lia | lia |].
    unfold percent32 in E. rewrite E. exists p. split; [done |].
    assert (0 <= 100 * (Z.of_nat (length rs) - (count CK_FAILURE rs + count CK_ERROR rs)) / Z.of_nat (length rs) <= 100)
      by (Z.to_euclidean_division_equations; nia).
    lia. }
  destruct Hp as (pc & E & Hpc). exists pc. split; [done |]. unfold summary_line. rewrite !strlen_app.
  cbn [n_failed n_errors n_checked stats_of].
  pose proof (dec_short pc Hpc). pose proof (dec_short (Z.of_nat (length rs)) ltac:(lia)).
  pose proof (dec_short (count CK_FAILURE rs) ltac:(lia)). pose proof (dec_short (count CK_ERROR rs) ltac:(lia)).
  unfold strlen in *. simpl String.length. unfold INT_MAX. lia.
Qed.

Section Ends.
Context {plat : Platform} {plat_ok : PlatformOK}.

Lemma logged_reports sr w w' rs : logged sr w w' -> reports w sr rs -> reports w' sr rs.
Proof.
  intros Hl [[(r & Er & Est) Hrs Hd] Hp Hr]. destruct (lg_runner _ _ _ Hl r Er) as (r' & Er' & Ha).
  constructor; try done. constructor; [| by apply (lg_results _ _ _ Hl) | done].
  exists r'. by rewrite (al_stats _ _ Ha).
Qed.

(** What a log function does with such an event. *)
Definition quiet_end (sr : loc) (file : lstream) (w w' : world) : Prop :=
  logged sr w w' /\ look (loglst_ptr sr) w' = look (loglst_ptr sr) w /\
  num_tests_run (the_statics w') <= Z.max 0 (num_tests_run (the_statics w)) /\
  (file <> lf_stdout -> out (w_os w') = out (w_os w)).

Lemma quiet_end_refl sr file w : quiet_end sr file w w.
Proof. split; [done |]. split; [done | split; [lia | done]]. Qed.
Lemma quiet_end_emit sr file t w : quiet_end sr file w (emit file t w).
Proof.
  split; [apply emit_logged |]. split; [done |]. split; [unfold the_statics; cbn; lia |].
  intros Hf. rewrite emit_out. by destruct file.
Qed.
Lemma quiet_end_trans sr file w1 w2 w3 : quiet_end sr file w1 w2 -> quiet_end sr file w2 w3 -> quiet_end sr file w1 w3.
Proof.
  intros (H1 & H2 & H3 & H4) (G1 & G2 & G3 & G4). split; [by etrans |]. split; [by rewrite G2 |].
  split; [lia |]. intros Hf. by rewrite G4, H4.
Qed.
Lemma quiet_fprintf sr file t w (P : world -> Prop) : (forall w', quiet_end sr file w w' -> P w') ->
  exists w', fprintf file t w = (Ret tt, w') /\ P w'.
Proof. intros HP. exists (emit file t w). split; [done | by apply HP, quiet_end_emit]. Qed.

Lemma put_results_logged sr l w rs : holds (resultlst_ptr sr) w rs ->
  holds (resultlst_ptr sr) (put (resultlst_ptr sr) l w) rs -> logged sr w (put (resultlst_ptr sr) l w).
Proof.
  intros Hw Hw'. constructor; try done; unfold resultlst_ptr, field_ptr, upd_heap; cbn;
    try by destruct (srunners _ !! sr).
  - exists (out (w_os w)), (paths (w_os w)). by destruct (w_os w).
  - intros r Hr. rewrite Hr. cbn. rewrite lookup_insert_eq. by eexists.
  - intros a Ha. destruct (srunners _ !! sr); [cbn; by apply lookup_insert_ne | done].
  - intros ys Hy. by rewrite (holds_inj _ _ _ _ Hy Hw).
Qed.
Lemma put_results_logs sr l w : look (loglst_ptr sr) (put (resultlst_ptr sr) l w) = look (loglst_ptr sr) w.
Proof.
  cbn. destruct (srunners (the_heap w) !! sr) as [r |] eqn:E; cbn; [| by rewrite E].
  by rewrite lookup_insert_eq.
Qed.

Lemma fprint_quiet sr file mode rs w : reports w sr rs -> opened w file -> mode <> CK_ENV ->
  exists w', srunner_fprint file sr mode w = (Ret tt, w') /\ quiet_end sr file w w' /\
    (file = lf_stdout -> out (w_os w') = out (w_os w) +:+ report mode rs (percent rs)).
Proof.
  intros [Hrs Hp Hr] Ho Hm. destruct (Hr rs eq_refl) as (pc & Hpc & Hl).
  destruct (srunner_fprint_run file sr mode rs pc w Hrs Ho Hp Hm (Hpc w) Hl) as (l & E & Hh).
  rewrite (percent_run rs pc w (Hpc w)). eexists. split; [exact E |]. rewrite <- emit_results.
  assert (Hl1 : quiet_end sr file w (put (resultlst_ptr sr) l w)).
  { split; [eapply put_results_logged; [apply Hrs | exact Hh] |].
    split; [by rewrite put_results_logs | split; [unfold the_statics; cbn; lia | done]]. }
  split; [eapply quiet_end_trans; [exact Hl1 | apply quiet_end_emit] |]. by intros ->.
Qed.

Lemma end_lfun_run sr lg e rs w : end_event e -> log_ok w lg -> reports w sr rs ->
  exists w', call_lfun (lfun lg) sr (lfile lg) (log_mode lg) e w = (Ret tt, w') /\ quiet_end sr (lfile lg) w w' /\
    (lfun lg = stdout_lfun_ -> out (w_os w') = out (w_os w) +:+ says (end_text rs e) lg).
Proof.
  intros He [Ho Hm] Hr. destruct (lfun lg); [| apply not_stdout; [done |].. ]; cbn [call_lfun].
  - unfold says.
    destruct e; try done; cbn [stdout_lfun end_text]; unfold when; try (exists w; split; [done |];
      split; [apply quiet_end_refl |]; intros _; destruct (lfile lg); [case_bool_decide |]; by rewrite string_app_nil_r);
      (case_bool_decide; [| exists w; split; [done |]; split; [apply quiet_end_refl |]; intros _;
         destruct (lfile lg); by rewrite string_app_nil_r]).
    + exists (emit (lfile lg) "Running suite(s):" w). split; [done |]. split; [apply quiet_end_emit |].
      intros _. rewrite emit_out. destruct (lfile lg); [done | by rewrite string_app_nil_r].
    + destruct (fprint_quiet sr (lfile lg) (log_mode lg) rs w Hr Ho Hm) as (w' & E & Hq & Ht).
      exists w'. split; [exact E |]. split; [exact Hq |]. intros _. pose proof Hq as (_ & _ & _ & Hs).
      destruct (lfile lg); [by rewrite Ht | by rewrite Hs, string_app_nil_r].
  - destruct e; try done; cbn [lfile_lfun]; try (exists w; by split; [| apply quiet_end_refl]).
    rewrite (bind_ret _ _ _ _ _ (fprintf_run _ _ _)).
    destruct (fprint_quiet sr (lfile lg) CK_MINIMAL rs
      (emit (lfile lg) ("Results for all suites run:" +:+ nl) w)) as (w' & E & Hq & _);
      [eapply logged_reports; [apply emit_logged | done] | by apply emit_opened | done |].
    exists w'. split; [exact E |]. eapply quiet_end_trans; [apply quiet_end_emit | exact Hq].
  - unfold xml_lfun. destruct (xml_clock_run sr w) as (w1 & E1 & Hl1 & Hk1 & Hn1 & Hs1).
    rewrite (bind_ret _ _ _ _ _ E1).
    assert (Hq : forall w2, quiet_end sr (lfile lg) w1 w2 -> quiet_end sr (lfile lg) w w2).
    { intros w2. apply quiet_end_trans. split; [done |]. split; [done |]. split; [rewrite Hn1; lia | done]. }
    destruct e; try done; try (exists w1; split; [done | apply Hq, quiet_end_refl]).
    + rewrite (bind_ret _ _ _ _ _ (gets_run _ _)). by apply (quiet_fprintf sr (lfile lg)).
    + unfold check_get_clockid, clock_gettime.
      rewrite (bind_ret _ _ _ _ _ (gets_run _ _)), (bind_ret _ _ _ _ _ (gets_run _ _)), (bind_ret _ _ _ _ _ (gets_run _ _)).
      by apply (quiet_fprintf sr (lfile lg)).
  - destruct e; try done; cbn [tap_lfun]; try (exists w; by split; [| apply quiet_end_refl]).
    + eexists. split; [reflexivity |]. split; [by apply statics_logged |]. split; [done |].
      split; [unfold the_statics; cbn; lia | done].
    + rewrite (bind_ret _ _ _ _ _ (gets_run _ _)). by apply (quiet_fprintf sr (lfile lg)).
Qed.

Lemma end_evt_run sr e logs rs w : end_event e -> holds (loglst_ptr sr) w logs ->
  Forall (log_ok w) logs -> reports w sr rs ->
  exists w', srunner_send_evt sr e w = (Ret tt, w') /\ logged sr w w' /\ holds (loglst_ptr sr) w' logs /\
    num_tests_run (the_statics w') <= Z.max 0 (num_tests_run (the_statics w)) /\
    (tidy logs -> out (w_os w') = out (w_os w) +:+ told (end_text rs e) logs).
Proof.
  intros He Hh Hok Hrp. unfold srunner_send_evt.
  destruct (list_for_each (loglst_ptr sr) (R:=unit)
    (fun k t => logged sr w t /\ num_tests_run (the_statics t) <= Z.max 0 (num_tests_run (the_statics w)) /\
       (tidy logs -> out (w_os t) = out (w_os w) +:+ told (end_text rs e) (take k logs)))
    (fun lg => call_lfun (lfun lg) sr (lfile lg) (log_mode lg) e ;; mret None) logs w)
    as (w' & E & (Hl & Hn & Hs) & Hh').
  - intros k l q t [Hl Hn] _ _. split; [etrans; [exact Hl | apply put_logs_logged] | exact Hn].
  - intros k lg t Hk (Hl & Hn & Hs) _. rewrite Forall_forall in Hok.
    destruct (Hok lg (list_elem_of_lookup_2 _ _ _ Hk)) as [Ho Hm].
    destruct (end_lfun_run sr lg e rs t He) as (t' & E & (Hl' & Hk' & Hn' & Hq') & Hs').
    { split; [by apply (lg_streams _ _ _ Hl) | done]. } { by eapply logged_reports. }
    exists t'. rewrite (bind_ret _ _ _ _ _ E). split; [done |]. split; [| done]. split; [by etrans |].
    split; [lia |]. intros Htd. rewrite (take_S_r _ _ _ Hk), told_snoc, <- string_app_assoc, <- Hs by done.
    by apply says_out, (tidy_lookup _ _ _ Htd Hk).
  - done.
  - split; [done |]. split; [lia |]. intros _. by rewrite string_app_nil_r.
  - exists w'. rewrite firstn_all in Hs. by rewrite (bind_ret _ _ _ _ _ E).
Qed.
End Ends.

(** ** Opening and closing the logs *)

(** The stream of a log given by name, and the log. *)
Definition stream_of (name : string) : lstream :=
  if decide (name = STDOUT_OVERRIDE_LOG_FILE_NAME) then lf_stdout else lf_path name.
Definition file_log (fn : LFun) (mode : print_output) (name : string) : Log :=
  mkLog (stream_of name) fn (bool_decide (stream_of name <> lf_stdout)) mode.

(** A name, given to the runner or by the environment. *)
Definition name_or_env (w : world) (given : option string) (var : string) : option string :=
  match given with Some f => Some f | None => env (w_proc w) !! var end.

(** The mode of a run, by the environment for CK_ENV. *)
Definition mode_in (w : world) (mode : print_output) : print_output :=
  if decide (mode = CK_ENV) then
    match env (w_proc w) !! "CK_VERBOSITY" with
    | None => CK_NORMAL
    | Some e => if decide (e = "silent") then CK_SILENT else if decide (e = "minimal") then CK_MINIMAL
                else if decide (e = "verbose") then CK_VERBOSE else CK_NORMAL
    end
  else mode.

(** The logs of a run: standard output first, then the text, XML and TAP files asked for. *)
Definition run_logs (w : world) (r : SRunner) (mode : print_output) : list Log :=
  let m := mode_in w mode in
  let file fn given var := file_log fn m <$> option_list (name_or_env w given var) in
  [mkLog lf_stdout stdout_lfun_ false m] ++
  file lfile_lfun_ (log_fname r) "CK_LOG_FILE_NAME" ++
  file xml_lfun_ (xml_fname r) "CK_XML_LOG_FILE_NAME" ++
  file tap_lfun_ (tap_fname r) "CK_TAP_LOG_FILE_NAME".

Section Opening.
Context {plat : Platform} {plat_ok : PlatformOK}.

Lemma mode_in_run mode w : resolve_printmode mode w = (Ret (mode_in w mode), w) /\ mode_in w mode <> CK_ENV.
Proof.
  unfold resolve_printmode, mode_in. case_decide; [| done]. unfold get_env_printmode, getenv.
  rewrite (bind_ret _ _ _ _ _ (gets_run _ _)), mret_run. split; [done |].
  cbn. destruct (env (w_proc w) !! "CK_VERBOSITY"); repeat case_decide; discriminate.
Qed.

(** The logs so far, and what has changed since the start [w0]. *)
Definition logging (sr : loc) (w0 w : world) (logs : list Log) : Prop :=
  logged sr w0 w /\ holds (loglst_ptr sr) w logs /\ Forall (log_ok w) logs /\
  the_statics w = the_statics w0 /\ out (w_os w) = out (w_os w0).

Lemma logging_logged sr w0 w w' logs : logged sr w w' -> look (loglst_ptr sr) w' = look (loglst_ptr sr) w ->
  the_statics w' = the_statics w -> out (w_os w') = out (w_os w) -> logging sr w0 w logs -> logging sr w0 w' logs.
Proof.
  intros Hl Hk Hs Ht (H1 & H2 & H3 & H4 & H5). split; [by etrans |]. split; [by apply (holds_look _ w) |].
  split; [| by rewrite Hs, Ht]. eapply Forall_impl; [exact H3 |]. intros lg [Ho Hm].
  split; [by apply (lg_streams _ _ _ Hl) | done].
Qed.

Lemma register_lfun_run sr w0 w logs file close fn mode : logging sr w0 w logs -> opened w file ->
  Z.of_nat (length logs) < INT_MAX ->
  exists w', srunner_register_lfun sr file close fn mode w = (Ret tt, w') /\
    logging sr w0 w' (logs ++ [mkLog file fn close (mode_in w mode)]).
Proof.
  intros (Hl & Hh & Hok & Hs) Ho Hb. unfold srunner_register_lfun.
  destruct (mode_in_run mode w) as [Em Hm].
  rewrite (bind_ret _ _ _ _ _ (emalloc_run _ _)), (bind_ret _ _ _ _ _ Em).
  pose proof Hh as (l0 & q0 & Hl0 & Hr0). cbn in Hl0.
  destruct (srunners (the_heap w) !! sr) as [r |] eqn:Er; [| discriminate Hl0]. cbn in Hl0.
  rewrite (bind_ret _ _ _ _ _ (get_srunner_run _ _ _ Er)), Hl0. cbn [fmap option_fmap option_map].
  destruct (add_end_holds (loglst_ptr sr) w logs (mkLog file fn close (mode_in w mode)) Hh Hb) as (l & E & Hh').
  eexists. split; [exact E |]. split; [etrans; [exact Hl | apply put_logs_logged] |]. split; [exact Hh' |].
  split; [| exact Hs]. apply Forall_app. split; [exact Hok |]. by repeat constructor.
Qed.

Lemma open_file_run sr name w : exists w', srunner_open_file name w = (Ret (stream_of name), w') /\
  logged sr w w' /\ look (loglst_ptr sr) w' = look (loglst_ptr sr) w /\ the_statics w' = the_statics w /\
  out (w_os w') = out (w_os w) /\ opened w' (stream_of name).
Proof.
  unfold srunner_open_file, stream_of. case_decide; [by exists w |].
  rewrite (bind_ret _ _ _ _ _ (gets_run _ _)), ok_fopen, (bind_ret _ _ _ _ _ (modify_run _ _)), mret_run.
  eexists. split; [done |]. split; [| split; [done | split; [done | split; [done |]]]].
  - constructor; try done.
    + exists (out (w_os w)), (<[name := ""]> (paths (w_os w))). destruct w as [p o]. by destruct o.
    + intros f. destruct f as [| p]; [done |]. cbn. intros Hp. destruct (decide (p = name)) as [-> | Hne].
      * rewrite lookup_insert_eq. by eexists.
      * by rewrite lookup_insert_ne by congruence.
    + intros r Hr. by exists r.
  - cbn. rewrite lookup_insert_eq. by eexists.
Qed.

(** The three srunner_open functions followed by the registration of what they opened. *)
Definition open_by (fname : M world (option string)) : M world (option lstream) :=
  has ← (f ← fname; mret (if f is Some _ then true else false));
  if (has : bool) then n ← fname; n ← deref n; f ← srunner_open_file n; mret (Some f)
  else mret None.

Lemma open_log_run sr w0 w logs fname fn mode (r : SRunner) given var :
  logging sr w0 w logs -> (forall u, logged sr w0 u -> fname u = (Ret (name_or_env w0 given var), u)) ->
  Z.of_nat (length logs) < INT_MAX ->
  exists w', (f ← open_by fname; register_file sr f fn mode) w = (Ret tt, w') /\
    logging sr w0 w' (logs ++ (file_log fn (mode_in w0 mode) <$> option_list (name_or_env w0 given var))).
Proof.
  intros Hlog Hf Hb. pose proof Hlog as (Hl & _). unfold open_by. rewrite bind_assoc, bind_assoc.
  rewrite (bind_ret _ _ _ _ _ (Hf w Hl)), (bind_ret _ _ _ _ _ (mret_run _ _)).
  destruct (name_or_env w0 given var) as [name |]; cbn [option_list fmap list_fmap].
  2: { exists w. by rewrite app_nil_r. }
  rewrite bind_assoc, (bind_ret _ _ _ _ _ (Hf w Hl)), bind_assoc.
  erewrite bind_ret by by apply deref_Some. rewrite bind_assoc.
  destruct (open_file_run sr name w) as (w1 & E1 & Hl1 & Hk1 & Hs1 & Ht1 & Ho1).
  rewrite (bind_ret _ _ _ _ _ E1), (bind_ret _ _ _ _ _ (mret_run _ _)). unfold register_file.
  destruct (register_lfun_run sr w0 w1 logs (stream_of name) (bool_decide (stream_of name <> lf_stdout)) fn mode)
    as (w2 & E2 & H2); [by eapply logging_logged | done | done |].
  exists w2. split; [exact E2 |]. unfold file_log.
  replace (mode_in w0 mode) with (mode_in w1 mode); [done |].
  unfold mode_in. by rewrite (lg_env _ _ _ Hl1), (lg_env _ _ _ Hl).
Qed.

(** The names are read from the runner, which logging leaves alone. *)
Lemma fname_run sr w0 u r (get : SRunner -> option string) var :
  srunners (the_heap w0) !! sr = Some r -> (forall r', alike r r' -> get r' = get r) -> logged sr w0 u ->
  (r ← get_srunner sr; match get r with Some f => mret (Some f) | None => getenv var end) u =
    (Ret (name_or_env w0 (get r) var), u).
Proof.
  intros Hr Hg Hl. destruct (lg_runner _ _ _ Hl r Hr) as (r' & Hr' & Ha).
  rewrite (bind_ret _ _ _ _ _ (get_srunner_run _ _ _ Hr')), (Hg r' Ha). unfold name_or_env.
  destruct (get r); [done |]. unfold getenv. rewrite gets_run. cbn. by rewrite (lg_env _ _ _ Hl).
Qed.

(** A new list of logs for the runner. *)
Lemma new_logs_run sr w r : srunners (the_heap w) !! sr = Some r ->
  exists l, check_list_create (A:=Log) w = (Ret l, w) /\
    let w' := upd_heap (fun h => put_srunners (<[sr := with_loglst (Some l) r]> (srunners h)) h) w in
    logged sr w w' /\ holds (loglst_ptr sr) w' [].
Proof.
  intros Hr. destruct (create_spec (A:=Log) w) as [(l & El & Hrl) | [w' E]].
  2: { exfalso. revert E. unfold check_list_create. rewrite !(bind_ret _ _ _ _ _ (emalloc_run _ _)). done. }
  exists l. split; [exact El |]. split.
  - constructor; try done.
    + exists (out (w_os w)), (paths (w_os w)). destruct w as [p o]. by destruct o.
    + intros r0 Hr0. simplify_eq. eexists. split; [apply lookup_insert_eq | done].
    + intros a Ha. by apply lookup_insert_ne.
    + intros rs. apply holds_look. cbn. by rewrite lookup_insert_eq, Hr.
  - exists l, None. split; [| exact Hrl]. cbn. by rewrite lookup_insert_eq.
Qed.

(** Initialising the logs of a run. *)
Lemma init_logging_run sr w r rs mode : srunners (the_heap w) !! sr = Some r -> reports w sr rs ->
  exists w', srunner_init_logging sr mode w = (Ret tt, w') /\ logged sr w w' /\
    holds (loglst_ptr sr) w' (run_logs w r mode) /\ Forall (log_ok w') (run_logs w r mode) /\
    num_tests_run (the_statics w') <= Z.max 0 (num_tests_run (the_statics w)) /\
    (tidy (run_logs w r mode) -> out (w_os w') = out (w_os w)).
Proof.
  intros Hr Hrp. unfold srunner_init_logging.
  destruct (new_logs_run sr w r Hr) as (l & El & Hl0 & Hh0). rewrite (bind_ret _ _ _ _ _ El).
  rewrite (bind_ret _ _ _ _ _ (get_srunner_run _ _ _ Hr)). unfold store_srunner at 1. rewrite (bind_ret _ _ _ _ _ (modify_run _ _)).
  set (w0 := upd_heap _ w) in *.
  assert (G0 : logging sr w w0 []) by by split.
  destruct (register_lfun_run sr w w0 [] lf_stdout false stdout_lfun_ mode G0 I eq_refl) as (w1 & E1 & G1).
  rewrite (bind_ret _ _ _ _ _ E1). change (mode_in w0 mode) with (mode_in w mode) in G1. cbn [app] in G1.
  set (n := fun given var => option_list (name_or_env w given var)).
  assert (Hn : forall given var, (length (n given var) <= 1)%nat).
  { intros given var. unfold n. destruct (name_or_env w given var); simpl; lia. }
  destruct (open_log_run sr w w1 _ (srunner_log_fname sr) lfile_lfun_ mode r (log_fname r) "CK_LOG_FILE_NAME" G1)
    as (w2 & E2 & G2); [by intros u; apply fname_run; [| intros r' Ha; apply (al_log _ _ Ha)] | done |].
  rewrite <- bind_assoc, (bind_ret _ _ _ _ _ E2).
  destruct (open_log_run sr w w2 _ (srunner_xml_fname sr) xml_lfun_ mode r (xml_fname r) "CK_XML_LOG_FILE_NAME" G2)
    as (w3 & E3 & G3); [by intros u; apply fname_run; [| intros r' Ha; apply (al_xml _ _ Ha)] | |].
  { pose proof (Hn (log_fname r) "CK_LOG_FILE_NAME") as H. unfold n in H. rewrite length_app, length_fmap. simpl.
    unfold INT_MAX. lia. }
  rewrite <- bind_assoc, (bind_ret _ _ _ _ _ E3).
  destruct (open_log_run sr w w3 _ (srunner_tap_fname sr) tap_lfun_ mode r (tap_fname r) "CK_TAP_LOG_FILE_NAME" G3)
    as (w4 & E4 & G4); [by intros u; apply fname_run; [| intros r' Ha; apply (al_tap _ _ Ha)] | |].
  { pose proof (Hn (log_fname r) "CK_LOG_FILE_NAME") as H. pose proof (Hn (xml_fname r) "CK_XML_LOG_FILE_NAME") as H'.
    unfold n in H, H'. rewrite !length_app, !length_fmap. simpl. unfold INT_MAX. lia. }
  rewrite <- bind_assoc, (bind_ret _ _ _ _ _ E4).
  pose proof G4 as (Hl4 & Hh4 & Hok4 & Hs4 & Ht4). rewrite <- !app_assoc in Hh4, Hok4. pose proof (logged_reports _ _ _ _ Hl4 Hrp) as Hrp4.
  destruct (end_evt_run sr CLINITLOG_SR _ rs w4 I Hh4 Hok4 Hrp4) as (w5 & E5 & Hl5 & Hh5 & Hn5 & Ht5).
  exists w5. split; [exact E5 |]. split; [by etrans |]. split; [exact Hh5 |].
  split; [| split; [by rewrite Hs4 in Hn5 |]].
  2: { intros Htd. by rewrite (Ht5 Htd), told_nothing, string_app_nil_r, Ht4. }
  eapply Forall_impl; [exact Hok4 |].
  intros lg [Ho Hm]. split; [by apply (lg_streams _ _ _ Hl5) | done].
Qed.

(** Ending them: the last event, the files closed, the list gone. *)
Lemma end_logging_run sr w logs rs : holds (loglst_ptr sr) w logs -> Forall (log_ok w) logs -> reports w sr rs ->
  exists w' w2 r, srunner_end_logging sr w = (Ret tt, w') /\ logged sr w w2 /\
    srunners (the_heap w2) !! sr = Some r /\ (tidy logs -> out (w_os w2) = out (w_os w)) /\
    w' = upd_heap (fun h => put_srunners (<[sr := with_loglst None r]> (srunners h)) h) w2.
Proof.
  intros Hh Hok Hrp. unfold srunner_end_logging.
  destruct (end_evt_run sr CLENDLOG_SR logs rs w I Hh Hok Hrp) as (w1 & E1 & Hl1 & Hh1 & _ & Ht1).
  rewrite (bind_ret _ _ _ _ _ E1).
  destruct (list_for_reads (loglst_ptr sr) (R:=unit) (fun _ => None) (fun lg =>
    (if log_close lg then
       ok ← gets (fun w => fclose_ok (w_os w));
       if (ok : bool) then mret tt
       else eprintf "Error in call to fclose while closing log file:"
              "Error in call to fclose while closing log file:" "check_log.c" 548
     else mret tt) ;; mret None) logs w1) as (l & E2 & Hh2); [| done |].
  { intros l lg _. destruct (log_close lg); [| done]. rewrite bind_assoc, (bind_ret _ _ _ _ _ (gets_run _ _)).
    by rewrite ok_fclose. }
  rewrite (bind_ret _ _ _ _ _ E2). set (w2 := put (loglst_ptr sr) l w1).
  assert (Hl2 : logged sr w w2) by (etrans; [exact Hl1 | apply put_logs_logged]).
  destruct (rh_runner _ _ _ (rp_has _ _ _ (logged_reports _ _ _ _ Hl2 Hrp))) as (r & Hr & _).
  eexists _, w2, r. split; [| split; [exact Hl2 | split; [exact Hr | split; [| reflexivity]]]].
  2: { intros Htd. change (out (w_os w2)) with (out (w_os w1)). by rewrite (Ht1 Htd), told_nothing, string_app_nil_r. }
  by rewrite (bind_ret _ _ _ _ _ (get_srunner_run _ _ _ Hr)).
Qed.
End Opening.
