(* ===== verification/Demo.v ===== *)
(** * A concrete platform and program, on which the model is evaluated *)
From stdpp Require Import infinite.
From S2P Require Import Prelude Error Types CList Pack PackSpec World Str Result Msg MsgSpec.
From S2P Require Import Core CoreSpec Alike Print Log Run.

(** A machine on which every call succeeds. *)
Definition describe (sig : Z) : string :=
  if decide (sig = 9) then "Killed" else if decide (sig = 11) then "Segmentation fault"
  else if decide (sig = 15) then "Terminated" else "Signal " +:+ dec sig.
#[local] Instance plat : Platform := {|
  malloc_ok _ _ := true;
  strerror_of _ := "Success";
  fork_ok _ := true;
  mkstemp_name o _ := Some (fresh (tmp_names o));
  fdopen_ok _ := true;
  unlink_ok _ _ := true;
  timer_create_ok _ _ := true;
  timer_settime_ok _ := true;
  fopen_ok _ _ := true;
  fclose_ok _ := true;
  strsignal := describe;
  core_dumped sig := bool_decide (sig = 11);
  strtod s := (f64_of_int (digits_value 0 s), String.length s);
  localtime_text _ := Some "2024-01-01 00:00:00"
|}.
#[local] Instance plat_ok : PlatformOK.
Proof.
  split; try done. intros o t. exists (fresh (tmp_names o)). split; [done |]. apply infinite_is_fresh.
Qed.

(** A process with nothing allocated, with the given environment and memory limit. *)
Definition world_with (e : gmap string string) : world := mkWorld
  (mkProc 100 100 e (mkHeap 1000 ∅ ∅ ∅ ∅) (mkPipes None None None None)
     (mkStatics CK_FORK None 0 0 0 0 (mkTimespec 0 0) "") (mkSignals ∅ SIG_DFL SIG_DFL SIG_DFL) ∅)
  (mkOs ∅ 3 [] ∅ "" "" 0 500 None false []).
Definition w0 : world := world_with ∅.

(** Tests: one that holds, one that fails, one that never ends, one killed by a signal, one
    that exits. *)
Definition t_pass := mkTTest "t_pass" (fun _ _ => [u_mark_point "a.c" 5; u_elapse 1500000]) "a.c" 3.
Definition t_fail := mkTTest "t_fail" (fun _ _ => [u_assert_failed "a.c" 15 "1 == 2" None]) "a.c" 13.
Definition t_hang := mkTTest "t_hang" (fun _ _ => [u_hang]) "a.c" 23.
Definition t_segv := mkTTest "t_segv" (fun _ _ => [u_raise 11]) "a.c" 33.
Definition t_exit (c : Z) := mkTTest "t_exit" (fun _ _ => [u_exit c]) "a.c" 43.

(** A test that uses what its setup assigns, and a setup, a teardown, and unchecked ones. *)
Definition t_use := mkTTest "t_use" (fun _ u =>
  if decide (u !! "x" = Some 1) then [u_write "x" 2; u_mark_point "a.c" 54]
  else [u_assert_failed "a.c" 55 "x == 1" None]) "a.c" 53.
Definition d_setup : SFun := fun _ => [u_write "x" 1; u_mark_point "f.c" 2].
Definition d_teardown : SFun := fun u =>
  if decide (u !! "x" = Some 3) then [u_assert_failed "f.c" 6 "x != 3" None] else [u_mark_point "f.c" 7].
Definition d_unchecked_setup : SFun := fun _ => [u_write "y" 7].
Definition d_unchecked_teardown : SFun := fun _ => [u_write "y" 0; u_mark_point "f.c" 12].
Definition fixtures_of (setup teardown u_setup u_teardown : SFun) : list registration :=
  [(true, Some setup, Some teardown); (false, Some u_setup, Some u_teardown)].
Definition d_fixtures : list registration := fixtures_of d_setup d_teardown d_unchecked_setup d_unchecked_teardown.
(** A test that breaks its teardown, and setups that fail. *)
Definition t_break := mkTTest "t_break" (fun _ _ => [u_write "x" 3]) "a.c" 63.
Definition bad_setup : SFun := fun _ => [u_assert_failed "f.c" 21 "ready" None].
Definition bad_teardown : SFun := fun _ => [u_assert_failed "f.c" 31 "left" None].
Definition bad_fixtures : list registration := [(false, Some bad_setup, Some bad_teardown)].

Fixpoint add_tests (tc : loc) (ts : list TTest) : M world unit :=
  match ts with
  | [] => mret tt
  | t :: ts => tcase_add_test_ (Some tc) (Some t) 0 0 0 1 ;; add_tests tc ts
  end.

(** A suite with one test case holding the fixtures and the tests, and its runner. *)
Definition build_with (fs : fork_status) (rgs : list registration) (ts : list TTest) : M world loc :=
  s ← suite_create (Some "S");
  tc ← tcase_create (Some "Core");
  suite_add_tcase (Some s) (Some tc) ;;
  register_all tc rgs ;;
  add_tests tc ts ;;
  sr ← srunner_create (Some s);
  srunner_set_fork_status sr fs ;;
  mret sr.
Definition build (fs : fork_status) (ts : list TTest) : M world loc := build_with fs [] ts.
Definition program_with (fs : fork_status) (mode : print_output) (rgs : list registration) (ts : list TTest) : M world loc :=
  sr ← build_with fs rgs ts;
  srunner_run_all (Some sr) mode ;;
  mret sr.
Definition program (fs : fork_status) (mode : print_output) (ts : list TTest) : M world loc :=
  program_with fs mode [] ts.

(** What a program prints. *)
Definition printed (m : M world loc) : outcome loc * string :=
  let '(o, w) := m w0 in (o, out (w_os w)).

Example program_fork :
  printed (program CK_FORK CK_NORMAL [t_pass; t_fail; t_hang; t_segv; t_exit 200]) =
    (Ret 1003,
     "Running suite(s): S" +:+ nl +:+
     "20%: Checks: 5, Failures: 1, Errors: 3" +:+ nl +:+
     "a.c:15:F:Core:t_fail:0: 1 == 2" +:+ nl +:+
     "a.c:23:E:Core:t_hang:0: (after this point) Test timeout expired" +:+ nl +:+
     "a.c:33:E:Core:t_segv:0: (after this point) Received signal 11 (Segmentation fault)" +:+ nl +:+
     "a.c:43:E:Core:t_exit:0: (after this point) Early exit with return value -56" +:+ nl).
Proof. vm_compute. reflexivity. Qed.

Example program_nofork :
  printed (program CK_NOFORK CK_VERBOSE [t_pass; t_fail; t_pass]) =
    (Ret 1003,
     "Running suite(s): S" +:+ nl +:+
     "66%: Checks: 3, Failures: 1, Errors: 0" +:+ nl +:+
     "a.c:5:P:Core:t_pass:0: Passed" +:+ nl +:+
     "a.c:15:F:Core:t_fail:0: 1 == 2" +:+ nl +:+
     "a.c:5:P:Core:t_pass:0: Passed" +:+ nl).
Proof. vm_compute. reflexivity. Qed.

(** A failing setup is a result of the test in a child, and of its own in the process. *)
Example setup_fork :
  printed (program_with CK_FORK CK_VERBOSE [(true, Some bad_setup, None)] [t_pass]) =
    (Ret 1003, "Running suite(s): S" +:+ nl +:+ "0%: Checks: 1, Failures: 1, Errors: 0" +:+ nl +:+
     "f.c:21:S:Core:t_pass:0: ready" +:+ nl).
Proof. vm_compute. reflexivity. Qed.
Example setup_nofork :
  printed (program_with CK_NOFORK CK_VERBOSE [(true, Some bad_setup, None)] [t_pass]) =
    (Ret 1003, "Running suite(s): S" +:+ nl +:+ "0%: Checks: 1, Failures: 1, Errors: 0" +:+ nl +:+
     "f.c:21:S:Core:checked_setup:0: ready" +:+ nl).
Proof. vm_compute. reflexivity. Qed.

(** The world just before the first test of a run: the suite built, messaging set up, the
    handler of SIGALRM installed. *)
Definition started_with (fs : fork_status) (rgs : list registration) (ts : list TTest) : world :=
  snd ((build_with fs rgs ts ;; setup_messaging ;; set_fork_status fs ;;
        sigaction_set SIGALRM SIG_HANDLER) w0).
Definition started (fs : fork_status) (ts : list TTest) : world := started_with fs [] ts.
(** The addresses of the test case and of the runner. *)
Definition tc0 : loc := 1002.
Definition sr0 : loc := 1003.
Definition tf_of (t : TTest) : TF := mkTF t 0 1 0 0.

(** Such worlds, evaluated, in both modes; their test case and runner. *)
Definition tests : list TTest := [t_pass; t_fail; t_hang].
Definition w_fork : world := Eval vm_compute in started CK_FORK tests.
Definition w_nofork : world := Eval vm_compute in started CK_NOFORK tests.
Definition no_tcase : TCase :=
  mkTCase "" (mkTimespec 0 0) (mkList 0 0 0 0 []) (mkList 0 0 0 0 []) (mkList 0 0 0 0 [])
    (mkList 0 0 0 0 []) (mkList 0 0 0 0 []) None.
Definition tcase0 : TCase :=
  Eval vm_compute in default no_tcase (tcases (the_heap w_fork) !! tc0).

(** ... with fixtures; the memory is the one after the unchecked setup. *)
Definition tests_fixed : list TTest := [t_use; t_pass; t_fail; t_hang].
Definition with_mem (u : umem) (w : world) : world := on_proc (set_umem u) w.
Definition mem_fixed : umem := {["y" := 7]}.
(** Evaluates the world that [F] gives for the fixtures and the tests, but not these. *)
Ltac eval_world F :=
  let w := eval vm_compute in (fun f g h k a b c d => F (fixtures_of f g h k) [a; b; c; d]) in
  let w := eval cbv beta in
    (w d_setup d_teardown d_unchecked_setup d_unchecked_teardown t_use t_pass t_fail t_hang) in
  exact w.
Definition w_fork_fixed : world :=
  ltac:(eval_world (fun rgs ts => with_mem mem_fixed (started_with CK_FORK rgs ts))).
Definition w_nofork_fixed : world :=
  ltac:(eval_world (fun rgs ts => with_mem mem_fixed (started_with CK_NOFORK rgs ts))).
(** Their test case, by its contents. *)
Definition case_fixed : case := mkCase tc0 "Core" (mkTimespec 4 0) 1001 [] (tf_of <$> tests_fixed)
  (fun ck s => in_order ck s d_fixtures).
Definition case_bad : case := mkCase tc0 "Core" (mkTimespec 4 0) 1001 [] [tf_of t_pass]
  (fun ck s => in_order ck s bad_fixtures).
