(* ===== verification/StatusSpec.v ===== *)
(** * Exit statuses and verdicts (src/check_run.c)

    The wait status encodes how a child ended; set_fork_info turns it, with what the test
    declared, into a verdict and a message. *)
From S2P Require Import Prelude Error Types CList Pack PackSpec World Str Result Msg MsgSpec.
From S2P Require Import Core Print Log Run.

(** How a process ended. *)
Inductive cause :=
| exited (code : Z)
| signalled (sig : Z).

(** The numbers of the signals of Linux. *)
Definition cause_ok (c : cause) : Prop :=
  match c with exited _ => True | signalled s => 1 <= s <= 64 end.

Definition wstatus {plat : Platform} (c : cause) : Z :=
  match c with exited code => exit_wstatus code | signalled s => killed_wstatus s end.

(** A statement about the 256 values of a byte is checked value by value. *)
Lemma byte_cases (P : Z -> bool) :
  forallb P (Z.of_nat <$> seq 0 256) = true -> forall z, 0 <= z < 256 -> P z = true.
Proof.
  intros H z Hz. rewrite forallb_forall in H. apply H. apply list_elem_of_In.
  apply list_elem_of_fmap. exists (Z.to_nat z). split; [lia |]. apply elem_of_seq. lia.
Qed.

Lemma land_255 z : Z.land z 255 = z mod 256.
Proof. change 255 with (Z.ones 8). by rewrite Z.land_ones by lia. Qed.

Lemma exit_wstatus_decode code :
  WIFEXITED (exit_wstatus code) = true /\ WIFSIGNALED (exit_wstatus code) = false /\
  WEXITSTATUS (exit_wstatus code) = code mod 256.
Proof.
  unfold exit_wstatus. rewrite land_255. pose proof (Z.mod_pos_bound code 256 ltac:(lia)) as Hb.
  pose proof (byte_cases (fun z => WIFEXITED (z ≪ 8) && negb (WIFSIGNALED (z ≪ 8)) &&
    (WEXITSTATUS (z ≪ 8) =? z)) ltac:(vm_compute; reflexivity) _ Hb) as H.
  apply andb_true_iff in H as [[H1 H2]%andb_true_iff H3].
  split; [done |]. split; [by apply negb_true_iff | by apply Z.eqb_eq].
Qed.

(** What the macros answer on a signal, with and without the core-dump bit. *)
Definition signal_decodes (z : Z) : bool :=
  negb (bool_decide (1 <= z <= 64)) ||
  forallb (fun core => negb (WIFEXITED (Z.lor z core)) && WIFSIGNALED (Z.lor z core) &&
    (WTERMSIG (Z.lor z core) =? z)) [0; 128].
Lemma signal_decodes_all : forallb signal_decodes (Z.of_nat <$> seq 0 256) = true.
Proof. vm_compute. reflexivity. Qed.

Section Status.
Context {plat : Platform}.

Lemma killed_wstatus_decode s : 1 <= s <= 64 ->
  WIFEXITED (killed_wstatus s) = false /\ WIFSIGNALED (killed_wstatus s) = true /\
  WTERMSIG (killed_wstatus s) = s.
Proof.
  intros Hs. unfold killed_wstatus.
  assert (H := byte_cases signal_decodes signal_decodes_all s). unfold signal_decodes in H.
  rewrite bool_decide_true in H by done. specialize (H ltac:(lia)). cbn [negb orb] in H.
  rewrite forallb_forall in H. specialize (H (if core_dumped s then 128 else 0)).
  assert (Hin : List.In (if core_dumped s then 128 else 0) [0; 128])
    by (destruct (core_dumped s); simpl; tauto).
  apply H in Hin. apply andb_true_iff in Hin as [[H1 H2]%andb_true_iff H3].
  split; [by apply negb_true_iff |]. split; [done | by apply Z.eqb_eq].
Qed.

Lemma waserror_spec c expected : cause_ok c ->
  waserror (wstatus c) expected =
    match c with
    | exited code => bool_decide (code mod 256 <> 0)
    | signalled s => bool_decide (s <> expected)
    end.
Proof.
  unfold waserror. destruct c as [code | s]; cbn [wstatus cause_ok]; intros Hc.
  - destruct (exit_wstatus_decode code) as (-> & -> & ->). done.
  - destruct (killed_wstatus_decode s Hc) as (-> & -> & ->). simpl. by rewrite orb_false_r.
Qed.

(** ** The verdict *)

Definition early_exit (code : Z) : string :=
  snprintf_msg ("Early exit with return value " +:+ dec (s8 (code mod 256))).
Definition unexpected_signal (s expected : Z) : string :=
  snprintf_msg ("Received signal " +:+ dec s +:+ " (" +:+ strsignal s +:+ "), expected " +:+
    dec expected +:+ " (" +:+ strsignal expected +:+ ")").
Definition timed_out (expected : Z) : string :=
  if decide (expected = 0) then snprintf_msg "Test timeout expired"
  else snprintf_msg ("Test timeout expired, expected signal " +:+ dec expected +:+ " (" +:+
         strsignal expected +:+ ")").
Definition bad_signal (s : Z) : string :=
  snprintf_msg ("Received signal " +:+ dec s +:+ " (" +:+ strsignal s +:+ ")").

(** [sent] is the failure message the child sent, if any. *)
Definition verdict (c : cause) (expected allowed : Z) (alarm : bool) (sent : option string)
    : test_result * string :=
  match c with
  | signalled s =>
    if decide (s = expected) then
      if alarm then (CK_ERROR, timed_out expected) else (CK_PASS, "Passed")
    else (CK_ERROR, if alarm then timed_out expected
                    else if decide (expected = 0) then bad_signal s
                    else unexpected_signal s expected)
  | exited code =>
    if decide (expected <> 0) then (CK_FAILURE, early_exit code)
    else if decide (s8 (code mod 256) = allowed) then (CK_PASS, "Passed")
    else match sent with
         | Some m => (CK_FAILURE, m)
         | None => (CK_ERROR, early_exit code)
         end
  end.

(** A child always gets a verdict. *)
Lemma verdict_definite c expected allowed alarm sent rt m :
  verdict c expected allowed alarm sent = (rt, m) -> rt <> CK_TEST_RESULT_INVALID.
Proof.
  unfold verdict. intros E.
  repeat (case_decide || destruct c || destruct alarm || destruct sent); by injection E as <- _.
Qed.

Context {plat_ok : PlatformOK}.

Definition alarmed (w : world) : bool := bool_decide (alarm_received (the_statics w) <> 0).

Lemma the_alarm_run w : the_alarm w = (Ret (alarmed w), w).
Proof. done. Qed.

Lemma signal_msg_run s w :
  signal_msg s w = (Ret (if alarmed w then timed_out 0 else bad_signal s), w).
Proof.
  unfold signal_msg. rewrite (bind_ret _ _ _ _ _ (emalloc_run _ _)).
  rewrite (bind_ret _ _ _ _ _ (the_alarm_run _)). unfold timed_out. rewrite decide_True by done.
  by destruct (alarmed w).
Qed.

Lemma signal_error_msg_run s expected w : expected <> 0 ->
  signal_error_msg s expected w =
    (Ret (if alarmed w then timed_out expected else unexpected_signal s expected), w).
Proof.
  intros He. unfold signal_error_msg. rewrite (bind_ret _ _ _ _ _ (emalloc_run _ _)).
  rewrite !(bind_ret _ _ _ _ _ (strdup_run _ _)).
  rewrite (bind_ret _ _ _ _ _ (the_alarm_run _)). unfold timed_out. rewrite decide_False by done.
  by destruct (alarmed w).
Qed.

Lemma exit_msg_run e w :
  exit_msg e w = (Ret (snprintf_msg ("Early exit with return value " +:+ dec e)), w).
Proof. unfold exit_msg. by rewrite (bind_ret _ _ _ _ _ (emalloc_run _ _)). Qed.

Lemma pass_msg_run w : pass_msg w = (Ret (Some "Passed"), w).
Proof. apply strdup_run. Qed.

Lemma set_fork_info_run tr c expected allowed w : cause_ok c ->
  set_fork_info tr (wstatus c) expected allowed w =
    (Ret (let '(r, m) := verdict c expected allowed (alarmed w) (tr_msg tr) in
          set_msg (Some m) (set_rtype r tr)), w).
Proof.
  intros Hc. unfold set_fork_info. cbv zeta. destruct c as [code | s]; cbn [wstatus verdict cause_ok] in *.
  - destruct (exit_wstatus_decode code) as (-> & -> & ->).
    destruct (decide (expected = 0)) as [-> | He].
    + rewrite (decide_False (P := 0 <> 0)) by auto. cbn [andb]. destruct (decide (s8 (code mod 256) = allowed)) as [-> | Ha].
      * rewrite bool_decide_true by done. by rewrite (bind_ret _ _ _ _ _ (pass_msg_run _)).
      * rewrite bool_decide_false, bool_decide_true by done. simpl.
        destruct (tr_msg tr) as [m |] eqn:Em; simpl.
        -- do 2 f_equal. unfold set_msg, set_rtype. simpl. by rewrite <- Em.
        -- by rewrite (bind_ret _ _ _ _ _ (exit_msg_run _ _)).
    + rewrite decide_True by done. by rewrite (bind_ret _ _ _ _ _ (exit_msg_run _ _)).
  - destruct (killed_wstatus_decode s Hc) as (-> & -> & ->).
    destruct (decide (expected = s)) as [-> | He].
    + rewrite (bind_ret _ _ _ _ _ (the_alarm_run _)). rewrite decide_True by done.
      destruct (alarmed w) eqn:Ea.
      * assert (Hs : s <> 0) by lia.
        rewrite (bind_ret _ _ _ _ _ (signal_error_msg_run s s w Hs)). by rewrite Ea.
      * by rewrite (bind_ret _ _ _ _ _ (pass_msg_run _)).
    + rewrite (decide_False (P := s = expected)) by auto.
      destruct (decide (expected = 0)) as [-> | H0].
      * rewrite decide_False by auto. rewrite (bind_ret _ _ _ _ _ (signal_msg_run s w)).
        by destruct (alarmed w).
      * rewrite decide_True by done. rewrite (bind_ret _ _ _ _ _ (signal_error_msg_run s expected w H0)).
        by destruct (alarmed w).
Qed.
End Status.
