(* ===== verification/TraceSpec.v ===== *)
(** * What user code does to the process (src/check.c, src/check_msg.c)

    The traces of tests and fixtures without exits and signals: the messages they send, the time
    they take, the memory they leave, and that running one does that and no more. *)
From S2P Require Import Prelude Error Types CList Pack PackSpec World Str Result Msg MsgSpec.
From S2P Require Import Loops Core CoreSpec Alike Print Log Run.

(** ** Traces without exits and signals *)

Definition is_assert (c : ucall) : bool := match c with u_assert_failed _ _ _ _ => true | _ => false end.

Definition plain_call (c : ucall) : Prop :=
  match c with
  | u_mark_point _ _ | u_assert_failed _ _ _ _ | u_write _ _ => True
  | u_elapse ns => 0 <= ns
  | _ => False
  end.

(** The calls made: up to the first failed assertion. *)
Fixpoint made (cs : list ucall) : list ucall :=
  match cs with
  | [] => []
  | c :: cs => c :: (if is_assert c then [] else made cs)
  end.
Definition failed (cs : list ucall) : bool := existsb is_assert cs.

(** The text an assertion reports: the message, cut to the buffer, or the expression. *)
Definition assert_text (expr : string) (msg : option string) : string :=
  match msg with Some m => fst (vsnprintf BUFSIZ m) | None => expr end.

Definition call_msgs (c : ucall) : list CheckMsg :=
  match c with
  | u_mark_point f l => [loc_msg (mkLocMsg l (Some f))]
  | u_assert_failed f l e m =>
    [loc_msg (mkLocMsg l (Some f)); fail_msg (mkFailMsg (Some (assert_text e m)))]
  | _ => []
  end.
Definition trace_msgs (cs : list ucall) : list CheckMsg := concat (call_msgs <$> made cs).

Definition call_time (c : ucall) : Z := match c with u_elapse ns => ns | _ => 0 end.
Definition trace_time (cs : list ucall) : Z := foldr Z.add 0 (call_time <$> made cs).

(** The memory of the user's code after a trace, up to its first failed assertion. *)
Definition write_of (u : umem) (c : ucall) : umem :=
  match c with u_write x v => <[x := v]> u | _ => u end.
Definition mem (cs : list ucall) (u : umem) : umem := foldl write_of u (made cs).

(** ** What running tests and fixtures leaves alone *)

(** Between two tests: only cursors of the fixtures of test cases move in the heap. *)
Record tested (w w' : world) : Prop := mkTested {
  td_tcases : map_alike tcase_alike (tcases (the_heap w)) (tcases (the_heap w'));
  td_tests : forall tc, look (tflst_ptr tc) w' = look (tflst_ptr tc) w;
  td_next : next_loc (the_heap w') = next_loc (the_heap w);
  td_suites : suites (the_heap w') = suites (the_heap w);
  td_tags : taglists (the_heap w') = taglists (the_heap w);
  td_runners : srunners (the_heap w') = srunners (the_heap w);
  td_env : env (w_proc w') = env (w_proc w);
  td_signals : the_signals w' = the_signals w;
  td_pid : p_pid (w_proc w') = p_pid (w_proc w);
  td_pgid : p_pgid (w_proc w') = p_pgid (w_proc w);
  td_fstat : fstat_cur (the_statics w') = fstat_cur (the_statics w);
  td_max : max_msg_size (the_statics w') = max_msg_size (the_statics w);
  td_tap : num_tests_run (the_statics w') = num_tests_run (the_statics w);
  td_deadline : deadline (w_os w') = deadline (w_os w);
  td_out : out (w_os w') = out (w_os w);
  td_paths : paths (w_os w') = paths (w_os w);
  td_next_pid : next_pid (w_os w) <= next_pid (w_os w');
  td_depth : length (pipe_stack (the_pipes w')) = length (pipe_stack (the_pipes w))
}.
#[export] Instance tested_preorder : PreOrder tested.
Proof.
  split; [by intros w; constructor; try lia |].
  intros a b c [] []. constructor; try congruence; [by etrans | lia].
Qed.

(** ... and within one: the channel stays, and no process is made. *)
Record frame (w w' : world) : Prop := mkFrame {
  fr_tested : tested w w';
  fr_pipes : the_pipes w' = the_pipes w;
  fr_alarm_received : alarm_received (the_statics w') = alarm_received (the_statics w);
  fr_group : group_pid (the_statics w') = group_pid (the_statics w);
  fr_fired : alarm_fired (w_os w') = alarm_fired (w_os w);
  fr_next_pid : next_pid (w_os w') = next_pid (w_os w);
  fr_next_file : next_file (w_os w') = next_file (w_os w)
}.
#[export] Instance frame_preorder : PreOrder frame.
Proof.
  split; [by intros w; constructor |].
  intros a b c [] []. constructor; try congruence. by etrans.
Qed.
(** ... and within the code of the user: no cursor moves either. *)
Record inert (w w' : world) : Prop := mkInert { in_frame : frame w w'; in_heap : the_heap w' = the_heap w }.
#[export] Instance inert_preorder : PreOrder inert.
Proof. split; [by intros w | intros a b c [] []; constructor; [by etrans | congruence]]. Qed.
Ltac solve_inert := constructor; [constructor; [constructor; try done; lia | done..] | done].

(** The relations between frames and less. *)
Class Frames (F : world -> world -> Prop) := {
  frames_preorder :: PreOrder F;
  frames_frame : forall w w', F w w' -> frame w w'
}.
#[export] Instance frame_frames : Frames frame.
Proof. split; [apply _ | done]. Qed.
#[export] Instance inert_frames : Frames inert.
Proof. split; [apply _ | by intros w w' []]. Qed.

Lemma tested_still sr w w' : tested w w' -> still sr w w'.
Proof.
  intros []. constructor; try done. constructor; rewrite ?td_suites0, ?td_tags0, ?td_runners0; try done.
  intros r Hr. by exists r.
Qed.
Lemma tested_case w w' c : tested w w' -> case_at w c -> case_at w' c.
Proof. intros H. by apply (still_case 0), tested_still. Qed.
Lemma tested_fixtures w w' ck b tc fs : tested w w' -> holds (fixture_ptr ck b tc) w fs -> holds (fixture_ptr ck b tc) w' fs.
Proof. intros H. by apply (still_fixtures 0), tested_still. Qed.

(** The process can still make its calls [e] nanoseconds from now. *)
Definition in_time (w : world) (e : Z) : Prop :=
  match deadline (w_os w) with Some t => clock (w_os w) + e < t | None => True end.

(** An outcome other than a return, at another type. *)
Definition cast_stop {A B} (o : outcome A) : outcome B :=
  match o with
  | Ret _ => Fault | Exit c => Exit c | Killed g => Killed g | Jump => Jump | Hang => Hang
  | Fault => Fault
  end.

(** How a failed assertion leaves the test. *)
Definition assert_outcome {A} (st : fork_status) : outcome A :=
  if decide (st = CK_FORK) then Exit 1 else Jump.

Section Traces.
Context {plat : Platform} {plat_ok : PlatformOK}.

Lemma tested_limit w w' : tested w w' -> msg_limit w' = msg_limit w.
Proof. intros []. unfold msg_limit. cbn. by rewrite td_env0, td_max0. Qed.
Lemma tested_sendable w w' m : tested w w' -> sendable w m -> sendable w' m.
Proof. intros Hf [? ?]. split; [done |]. by rewrite (tested_limit _ _ Hf). Qed.
Lemma tested_send_all w w' ms : tested w w' -> Forall (sendable w) ms -> Forall (sendable w') ms.
Proof. intros Hf H. eapply Forall_impl; [exact H |]. intros m. by apply tested_sendable. Qed.
Lemma frame_messaging w w' : frame w w' -> messaging w -> messaging w'.
Proof.
  intros [Ht Hp _ _ _ _ _] []. pose proof (tested_limit _ _ Ht) as El.
  constructor; rewrite ?El, ?Hp; try done. unfold temp_ok. by rewrite (td_env _ _ Ht).
Qed.

Lemma put_stream_inert fp ms w : inert w (put_stream fp ms w).
Proof. solve_inert. Qed.

(** From the channel [fp] holding [ms], the process has added the messages [ms'], taken the time
    [e] and left the memory [u], and is otherwise as [F] says. *)
Record sent (F : world -> world -> Prop) (w : world) (fp : Z) (ms ms' : list CheckMsg) (e : Z) (u : umem)
    (w' : world) : Prop := mkSent {
  se_channel : channel w' fp (ms ++ ms');
  se_rel : F w w';
  se_clock : clock (w_os w') = clock (w_os w) + e;
  se_mem : p_umem (w_proc w') = u
}.
(** ... with the outcome [o]. *)
Definition sends F {A} (w : world) (fp : Z) (ms : list CheckMsg) (m : M world A) (o : outcome A)
    (ms' : list CheckMsg) (e : Z) (u : umem) : Prop :=
  exists w', m w = (o, w') /\ sent F w fp ms ms' e u w'.

Section Sends.
Context {F : world -> world -> Prop} `{!Frames F}.

Lemma sent_nil w fp ms : channel w fp ms -> sent F w fp ms [] 0 (p_umem (w_proc w)) w.
Proof. intros Hc. constructor; [by rewrite app_nil_r | done | lia | done]. Qed.
Lemma sent_trans w fp ms ms1 e1 u1 w1 ms2 e2 u2 w2 : sent F w fp ms ms1 e1 u1 w1 ->
  sent F w1 fp (ms ++ ms1) ms2 e2 u2 w2 -> sent F w fp ms (ms1 ++ ms2) (e1 + e2) u2 w2.
Proof. intros [_ F1 T1 _] [C2 F2 T2 M2]. constructor; [by rewrite app_assoc | by etrans | lia | done]. Qed.
Lemma sent_tested w fp ms ms' e u w' : sent F w fp ms ms' e u w' -> tested w w'.
Proof. intros [_ H _ _]. by apply fr_tested, frames_frame. Qed.

Lemma sends_ret {A} w fp ms (a : A) : channel w fp ms -> sends F w fp ms (mret a) (Ret a) [] 0 (p_umem (w_proc w)).
Proof. intros Hc. exists w. split; [done | by apply sent_nil]. Qed.

Lemma sends_bind {A B} w fp ms (m : M world A) (f : A -> M world B) a o ms1 ms2 e1 e2 u1 u2 :
  sends F w fp ms m (Ret a) ms1 e1 u1 ->
  (forall w', sent F w fp ms ms1 e1 u1 w' -> sends F w' fp (ms ++ ms1) (f a) o ms2 e2 u2) ->
  sends F w fp ms (m ≫= f) o (ms1 ++ ms2) (e1 + e2) u2.
Proof.
  intros (w1 & E1 & H1) Hf. destruct (Hf w1 H1) as (w2 & E2 & H2).
  exists w2. rewrite (bind_ret _ _ _ _ _ E1). split; [done | by eapply sent_trans].
Qed.

Lemma sends_stop {A B} w fp ms (m : M world A) (f : A -> M world B) o ms1 e1 u1 :
  sends F w fp ms m o ms1 e1 u1 -> (forall a, o <> Ret a) ->
  sends F w fp ms (m ≫= f) (cast_stop o) ms1 e1 u1.
Proof.
  intros (w1 & E1 & H) Ho. exists w1. split; [| exact H].
  unfold mbind, M_bind. rewrite E1. destruct o; try done. by destruct (Ho a).
Qed.

Lemma in_time_less w e e' : in_time w e -> e' <= e -> in_time w e'.
Proof. unfold in_time. destruct (deadline (w_os w)); [lia | done]. Qed.
Lemma sent_in_time w fp ms ms' e u w' e' : sent F w fp ms ms' e u w' -> in_time w (e + e') -> in_time w' e'.
Proof.
  intros H. pose proof (sent_tested _ _ _ _ _ _ _ H) as Ht. destruct H as [_ _ Hk _].
  unfold in_time. rewrite (td_deadline _ _ Ht), Hk. destruct (deadline (w_os w)); [lia | done].
Qed.
Lemma sent_send_all w fp ms ms' e u w' ms2 : sent F w fp ms ms' e u w' ->
  Forall (sendable w) ms2 -> Forall (sendable w') ms2.
Proof. intros H. by eapply tested_send_all, sent_tested. Qed.
Lemma sent_fstat w fp ms ms' e u w' : sent F w fp ms ms' e u w' ->
  fstat_cur (the_statics w') = fstat_cur (the_statics w).
Proof. intros H. apply (td_fstat _ _ (sent_tested _ _ _ _ _ _ _ H)). Qed.
End Sends.

Lemma sends_inert {A} w fp ms (m : M world A) o ms' e u : sends inert w fp ms m o ms' e u ->
  sends frame w fp ms m o ms' e u.
Proof. intros (w' & E & [C [Hf _] T M]). exists w'. split; [done | by constructor]. Qed.

(** A message written to the channel. *)
Lemma written_sent w fp ms m : channel w fp ms ->
  sent inert w fp ms [m] 0 (p_umem (w_proc w)) (put_stream fp (ms ++ [m]) w).
Proof. intros Hc. constructor; [by eapply put_stream_channel | solve_inert | simpl; lia | done]. Qed.

Lemma send_loc_sends w fp ms f l :
  channel w fp ms -> sendable w (loc_msg (mkLocMsg l (Some f))) ->
  sends inert w fp ms (send_loc_info f l) (Ret tt) [loc_msg (mkLocMsg l (Some f))] 0 (p_umem (w_proc w)).
Proof. intros Hc Hs. eexists. split; [by apply send_loc_run | by apply written_sent]. Qed.
Lemma send_ctx_sends w fp ms c :
  channel w fp ms -> sendable w (ctx_msg (mkCtxMsg c)) ->
  sends inert w fp ms (send_ctx_info c) (Ret tt) [ctx_msg (mkCtxMsg c)] 0 (p_umem (w_proc w)).
Proof. intros Hc Hs. eexists. split; [by apply send_ctx_run | by apply written_sent]. Qed.
Lemma send_failure_sends w fp ms t :
  channel w fp ms -> sendable w (fail_msg (mkFailMsg (Some t))) ->
  sends inert w fp ms (send_failure_info t) (Ret tt) [fail_msg (mkFailMsg (Some t))] 0 (p_umem (w_proc w)).
Proof. intros Hc Hs. eexists. split; [by apply send_failure_run | by apply written_sent]. Qed.
Lemma send_duration_sends w fp ms d :
  channel w fp ms -> sendable w (duration_msg (mkDurationMsg d)) ->
  sends inert w fp ms (send_duration_info d) (Ret tt) [duration_msg (mkDurationMsg d)] 0 (p_umem (w_proc w)).
Proof. intros Hc Hs. eexists. split; [by apply send_duration_run | by apply written_sent]. Qed.
Lemma sends_modify w fp ms (f : world -> world) e :
  channel w fp ms -> inert w (f w) -> open_files (w_os (f w)) = open_files (w_os w) ->
  clock (w_os (f w)) = clock (w_os w) + e ->
  sends inert w fp ms (modify f) (Ret tt) [] e (p_umem (w_proc (f w))).
Proof.
  intros [Hp Hs] Hf Ho He. exists (f w). split; [done |]. constructor; try done. rewrite app_nil_r.
  constructor; [by rewrite (fr_pipes _ _ (in_frame _ _ Hf)) | by rewrite Ho].
Qed.

Lemma elapse_sends w fp ms ns :
  channel w fp ms -> in_time w ns -> sends inert w fp ms (elapse ns) (Ret tt) [] ns (p_umem (w_proc w)).
Proof.
  intros Hc Ht. unfold in_time in Ht.
  assert (Hm : sends inert w fp ms (modify (on_os (fun o => put_clock (clock o + ns) o))) (Ret tt) [] ns (p_umem (w_proc w))).
  { by apply (sends_modify w fp ms (on_os (fun o => put_clock (clock o + ns) o))); [| solve_inert | |]. }
  destruct Hm as (w' & E & H). exists w'. split; [| done]. unfold elapse.
  rewrite (bind_ret _ _ _ _ _ (gets_run _ _)).
  destruct (deadline (w_os w)); [| done]. by rewrite decide_False by lia.
Qed.

Lemma assert_failed_sends w fp ms f l e m :
  channel w fp ms -> Forall (sendable w) (call_msgs (u_assert_failed f l e m)) ->
  sends inert w fp ms (ck_assert_failed_ f l e m) (assert_outcome (fstat_cur (the_statics w)))
    (call_msgs (u_assert_failed f l e m)) 0 (p_umem (w_proc w)).
Proof.
  intros Hc [Hs1 [Hs2 _]%Forall_cons]%Forall_cons. unfold ck_assert_failed_.
  change (call_msgs _) with ([loc_msg (mkLocMsg l (Some f))] ++
    [fail_msg (mkFailMsg (Some (assert_text e m)))]).
  change 0 with (0 + 0). eapply sends_bind; [by apply send_loc_sends |].
  intros w1 H1. pose proof H1 as [Hc1 _ _ M1]. rewrite <- (app_nil_r [fail_msg _]). change 0 with (0 + 0).
  eapply sends_bind; [apply send_failure_sends; [done | by eapply tested_sendable; [by eapply sent_tested |]] |].
  intros w2 H2. pose proof H2 as [Hc2 _ _ M2]. exists w2. unfold cur_fork_status.
  rewrite (bind_ret _ _ _ _ _ (gets_run _ _)).
  rewrite (sent_fstat _ _ _ _ _ _ _ H2), (sent_fstat _ _ _ _ _ _ _ H1). unfold assert_outcome.
  split; [by case_decide |]. rewrite <- M1, <- M2. by apply sent_nil.
Qed.

Lemma run_ucall_sends w fp ms c :
  plain_call c -> channel w fp ms -> Forall (sendable w) (call_msgs c) -> in_time w (call_time c) ->
  sends inert w fp ms (run_ucall c)
    (if is_assert c then assert_outcome (fstat_cur (the_statics w)) else Ret tt)
    (call_msgs c) (call_time c) (write_of (p_umem (w_proc w)) c).
Proof.
  intros Hp Hc Hs Ht. destruct c; simpl in Hp; try done; cbn [run_ucall is_assert call_time write_of].
  - apply Forall_cons in Hs as [Hs _]. by apply send_loc_sends.
  - by apply assert_failed_sends.
  - by apply elapse_sends.
  - refine (sends_modify w fp ms (on_proc (fun p => set_umem (<[x := v]> (p_umem p)) p)) 0 _ _ _ _); [done | solve_inert | done | simpl; lia].
Qed.

Definition trace_outcome (st : fork_status) (cs : list ucall) : outcome unit :=
  if failed cs then assert_outcome st else Ret tt.

Lemma call_time_nonneg c : plain_call c -> 0 <= call_time c.
Proof. destruct c; simpl; lia. Qed.
Lemma trace_time_nonneg cs : Forall plain_call cs -> 0 <= trace_time cs.
Proof.
  unfold trace_time. induction 1 as [| c cs Hc _ IH]; simpl; [done |].
  pose proof (call_time_nonneg c Hc). destruct (is_assert c); [simpl; lia | by apply Z.add_nonneg_nonneg].
Qed.

(** The refinement: running a plain trace sends its messages, takes its time, leaves its memory,
    and ends as its first failed assertion says. *)
Lemma run_ucalls_sends cs : forall w fp ms,
  Forall plain_call cs -> channel w fp ms -> Forall (sendable w) (trace_msgs cs) ->
  in_time w (trace_time cs) ->
  sends inert w fp ms (run_ucalls cs) (trace_outcome (fstat_cur (the_statics w)) cs)
    (trace_msgs cs) (trace_time cs) (mem cs (p_umem (w_proc w))).
Proof.
  induction cs as [| c cs IH]; intros w fp ms Hp Hc Hs Ht; [by apply sends_ret |].
  apply Forall_cons in Hp as [Hpc Hp]. cbn [run_ucalls].
  assert (Em : trace_msgs (c :: cs) = call_msgs c ++ (if is_assert c then [] else trace_msgs cs))
    by (unfold trace_msgs; simpl; by destruct (is_assert c)).
  assert (Et : trace_time (c :: cs) = call_time c + (if is_assert c then 0 else trace_time cs))
    by (unfold trace_time; simpl; by destruct (is_assert c)).
  set (u := p_umem (w_proc w)).
  assert (Eu : mem (c :: cs) u = (if is_assert c then write_of u c else mem cs (write_of u c)))
    by (unfold mem; simpl; by destruct (is_assert c)).
  rewrite Eu. rewrite Em, Et in *. apply Forall_app in Hs as [Hs1 Hs2].
  pose proof (call_time_nonneg c Hpc). pose proof (trace_time_nonneg cs Hp).
  assert (Hc1 : sends inert w fp ms (run_ucall c)
    (if is_assert c then assert_outcome (fstat_cur (the_statics w)) else Ret tt)
    (call_msgs c) (call_time c) (write_of u c)).
  { apply run_ucall_sends; try done. eapply in_time_less; [exact Ht |]. destruct (is_assert c); lia. }
  unfold trace_outcome, failed. simpl. destruct (is_assert c) eqn:Ea; simpl.
  - rewrite app_nil_r, Z.add_0_r.
    assert (Hno : forall a : unit, assert_outcome (fstat_cur (the_statics w)) <> Ret a)
      by (unfold assert_outcome; intros; by case_decide).
    pose proof (sends_stop _ _ _ _ (fun _ => run_ucalls cs) _ _ _ _ Hc1 Hno) as Hst.
    unfold assert_outcome in *. by case_decide.
  - eapply sends_bind; [exact Hc1 |]. intros w1 Hse. rewrite <- (sent_fstat _ _ _ _ _ _ _ Hse).
    rewrite <- (se_mem _ _ _ _ _ _ _ _ Hse). apply IH; try done.
    + apply Hse.
    + by eapply sent_send_all.
    + by eapply sent_in_time.
Qed.
End Traces.

(** ** The result of a plain test *)

Definition call_loc (c : ucall) : option (string * Z) :=
  match c with
  | u_mark_point f l | u_assert_failed f l _ _ => Some (f, l)
  | _ => None
  end.
(** The last location reported, from the one of the test function itself. *)
Definition last_loc (d : string * Z) (cs : list ucall) : string * Z :=
  foldl (fun d c => default d (call_loc c)) d (made cs).
(** The text of the first failed assertion. *)
Definition fail_text (cs : list ucall) : option string :=
  head (omap (fun c => match c with u_assert_failed _ _ e m => Some (assert_text e m) | _ => None end) cs).

(** The messages of a test function, from its start. *)
Definition test_msgs (t : TTest) (cs : list ucall) : list CheckMsg :=
  [ctx_msg (mkCtxMsg CK_CTX_TEST); loc_msg (mkLocMsg (tt_line t) (Some (tt_file t)))] ++ trace_msgs cs.

Definition plain_result (tcname : string) (t : TTest) (i : Z) (cs : list ucall) (duration : Z)
    : TestResult :=
  let '(f, l) := last_loc (tt_file t, tt_line t) cs in
  mkTestResult (if failed cs then CK_FAILURE else CK_PASS) CK_CTX_TEST (Some f) l (Some i) duration
    (Some tcname) (Some (tt_name t)) (Some (default "Passed" (fail_text cs))).

Lemma fail_text_failed cs : is_Some (fail_text cs) <-> failed cs = true.
Proof.
  unfold fail_text. induction cs as [| c cs IH]; simpl; [split; [by intros [] | done] |].
  destruct c; simpl; try exact IH. split; [done | intros _; by eexists].
Qed.

Lemma rcv_trace cs : forall ff fl f l d,
  foldl rcv_step (mkRcvMsg CK_CTX_TEST CK_CTX_INVALID ff fl (Some f) l None d) (trace_msgs cs) =
  mkRcvMsg CK_CTX_TEST (if failed cs then CK_CTX_TEST else CK_CTX_INVALID) ff fl
    (Some (fst (last_loc (f, l) cs))) (snd (last_loc (f, l) cs)) (fail_text cs) d.
Proof.
  unfold trace_msgs, last_loc. induction cs as [| c cs IH]; intros; [done |].
  destruct c; simpl; try apply IH.
  done.
Qed.

(** The first messages of a test, in the process or in a child. *)
Lemma rcv_test_msgs r t cs :
  failctx r = CK_CTX_INVALID -> rmsg_msg r = None ->
  foldl rcv_step r (test_msgs t cs) =
  mkRcvMsg CK_CTX_TEST (if failed cs then CK_CTX_TEST else CK_CTX_INVALID)
    (if decide (lastctx r = CK_CTX_INVALID) then fixture_file r else None)
    (if decide (lastctx r = CK_CTX_INVALID) then fixture_line r else -1)
    (Some (fst (last_loc (tt_file t, tt_line t) cs))) (snd (last_loc (tt_file t, tt_line t) cs))
    (fail_text cs) (rmsg_duration r).
Proof.
  intros H1 H2. unfold test_msgs. rewrite foldl_app. simpl.
  unfold rcvmsg_update_ctx. destruct r as [lc fc ff fl tf tl m d]; simpl in *; subst.
  destruct (decide (lc = CK_CTX_INVALID)); simpl; by rewrite rcv_trace.
Qed.

(** ** Elapsed time *)

Definition ts_of (c : Z) : timespec := mkTimespec (c / 1000000000) (c mod 1000000000).

(** Between two readings of the clock, the difference in microseconds. *)
Lemma diff_in_usec c0 c1 : DIFF_IN_USEC (ts_of c0) (ts_of c1) = c1 / 1000 - c0 / 1000.
Proof.
  unfold DIFF_IN_USEC, ts_of, US_PER_SEC. simpl.
  assert (Hd : forall c, c / 1000 = c / 1000000000 * 1000000 + (c mod 1000000000) `quot` 1000).
  { intros c. rewrite Z.quot_div_nonneg by (try lia; apply Z.mod_pos_bound; lia).
    rewrite (Z.div_mod c 1000000000) at 1 by lia.
    replace (1000000000 * (c / 1000000000)) with (c / 1000000000 * 1000000 * 1000) by lia.
    rewrite Z.add_comm, Z.div_add by lia. lia. }
  rewrite (Hd c0), (Hd c1). lia.
Qed.

Definition usec (c0 e : Z) : Z := (c0 + e) / 1000 - c0 / 1000.
Section Tests.
Context {plat : Platform} {plat_ok : PlatformOK}.

Lemma fn_start_sends w fp ms t :
  channel w fp ms -> Forall (sendable w) (test_msgs t []) ->
  sends inert w fp ms (tcase_fn_start (tt_name t) (tt_file t) (tt_line t)) (Ret tt) (test_msgs t []) 0 (p_umem (w_proc w)).
Proof.
  intros Hc [Hs1 [Hs2 _]%Forall_cons]%Forall_cons. unfold tcase_fn_start.
  set (m1 := ctx_msg (mkCtxMsg CK_CTX_TEST)) in *.
  set (m2 := loc_msg (mkLocMsg (tt_line t) (Some (tt_file t)))) in *.
  change (test_msgs t []) with ([m1] ++ ([m2] ++ [])). change 0 with (0 + (0 + 0)).
  eapply sends_bind; [by apply send_ctx_sends |]. intros w1 H1. rewrite <- (se_mem _ _ _ _ _ _ _ _ H1).
  eapply sends_bind; [apply send_loc_sends; [apply H1 | by eapply tested_sendable; [by eapply sent_tested |]] |].
  intros w2 H2. rewrite <- (se_mem _ _ _ _ _ _ _ _ H2).
  apply (sends_modify w2 fp _ (upd_statics (put_current_test_name (Some (tt_name t)))));
    [apply H2 | solve_inert | done | simpl; lia].
Qed.

Lemma test_msgs_app t cs : test_msgs t cs = test_msgs t [] ++ trace_msgs cs.
Proof. done. Qed.

(** tcase_fn_start and the body of the test, under the fork status of the process. *)
Lemma test_body_sends w fp ms t i cs :
  cs = fn t i (p_umem (w_proc w)) -> Forall plain_call cs -> channel w fp ms ->
  Forall (sendable w) (test_msgs t cs) -> in_time w (trace_time cs) ->
  sends inert w fp ms (tcase_fn_start (tt_name t) (tt_file t) (tt_line t) ;; call_tfun (fn t) i)
    (trace_outcome (fstat_cur (the_statics w)) cs) (test_msgs t cs) (trace_time cs) (mem cs (p_umem (w_proc w))).
Proof.
  intros Hcs Hp Hc Hs Ht. rewrite test_msgs_app in *. apply Forall_app in Hs as [Hs0 Hs].
  change (trace_time cs) with (0 + trace_time cs). eapply sends_bind; [by apply fn_start_sends |].
  intros w2 H2. unfold call_tfun. pose proof (se_mem _ _ _ _ _ _ _ _ H2) as Hu.
  destruct (run_ucalls_sends cs w2 fp _ Hp (se_channel _ _ _ _ _ _ _ _ H2)) as (w3 & E & H3).
  { by eapply sent_send_all. }
  { by eapply sent_in_time. }
  rewrite (sent_fstat _ _ _ _ _ _ _ H2) in E. rewrite Hu in H3.
  exists w3. rewrite (bind_ret _ _ _ _ _ (gets_run _ _)). by rewrite Hu, <- Hcs.
Qed.

Lemma run_ucalls_app pre post w : run_ucalls (pre ++ post) w = (run_ucalls pre ;; run_ucalls post) w.
Proof.
  revert w. induction pre as [| c pre IH]; intros w; simpl; [done |].
  rewrite bind_assoc. apply bind_ext. intros [] w' _. apply IH.
Qed.

(** A test that does more after a plain beginning in which nothing fails. *)
Lemma test_body_prefix w fp ms t i pre post :
  fn t i (p_umem (w_proc w)) = pre ++ post -> Forall plain_call pre -> failed pre = false ->
  channel w fp ms -> Forall (sendable w) (test_msgs t pre) -> in_time w (trace_time pre) ->
  exists w3, (tcase_fn_start (tt_name t) (tt_file t) (tt_line t) ;; call_tfun (fn t) i) w =
      run_ucalls post w3 /\
    sent inert w fp ms (test_msgs t pre) (trace_time pre) (mem pre (p_umem (w_proc w))) w3.
Proof.
  intros Hcs Hp Hnf Hc Hs Ht. rewrite test_msgs_app in *. apply Forall_app in Hs as [Hs0 Hs].
  destruct (fn_start_sends w fp ms t Hc Hs0) as (w2 & E2 & H2). pose proof (se_mem _ _ _ _ _ _ _ _ H2) as Hu.
  destruct (run_ucalls_sends pre w2 fp _ Hp (se_channel _ _ _ _ _ _ _ _ H2)) as (w3 & E & H3).
  { by eapply sent_send_all. }
  { by eapply sent_in_time. }
  unfold trace_outcome in E. rewrite Hnf in E. rewrite Hu in H3. exists w3. split.
  - rewrite (bind_ret _ _ _ _ _ E2). unfold call_tfun. rewrite (bind_ret _ _ _ _ _ (gets_run _ _)).
    by rewrite Hu, Hcs, run_ucalls_app, (bind_ret _ _ _ _ _ E).
  - change (trace_time pre) with (0 + trace_time pre). by eapply sent_trans.
Qed.

Lemma get_clockid_run w : check_get_clockid w = (Ret CLOCK_MONOTONIC, w).
Proof. unfold check_get_clockid, gets. by rewrite ok_timer. Qed.
Lemma clock_gettime_run c w : clock_gettime c w = (Ret (ts_of (clock (w_os w))), w).
Proof. done. Qed.

(** The setjmp around a test catches its failed assertion. *)
Lemma setjmp_sends w fp ms (m : M world unit) cs ms' e u :
  sends inert w fp ms m (trace_outcome CK_NOFORK cs) ms' e u ->
  sends inert w fp ms (setjmp m) (Ret (negb (failed cs))) ms' e u.
Proof.
  intros (w' & E & H). exists w'. split; [| exact H]. unfold setjmp. rewrite E. unfold trace_outcome, assert_outcome.
  by destruct (failed cs).
Qed.

(** A fixture, under the fork status of the process. *)
Lemma call_sfun_sends w fp ms f cs : cs = f (p_umem (w_proc w)) ->
  Forall plain_call cs -> channel w fp ms -> Forall (sendable w) (trace_msgs cs) -> in_time w (trace_time cs) ->
  sends inert w fp ms (call_sfun f) (trace_outcome (fstat_cur (the_statics w)) cs)
    (trace_msgs cs) (trace_time cs) (mem cs (p_umem (w_proc w))).
Proof.
  intros -> Hp Hc Hs Ht. unfold call_sfun.
  destruct (run_ucalls_sends _ _ _ _ Hp Hc Hs Ht) as (w' & E & H). exists w'.
  by rewrite (bind_ret _ _ _ _ _ (gets_run _ _)).
Qed.
End Tests.
