(* ===== verification/FixtureSpec.v ===== *)
(** * Fixtures (src/check_run.c)

    The calls that a test and its fixtures make from a given memory of the user's code, the
    messages of these and what they fold to, and that running a list of fixtures makes these
    calls, up to the first that fails. *)
From S2P Require Import Prelude Error Types CList Pack PackSpec World Str Result Msg MsgSpec.
From S2P Require Import Loops Core CoreSpec Alike Print Log Run TraceSpec.

(** ** The calls of fixtures, from a memory *)

Definition mem_all (css : list (list ucall)) (u : umem) : umem := foldl (fun u cs => mem cs u) u css.
Definition fails (css : list (list ucall)) : bool := existsb failed css.
Definition total (css : list (list ucall)) : Z := foldr Z.add 0 (trace_time <$> css).

(** What the fixtures of a list do, one after the other, up to the first that fails. *)
Fixpoint fixture_calls (fs : list Fixture) (u : umem) : list (list ucall) :=
  match fs with
  | [] => []
  | f :: fs => let cs := fun_ f u in cs :: (if failed cs then [] else fixture_calls fs (mem cs u))
  end.

(** The first failed assertion of a trace: its file, its line and its text. *)
Definition fail_at (cs : list ucall) : option (string * Z * string) :=
  head (omap (fun c => match c with u_assert_failed f l e m => Some (f, l, assert_text e m) | _ => None end) cs).
Definition first_fail (css : list (list ucall)) : option (string * Z * string) := head (omap fail_at css).

Lemma fail_at_failed cs : failed cs = match fail_at cs with Some _ => true | None => false end.
Proof.
  unfold fail_at. induction cs as [| c cs IH]; [done |]. cbn [failed existsb omap list_omap].
  destruct c; cbn [is_assert orb]; exact IH || done.
Qed.
Lemma first_fail_fails css : fails css = match first_fail css with Some _ => true | None => false end.
Proof.
  unfold first_fail. induction css as [| cs css IH]; [done |]. cbn [fails existsb omap list_omap].
  rewrite fail_at_failed. by destruct (fail_at cs).
Qed.
Lemma fails_none css : fails css = false -> first_fail css = None.
Proof. rewrite first_fail_fails. by destruct (first_fail css). Qed.
Lemma fails_some css : fails css = true -> exists x, first_fail css = Some x.
Proof. rewrite first_fail_fails. destruct (first_fail css) as [x |]; [by exists x | done]. Qed.

Lemma mem_all_app a b u : mem_all (a ++ b) u = mem_all b (mem_all a u).
Proof. apply foldl_app. Qed.
Lemma fails_app a b : fails (a ++ b) = fails a || fails b.
Proof. apply existsb_app. Qed.
Lemma total_app a b : total (a ++ b) = total a + total b.
Proof. unfold total. induction a as [| x a IH]; cbn in *; lia. Qed.
Lemma total_nonneg css : Forall (Forall plain_call) css -> 0 <= total css.
Proof.
  unfold total. induction 1 as [| cs css H _ IH]; cbn; [done |]. pose proof (trace_time_nonneg cs H). lia.
Qed.

Lemma fixture_calls_app fs1 : forall fs2 u, fixture_calls (fs1 ++ fs2) u =
  fixture_calls fs1 u ++ (if fails (fixture_calls fs1 u) then [] else fixture_calls fs2 (mem_all (fixture_calls fs1 u) u)).
Proof.
  induction fs1 as [| f fs1 IH]; intros fs2 u; [done |]. cbn. destruct (failed (fun_ f u)); cbn; [done |]. by rewrite IH.
Qed.

(** One more fixture. *)
Lemma fixture_calls_step fs u k f : fs !! k = Some f ->
  let pre := fixture_calls (take k fs) u in fails pre = false -> let cs := fun_ f (mem_all pre u) in
  fixture_calls (take (S k) fs) u = pre ++ [cs] /\
  exists post, fixture_calls fs u = pre ++ cs :: post /\ (failed cs = true -> post = []).
Proof.
  intros Hk pre Hnf cs. split.
  - rewrite (take_S_r _ _ _ Hk), fixture_calls_app. fold pre. rewrite Hnf. cbn. fold cs. by destruct (failed cs).
  - exists (if failed cs then [] else fixture_calls (drop (S k) fs) (mem cs (mem_all pre u))).
    split; [| by intros ->]. trans (fixture_calls (take k fs ++ f :: drop (S k) fs) u); [by rewrite take_drop_middle |].
    rewrite fixture_calls_app. fold pre. by rewrite Hnf.
Qed.

(** ** A test of a test case, from the memory [u] *)

Record script := mkScript {
  sc_setups : list (list ucall);
  sc_test : list ucall;
  sc_teardowns : list (list ucall)
}.
(** A failed setup stops the test; in a child, so does a failed test its teardowns. *)
Definition script_of (st : fork_status) (c : case) (tf : TF) (i : Z) (u : umem) : script :=
  let su := fixture_calls (c_fixtures c true true) u in
  let cs := if fails su then [] else fn (ttest tf) i (mem_all su u) in
  let td := if fails su || (bool_decide (st = CK_FORK) && failed cs) then []
            else fixture_calls (c_fixtures c true false) (mem cs (mem_all su u)) in
  mkScript su cs td.
Definition memory_after (s : script) (u : umem) : umem :=
  mem_all (sc_teardowns s) (mem (sc_test s) (mem_all (sc_setups s) u)).

Definition failure_result (c : ck_result_ctx) (tcname name : string) (i d : Z) (x : string * Z * string)
    : TestResult :=
  let '(f, l, m) := x in mkTestResult CK_FAILURE c (Some f) l (Some i) d (Some tcname) (Some name) (Some m).

(** The result: that of the first failed setup (in the process, under a name of its own), else
    that of the test if it fails, else that of the first failed teardown, else a pass. *)
Definition script_result (st : fork_status) (tcname : string) (tf : TF) (i d : Z) (s : script) : TestResult :=
  let t := ttest tf in
  match first_fail (sc_setups s) with
  | Some x =>
    if decide (st = CK_NOFORK) then failure_result CK_CTX_SETUP tcname "checked_setup" 0 (-1) x
    else failure_result CK_CTX_SETUP tcname (tt_name t) i (-1) x
  | None =>
    match (if failed (sc_test s) then None else first_fail (sc_teardowns s)) with
    | Some x => failure_result CK_CTX_TEARDOWN tcname (tt_name t) i d x
    | None => plain_result tcname t i (sc_test s) d
    end
  end.
Definition script_fails (s : script) : bool :=
  fails (sc_setups s) || failed (sc_test s) || fails (sc_teardowns s).

(** ** The messages, and what they fold to *)

Definition m_setup : CheckMsg := ctx_msg (mkCtxMsg CK_CTX_SETUP).
Definition m_teardown : CheckMsg := ctx_msg (mkCtxMsg CK_CTX_TEARDOWN).
(** Those of fixtures, each announced by [pm]. *)
Definition msgs_of (pm : list CheckMsg) (css : list (list ucall)) : list CheckMsg :=
  concat ((fun cs => pm ++ trace_msgs cs) <$> css).
Abbreviation traces := (msgs_of []).
Abbreviation teardown_msgs := (msgs_of [m_teardown]).

Lemma msgs_of_app pm a b : msgs_of pm (a ++ b) = msgs_of pm a ++ msgs_of pm b.
Proof. unfold msgs_of. by rewrite fmap_app, concat_app. Qed.
Lemma msgs_of_one pm cs : msgs_of pm [cs] = pm ++ trace_msgs cs.
Proof. apply app_nil_r. Qed.

(** A record into which the messages of fixtures have been folded since [r0], in the context [k]. *)
Record folded (k : ck_result_ctx) (x : option (string * Z * string)) (r0 r : RcvMsg) : Prop := mkFolded {
  fo_lastctx : lastctx r = k;
  fo_duration : rmsg_duration r = rmsg_duration r0;
  fo_file : test_file r = test_file r0;
  fo_line : test_line r = test_line r0;
  fo_fails : match x with
    | None => failctx r = CK_CTX_INVALID /\ rmsg_msg r = None
    | Some (f, l, m) => failctx r = k /\ rmsg_msg r = Some m /\ fixture_file r = Some f /\ fixture_line r = l
    end
}.

Lemma fold_trace k cs : forall r, k <> CK_CTX_TEST -> lastctx r = k -> failctx r = CK_CTX_INVALID ->
  rmsg_msg r = None -> folded k (fail_at cs) r (foldl rcv_step r (trace_msgs cs)).
Proof.
  unfold trace_msgs, fail_at. induction cs as [| c cs IH]; intros r Hk Hl Hf Hm; [by constructor |].
  cbn [made omap list_omap fmap list_fmap concat]. rewrite foldl_app.
  destruct c; cbn [is_assert call_msgs foldl rcv_step]; try by apply IH.
  - rewrite decide_True by done. rewrite Hl.
    destruct (IH (mkRcvMsg k (failctx r) (Some (str_of (Some file))) line
      (test_file r) (test_line r) (rmsg_msg r) (rmsg_duration r))) as [H1 H2 H3 H4]; try done.
    rewrite decide_False by done. by constructor.
  - cbn. rewrite (decide_True (P := failctx r = _)) by done. rewrite Hl.
    rewrite (decide_False (P := k = _)) by done. cbn. rewrite Hm.
    rewrite (decide_True (P := None = None)) by done. by constructor.
Qed.

(** A record in which nothing has failed. *)
Definition clean (r : RcvMsg) : Prop := failctx r = CK_CTX_INVALID /\ rmsg_msg r = None.

Lemma folded_then k r0 r1 r2 x : folded k None r0 r1 -> folded k x r1 r2 -> folded k x r0 r2.
Proof.
  intros [_ D1 T1 S1 _] [L2 D2 T2 S2 F2]. constructor; [done | congruence.. | done].
Qed.

(** Fixtures run in one context. *)
Lemma fold_fixtures k fs : forall u r, k <> CK_CTX_TEST -> lastctx r = k -> clean r ->
  folded k (first_fail (fixture_calls fs u)) r (foldl rcv_step r (traces (fixture_calls fs u))).
Proof.
  induction fs as [| f fs IH]; intros u r Hk Hl [Hf Hm]; [by constructor |].
  cbn [fixture_calls]. unfold msgs_of, first_fail. cbn [fmap list_fmap concat app omap list_omap]. rewrite foldl_app.
  pose proof (fold_trace k (fun_ f u) r Hk Hl Hf Hm) as Hfo. rewrite fail_at_failed.
  destruct (fail_at (fun_ f u)) as [x |] eqn:Ex; [done |].
  eapply folded_then; [exact Hfo |]. destruct Hfo as [Hl' _ _ _ Hc]. by apply IH.
Qed.

(** ... each announced. *)
Lemma announced r k : clean r -> clean (rcv_step r (ctx_msg (mkCtxMsg k))) /\
  lastctx (rcv_step r (ctx_msg (mkCtxMsg k))) = k /\
  test_file (rcv_step r (ctx_msg (mkCtxMsg k))) = test_file r /\
  test_line (rcv_step r (ctx_msg (mkCtxMsg k))) = test_line r /\
  rmsg_duration (rcv_step r (ctx_msg (mkCtxMsg k))) = rmsg_duration r.
Proof. intros [H1 H2]. cbn. unfold rcvmsg_update_ctx, clean. by case_decide; cbn. Qed.

(** What teardowns leave of a record: whether they failed, where and why, and the rest. *)
Record torn_down (x : option (string * Z * string)) (r r' : RcvMsg) : Prop := mkTornDown {
  to_file : test_file r' = test_file r;
  to_line : test_line r' = test_line r;
  to_duration : rmsg_duration r' = rmsg_duration r;
  to_last : lastctx r' = lastctx r \/ lastctx r' = CK_CTX_TEARDOWN;
  to_fails : match x with
    | None => clean r'
    | Some (f, l, m) => failctx r' = CK_CTX_TEARDOWN /\ rmsg_msg r' = Some m /\
        fixture_file r' = Some f /\ fixture_line r' = l
    end
}.

Lemma fold_teardown r cs : clean r -> torn_down (fail_at cs) r (foldl rcv_step r (m_teardown :: trace_msgs cs)).
Proof.
  intros Hc. destruct (announced r CK_CTX_TEARDOWN Hc) as (Hc1 & Hl1 & E1 & E2 & E3).
  fold m_teardown in *. cbn [foldl]. set (r1 := rcv_step r m_teardown) in *.
  destruct (fold_trace CK_CTX_TEARDOWN cs r1 ltac:(done) Hl1 (proj1 Hc1) (proj2 Hc1)) as [L D T S F].
  constructor; [congruence.. | by right |].
  by destruct (fail_at cs) as [[[f l] m] |].
Qed.

Lemma fold_teardowns fs : forall u r, clean r ->
  torn_down (first_fail (fixture_calls fs u)) r (foldl rcv_step r (teardown_msgs (fixture_calls fs u))).
Proof.
  induction fs as [| f fs IH]; intros u r Hc; [by constructor; try left |].
  cbn [fixture_calls]. unfold msgs_of, first_fail. cbn [fmap list_fmap concat omap list_omap].
  rewrite foldl_app. pose proof (fold_teardown r (fun_ f u) Hc) as Ht. rewrite fail_at_failed.
  destruct (fail_at (fun_ f u)) as [x |] eqn:Ex; [done |]. destruct Ht as [F1 L1 D1 C1 Hc1].
  destruct (IH (mem (fun_ f u) u) _ Hc1) as [F2 L2 D2 C2 X2].
  constructor; [etrans; [exact F2 | done] | etrans; [exact L2 | done] | etrans; [exact D2 | done] | | exact X2].
  destruct C2 as [C2 | C2]; [| by right].
  destruct C1 as [C1 | C1]; [left | right]; (etrans; [exact C2 | exact C1]).
Qed.

(** Messages of fixtures that are torn down. *)
Definition of_teardown (m : CheckMsg) : Prop :=
  match m with ctx_msg c => ctx c = CK_CTX_TEARDOWN | duration_msg _ => False | _ => True end.
Lemma trace_msgs_kinds cs : Forall of_teardown (trace_msgs cs).
Proof.
  unfold trace_msgs. induction cs as [| c cs IH]; [constructor |]. cbn [made fmap list_fmap concat].
  apply Forall_app. split; [destruct c; by repeat constructor |]. by destruct (is_assert c).
Qed.
Lemma teardown_msgs_kinds css : Forall of_teardown (teardown_msgs css).
Proof.
  unfold msgs_of. induction css as [| cs css IH]; [constructor |]. cbn [fmap list_fmap concat].
  apply Forall_app. split; [constructor; [done | apply trace_msgs_kinds] | done].
Qed.

(** After a failure they change only the place of fixtures. *)
Lemma fold_after_failure ms : forall r, failctx r <> CK_CTX_INVALID -> rmsg_msg r <> None -> Forall of_teardown ms ->
  let r' := foldl rcv_step r ms in failctx r' = failctx r /\ rmsg_msg r' = rmsg_msg r /\
    test_file r' = test_file r /\ test_line r' = test_line r /\ rmsg_duration r' = rmsg_duration r /\
    (lastctx r' = lastctx r \/ lastctx r' = CK_CTX_TEARDOWN).
Proof.
  induction ms as [| m ms IH]; intros r Hf Hm Hms; [by repeat split; left |].
  apply Forall_cons in Hms as [H Hms]. cbn [foldl].
  destruct m as [c | l | f | d]; cbn [of_teardown] in H; [| | | done]; cbn [rcv_step].
  - rewrite H. set (r1 := rcvmsg_update_ctx r CK_CTX_TEARDOWN).
    assert (E : failctx r1 = failctx r /\ rmsg_msg r1 = rmsg_msg r /\ test_file r1 = test_file r /\
      test_line r1 = test_line r /\ rmsg_duration r1 = rmsg_duration r /\ lastctx r1 = CK_CTX_TEARDOWN).
    { unfold r1, rcvmsg_update_ctx. by case_decide. }
    destruct E as (E1 & E2 & E3 & E4 & E5 & E6).
    destruct (IH r1) as (F1 & F2 & F3 & F4 & F5 & F6); [by rewrite E1 | by rewrite E2 | done |].
    rewrite F1, F2, F3, F4, F5. repeat (split; [done |]). right. destruct F6 as [-> | ->]; done.
  - rewrite decide_False by done. by apply IH.
  - rewrite decide_False by done. by apply IH.
Qed.

(** ... and a trace changes nothing. *)
Lemma fold_trace_after_failure cs r : failctx r <> CK_CTX_INVALID -> rmsg_msg r <> None ->
  foldl rcv_step r (trace_msgs cs) = r.
Proof.
  intros Hf Hm. unfold trace_msgs. induction cs as [| c cs IH]; [done |]. cbn [made fmap list_fmap concat].
  rewrite foldl_app. assert (E : foldl rcv_step r (call_msgs c) = r).
  { destruct c; try done; cbn [call_msgs foldl rcv_step]; rewrite (decide_False (P := failctx r = _)) by done; [done |].
    by rewrite decide_False by done. }
  rewrite E. by destruct (is_assert c).
Qed.

(** Messages left in a channel by unchecked teardowns do not count for what follows. *)
Definition harmless (ms : list CheckMsg) : Prop :=
  forall k, rcvmsg_update_ctx (rcv_fold ms) k = rcvmsg_update_ctx rcvmsg_init k.

Lemma harmless_nil : harmless [].
Proof. done. Qed.
Lemma harmless_clean ms : harmless ms -> clean (rcv_fold ms).
Proof.
  intros H. specialize (H CK_CTX_TEST).
  assert (E : forall r k, failctx (rcvmsg_update_ctx r k) = failctx r /\ rmsg_msg (rcvmsg_update_ctx r k) = rmsg_msg r)
    by (intros r k; unfold rcvmsg_update_ctx; by case_decide).
  destruct (E (rcv_fold ms) CK_CTX_TEST) as [E1 E2]. rewrite H in E1, E2. by split.
Qed.
Lemma harmless_fold ms k ms' : harmless ms ->
  rcv_fold (ms ++ ctx_msg (mkCtxMsg k) :: ms') = rcv_fold (ctx_msg (mkCtxMsg k) :: ms').
Proof. intros H. unfold rcv_fold in *. rewrite foldl_app. cbn [foldl rcv_step ctx]. by rewrite H. Qed.

Lemma harmless_teardown ms cs : harmless ms -> failed cs = false -> harmless (ms ++ m_teardown :: trace_msgs cs).
Proof.
  intros H Hf k. unfold m_teardown. rewrite harmless_fold by done.
  rewrite fail_at_failed in Hf. pose proof (fold_teardown rcvmsg_init cs ltac:(done)) as [T1 T2 T3 _ F].
  destruct (fail_at cs) as [x |] eqn:Ex; [done |]. destruct F as [F1 F2].
  assert (L : lastctx (foldl rcv_step rcvmsg_init (m_teardown :: trace_msgs cs)) = CK_CTX_TEARDOWN).
  { by apply (fold_trace CK_CTX_TEARDOWN cs (rcv_step rcvmsg_init m_teardown)). }
  unfold rcv_fold. unfold m_teardown in *.
  destruct (foldl rcv_step rcvmsg_init _) as [lc fc ff fl tf tl m d]. cbn in *. subst. done.
Qed.
Lemma harmless_teardowns css : forall ms, harmless ms -> fails css = false -> harmless (ms ++ teardown_msgs css).
Proof.
  unfold msgs_of. induction css as [| cs css IH]; intros ms H Hf; [by rewrite app_nil_r |].
  cbn [fails existsb] in Hf. apply orb_false_iff in Hf as [H1 H2]. cbn [fmap list_fmap concat].
  rewrite app_assoc. apply IH; [by apply harmless_teardown | done].
Qed.

(** ** Running the fixtures of a list *)

Lemma put_fixture_tests ck b tc tc' l w : look (tflst_ptr tc') (put (fixture_ptr ck b tc) l w) = look (tflst_ptr tc') w.
Proof.
  rewrite fixture_ptr_field. unfold tflst_ptr, field_ptr, upd_heap. cbn.
  destruct (tcases (the_heap w) !! tc) as [t |] eqn:Ht; [| done]. cbn. destruct (decide (tc' = tc)) as [-> | Hne].
  - rewrite lookup_insert_eq, Ht. by destruct ck, b.
  - by rewrite lookup_insert_ne by congruence.
Qed.
Lemma put_fixtures_frame ck b tc l q w xs : holds (fixture_ptr ck b tc) w xs -> lrep l (mkAlist xs q) ->
  frame w (put (fixture_ptr ck b tc) l w).
Proof.
  intros Hh Hr. destruct (put_fixtures_alike _ _ _ _ _ _ _ Hh Hr) as (x & Ex & Hx). rewrite Ex.
  constructor; [constructor; try done | done..]. intros tc'.
  assert (E : look (tflst_ptr tc') (put (fixture_ptr ck b tc) l w) = look (tflst_ptr tc') w) by apply put_fixture_tests.
  by rewrite Ex in E.
Qed.

Section Fixtures.
Context {plat : Platform} {plat_ok : PlatformOK}.
Context (ck b : bool) (tc : loc) (fs : list Fixture) (fp : Z) (pm : list CheckMsg) (st : fork_status).
Context {R : Type} (body : Fixture -> M world (option R)) (stopped : outcome (option R)).
Abbreviation p := (fixture_ptr ck b tc).
Hypothesis stopped_halts : halts stopped.
(** The body of the loop: the announcement, the calls of the fixture, and on to the next unless
    it failed. *)
Hypothesis body_sends : forall f w ms cs, cs = fun_ f (p_umem (w_proc w)) -> fstat_cur (the_statics w) = st ->
  Forall plain_call cs -> channel w fp ms -> Forall (sendable w) (pm ++ trace_msgs cs) -> in_time w (trace_time cs) ->
  sends inert w fp ms (body f) (if failed cs then stopped else Ret None) (pm ++ trace_msgs cs) (trace_time cs)
    (mem cs (p_umem (w_proc w))).

(** After the calls [css] of some of the fixtures. *)
Abbreviation made_calls w ms css := (sent frame w fp ms (msgs_of pm css) (total css) (mem_all css (p_umem (w_proc w)))).

Lemma put_cursor_sent w ms css l q t : made_calls w ms css t -> holds p t fs -> lrep l (mkAlist fs q) ->
  made_calls w ms css (put p l t).
Proof.
  intros [Hc Hf Ht Hm] Hh Hr. destruct (put_fixtures_alike _ _ _ _ _ _ _ Hh Hr) as (x & E & _).
  pose proof (put_fixtures_frame _ _ _ _ _ _ _ Hh Hr) as Hp.
  constructor; [| by etrans | by rewrite E | by rewrite E].
  destruct Hc as [Hc1 Hc2]. constructor; by rewrite E.
Qed.

Lemma fixture_body_sent w ms k f t : let u := p_umem (w_proc w) in let css := fixture_calls fs u in
  let pre := fixture_calls (take k fs) u in let cs := fun_ f (mem_all pre u) in
  fs !! k = Some f -> fails pre = false -> fstat_cur (the_statics w) = st ->
  Forall (Forall plain_call) css -> Forall (sendable w) (msgs_of pm css) -> in_time w (total css) ->
  made_calls w ms pre t ->
  fixture_calls (take (S k) fs) u = pre ++ [cs] /\ (failed cs = true -> css = pre ++ [cs]) /\
  exists t', body f t = (if failed cs then stopped else Ret None, t') /\ made_calls w ms (pre ++ [cs]) t' /\
    look p t' = look p t.
Proof.
  intros u css pre cs Hk Hnf Hst Hp Hs Ht Hmade.
  destruct (fixture_calls_step fs u k f Hk Hnf) as (E1 & post & E2 & Epost). fold pre cs in E1, E2, Epost. fold css in E2.
  split; [exact E1 |]. split; [intros Ef; by rewrite E2, (Epost Ef) |].
  rewrite E2, cons_middle, !msgs_of_app, msgs_of_one in Hs. rewrite E2 in Hp, Ht.
  apply Forall_app in Hp as [_ Hp]. apply Forall_cons in Hp as [Hpc Hpr].
  apply Forall_app in Hs as [_ Hs]. apply Forall_app in Hs as [Hsc _].
  pose proof (se_mem _ _ _ _ _ _ _ _ Hmade) as Hu. fold u in Hu.
  destruct (body_sends f t (ms ++ msgs_of pm pre) cs) as (t' & E & H').
  - by rewrite Hu.
  - by rewrite (sent_fstat _ _ _ _ _ _ _ Hmade).
  - done.
  - apply Hmade.
  - by eapply (sent_send_all (F:=frame)).
  - eapply (sent_in_time (F:=frame)); [exact Hmade |]. eapply in_time_less; [exact Ht |].
    rewrite total_app. cbn. fold (total post). pose proof (total_nonneg _ Hpr). lia.
  - exists t'. split; [exact E |]. split.
    + rewrite msgs_of_app, msgs_of_one, total_app, mem_all_app. cbn [total foldr fmap list_fmap mem_all foldl].
      rewrite Z.add_0_r. eapply sent_trans; [exact Hmade |]. fold u. rewrite <- Hu.
      destruct H' as [C [F _] T M]. by constructor.
    + destruct H' as [_ [_ Hh] _ _]. rewrite fixture_ptr_field. cbn. by rewrite Hh.
Qed.

(** The fixtures of the list, up to the first that fails. *)
Lemma fixtures_sends w ms : let css := fixture_calls fs (p_umem (w_proc w)) in
  holds p w fs -> channel w fp ms -> fstat_cur (the_statics w) = st ->
  Forall (Forall plain_call) css -> Forall (sendable w) (msgs_of pm css) -> in_time w (total css) ->
  sends frame w fp ms (list_for p body) (if fails css then stopped else Ret None) (msgs_of pm css) (total css)
    (mem_all css (p_umem (w_proc w))).
Proof.
  intros css Hh Hc Hst Hp Hs Ht. set (u := p_umem (w_proc w)) in *.
  destruct (list_for_until p
    (fun k t => fails (fixture_calls (take k fs) u) = false /\ made_calls w ms (fixture_calls (take k fs) u) t)
    (fun o t => o = stopped /\ fails css = true /\ made_calls w ms css t) body fs) with (t := w)
    as [(t' & E & [Hnf H'] & _) | (o & t' & E & _ & -> & Hf & H')].
  - intros k l q t [Hnf H'] Hht Hr. split; [done | by eapply put_cursor_sent].
  - intros k f t Hk [Hnf H'] _.
    destruct (fixture_body_sent w ms k f t Hk Hnf Hst Hp Hs Ht H') as (E1 & E2 & t' & E & Hs' & Hl).
    fold u in E1, E2, E, Hs'. fold css in E2. set (cs := fun_ f _) in *.
    destruct (failed cs) eqn:Ef; [right | left].
    + exists stopped, t'. split; [exact E |]. split; [done |]. split; [done |]. rewrite (E2 eq_refl).
      split; [| done]. rewrite fails_app. cbn. by rewrite Ef, orb_true_r.
    + exists t'. split; [exact E |]. split; [| done]. rewrite E1, fails_app, Hnf. cbn. by rewrite Ef.
  - exact Hh.
  - split; [done |]. by apply sent_nil.
  - rewrite firstn_all in *. exists t'. fold css in Hnf. by rewrite Hnf.
  - exists t'. by rewrite Hf.
Qed.
End Fixtures.
