(* ===== verification/TestSpec.v ===== *)
(** * The processes around a test (src/check_run.c)

    The process between two tests, ready to run one ([standby]); the fixtures of a test as
    messages sent; setups in the process, one by one; what the receiver makes of the messages
    of a script; a child on its copy of the process, waited for, killed at its time limit, and
    what it leaves of the parent ([isolated]). *)
From S2P Require Import Prelude Error Types CList Pack PackSpec World Str Result Msg MsgSpec.
From S2P Require Import Loops Core CoreSpec Alike Print Log Run StatusSpec TraceSpec FixtureSpec.

(** ** Between two tests *)

(** The fork status the runner is configured for, by its field or by CK_FORK. *)
Definition mode (w : world) (sr : loc) (st : fork_status) : Prop :=
  exists r, srunners (the_heap w) !! sr = Some r /\
    st = if decide (fstat r = CK_FORK_GETENV) then
           match env (w_proc w) !! "CK_FORK" with
           | Some e => if decide (e = "no") then CK_NOFORK else CK_FORK
           | None => CK_FORK
           end
         else fstat r.
(** A process that can use its channel, which holds at most what unchecked teardowns sent. *)
Record standby {plat : Platform} (w : world) (fp : Z) (ms0 : list CheckMsg) : Prop := mkStandby {
  sb_messaging : messaging w;
  sb_channel : channel w fp ms0;
  sb_harmless : harmless ms0;
  sb_send : Forall (sendable w) ms0;
  sb_deadline : deadline (w_os w) = None
}.

Section Modes.
Context {plat : Platform} {plat_ok : PlatformOK}.

Lemma mode_run w sr st : mode w sr st -> srunner_fork_status sr w = (Ret st, w).
Proof.
  intros (r & Hr & ->). unfold srunner_fork_status, get_srunner. rewrite bind_assoc.
  rewrite (bind_ret _ _ _ _ _ (gets_run _ _)). erewrite bind_ret by by apply deref_Some.
  destruct (decide (fstat r = CK_FORK_GETENV)); [| done]. unfold getenv.
  by rewrite (bind_ret _ _ _ _ _ (gets_run _ _)).
Qed.

(** A computation that only reads. *)
Lemma sends_read F `{!Frames F} {A B} w fp ms (m : M world A) (f : A -> M world B) a o ms' e u :
  m w = (Ret a, w) -> sends F w fp ms (f a) o ms' e u -> sends F w fp ms (m ≫= f) o ms' e u.
Proof. intros E (w' & E' & H). exists w'. by rewrite (bind_ret _ _ _ _ _ E). Qed.

(** How a failed fixture leaves the test. *)
Definition fixture_outcome {A} (st : fork_status) (a : A) : outcome A :=
  if decide (st = CK_FORK) then Exit 1 else Ret a.

(** The teardowns of a list. *)
Lemma teardowns_sends ck tc usage st fs w fp ms : st = CK_FORK \/ st = CK_NOFORK ->
  usage = CK_NOFORK \/ usage = CK_FORK /\ st = CK_FORK ->
  fstat_cur (the_statics w) = st -> holds (fixture_ptr ck false tc) w fs -> channel w fp ms ->
  let css := fixture_calls fs (p_umem (w_proc w)) in
  Forall (Forall plain_call) css -> Forall (sendable w) (teardown_msgs css) -> in_time w (total css) ->
  sends frame w fp ms (srunner_run_teardown (fixture_ptr ck false tc) usage)
    (if fails css then fixture_outcome st tt else Ret tt) (teardown_msgs css) (total css)
    (mem_all css (p_umem (w_proc w))).
Proof.
  intros Hst Hus Hf Hh Hc css Hp Hs Ht. unfold srunner_run_teardown.
  match goal with |- context [list_for _ ?b] => set (body := b) end.
  destruct (fixtures_sends ck false tc fs fp [m_teardown] st body (fixture_outcome st (Some tt)))
    with (w := w) (ms := ms) as (w' & E & H'); try done.
  - unfold fixture_outcome. by destruct Hst as [-> | ->].
  - intros f w1 ms1 cs Hcs Hf1 Hp1 Hc1 [Hs1 Hs2]%Forall_app Ht1. apply Forall_cons in Hs1 as [Hs1 _].
    change (trace_time cs) with (0 + trace_time cs).
    eapply sends_bind; [by apply send_ctx_sends |]. intros w2 H2. pose proof (se_mem _ _ _ _ _ _ _ _ H2) as Hu.
    destruct (call_sfun_sends w2 fp _ (fun_ f) cs ltac:(by rewrite Hu) Hp1 (se_channel _ _ _ _ _ _ _ _ H2))
      as (w3 & E & H3); [by eapply sent_send_all | by eapply sent_in_time |].
    rewrite (sent_fstat _ _ _ _ _ _ _ H2), Hf1 in E. rewrite Hu in H3. exists w3. split; [| done].
    destruct Hus as [-> | [-> ->]]; [rewrite (decide_True (P := CK_NOFORK = _)) by done |
      rewrite (decide_False (P := CK_FORK = _)) by done];
      unfold setjmp, mbind, M_bind, trace_outcome, assert_outcome, fixture_outcome in *; rewrite E;
      [destruct Hst as [-> | ->], (failed cs) | destruct (failed cs)]; done.
  - exists w'. split; [| exact H']. unfold mbind, M_bind. fold body. rewrite E. unfold fixture_outcome. fold css.
    by destruct (fails css), Hst as [-> | ->].
Qed.

(** The setups of a test, in its child. *)
Lemma setups_sends tc fs w fp ms n1 n2 : fstat_cur (the_statics w) = CK_FORK ->
  holds (fixture_ptr true true tc) w fs -> channel w fp ms ->
  let css := fixture_calls fs (p_umem (w_proc w)) in
  Forall (Forall plain_call) css -> Forall (sendable w) (m_setup :: traces css) -> in_time w (total css) ->
  sends frame w fp ms (srunner_run_setup (fixture_ptr true true tc) CK_FORK n1 n2)
    (if fails css then Exit 1 else Ret None) (m_setup :: traces css) (total css) (mem_all css (p_umem (w_proc w))).
Proof.
  intros Hf Hh Hc css Hp [Hs1 Hs2]%Forall_cons Ht. unfold srunner_run_setup. rewrite (decide_True (P := CK_FORK = _)) by done.
  change (m_setup :: traces css) with ([m_setup] ++ traces css). change (total css) with (0 + total css).
  eapply sends_bind; [by apply sends_inert, send_ctx_sends |]. intros w1 H1. pose proof (se_mem _ _ _ _ _ _ _ _ H1) as Hu.
  unfold css. rewrite <- Hu. apply (fixtures_sends true true tc fs fp [] CK_FORK).
  - done.
  - intros f w2 ms2 cs Hcs Hf2 Hp2 Hc2 Hs Ht2. rewrite (decide_False (P := CK_FORK = _)) by done.
    destruct (call_sfun_sends w2 fp ms2 (fun_ f) cs Hcs Hp2 Hc2 Hs Ht2) as (w3 & E & H3). rewrite Hf2 in E.
    exists w3. split; [| done]. unfold mbind, M_bind. rewrite E. unfold trace_outcome. by destruct (failed cs).
  - by eapply tested_fixtures; [eapply (sent_tested (F := frame)) |].
  - apply H1.
  - by rewrite (sent_fstat _ _ _ _ _ _ _ H1).
  - by rewrite Hu.
  - rewrite Hu. by eapply (sent_send_all (F := frame)).
  - rewrite Hu. by eapply (sent_in_time (F := frame)).
Qed.

(** ** Receiving *)

Lemma receive_standby w fp ms r b : messaging w -> channel w fp ms -> Forall (sendable w) ms ->
  deadline (w_os w) = None -> rcv_result ms = Some r ->
  receive_test_result b w = (Ret (Some (result_of r b)), reset_channel fp w) /\
  tested w (reset_channel fp w) /\ standby (reset_channel fp w) (next_file (w_os w)) [].
Proof.
  intros Hm Hc Hs Hd Hr. split; [by apply (receive_run w fp ms) |].
  destruct (reset_channel_channel _ _ _ Hm Hc) as [Hc' Hm'].
  split; [constructor; try done; exact (reset_channel_depth w fp ms Hm Hc w eq_refl) |].
  by constructor.
Qed.

(** The verdict on a test in the process. *)
Definition nofork_verdict (tr : TestResult) : TestResult :=
  match tr_msg tr with
  | None => set_msg (Some "Passed") (set_rtype CK_PASS tr)
  | Some _ => set_rtype CK_FAILURE tr
  end.
Lemma set_nofork_info_run tr (w : world) : set_nofork_info tr w = (Ret (nofork_verdict tr), w).
Proof.
  unfold set_nofork_info, nofork_verdict. destruct (tr_msg tr); [by rewrite decide_False |].
  by rewrite decide_True, (bind_ret _ _ _ _ _ (pass_msg_run _)).
Qed.

Lemma receive_nofork w fp ms r tcname tname i d : messaging w -> channel w fp ms -> Forall (sendable w) ms ->
  deadline (w_os w) = None -> rcv_result ms = Some r ->
  receive_result_info_nofork tcname tname i d w =
    (Ret (nofork_verdict (set_duration d (set_names tcname tname i (result_of r false)))), reset_channel fp w) /\
  tested w (reset_channel fp w) /\ standby (reset_channel fp w) (next_file (w_os w)) [].
Proof.
  intros Hm Hc Hs Hd Hr. destruct (receive_standby w fp ms r false Hm Hc Hs Hd Hr) as (E & H).
  split; [| exact H]. unfold receive_result_info_nofork. rewrite (bind_ret _ _ _ _ _ E).
  apply set_nofork_info_run.
Qed.

(** What a receiver makes of messages that follow a change of context, whatever harmless ones
    came before. *)
Definition heard (k : ck_result_ctx) (ms : list CheckMsg) : RcvMsg :=
  foldl rcv_step (rcv_step rcvmsg_init (ctx_msg (mkCtxMsg k))) ms.
Lemma rcv_heard ms0 k ms : harmless ms0 -> lastctx (heard k ms) <> CK_CTX_INVALID ->
  rcv_result (ms0 ++ ctx_msg (mkCtxMsg k) :: ms) = Some (heard k ms).
Proof. intros H Hl. unfold rcv_result. rewrite harmless_fold by done. by rewrite decide_False. Qed.

(** ** Setups in the process *)

Lemma nofork_setup_verdict n1 n2 i d x r : lastctx r = CK_CTX_SETUP -> rmsg_duration r = d ->
  match x with
  | None => failctx r = CK_CTX_INVALID /\ rmsg_msg r = None
  | Some (f, l, m) => failctx r = CK_CTX_SETUP /\ rmsg_msg r = Some m /\ fixture_file r = Some f /\ fixture_line r = l
  end ->
  let tr := nofork_verdict (set_duration d (set_names n1 n2 i (result_of r false))) in
  (if decide (rtype tr <> CK_PASS) then Some tr else None) = failure_result CK_CTX_SETUP n1 n2 i d <$> x.
Proof.
  destruct r as [lc fc ff fl tf tl m dd]. cbn. intros -> -> Hx. destruct x as [[[f l] t] |].
  - by destruct Hx as (-> & -> & -> & ->).
  - by destruct Hx as [-> ->].
Qed.

Definition setup_turn (n1 n2 : string) (f : Fixture) : M world (option TestResult) :=
  send_ctx_info CK_CTX_SETUP ;;
  setjmp (call_sfun (fun_ f)) ;;
  tr ← receive_result_info_nofork n1 n2 0 (-1);
  mret (if decide (rtype tr <> CK_PASS) then Some tr else None).

Lemma setup_turn_run n1 n2 f w fp ms0 cs : standby w fp ms0 -> fstat_cur (the_statics w) = CK_NOFORK ->
  cs = fun_ f (p_umem (w_proc w)) -> Forall plain_call cs -> Forall (sendable w) (m_setup :: trace_msgs cs) ->
  exists w' fp', setup_turn n1 n2 f w = (Ret (failure_result CK_CTX_SETUP n1 n2 0 (-1) <$> fail_at cs), w') /\
    tested w w' /\ standby w' fp' [] /\ p_umem (w_proc w') = mem cs (p_umem (w_proc w)) /\
    the_heap w' = the_heap w.
Proof.
  intros [Hm Hc Hh Hs0 Hd] Hf Hcs Hp Hs. pose proof Hs as [Hs1 Hs2]%Forall_cons. unfold setup_turn.
  assert (Hin : forall e, in_time w e) by (intros e; unfold in_time; by rewrite Hd).
  destruct (send_ctx_sends w fp ms0 CK_CTX_SETUP Hc Hs1) as (w1 & E1 & H1). fold m_setup in H1.
  rewrite (bind_ret _ _ _ _ _ E1). pose proof (se_mem _ _ _ _ _ _ _ _ H1) as Hu.
  pose proof (call_sfun_sends w1 fp _ (fun_ f) cs ltac:(by rewrite Hu) Hp (se_channel _ _ _ _ _ _ _ _ H1)
    ltac:(by eapply sent_send_all) ltac:(by eapply sent_in_time)) as H2.
  rewrite (sent_fstat _ _ _ _ _ _ _ H1), Hf, Hu in H2. apply setjmp_sends in H2 as (w2 & E2 & H2).
  rewrite (bind_ret _ _ _ _ _ E2). pose proof (sent_trans _ _ _ _ _ _ _ _ _ _ _ H1 H2) as H12.
  pose proof (fold_trace CK_CTX_SETUP cs (rcv_step rcvmsg_init m_setup) ltac:(done) eq_refl eq_refl eq_refl) as [L D _ _ X].
  change (foldl rcv_step _ (trace_msgs cs)) with (heard CK_CTX_SETUP (trace_msgs cs)) in *.
  destruct (receive_nofork w2 fp (ms0 ++ m_setup :: trace_msgs cs) (heard CK_CTX_SETUP (trace_msgs cs)) n1 n2 0 (-1))
    as (E3 & Ht3 & Hsb3).
  - eapply frame_messaging; [apply (se_rel _ _ _ _ _ _ _ _ H12) | done].
  - apply H12.
  - eapply (sent_send_all (F := inert)); [exact H12 |]. by apply Forall_app.
  - by rewrite (td_deadline _ _ (sent_tested _ _ _ _ _ _ _ H12)).
  - apply rcv_heard; [done | by rewrite L].
  - exists (reset_channel fp w2), (next_file (w_os w2)). rewrite (bind_ret _ _ _ _ _ E3). split; [| split; [| split; [done | split]]].
    + rewrite mret_run. do 2 f_equal. by apply nofork_setup_verdict.
    + etrans; [by eapply sent_tested | done].
    + exact (se_mem _ _ _ _ _ _ _ _ H12).
    + exact (in_heap _ _ (se_rel _ _ _ _ _ _ _ _ H12)).
Qed.

(** The setups of a list, one after the other, up to the first that fails; each is received. *)
Lemma setups_nofork ck tc fs n1 n2 w fp ms0 : standby w fp ms0 -> fstat_cur (the_statics w) = CK_NOFORK ->
  holds (fixture_ptr ck true tc) w fs ->
  let css := fixture_calls fs (p_umem (w_proc w)) in
  Forall (Forall plain_call) css -> Forall (sendable w) (msgs_of [m_setup] css) ->
  exists w' fp' ms', srunner_run_setup (fixture_ptr ck true tc) CK_NOFORK n1 n2 w =
      (Ret (failure_result CK_CTX_SETUP n1 n2 0 (-1) <$> first_fail css), w') /\
    tested w w' /\ standby w' fp' ms' /\ p_umem (w_proc w') = mem_all css (p_umem (w_proc w)).
Proof.
  intros Hsb Hf Hh css Hp Hs. set (u := p_umem (w_proc w)) in *. unfold srunner_run_setup.
  rewrite (decide_False (P := CK_NOFORK = _)), (bind_ret _ _ _ _ _ (mret_run _ _)) by done.
  match goal with |- context [list_for _ ?b] => change b with (setup_turn n1 n2) end.
  destruct (list_for_until (fixture_ptr ck true tc)
    (fun k t => fails (fixture_calls (take k fs) u) = false /\ tested w t /\
       p_umem (w_proc t) = mem_all (fixture_calls (take k fs) u) u /\ exists fp' ms', standby t fp' ms')
    (fun o t => o = Ret (failure_result CK_CTX_SETUP n1 n2 0 (-1) <$> first_fail css) /\ tested w t /\
       p_umem (w_proc t) = mem_all css u /\ exists fp' ms', standby t fp' ms') (setup_turn n1 n2) fs) with (t := w)
    as [(t' & E & (Hnf & Ht & Hu & fp' & ms' & Hsb') & _) | (o & t' & E & _ & -> & Ht & Hu & fp' & ms' & Hsb')].
  - intros k l q t (Hnf & Ht & Hu & fp' & ms' & [M1 M2 M3 M4 M5]) Hht Hr.
    destruct (put_fixtures_alike _ _ _ _ _ _ _ Hht Hr) as (x & E & _).
    pose proof (put_fixtures_frame _ _ _ _ _ _ _ Hht Hr) as Hp'. split; [done |].
    split; [etrans; [exact Ht | by apply fr_tested] |]. split; [by rewrite E |]. exists fp', ms'.
    constructor; [by eapply frame_messaging | | done | by eapply tested_send_all; [apply fr_tested |] | by rewrite E].
    destruct M2 as [C1 C2]. constructor; by rewrite E.
  - intros k f t Hk (Hnf & Ht & Hu & fp' & ms' & Hsb') _.
    destruct (fixture_calls_step fs u k f Hk Hnf) as (E1 & post & E2 & Epost).
    set (pre := fixture_calls (take k fs) u) in *. set (cs := fun_ f (mem_all pre u)) in *. fold css in E2.
    rewrite E2 in Hp. apply Forall_app in Hp as [_ [Hpc _]%Forall_cons].
    rewrite E2, cons_middle, !msgs_of_app, msgs_of_one in Hs. apply Forall_app in Hs as [_ [Hsc _]%Forall_app].
    destruct (setup_turn_run n1 n2 f t fp' ms' cs Hsb') as (t' & fp2 & E & Ht2 & Hsb2 & Hu2 & Hheap).
    { by rewrite (td_fstat _ _ Ht). } { by rewrite Hu. } { done. } { by eapply tested_send_all. }
    rewrite Hu in Hu2. rewrite fail_at_failed in Epost. destruct (fail_at cs) as [x |] eqn:Ex; [right | left].
    + eexists _, t'. split; [exact E |]. split; [done |]. rewrite E2, (Epost eq_refl).
      assert (Eff : first_fail (pre ++ [cs]) = Some x).
      { unfold first_fail. rewrite omap_app. apply fails_none in Hnf. unfold first_fail in Hnf.
        destruct (omap fail_at pre); [| done]. cbn. by rewrite Ex. }
      rewrite Eff. split; [done |]. split; [by etrans |]. split; [by rewrite mem_all_app |]. by exists fp2, [].
    + exists t'. split; [exact E |]. split.
      * rewrite E1, fails_app, Hnf, mem_all_app. cbn. rewrite fail_at_failed, Ex.
        split; [done |]. split; [by etrans |]. split; [done |]. by exists fp2, [].
      * rewrite fixture_ptr_field. cbn. by rewrite Hheap.
  - exact Hh.
  - split; [done |]. split; [done |]. split; [done |]. by exists fp, ms0.
  - rewrite firstn_all in *. fold css in Hnf, Hu. exists t', fp', ms'. by rewrite (fails_none _ Hnf).
  - by exists t', fp', ms'.
Qed.
End Modes.

(** ** What the messages of a script tell *)

Definition ending_result (tcname : string) (t : TTest) (i d : Z) (s : script) : TestResult :=
  match (if failed (sc_test s) then None else first_fail (sc_teardowns s)) with
  | Some x => failure_result CK_CTX_TEARDOWN tcname (tt_name t) i d x
  | None => plain_result tcname t i (sc_test s) d
  end.

(** The record of a test whose setups did not fail. *)
Record tells (t : TTest) (s : script) (d : Z) (r : RcvMsg) : Prop := mkTells {
  te_last : lastctx r = CK_CTX_TEST \/ lastctx r = CK_CTX_TEARDOWN;
  te_duration : rmsg_duration r = d;
  te_fails : match (if failed (sc_test s) then None else first_fail (sc_teardowns s)) with
    | Some (f, l, m) => failctx r = CK_CTX_TEARDOWN /\ rmsg_msg r = Some m /\
        fixture_file r = Some f /\ fixture_line r = l
    | None => failctx r = (if failed (sc_test s) then CK_CTX_TEST else CK_CTX_INVALID) /\
        rmsg_msg r = fail_text (sc_test s) /\
        test_file r = Some (fst (last_loc (tt_file t, tt_line t) (sc_test s))) /\
        test_line r = snd (last_loc (tt_file t, tt_line t) (sc_test s))
    end
}.

Lemma fail_text_none cs : failed cs = false -> fail_text cs = None.
Proof.
  intros H. destruct (fail_text cs) eqn:E; [| done].
  assert (Hf : failed cs = true) by (apply fail_text_failed; by rewrite E). congruence.
Qed.
Lemma fail_text_some cs : failed cs = true -> exists m, fail_text cs = Some m.
Proof. apply fail_text_failed. Qed.

Lemma tells_of r t su cs fs u : clean r -> let td := fixture_calls fs u in
  tells t (mkScript su cs td) (rmsg_duration r) (foldl rcv_step r (test_msgs t cs ++ teardown_msgs td)).
Proof.
  intros [Hf Hm] td. rewrite foldl_app, (rcv_test_msgs r t cs Hf Hm). set (r1 := mkRcvMsg _ _ _ _ _ _ _ _).
  destruct (failed cs) eqn:Ef.
  - destruct (fail_text_some _ Ef) as [m Em].
    destruct (fold_after_failure (teardown_msgs td) r1 ltac:(done) ltac:(by cbn; rewrite Em) (teardown_msgs_kinds td))
      as (F1 & F2 & F3 & F4 & F5 & F6).
    constructor; [done | by rewrite F5 |]. cbn [sc_test]. rewrite Ef, F1, F2, F3, F4. done.
  - destruct (fold_teardowns fs u r1) as [F1 F2 F3 F4 F5]; [by split; [| cbn; apply fail_text_none] |].
    fold td in F1, F2, F3, F4, F5. constructor; [done | done |]. cbn [sc_test sc_teardowns]. rewrite Ef.
    destruct (first_fail td) as [[[f l] m] |]; [done |]. destruct F5 as [-> ->].
    rewrite F1, F2, (fail_text_none _ Ef). done.
Qed.

Lemma nofork_ending tcname t i d d' s r : tells t s d r ->
  nofork_verdict (set_duration d' (set_names tcname (tt_name t) i (result_of r false))) = ending_result tcname t i d' s.
Proof.
  intros [L D X]. unfold ending_result, plain_result. destruct r as [lc fc ff fl tf tl m dd]. cbn in *.
  destruct (failed (sc_test s)) eqn:Ef.
  - destruct (fail_text_some _ Ef) as [x Ex]. rewrite Ex in *. destruct X as (-> & -> & -> & ->).
    by destruct (last_loc _ _).
  - destruct (first_fail (sc_teardowns s)) as [[[f l] x] |].
    + by destruct X as (-> & -> & -> & ->).
    + rewrite (fail_text_none _ Ef) in *. destruct X as (-> & -> & -> & ->).
      destruct (last_loc _ _). by destruct L as [-> | ->].
Qed.

(** The time limit of a test case in nanoseconds; none when it is zero. *)
Definition limit_of (x : timespec) : option Z :=
  let ns := tv_sec x * NANOS_PER_SECONDS + tv_nsec x in
  if decide (ns = 0) then None else Some ns.

(** The world in which the child of [w] starts. *)
Definition child_world (w : world) (x : timespec) : world :=
  let pid := next_pid (w_os w) in
  mkWorld (set_ids pid (p_pgid (w_proc w)) (w_proc w))
    (put_alarm (Z.add (clock (w_os w)) <$> limit_of x) false (put_next_pid (pid + 1) (w_os w))).
(** What a test in a child leaves alone in the process that runs it. *)
Record isolated (w w' : world) : Prop := mkIsolated {
  is_heap : the_heap w' = the_heap w;
  is_env : env (w_proc w') = env (w_proc w);
  is_signals : the_signals w' = the_signals w;
  is_pid : p_pid (w_proc w') = p_pid (w_proc w);
  is_pgid : p_pgid (w_proc w') = p_pgid (w_proc w);
  is_fstat : fstat_cur (the_statics w') = fstat_cur (the_statics w);
  is_max : max_msg_size (the_statics w') = max_msg_size (the_statics w);
  is_tap : num_tests_run (the_statics w') = num_tests_run (the_statics w);
  is_umem : p_umem (w_proc w') = p_umem (w_proc w);
  is_test : current_test_name (the_statics w') = current_test_name (the_statics w)
}.

(** How a child ends, as the outcome of its computation. *)
Definition stops {A} (c : cause) : outcome A :=
  match c with exited code => Exit code | signalled s => Killed s end.

(** The result of a test in a child that ended by [c] after sending messages that fold to
    [r]; [fired] tells whether its time limit expired. *)
Definition fork_result {plat : Platform} (tcname : string) (tf : TF) (i : Z) (c : cause)
    (fired : bool) (r : RcvMsg) : TestResult :=
  let tr := set_names tcname (tt_name (ttest tf)) i (result_of r (waserror (wstatus c) (tf_signal tf))) in
  let '(rt, m) := verdict c (tf_signal tf) (allowed_exit_value tf) fired (tr_msg tr) in
  set_msg (Some m) (set_rtype rt tr).

Section Fork.
Context {plat : Platform} {plat_ok : PlatformOK}.
Lemma killpg_other g sig w :
  g <> p_pgid (w_proc w) -> g <> 0 ->
  killpg g sig w = (Ret false, on_os (fun o => put_kills (kills o ++ [(g, sig)]) o) w).
Proof.
  intros H1 H2. unfold killpg. rewrite (bind_ret _ _ _ _ _ (modify_run _ _)).
  rewrite (bind_ret _ _ _ _ _ (gets_run _ _)). cbn. by rewrite decide_False by tauto.
Qed.

(** The world of the parent when its child is reaped: its own process, the child's system. *)
Definition reaped (w wc : world) (fired : bool) : world :=
  let pid := next_pid (w_os w) in
  let w1 := upd_statics (fun s => put_alarm_received (if fired then 1 else 0) (put_group_pid pid s))
              (mkWorld (w_proc w) (w_os wc)) in
  on_os (fun o => put_kills (kills o ++ (if fired then [(pid, SIGKILL)] else []) ++ [(pid, SIGKILL)])
                    (put_alarm None false o)) w1.

(** In the handler of SIGALRM the parent notes the alarm and kills the group of the child. *)
Lemma deliver_alarm_run w :
  sigact (the_signals w) !! SIGALRM = Some SIG_HANDLER ->
  group_pid (the_statics w) <> p_pgid (w_proc w) -> group_pid (the_statics w) <> 0 ->
  deliver SIGALRM w =
    (Ret tt, on_os (fun o => put_kills (kills o ++ [(group_pid (the_statics w), SIGKILL)]) o)
               (upd_statics (put_alarm_received 1) w)).
Proof.
  intros Hs Hg H0. unfold deliver. rewrite decide_False by done.
  unfold sigaction_get. rewrite (bind_ret _ _ _ _ _ (gets_run _ _)). rewrite Hs.
  change (default SIG_DFL (Some SIG_HANDLER)) with SIG_HANDLER. cbv iota.
  unfold sig_handler. rewrite decide_True by done. rewrite bind_assoc.
  rewrite (bind_ret _ _ _ _ _ (modify_run _ _)). rewrite bind_assoc.
  rewrite (bind_ret _ _ _ _ _ (gets_run _ _)). rewrite bind_assoc.
  change (group_pid (the_statics (upd_statics (put_alarm_received 1) w)))
    with (group_pid (the_statics w)).
  by rewrite (bind_ret _ _ _ _ _ (killpg_other (group_pid (the_statics w)) SIGKILL
    (upd_statics (put_alarm_received 1) w) Hg H0)).
Qed.

Lemma waitpid_run w image (child : M world Empty_set) c wc fired pid :
  child (mkWorld image (w_os w)) = (stops c, wc) -> alarm_fired (w_os wc) = fired ->
  (fired = true -> sigact (the_signals w) !! SIGALRM = Some SIG_HANDLER) ->
  group_pid (the_statics w) = pid -> alarm_received (the_statics w) = 0 ->
  pid <> p_pgid (w_proc w) -> pid <> 0 ->
  (status ← waitpid image child; timer_delete ;; mret status) w =
    (Ret (wstatus c),
     on_os (fun o => put_kills (kills o ++ (if fired then [(pid, SIGKILL)] else [])) (put_alarm None false o))
       (upd_statics (put_alarm_received (if fired then 1 else 0)) (mkWorld (w_proc w) (w_os wc)))).
Proof.
  intros Hch Hf Hs Hg Ha Hpg H0.
  set (w' := mkWorld (w_proc w) (w_os wc)).
  assert (Hwait : waitpid image child w =
    (if fired then (deliver SIGALRM ;; mret (wstatus c)) (on_os (fun o => put_alarm (deadline o) false o) w')
     else (Ret (wstatus c), w'))).
  { unfold waitpid. rewrite Hch. destruct c; cbn [stops]; fold w'; cbn [w_os];
      change (w_os w') with (w_os wc); by rewrite Hf. }
  destruct fired.
  - assert (Hd := deliver_alarm_run (on_os (fun o => put_alarm (deadline o) false o) w') (Hs eq_refl)).
    change (group_pid (the_statics (on_os _ w'))) with (group_pid (the_statics w)) in Hd.
    rewrite Hg in Hd. specialize (Hd Hpg H0).
    rewrite (bind_ret _ _ _ _ _ Hd) in Hwait. by rewrite (bind_ret _ _ _ _ _ Hwait).
  - rewrite (bind_ret _ _ _ _ _ Hwait). unfold timer_delete.
    rewrite (bind_ret _ _ _ _ _ (modify_run _ _)). rewrite mret_run.
    unfold on_os, upd_statics, on_proc, w', the_statics in *. cbn. rewrite app_nil_r.
    destruct w as [[? ? ? ? ? [] ? ?] ?]. cbn in *. by subst.
Qed.

Lemma tfun_fork_wait w sr tc t tf i c wc fired :
  tcases (the_heap w) !! tc = Some t ->
  child_main sr tc tf i (child_world w (timeout t)) = (stops c, wc) -> alarm_fired (w_os wc) = fired ->
  (fired = true -> sigact (the_signals w) !! SIGALRM = Some SIG_HANDLER) ->
  next_pid (w_os w) <> p_pgid (w_proc w) -> next_pid (w_os w) <> 0 ->
  tcase_run_tfun_fork sr tc tf i w =
    receive_result_info_fork (tc_name t) (tt_name (ttest tf)) i (wstatus c) (tf_signal tf)
      (allowed_exit_value tf) (reaped w wc fired).
Proof.
  intros Ht Hch Hf Hs Hpg H0. unfold tcase_run_tfun_fork, fork. rewrite bind_assoc.
  rewrite (bind_ret _ _ _ _ _ (gets_run _ _)). rewrite ok_fork. rewrite bind_assoc.
  rewrite (bind_ret _ _ _ _ _ (gets_run _ _)). rewrite bind_assoc.
  rewrite (bind_ret _ _ _ _ _ (gets_run _ _)). rewrite bind_assoc.
  rewrite (bind_ret _ _ _ _ _ (modify_run _ _)). rewrite (bind_ret _ _ _ _ _ (mret_run _ _)).
  rewrite (bind_ret _ _ _ _ _ (modify_run _ _)). rewrite (bind_ret _ _ _ _ _ (modify_run _ _)).
  rewrite (bind_ret _ _ _ _ _ (get_clockid_run _)).
  rewrite (bind_ret _ _ _ _ _ (gets_run _ _)). rewrite ok_timer. rewrite bind_assoc.
  set (w1 := upd_statics (put_alarm_received 0) _).
  assert (Ht1 : tcases (the_heap w1) !! tc = Some t) by done.
  rewrite (bind_ret _ _ _ _ _ (get_tcase_run _ _ _ Ht1)). rewrite bind_assoc.
  set (w2 := mkWorld (w_proc w1) (w_os (child_world w (timeout t)))).
  assert (Hset : timer_settime (timeout t) w1 = (Ret true, w2)).
  { unfold timer_settime. rewrite (bind_ret _ _ _ _ _ (gets_run _ _)). rewrite ok_settime.
    rewrite (bind_ret _ _ _ _ _ (modify_run _ _)). rewrite mret_run.
    unfold w2, child_world, limit_of, on_os. cbn. by case_decide. }
  rewrite (bind_ret _ _ _ _ _ Hset).
  assert (Hw2 := waitpid_run w2 (set_ids (next_pid (w_os w)) (p_pgid (w_proc w)) (w_proc w))
    (child_main sr tc tf i) c wc fired (next_pid (w_os w)) Hch Hf Hs eq_refl eq_refl Hpg H0).
  rewrite (bind_ret _ _ _ _ _ Hw2).
  erewrite bind_ret by by apply killpg_other.
  match goal with |- _ ?s = _ => set (w3 := s) end.
  assert (Ht3 : tcases (the_heap w3) !! tc = Some t) by done.
  rewrite (bind_ret _ _ _ _ _ (get_tcase_run _ _ _ Ht3)).
  unfold w3, reaped, w2, w1, on_os, upd_statics, on_proc. cbn. do 2 f_equal. by rewrite <- app_assoc.
Qed.
End Fork.
