(* ===== verification/ScriptSpec.v ===== *)
(** * The script of a test and its result (src/check_run.c)

    A test of a test case, from a given memory of the user's code: its script is what its setups,
    its function and its teardowns do.  Running the test, in a child or in the process, gives the
    result of its script. *)
From S2P Require Import Prelude Error Types CList Pack PackSpec World Str Result Msg MsgSpec.
From S2P Require Import Loops Core CoreSpec Alike Print Log Run StatusSpec TraceSpec FixtureSpec.
From S2P Require Import TestSpec.

(** A script of calls that neither exit nor raise signals, short enough for the time limit [x]
    and for the channel. *)
Record plain_script {plat : Platform} (w : world) (x : timespec) (t : TTest) (s : script) : Prop := mkPlainScript {
  ps_setups : Forall (Forall plain_call) (sc_setups s);
  ps_test : Forall plain_call (sc_test s);
  ps_teardowns : Forall (Forall plain_call) (sc_teardowns s);
  ps_send_setups : Forall (sendable w) (msgs_of [m_setup] (sc_setups s));
  ps_send : Forall (sendable w) (test_msgs t (sc_test s) ++ teardown_msgs (sc_teardowns s));
  ps_time : trace_time (sc_test s) < INT_MAX * 1000;
  ps_limit : forall l, limit_of x = Some l -> total (sc_setups s) + trace_time (sc_test s) + total (sc_teardowns s) < l
}.

(** ** In a child *)

(** What the child of a script sends; [d] is the duration it reports when nothing fails. *)
Definition child_msgs (t : TTest) (s : script) (d : Z) : list CheckMsg :=
  m_setup :: traces (sc_setups s) ++
    (if fails (sc_setups s) then [] else
     test_msgs t (sc_test s) ++ teardown_msgs (sc_teardowns s) ++
       (if failed (sc_test s) || fails (sc_teardowns s) then [] else [duration_msg (mkDurationMsg d)])).

(** The child when its setups start, in its own process group. *)
Definition child_start (w : world) (x : timespec) : world :=
  upd_statics (put_group_pid (next_pid (w_os w)))
    (on_proc (fun p => set_ids (p_pid p) (p_pid p) p) (child_world w x)).

Section Child.
Context {plat : Platform} {plat_ok : PlatformOK}.

(** What the child does after its test function has returned. *)
Definition child_rest (tc : loc) (ts_start : timespec) : M world Empty_set :=
  ts_end ← clock_gettime CLOCK_MONOTONIC;
  tcase_run_checked_teardown tc ;;
  send_duration_info (s32 (DIFF_IN_USEC ts_start ts_end)) ;;
  stop (Exit 0).

(** What it does from its setups on. *)
Definition child_body (sr tc : loc) (tf : TF) (i : Z) : M world Empty_set :=
  tcase_run_checked_setup sr tc ;;
  clk ← check_get_clockid;
  ts_start ← clock_gettime clk;
  (tcase_fn_start (tt_name (ttest tf)) (tt_file (ttest tf)) (tt_line (ttest tf)) ;;
   call_tfun (fn (ttest tf)) i) ≫= (fun _ => child_rest tc ts_start).
Lemma child_main_eq w x sr tc tf i :
  child_main sr tc tf i (child_world w x) = child_body sr tc tf i (child_start w x).
Proof.
  unfold child_main, child_body. rewrite (bind_ret _ _ _ _ _ (modify_run _ _)), (bind_ret _ _ _ _ _ (gets_run _ _)).
  rewrite (bind_ret _ _ _ _ _ (modify_run _ _)). apply bind_ext. intros r w1 _.
  apply bind_ext. intros clk w2 _. apply bind_ext. intros ts w3 _. by rewrite bind_assoc.
Qed.

Lemma usec_range c e : 0 <= e < INT_MAX * 1000 -> 0 <= usec c e <= INT_MAX.
Proof.
  unfold usec, INT_MAX. intros He. split.
  - pose proof (Z.div_le_mono c (c + e) 1000). lia.
  - assert ((c + e) / 1000 <= c / 1000 + 2147483647); [| lia].
    rewrite <- Z.div_add by lia. apply Z.div_le_mono; lia.
Qed.

Lemma small_sendable w m d : sendable w m -> 0 <= d <= INT_MAX ->
  sendable w (duration_msg (mkDurationMsg d)).
Proof.
  intros [_ Hl] Hd. pose proof (enc_length_ge m). unfold sendable, msg_ok. rewrite enc_length.
  unfold INT_MAX in *. cbn [duration]. lia.
Qed.
Lemma setup_sendable w m : sendable w m -> sendable w m_setup.
Proof.
  intros [_ Hl]. pose proof (enc_length_ge m). unfold sendable, msg_ok, m_setup. rewrite enc_length.
  unfold INT_MAX in *. cbn. lia.
Qed.

Lemma child_start_channel w fp ms0 x : standby w fp ms0 -> channel (child_start w x) fp ms0.
Proof. intros [_ [H1 H2] _ _ _]. by constructor. Qed.
Lemma child_start_case w x c : case_at w c -> case_at (child_start w x) c.
Proof.
  intros H. apply (still_case 0 w); [| done]. by apply heap_still.
Qed.

Lemma checked_setup_sends w sr c fp ms : case_at w c -> mode w sr CK_FORK -> fstat_cur (the_statics w) = CK_FORK ->
  channel w fp ms -> let css := fixture_calls (c_fixtures c true true) (p_umem (w_proc w)) in
  Forall (Forall plain_call) css -> Forall (sendable w) (m_setup :: traces css) -> in_time w (total css) ->
  sends frame w fp ms (tcase_run_checked_setup sr (c_loc c)) (if fails css then Exit 1 else Ret None)
    (m_setup :: traces css) (total css) (mem_all css (p_umem (w_proc w))).
Proof.
  intros Hc Hm Hf Hch css Hp Hs Ht. pose proof (ca_tcase _ _ Hc) as (t & Htc & _). unfold tcase_run_checked_setup.
  eapply (sends_read frame); [by apply mode_run |]. eapply (sends_read frame); [by apply get_tcase_run |].
  apply (setups_sends (c_loc c) (c_fixtures c true true)); try done. apply (ca_fixtures _ _ Hc true true).
Qed.

Lemma traces_sendable w css : Forall (sendable w) (msgs_of [m_setup] css) -> sendable w m_setup ->
  Forall (sendable w) (m_setup :: traces css).
Proof.
  intros H Hm. constructor; [done |]. unfold msgs_of in *. induction css as [| cs css IH]; [constructor |].
  cbn [fmap list_fmap concat app] in *. apply Forall_cons in H as [_ [H1 H2]%Forall_app].
  apply Forall_app. split; [done | by apply IH].
Qed.

(** The child after its test function has returned. *)
Lemma child_rest_sends w c fp ms ts0 e cs : case_at w c -> fstat_cur (the_statics w) = CK_FORK -> channel w fp ms ->
  let td := fixture_calls (c_fixtures c true false) (p_umem (w_proc w)) in
  Forall (Forall plain_call) td -> Forall (sendable w) (teardown_msgs td) -> in_time w (total td) ->
  ts0 = ts_of (clock (w_os w) - e) -> 0 <= e < INT_MAX * 1000 -> sendable w cs ->
  let d := usec (clock (w_os w) - e) e in
  sends frame w fp ms (child_rest (c_loc c) ts0) (Exit (if fails td then 1 else 0))
    (teardown_msgs td ++ (if fails td then [] else [duration_msg (mkDurationMsg d)])) (total td)
    (mem_all td (p_umem (w_proc w))).
Proof.
  intros Hc Hf Hch td Hp Hs Ht -> He Hsm d. unfold child_rest.
  eapply (sends_read frame); [apply clock_gettime_run |].
  pose proof (teardowns_sends true (c_loc c) CK_NOFORK CK_FORK (c_fixtures c true false) w fp ms ltac:(by left)
    ltac:(by left) Hf (ca_fixtures _ _ Hc true false) Hch Hp Hs Ht) as Htd. fold td in Htd.
  unfold tcase_run_checked_teardown. change (ch_tflst_ptr (c_loc c)) with (fixture_ptr true false (c_loc c)).
  destruct (fails td) eqn:Ef.
  - rewrite app_nil_r. exact (sends_stop (F := frame) _ _ _ _ _ _ _ _ _ Htd ltac:(done)).
  - rewrite <- (Z.add_0_r (total td)). eapply (sends_bind (F := frame)); [exact Htd |]. intros w1 H1.
    rewrite diff_in_usec. replace (clock (w_os w) / 1000 - (clock (w_os w) - e) / 1000) with d
      by (unfold d, usec; by rewrite Z.sub_add).
    pose proof (usec_range (clock (w_os w) - e) e He) as Hu. rewrite s32_small by done.
    assert (Hsd : sendable w1 (duration_msg (mkDurationMsg d))).
    { eapply tested_sendable; [by eapply (sent_tested (F := frame)) |]. by eapply small_sendable. }
    destruct (send_duration_sends w1 fp _ d (se_channel _ _ _ _ _ _ _ _ H1) Hsd) as (w2 & E2 & H2).
    exists w2. rewrite (bind_ret _ _ _ _ _ E2). split; [done |].
    destruct H2 as [C2 [F2 _] T2 M2]. constructor; [done | done | done |]. rewrite M2. apply H1.
Qed.

(** The refinement: the child does what the script says, in its order, up to the first failure,
    and its exit status tells whether there was one. *)
Lemma child_body_sends w x sr c tf i fp ms : case_at w c -> mode w sr CK_FORK ->
  fstat_cur (the_statics w) = CK_FORK -> channel w fp ms ->
  let s := script_of CK_FORK c tf i (p_umem (w_proc w)) in
  let e := total (sc_setups s) + trace_time (sc_test s) + total (sc_teardowns s) in
  let d := usec (clock (w_os w) + total (sc_setups s)) (trace_time (sc_test s)) in
  plain_script w x (ttest tf) s -> sendable w m_setup -> in_time w e ->
  sends frame w fp ms (child_body sr (c_loc c) tf i) (Exit (if script_fails s then 1 else 0))
    (child_msgs (ttest tf) s d) e (memory_after s (p_umem (w_proc w))).
Proof.
  intros Hc Hm Hf Hch s e d [P1 P2 P3 S1 S2 Ht _] Hss Hin. set (u := p_umem (w_proc w)) in *.
  pose proof (total_nonneg _ P1) as N1. pose proof (trace_time_nonneg _ P2) as N2. pose proof (total_nonneg _ P3) as N3.
  pose proof (checked_setup_sends w sr c fp ms Hc Hm Hf Hch P1 (traces_sendable _ _ S1 Hss)
    ltac:(eapply in_time_less; [exact Hin | change (total (sc_setups s) <= e); unfold e; lia])) as Hsu. fold u in Hsu.
  set (su := fixture_calls (c_fixtures c true true) u) in *. unfold child_body.
  revert P2 P3 S1 S2 Ht Hin N2 N3. unfold e, d, child_msgs, memory_after, script_fails. clear e d.
  unfold s, script_of. fold su. cbn [sc_setups sc_test sc_teardowns]. destruct (fails su) eqn:Ef.
  - intros _ _ _ _ _ _ _ _. cbn. rewrite !Z.add_0_r, app_nil_r.
    exact (sends_stop (F := frame) _ _ _ _ _ _ _ _ _ Hsu ltac:(done)).
  - set (cs := fn (ttest tf) i (mem_all su u)). cbn [orb]. rewrite bool_decide_true, andb_true_l by done.
    intros P2 P3 S1 S2 Ht Hin N2 N3. rewrite app_comm_cons, <- Z.add_assoc.
    eapply (sends_bind (F := frame)); [exact Hsu |]. intros w1 H1. pose proof (se_mem _ _ _ _ _ _ _ _ H1) as Hu1.
    eapply (sends_read frame); [apply get_clockid_run |]. eapply (sends_read frame); [apply clock_gettime_run |].
    pose proof (sent_tested (F := frame) _ _ _ _ _ _ _ H1) as Ht1. pose proof (tested_case _ _ _ Ht1 Hc) as Hc1.
    apply Forall_app in S2 as [S2 S3].
    pose proof (test_body_sends w1 fp _ (ttest tf) i cs ltac:(by rewrite Hu1) P2 (se_channel _ _ _ _ _ _ _ _ H1)
      ltac:(by eapply tested_send_all)
      ltac:(eapply (sent_in_time (F := frame)); [exact H1 | eapply in_time_less; [exact Hin |]; lia])) as Hb.
    rewrite (td_fstat _ _ Ht1), Hf, Hu1 in Hb. unfold trace_outcome in Hb. apply sends_inert in Hb.
    destruct (failed cs) eqn:Ec.
    + cbn. rewrite Z.add_0_r, app_nil_r. exact (sends_stop (F := frame) _ _ _ _ _ _ _ _ _ Hb ltac:(done)).
    + eapply (sends_bind (F := frame)); [exact Hb |]. intros w2 H2. pose proof (se_mem _ _ _ _ _ _ _ _ H2) as Hu2.
      pose proof (sent_tested (F := frame) _ _ _ _ _ _ _ H2) as Ht2.
      pose proof (child_rest_sends w2 c fp ((ms ++ m_setup :: traces su) ++ test_msgs (ttest tf) cs) (ts_of (clock (w_os w1))) (trace_time cs) m_setup
        (tested_case _ _ _ Ht2 Hc1)) as Hr. rewrite Hu2 in Hr. cbn [orb].
      rewrite (se_clock _ _ _ _ _ _ _ _ H2), Z.add_simpl_r, (se_clock _ _ _ _ _ _ _ _ H1) in Hr.
      rewrite (se_clock _ _ _ _ _ _ _ _ H1). apply Hr.
      * by rewrite (td_fstat _ _ Ht2), (td_fstat _ _ Ht1).
      * apply H2.
      * done.
      * eapply tested_send_all; [exact Ht2 |]. by eapply tested_send_all.
      * eapply (sent_in_time (F := frame)); [exact H2 |]. eapply (sent_in_time (F := frame)); [exact H1 |]. by rewrite Z.add_assoc.
      * done.
      * lia.
      * eapply tested_sendable; [exact Ht2 |]. by eapply tested_sendable.
Qed.
End Child.

(** ** The result of a script *)

Section Results.
Context {plat : Platform} {plat_ok : PlatformOK}.

Lemma tells_duration t s d0 d r : tells t s d0 r -> tells t s d (rcv_step r (duration_msg (mkDurationMsg d))).
Proof. intros [L _ X]. by constructor. Qed.

Lemma fork_ending n1 tf i s d r : tells (ttest tf) s d r -> tf_signal tf = 0 -> allowed_exit_value tf = 0 ->
  let bad := failed (sc_test s) || fails (sc_teardowns s) in
  fork_result n1 tf i (exited (if bad then 1 else 0)) false r =
    ending_result n1 (ttest tf) i (if bad then -1 else d) s.
Proof.
  intros [L D X] Hs Ha bad. unfold bad, fork_result, ending_result, plain_result. rewrite Hs, Ha, waserror_spec by done.
  destruct r as [lc fc ff fl tf' tl m dd]. cbn in D, L, X. subst dd. destruct (failed (sc_test s)) eqn:Ef.
  - destruct (fail_text_some _ Ef) as [y Ey]. rewrite Ey in *. destruct X as (-> & -> & -> & ->). by destruct (last_loc _ _).
  - rewrite first_fail_fails. destruct (first_fail (sc_teardowns s)) as [[[f l] y] |].
    + by destruct X as (-> & -> & -> & ->).
    + rewrite (fail_text_none _ Ef) in *. destruct X as (-> & -> & -> & ->).
      destruct (last_loc _ _). by destruct L as [-> | ->].
Qed.

Lemma fork_setup_verdict n1 tf i r f l m : lastctx r = CK_CTX_SETUP -> rmsg_duration r = -1 ->
  failctx r = CK_CTX_SETUP -> rmsg_msg r = Some m -> fixture_file r = Some f -> fixture_line r = l ->
  tf_signal tf = 0 -> allowed_exit_value tf = 0 ->
  fork_result n1 tf i (exited 1) false r = failure_result CK_CTX_SETUP n1 (tt_name (ttest tf)) i (-1) (f, l, m).
Proof.
  destruct r as [lc fc ff fl tf' tl m' dd]. cbn. intros -> -> -> -> -> -> Hs Ha.
  unfold fork_result. by rewrite Hs, Ha, waserror_spec.
Qed.

(** What the parent makes of the messages of the child. *)
Lemma rcv_child ms0 c tf i u d n1 : harmless ms0 -> tf_signal tf = 0 -> allowed_exit_value tf = 0 ->
  let s := script_of CK_FORK c tf i u in
  exists r, rcv_result (ms0 ++ child_msgs (ttest tf) s d) = Some r /\
    fork_result n1 tf i (exited (if script_fails s then 1 else 0)) false r =
      script_result CK_FORK n1 tf i (if script_fails s then -1 else d) s.
Proof.
  intros Hh Hsig Hall s. unfold child_msgs, script_fails, s, script_of. cbn [sc_setups sc_test sc_teardowns].
  set (su := fixture_calls (c_fixtures c true true) u).
  pose proof (fold_fixtures CK_CTX_SETUP (c_fixtures c true true) u
    (rcv_step rcvmsg_init (ctx_msg (mkCtxMsg CK_CTX_SETUP))) ltac:(done) eq_refl ltac:(done)) as Hfo. fold su in Hfo. set (r1 := foldl rcv_step _ (traces su)) in Hfo.
  destruct (fails su) eqn:Ef; cbn [orb].
  - destruct (fails_some _ Ef) as [[[f l] m] Ex]. rewrite Ex in Hfo. destruct Hfo as [L D _ _ (X1 & X2 & X3 & X4)].
    exists r1. split.
    + rewrite app_nil_r. apply rcv_heard; [done |]. change (lastctx r1 <> CK_CTX_INVALID). by rewrite L.
    + unfold script_result. cbn [sc_setups]. rewrite Ex. by rewrite (fork_setup_verdict n1 tf i r1 f l m).
  - rewrite bool_decide_true, andb_true_l by done. set (cs := fn (ttest tf) i (mem_all su u)).
    set (td := if failed cs then [] else fixture_calls (c_fixtures c true false) (mem cs (mem_all su u))).
    rewrite (fails_none _ Ef) in Hfo. destruct Hfo as [L D _ _ Hcl].
    assert (Htd : exists fs u', td = fixture_calls fs u') by (unfold td; destruct (failed cs); [by exists [], u | by do 2 eexists]).
    destruct Htd as (fs & u' & Etd). pose proof (tells_of r1 (ttest tf) su cs fs u' Hcl) as Ht. rewrite <- Etd, D in Ht.
    set (s' := mkScript su cs td) in *. cbv zeta in Ht.
    set (r2 := foldl rcv_step r1 (test_msgs (ttest tf) cs ++ teardown_msgs td)) in Ht.
    assert (Hres : forall d, script_result CK_FORK n1 tf i d s' = ending_result n1 (ttest tf) i d s').
    { intros d'. unfold script_result. cbn [sc_setups s']. by rewrite (fails_none _ Ef). }
    rewrite Hres. pose proof (fork_ending n1 tf i s') as Hfe. cbn [sc_test sc_teardowns s'] in Hfe.
    cbv zeta in Hfe. revert Hfe. destruct (failed cs || fails td); intros Hfe.
    + exists r2. split; [| by apply (Hfe (-1))].
      rewrite app_nil_r. assert (Eh : heard CK_CTX_SETUP (traces su ++ test_msgs (ttest tf) cs ++ teardown_msgs td) = r2)
        by (unfold heard; by rewrite foldl_app).
      rewrite <- Eh. apply rcv_heard; [done |]. rewrite Eh. by destruct (te_last _ _ _ _ Ht) as [-> | ->].
    + exists (rcv_step r2 (duration_msg (mkDurationMsg d))). split; [| by apply (Hfe d _ (tells_duration _ _ _ _ _ Ht))].
      assert (Eh : heard CK_CTX_SETUP (traces su ++ test_msgs (ttest tf) cs ++ teardown_msgs td ++
        [duration_msg (mkDurationMsg d)]) = rcv_step r2 (duration_msg (mkDurationMsg d)))
        by (unfold heard, r2; by rewrite (app_assoc (test_msgs _ _)), !foldl_app).
      rewrite <- Eh. apply rcv_heard; [done |]. rewrite Eh. change (lastctx r2 <> CK_CTX_INVALID).
      by destruct (te_last _ _ _ _ Ht) as [-> | ->].
Qed.
End Results.

(** ** The two modes *)

(** In a child a test that failed skips its teardowns, and that is all. *)
Lemma script_modes c tf i u : let sf := script_of CK_FORK c tf i u in let sn := script_of CK_NOFORK c tf i u in
  sf = mkScript (sc_setups sn) (sc_test sn) (if failed (sc_test sn) then [] else sc_teardowns sn).
Proof.
  cbv zeta. unfold script_of. cbn [sc_setups sc_test sc_teardowns]. rewrite bool_decide_true, (bool_decide_false (CK_NOFORK = _)) by done.
  destruct (fails _); cbn [orb]; [done |]. by destruct (failed _).
Qed.

Lemma script_modes_fail c tf i u : script_fails (script_of CK_FORK c tf i u) = script_fails (script_of CK_NOFORK c tf i u).
Proof.
  rewrite script_modes. unfold script_fails. cbn [sc_setups sc_test sc_teardowns].
  destruct (failed (sc_test (script_of CK_NOFORK c tf i u))); [by rewrite !orb_true_r | done].
Qed.

Lemma script_modes_result n1 c tf i u d : fails (sc_setups (script_of CK_NOFORK c tf i u)) = false ->
  script_result CK_FORK n1 tf i d (script_of CK_FORK c tf i u) = script_result CK_NOFORK n1 tf i d (script_of CK_NOFORK c tf i u).
Proof.
  intros Hf. rewrite script_modes. unfold script_result. cbn [sc_setups sc_test sc_teardowns].
  rewrite (fails_none _ Hf). by destruct (failed (sc_test (script_of CK_NOFORK c tf i u))).
Qed.

Lemma script_modes_plain {plat : Platform} w x t c tf i u : plain_script w x t (script_of CK_NOFORK c tf i u) ->
  plain_script w x t (script_of CK_FORK c tf i u).
Proof.
  rewrite script_modes. intros [P1 P2 P3 S1 S2 T L]. destruct (failed (sc_test (script_of CK_NOFORK c tf i u))); [| done]. apply Forall_app in S2 as [S2 _].
  constructor; cbn [sc_setups sc_test sc_teardowns]; try done; [by rewrite app_nil_r |].
  intros l Hl. specialize (L l Hl). pose proof (total_nonneg _ P3). change (total []) with 0. lia.
Qed.

(** ** Running the test *)

Section Runs.
Context {plat : Platform} {plat_ok : PlatformOK}.

(** Any test in a child that ends, whatever it did: its result, and the state of the parent,
    ready for the next test. *)
Lemma reaped_run w sr c tf i fp ms0 cs wc ms r fired :
  standby w fp ms0 -> case_at w c -> cause_ok cs ->
  child_main sr (c_loc c) tf i (child_world w (c_timeout c)) = (stops cs, wc) -> alarm_fired (w_os wc) = fired ->
  (fired = true -> sigact (the_signals w) !! SIGALRM = Some SIG_HANDLER) ->
  0 <= p_pgid (w_proc w) < next_pid (w_os w) ->
  open_files (w_os wc) !! fp = Some (stream ms) -> Forall (sendable w) ms -> rcv_result ms = Some r ->
  let w' := reset_channel fp (reaped w wc fired) in
  tcase_run_tfun_fork sr (c_loc c) tf i w = (Ret (fork_result (c_name c) tf i cs fired r), w') /\
  isolated w w' /\ standby w' (next_file (w_os wc)) [] /\
  (out (w_os wc) = out (w_os w) -> paths (w_os wc) = paths (w_os w) ->
   next_pid (w_os wc) = next_pid (w_os w) + 1 -> tested w w').
Proof.
  intros [Hm Hc _ _ Hd] Hcase Hcok Hch Hf Hs Hpid Hst Hms Hr w'.
  destruct (ca_tcase _ _ Hcase) as (t & Ht & Hn & Hto & _). rewrite <- Hto in Hch.
  assert (Hm' : messaging (reaped w wc fired)) by (destruct Hm; constructor; done).
  assert (Hc' : channel (reaped w wc fired) fp ms) by (destruct Hc; by constructor).
  destruct (receive_standby (reaped w wc fired) fp ms r (waserror (wstatus cs) (tf_signal tf)) Hm' Hc' Hms eq_refl Hr)
    as (E & Htd & Hsb). fold w' in E, Htd, Hsb.
  split; [| split; [by constructor | split; [exact Hsb |]]].
  - rewrite (tfun_fork_wait _ _ _ _ _ _ _ _ _ Ht Hch Hf Hs) by lia. rewrite Hn. unfold receive_result_info_fork.
    rewrite (bind_ret _ _ _ _ _ E). rewrite set_fork_info_run by done. unfold fork_result.
    change (alarmed w') with (bool_decide ((if fired then 1 else 0) <> 0)).
    by replace (bool_decide ((if fired then 1 else 0) <> 0)) with fired by by destruct fired.
  - intros E1 E2 E3. etrans; [| exact Htd]. constructor; try done. cbn. lia.
Qed.

Lemma child_facts w x wc fp ms ms' e u : sent frame (child_start w x) fp ms ms' e u wc ->
  alarm_fired (w_os wc) = false /\ open_files (w_os wc) !! fp = Some (stream (ms ++ ms')) /\
  out (w_os wc) = out (w_os w) /\ paths (w_os wc) = paths (w_os w) /\ next_pid (w_os wc) = next_pid (w_os w) + 1.
Proof.
  intros [[_ Hs] [Ht _ _ _ Hal Hp _] _ _]. split; [exact Hal |]. split; [exact Hs |].
  split; [apply (td_out _ _ Ht) | split; [apply (td_paths _ _ Ht) | exact Hp]].
Qed.

Lemma script_setup_sendable w x t s : plain_script w x t s -> sendable w m_setup.
Proof.
  intros [_ _ _ _ H _ _]. apply Forall_app in H as [H _]. apply Forall_cons in H as [H _]. by eapply setup_sendable.
Qed.

Lemma child_msgs_sendable w x t s d : plain_script w x t s -> 0 <= d <= INT_MAX -> Forall (sendable w) (child_msgs t s d).
Proof.
  intros Hp Hd. pose proof (script_setup_sendable _ _ _ _ Hp) as Hm. destruct Hp as [_ _ _ S1 S2 _ _].
  unfold child_msgs. rewrite app_comm_cons. apply Forall_app. split; [by apply traces_sendable |].
  destruct (fails (sc_setups s)); [constructor |]. rewrite app_assoc. apply Forall_app. split; [done |].
  destruct (_ || _); [constructor |]. constructor; [by eapply small_sendable | constructor].
Qed.

(** A process and a test case whose tests can run in the mode [st]. *)
Record can_run (st : fork_status) (w : world) (sr : loc) (c : case) (fp : Z) (ms0 : list CheckMsg) : Prop := mkCanRun {
  cr_standby : standby w fp ms0;
  cr_case : case_at w c;
  cr_mode : mode w sr st;
  cr_fstat : fstat_cur (the_statics w) = st;
  cr_pid : 0 <= p_pgid (w_proc w) < next_pid (w_os w)
}.

(** A test in a child: the verdict on what its script makes it send and on its exit status,
    the parent untouched. *)
Lemma fork_messages w sr c tf i fp ms0 : can_run CK_FORK w sr c fp ms0 ->
  let s := script_of CK_FORK c tf i (p_umem (w_proc w)) in
  plain_script w (c_timeout c) (ttest tf) s ->
  let d := usec (clock (w_os w) + total (sc_setups s)) (trace_time (sc_test s)) in
  exists r w' fp', rcv_result (ms0 ++ child_msgs (ttest tf) s d) = Some r /\
    tcase_run_tfun_fork sr (c_loc c) tf i w =
      (Ret (fork_result (c_name c) tf i (exited (if script_fails s then 1 else 0)) false r), w') /\
    tested w w' /\ isolated w w' /\ standby w' fp' [].
Proof.
  intros [Hsb Hcase Hmode Hf Hpid] s Hp d. pose proof (script_setup_sendable _ _ _ _ Hp) as Hss.
  pose proof Hsb as [_ _ Hh Hs0 _].
  assert (Hd : 0 <= d <= INT_MAX) by (apply usec_range; split; [apply trace_time_nonneg |]; apply Hp).
  set (wa := child_start w (c_timeout c)).
  assert (Hsend : forall ms, Forall (sendable w) ms -> Forall (sendable wa) ms) by (intros ms H; eapply Forall_impl; [exact H | done]).
  destruct (child_body_sends wa (c_timeout c) sr c tf i fp ms0) as (wc & E & Hse).
  - by apply child_start_case.
  - exact Hmode.
  - exact Hf.
  - by apply child_start_channel.
  - destruct Hp. constructor; try done; by apply Hsend.
  - exact Hss.
  - unfold in_time. change (deadline (w_os wa)) with (Z.add (clock (w_os w)) <$> limit_of (c_timeout c)).
    destruct (limit_of (c_timeout c)) as [l |] eqn:El; [| done]. cbn. pose proof (ps_limit _ _ _ _ Hp l El). cbn in H. lia.
  - change (p_umem (w_proc wa)) with (p_umem (w_proc w)) in E, Hse. fold s in E, Hse.
    change (clock (w_os wa)) with (clock (w_os w)) in Hse. fold d in Hse.
    destruct (child_facts _ _ _ _ _ _ _ _ Hse) as (F1 & F2 & F3 & F4 & F5).
    destruct (rcv_child ms0 c (mkTF (ttest tf) 0 0 0 0) i (p_umem (w_proc w)) d (c_name c) Hh eq_refl eq_refl) as (r & Er & _).
    change (rcv_result (ms0 ++ child_msgs (ttest tf) s d) = Some r) in Er.
    destruct (reaped_run w sr c tf i fp ms0 (exited (if script_fails s then 1 else 0)) wc (ms0 ++ child_msgs (ttest tf) s d) r false)
      as (E1 & E2 & E3 & E4); try done.
    { by rewrite child_main_eq. }
    { apply Forall_app. split; [done | by eapply child_msgs_sendable]. }
    eexists r, _, _. split; [exact Er |]. split; [exact E1 |]. split; [by apply E4 |]. by split.
Qed.

(** The result of its script. *)
Lemma fork_script w sr c tf i fp ms0 : can_run CK_FORK w sr c fp ms0 ->
  tf_signal tf = 0 -> allowed_exit_value tf = 0 ->
  let s := script_of CK_FORK c tf i (p_umem (w_proc w)) in
  plain_script w (c_timeout c) (ttest tf) s ->
  exists w' fp', tcase_run_tfun_fork sr (c_loc c) tf i w =
      (Ret (script_result CK_FORK (c_name c) tf i
         (if script_fails s then -1 else usec (clock (w_os w) + total (sc_setups s)) (trace_time (sc_test s))) s), w') /\
    tested w w' /\ isolated w w' /\ standby w' fp' [].
Proof.
  intros Hr Hsig Hall s Hp. destruct (fork_messages w sr c tf i fp ms0 Hr Hp) as (r & w' & fp' & Er & E & H).
  fold s in Er, E. destruct (rcv_child ms0 c tf i (p_umem (w_proc w)) (usec (clock (w_os w) + total (sc_setups s)) (trace_time (sc_test s)))
    (c_name c) (sb_harmless _ _ _ (cr_standby _ _ _ _ _ _ Hr)) Hsig Hall) as (r' & Er' & Eres).
  fold s in Er', Eres. rewrite Er in Er'. injection Er' as <-. rewrite Eres in E. by exists w', fp'.
Qed.

(** A test in the process: the result of its script, on a channel that is empty again. *)
Lemma nofork_script w sr c tf i fp ms0 : can_run CK_NOFORK w sr c fp ms0 ->
  let s := script_of CK_NOFORK c tf i (p_umem (w_proc w)) in
  plain_script w (c_timeout c) (ttest tf) s ->
  exists d w' fp' ms', tcase_run_tfun_nofork sr (c_loc c) tf i w =
      (Ret (script_result CK_NOFORK (c_name c) tf i d s), w') /\
    tested w w' /\ standby w' fp' ms' /\ p_umem (w_proc w') = memory_after s (p_umem (w_proc w)).
Proof.
  intros [Hsb Hcase Hmode Hf _] s [P1 P2 P3 S1 S2 _ _]. set (u := p_umem (w_proc w)) in *.
  destruct (ca_tcase _ _ Hcase) as (t & Ht & Hn & _). unfold tcase_run_tfun_nofork, tcase_run_checked_setup.
  rewrite bind_assoc, (bind_ret _ _ _ _ _ (mode_run _ _ _ Hmode)), bind_assoc, (bind_ret _ _ _ _ _ (get_tcase_run _ _ _ Ht)).
  destruct (setups_nofork true (c_loc c) (c_fixtures c true true) (tc_name t) "checked_setup" w fp ms0 Hsb Hf
    (ca_fixtures _ _ Hcase true true) P1 S1) as (w1 & fp1 & ms1 & E1 & Ht1 & Hsb1 & Hu1).
  change (ch_sflst_ptr (c_loc c)) with (fixture_ptr true true (c_loc c)). rewrite (bind_ret _ _ _ _ _ E1), Hn. fold u in Hu1 |- *.
  revert P2 P3 S2. unfold memory_after, script_result. unfold s, script_of. cbn [sc_setups sc_test sc_teardowns].
  set (su := fixture_calls (c_fixtures c true true) u) in *. rewrite first_fail_fails.
  destruct (first_fail su) as [x |] eqn:Ex; cbn [orb fmap option_fmap option_map].
  { intros _ _ _. exists 0, w1, fp1, ms1. split; [by rewrite decide_True |]. done. }
  rewrite bool_decide_false, andb_false_l by done. set (cs := fn (ttest tf) i (mem_all su u)).
  set (td := fixture_calls (c_fixtures c true false) (mem cs (mem_all su u))). intros P2 P3 [S2 S3]%Forall_app.
  rewrite (bind_ret _ _ _ _ _ (get_clockid_run _)), (bind_ret _ _ _ _ _ (clock_gettime_run _ _)).
  pose proof Hsb1 as [M1 C1 H1 Hs1 D1].
  assert (Hin : forall e, in_time w1 e) by (intros e; unfold in_time; by rewrite D1).
  pose proof (test_body_sends w1 fp1 ms1 (ttest tf) i cs ltac:(by rewrite Hu1) P2 C1 ltac:(by eapply tested_send_all) (Hin _)) as Hb.
  rewrite (td_fstat _ _ Ht1), Hf in Hb. apply setjmp_sends, sends_inert in Hb as (w2 & E2 & H2).
  rewrite (bind_ret _ _ _ _ _ E2), (bind_ret _ _ _ _ _ (clock_gettime_run _ _)).
  pose proof (sent_tested (F := frame) _ _ _ _ _ _ _ H2) as Ht2. pose proof (transitivity Ht1 Ht2) as Ht12.
  pose proof (tested_case _ _ _ Ht12 Hcase) as Hcase2. pose proof (se_mem _ _ _ _ _ _ _ _ H2) as Hu2. rewrite Hu1 in Hu2.
  destruct (teardowns_sends true (c_loc c) CK_NOFORK CK_NOFORK (c_fixtures c true false) w2 fp1 (ms1 ++ test_msgs (ttest tf) cs))
    as (w3 & E3 & H3).
  { by right. } { by left. } { by rewrite (td_fstat _ _ Ht12), Hf. } { apply (ca_fixtures _ _ Hcase2 true false). } { apply H2. }
  { by rewrite Hu2. } { rewrite Hu2. by eapply tested_send_all. } { unfold in_time. by rewrite (td_deadline _ _ Ht2), D1. }
  rewrite Hu2 in E3, H3. fold td in E3, H3. replace (if fails td then _ else _) with (@Ret unit tt) in E3 by by destruct (fails td).
  unfold tcase_run_checked_teardown. change (ch_tflst_ptr (c_loc c)) with (fixture_ptr true false (c_loc c)).
  rewrite (bind_ret _ _ _ _ _ E3).
  pose proof (sent_trans (F := frame) _ _ _ _ _ _ _ _ _ _ _ H2 H3) as H23.
  pose proof (sent_tested (F := frame) _ _ _ _ _ _ _ H23) as Ht23. pose proof (transitivity Ht1 Ht23) as Ht3.
  destruct (ca_tcase _ _ (tested_case _ _ _ Ht3 Hcase)) as (t3 & Htc3 & Hn3 & _).
  rewrite (bind_ret _ _ _ _ _ (get_tcase_run _ _ _ Htc3)), Hn3.
  pose proof (tells_of rcvmsg_init (ttest tf) su cs (c_fixtures c true false) (mem cs (mem_all su u)) ltac:(done)) as Hte.
  fold td in Hte. cbv zeta in Hte.
  set (ms := test_msgs (ttest tf) cs ++ teardown_msgs td) in *.
  destruct (receive_nofork w3 fp1 (ms1 ++ ms) (foldl rcv_step rcvmsg_init ms) (c_name c) (tt_name (ttest tf)) i
    (s32 (DIFF_IN_USEC (ts_of (clock (w_os w1))) (ts_of (clock (w_os w2)))))) as (E4 & Ht4 & Hsb4).
  - eapply frame_messaging; [apply H23 | exact M1].
  - apply H23.
  - apply Forall_app. split; [by apply (tested_send_all w1) |]. apply Forall_app; split; by apply (tested_send_all w).
  - by rewrite (td_deadline _ _ Ht23).
  - apply (rcv_heard ms1 CK_CTX_TEST); [done |]. change (lastctx (foldl rcv_step rcvmsg_init ms) <> CK_CTX_INVALID).
    by destruct (te_last _ _ _ _ Hte) as [-> | ->].
  - eexists _, _, _, []. split; [| split; [by etrans | split; [exact Hsb4 |]]].
    + rewrite E4. by rewrite (nofork_ending _ _ _ _ _ _ _ Hte).
    + exact (se_mem _ _ _ _ _ _ _ _ H23).
Qed.
End Runs.

(** ** Tests that end otherwise: by exit, by a signal, or never *)

(** How a call ends the child, and whether by its time limit. *)
Definition abrupt_end (w : world) (x : timespec) (c : ucall) : option (cause * bool) :=
  match c with
  | u_exit code => Some (exited code, false)
  | u_raise s =>
    if decide (s = SIGKILL) then Some (signalled s, false)
    else if decide (1 <= s <= 64 /\ sigact (the_signals w) !! s = None /\
                    (s ∉ IGNORED_SIGNALS) /\ (s ∉ STOP_SIGNALS)) then Some (signalled s, false)
    else None
  | u_hang => (fun _ => (signalled SIGKILL, true)) <$> limit_of x
  | _ => None
  end.

(** The result of a test that ends by [c] after a beginning [pre] in which nothing failed. *)
Definition abrupt_result {plat : Platform} (tcname : string) (tf : TF) (i : Z) (pre : list ucall)
    (c : cause) (fired : bool) : TestResult :=
  let '(f, l) := last_loc (tt_file (ttest tf), tt_line (ttest tf)) pre in
  let '(rt, m) := verdict c (tf_signal tf) (allowed_exit_value tf) fired None in
  mkTestResult rt CK_CTX_TEST (Some f) l (Some i) (-1) (Some tcname) (Some (tt_name (ttest tf))) (Some m).

(** A test that, after setups that do not fail and a plain beginning [pre] in which nothing
    fails, makes a call that ends it by [cs]. *)
Record abrupt_script {plat : Platform} (w : world) (c : case) (tf : TF) (i : Z) (u : umem) (pre : list ucall)
    (cs : cause) (fired : bool) : Prop := mkAbruptScript {
  ab_setups : let su := fixture_calls (c_fixtures c true true) u in
    Forall (Forall plain_call) su /\ fails su = false /\ Forall (sendable w) (msgs_of [m_setup] su);
  ab_fn : exists call post,
    fn (ttest tf) i (mem_all (fixture_calls (c_fixtures c true true) u) u) = pre ++ call :: post /\
    abrupt_end w (c_timeout c) call = Some (cs, fired);
  ab_plain : Forall plain_call pre;
  ab_failed : failed pre = false;
  ab_limit : forall l, limit_of (c_timeout c) = Some l ->
    total (fixture_calls (c_fixtures c true true) u) + trace_time pre < l;
  ab_send : Forall (sendable w) (test_msgs (ttest tf) pre);
  ab_alarm : sigact (the_signals w) !! SIGALRM = Some SIG_HANDLER
}.

Section Abrupt.
Context {plat : Platform} {plat_ok : PlatformOK}.

Lemma default_action_run s w :
  s ∉ IGNORED_SIGNALS -> s ∉ STOP_SIGNALS -> default_action s w = (Killed s, w).
Proof. intros H1 H2. unfold default_action. by rewrite !decide_False by done. Qed.

Lemma deliver_run s w :
  s <> SIGKILL -> sigact (the_signals w) !! s = None -> s ∉ IGNORED_SIGNALS -> s ∉ STOP_SIGNALS ->
  deliver s w = (Killed s, w).
Proof.
  intros Hk Hd H1 H2. unfold deliver. rewrite decide_False by done. unfold sigaction_get.
  rewrite (bind_ret _ _ _ _ _ (gets_run _ _)). rewrite Hd. by apply default_action_run.
Qed.

(** The call ends the child at once, or at its time limit, and sends nothing. *)
Lemma abrupt_call w0 x call post c fired w :
  abrupt_end w0 x call = Some (c, fired) -> the_signals w = the_signals w0 ->
  deadline (w_os w) = (Z.add (clock (w_os w0)) <$> limit_of x) -> alarm_fired (w_os w) = false ->
  exists wc, run_ucalls (call :: post) w = (stops c, wc) /\ alarm_fired (w_os wc) = fired /\
    open_files (w_os wc) = open_files (w_os w) /\
    (out (w_os wc) = out (w_os w) /\ paths (w_os wc) = paths (w_os w) /\
     next_pid (w_os wc) = next_pid (w_os w)) /\ cause_ok c /\
    (fired = true -> clock (w_os wc) = clock (w_os w0) + default 0 (limit_of x)).
Proof.
  intros Ha Hsig Hd Hal. cbn [run_ucalls]. unfold abrupt_end in Ha. destruct call; try done.
  - simplify_eq. exists w. by split.
  - destruct (decide (sig = SIGKILL)) as [-> | Hk].
    + simplify_eq. exists w. split; [| done]. apply bind_killed. cbn [run_ucall].
      unfold deliver. by rewrite decide_True.
    + case_decide as Hs; [| done]. simplify_eq. destruct Hs as (Hr & Hn & Hs1 & Hs2).
      exists w. split; [| done]. apply bind_killed. apply deliver_run; [done | by rewrite Hsig | done..].
  - destruct (limit_of x) as [l |] eqn:El; [| done]. simpl in *. simplify_eq.
    eexists. split; [apply bind_killed; cbn [run_ucall]; unfold hang_forever;
      rewrite (bind_ret _ _ _ _ _ (gets_run _ _)), Hd; reflexivity |].
    split; [done |]. split; [done |]. split; [done |]. split; done.
Qed.
Lemma fork_abrupt_result ms0 c tf i u pre cs fired n1 : harmless ms0 -> cause_ok cs ->
  let su := fixture_calls (c_fixtures c true true) u in fails su = false -> failed pre = false ->
  exists r, rcv_result (ms0 ++ m_setup :: traces su ++ test_msgs (ttest tf) pre) = Some r /\
    fork_result n1 tf i cs fired r = abrupt_result n1 tf i pre cs fired.
Proof.
  intros Hh Hc su Hsu Hnf.
  pose proof (fold_fixtures CK_CTX_SETUP (c_fixtures c true true) u
    (rcv_step rcvmsg_init (ctx_msg (mkCtxMsg CK_CTX_SETUP))) ltac:(done) eq_refl ltac:(done)) as Hfo.
  fold su in Hfo. set (r1 := foldl rcv_step _ (traces su)) in Hfo. rewrite (fails_none _ Hsu) in Hfo.
  destruct Hfo as [L D _ _ [F1 F2]].
  pose proof (rcv_test_msgs r1 (ttest tf) pre F1 F2) as E. rewrite Hnf, (fail_text_none _ Hnf), D in E.
  exists (heard CK_CTX_SETUP (traces su ++ test_msgs (ttest tf) pre)).
  assert (Eh : heard CK_CTX_SETUP (traces su ++ test_msgs (ttest tf) pre) = foldl rcv_step r1 (test_msgs (ttest tf) pre))
    by (unfold heard; by rewrite foldl_app).
  split; [apply rcv_heard; [done | by rewrite Eh, E] |]. rewrite Eh, E.
  unfold fork_result, abrupt_result, result_of.
  cbn [rmsg_msg failctx lastctx test_file test_line rmsg_duration].
  destruct (last_loc (tt_file (ttest tf), tt_line (ttest tf)) pre) as [f l]. cbn [fst snd].
  destruct (waserror (wstatus cs) (tf_signal tf)); simpl;
    by destruct (verdict cs (tf_signal tf) (allowed_exit_value tf) fired None).
Qed.

(** The child of such a test. *)
Lemma abrupt_child w sr c tf i fp ms0 pre cs fired : can_run CK_FORK w sr c fp ms0 -> abrupt_script w c tf i (p_umem (w_proc w)) pre cs fired ->
  let su := fixture_calls (c_fixtures c true true) (p_umem (w_proc w)) in
  exists wc, child_main sr (c_loc c) tf i (child_world w (c_timeout c)) = (stops cs, wc) /\
    alarm_fired (w_os wc) = fired /\ cause_ok cs /\
    open_files (w_os wc) !! fp = Some (stream (ms0 ++ m_setup :: traces su ++ test_msgs (ttest tf) pre)) /\
    out (w_os wc) = out (w_os w) /\ paths (w_os wc) = paths (w_os w) /\ next_pid (w_os wc) = next_pid (w_os w) + 1 /\
    (fired = true -> clock (w_os wc) = clock (w_os w) + default 0 (limit_of (c_timeout c))).
Proof.
  intros [Hsb Hcase Hmode Hf _] [(P1 & Hnf & S1) (call & post & Hfn & Ha) P2 Hnp Hl S2 _] su. fold su in P1, Hnf, S1, Hl, Hfn.
  set (wa := child_start w (c_timeout c)).
  assert (Hsm : sendable w m_setup) by (apply Forall_cons in S2 as [H _]; by eapply setup_sendable).
  assert (Hin : in_time wa (total su + trace_time pre)).
  { unfold in_time. change (deadline (w_os wa)) with (Z.add (clock (w_os w)) <$> limit_of (c_timeout c)).
    destruct (limit_of (c_timeout c)) as [l |] eqn:El; [| done]. cbn. specialize (Hl l eq_refl). lia. }
  pose proof (trace_time_nonneg _ P2). rewrite child_main_eq. fold wa. unfold child_body.
  assert (Hsend : forall ms, Forall (sendable w) ms -> Forall (sendable wa) ms) by (intros ms H'; eapply Forall_impl; [exact H' | done]).
  destruct (checked_setup_sends wa sr c fp ms0 (child_start_case _ _ _ Hcase) Hmode Hf (child_start_channel _ _ _ _ Hsb) P1
    (Hsend _ (traces_sendable _ _ S1 Hsm)) ltac:(eapply in_time_less; [exact Hin | change (total su <= total su + trace_time pre); lia]))
    as (w1 & E1 & H1).
  change (fixture_calls _ (p_umem (w_proc wa))) with su in E1, H1. rewrite Hnf in E1. rewrite (bind_ret _ _ _ _ _ E1).
  rewrite (bind_ret _ _ _ _ _ (get_clockid_run _)), (bind_ret _ _ _ _ _ (clock_gettime_run _ _)).
  pose proof (sent_tested (F := frame) _ _ _ _ _ _ _ H1) as Ht1.
  destruct (test_body_prefix w1 fp (ms0 ++ m_setup :: traces su) (ttest tf) i pre (call :: post)) as (w2 & E2 & H2).
  { by rewrite (se_mem _ _ _ _ _ _ _ _ H1). } { done. } { done. } { apply H1. }
  { eapply tested_send_all; [exact Ht1 | by apply Hsend]. } { by eapply (sent_in_time (F := frame)). }
  pose proof (se_rel _ _ _ _ _ _ _ _ H1) as F1. pose proof (in_frame _ _ (se_rel _ _ _ _ _ _ _ _ H2)) as F2.
  pose proof (transitivity F1 F2) as [Ht12 _ _ _ Hal Hnp2 _].
  destruct (abrupt_call w (c_timeout c) call post cs fired w2 Ha) as (wc & Ec & A1 & A2 & (A3 & A4 & A5) & A6 & A7).
  { by rewrite (td_signals _ _ Ht12). } { by rewrite (td_deadline _ _ Ht12). } { by rewrite Hal. }
  exists wc. split.
  { rewrite <- E2 in Ec. unfold mbind, M_bind. unfold mbind, M_bind in Ec. rewrite Ec. by destruct cs. }
  split; [exact A1 |]. split; [exact A6 |]. split.
  { rewrite A2, app_comm_cons, app_assoc. apply H2. }
  split; [by rewrite A3, (td_out _ _ Ht12) |]. split; [by rewrite A4, (td_paths _ _ Ht12) |].
  split; [by rewrite A5, Hnp2 | done].
Qed.

(** Such a test gets the verdict for its end. *)
Lemma abrupt_run w sr c tf i fp ms0 pre cs fired : can_run CK_FORK w sr c fp ms0 ->
  abrupt_script w c tf i (p_umem (w_proc w)) pre cs fired ->
  exists w' fp', tcase_run_tfun_fork sr (c_loc c) tf i w = (Ret (abrupt_result (c_name c) tf i pre cs fired), w') /\
    tested w w' /\ isolated w w' /\ standby w' fp' [] /\
    (fired = true -> clock (w_os w') = clock (w_os w) + default 0 (limit_of (c_timeout c))).
Proof.
  intros Hr Hab. pose proof Hr as [Hsb Hcase _ _ Hpid]. pose proof Hsb as [_ _ Hh Hs0 _].
  destruct (abrupt_child w sr c tf i fp ms0 pre cs fired Hr Hab)
    as (wc & E & Hfi & Hcok & Hst & Ho & Hpa & Hn & Hck). destruct Hab as [(P1 & Hnf & S1) _ _ Hnp _ S2 Hal].
  destruct (fork_abrupt_result ms0 c tf i (p_umem (w_proc w)) pre cs fired (c_name c) Hh Hcok Hnf Hnp) as (r & Er & Eres).
  destruct (reaped_run w sr c tf i fp ms0 cs wc _ r fired Hsb Hcase Hcok E Hfi (fun _ => Hal) Hpid Hst)
    as (E1 & E2 & E3 & E4); [| done |].
  { apply Forall_app. split; [done |]. rewrite app_comm_cons. apply Forall_app. split; [| done].
    apply traces_sendable; [done |]. apply Forall_cons in S2 as [H _]. by eapply setup_sendable. }
  rewrite Eres in E1. eexists _, _. split; [exact E1 |]. split; [by apply E4 |]. split; [exact E2 |]. split; [exact E3 | exact Hck].
Qed.
End Abrupt.
