(* ===== verification/TurnSpec.v ===== *)
(** * One turn of a run: a test at one index (src/check_run.c)

    The invariant of a run between two tests, [between], and with the test case at hand,
    [running]; that logging, running a test and recording its result keep it; the tests whose
    result is known in advance, [test_run], and that running one gives that result. *)
From S2P Require Import Prelude Error Types CList Pack PackSpec Loops World Str Result Msg.
From S2P Require Import MsgSpec Core CoreSpec Alike Print Log Run RunnerSpec RenderSpec LogSpec.
From S2P Require Import StatusSpec TraceSpec FixtureSpec TestSpec ScriptSpec.

(** A process that can run tests in the mode [st], after the results [rs]. *)
Record poised {plat : Platform} (st : fork_status) (w : world) (sr : loc) (rs : list TestResult) : Prop := mkPoised {
  po_standby : exists fp ms0, standby w fp ms0;
  po_depth : length (pipe_stack (the_pipes w)) = 1%nat;
  po_mode : mode w sr st;
  po_fstat : fstat_cur (the_statics w) = st;
  po_results : runner_has w sr rs;
  po_loggable : Forall loggable rs;
  po_pid : 0 <= p_pgid (w_proc w) < next_pid (w_os w)
}.

(** Between two tests of a run, with the logs [logs]; the memory of the user's code is in [U]. *)
Record between {plat : Platform} (st : fork_status) (U : umem -> Prop) (w : world) (sr : loc)
    (logs : list Log) (rs : list TestResult) : Prop := mkBetween {
  bt_poised : poised st w sr rs;
  bt_mem : U (p_umem (w_proc w));
  bt_logs : holds (loglst_ptr sr) w logs;
  bt_streams : Forall (log_ok w) logs
}.

(** ... at the tests of the test case [c]. *)
Record running {plat : Platform} (st : fork_status) (U : umem -> Prop) (w : world) (sr : loc) (c : case)
    (logs : list Log) (rs : list TestResult) : Prop := mkRunning {
  rn_case : case_at w c;
  rn_between : between st U w sr logs rs
}.

Section Steps.
Context {plat : Platform} {plat_ok : PlatformOK}.

(** ** Logging *)

Lemma logged_open_files sr w w' : logged sr w w' -> open_files (w_os w') = open_files (w_os w) /\
  deadline (w_os w') = deadline (w_os w) /\ next_pid (w_os w') = next_pid (w_os w).
Proof. intros [(a & b & ->)]. done. Qed.

Lemma logged_still sr w w' : logged sr w w' -> still sr w w'.
Proof.
  intros H. constructor; try apply H.
  constructor; rewrite ?(lg_suites _ _ _ H), ?(lg_tcases _ _ _ H), ?(lg_tags _ _ _ H); try done; try apply H.
  intros r Hr. destruct (lg_runner _ _ _ H r Hr) as (r' & Hr' & []). exists r'. split; [done |].
  constructor; try done. by rewrite al_slst.
Qed.

Lemma steady_limit w w' : steady w w' -> msg_limit w' = msg_limit w.
Proof. intros []. unfold msg_limit. cbn. by rewrite sy_env, sy_max. Qed.
Lemma steady_send_all w w' ms : steady w w' -> Forall (sendable w) ms -> Forall (sendable w') ms.
Proof.
  intros H Hs. eapply Forall_impl; [exact Hs |]. intros m [? ?]. split; [done |]. by rewrite (steady_limit _ _ H).
Qed.

Lemma logged_standby sr w w' fp ms0 : logged sr w w' -> standby w fp ms0 -> standby w' fp ms0.
Proof.
  intros Hl [[M1 M2 M3 M4 M5] [C1 C2] Hh Hs Hd]. destruct (logged_open_files _ _ _ Hl) as (Eo & Ed & _).
  pose proof (still_steady _ _ _ (logged_still _ _ _ Hl)) as Hst. pose proof (steady_limit _ _ Hst) as El.
  constructor; [| | done | by eapply steady_send_all | by rewrite Ed].
  - constructor; rewrite ?(lg_pipes _ _ _ Hl), ?El; try done. unfold temp_ok. by rewrite (lg_env _ _ _ Hl).
  - constructor; [by rewrite (lg_pipes _ _ _ Hl) | by rewrite Eo].
Qed.

Lemma logged_poised st w w' sr rs : logged sr w w' -> poised st w sr rs -> poised st w' sr rs.
Proof.
  intros Hl [(fp & ms0 & Hsb) Hdep (r & Er & Em) Hf [(r0 & Er0 & Est) Hrs Hdef] Hlgb Hpid].
  destruct (lg_runner _ _ _ Hl r Er) as (r' & Er' & Ha).
  destruct (logged_open_files _ _ _ Hl) as (_ & _ & Epid). constructor; try done.
  - exists fp, ms0. by eapply logged_standby.
  - by rewrite (lg_pipes _ _ _ Hl).
  - exists r'. split; [done |]. by rewrite (al_fstat _ _ Ha), (lg_env _ _ _ Hl).
  - by rewrite (lg_fstat _ _ _ Hl).
  - constructor; [| by apply (lg_results _ _ _ Hl) | done].
    exists r'. split; [done |]. rewrite (al_stats _ _ Ha). by simplify_eq.
  - by rewrite (lg_pgid _ _ _ Hl), Epid.
Qed.

Lemma logged_streams sr w w' logs : logged sr w w' -> Forall (log_ok w) logs -> Forall (log_ok w') logs.
Proof.
  intros Hl Hok. eapply Forall_impl; [exact Hok |]. intros lg [Ho Hmd].
  split; [by apply (lg_streams _ _ _ Hl) | done].
Qed.

Lemma logged_between st U w w' sr logs rs : logged sr w w' -> holds (loglst_ptr sr) w' logs ->
  between st U w sr logs rs -> between st U w' sr logs rs.
Proof.
  intros Hl Hh [Hp Hm _ Hok].
  constructor; [by eapply logged_poised | by rewrite (lg_umem _ _ _ Hl) | done | by eapply logged_streams].
Qed.

Lemma logged_running st U w w' sr c logs rs : logged sr w w' -> holds (loglst_ptr sr) w' logs ->
  running st U w sr c logs rs -> running st U w' sr c logs rs.
Proof.
  intros Hl Hh [Hc Hb]. constructor; [| by eapply logged_between].
  by eapply still_case; [apply logged_still |].
Qed.

(** ** Running tests and fixtures *)

Lemma tested_mode w w' sr st : tested w w' -> mode w sr st -> mode w' sr st.
Proof. intros Hk (r & Er & Em). exists r. by rewrite (td_runners _ _ Hk), (td_env _ _ Hk). Qed.

Lemma tested_between st U U' w w' sr fp ms0 logs rs : tested w w' -> standby w' fp ms0 ->
  U' (p_umem (w_proc w')) -> between st U w sr logs rs -> between st U' w' sr logs rs.
Proof.
  intros Ht Hsb Hm' [[_ Hdep Hm Hf [(r & Er & Est) Hrs Hd] Hlgb Hpid] _ Hl Hok].
  constructor; [constructor; try done | done | |].
  - by exists fp, ms0.
  - by rewrite (td_depth _ _ Ht).
  - by eapply tested_mode.
  - by rewrite (td_fstat _ _ Ht).
  - constructor; [exists r; by rewrite (td_runners _ _ Ht) | | done].
    eapply holds_look; [| exact Hrs]. cbn. by rewrite (td_runners _ _ Ht).
  - rewrite (td_pgid _ _ Ht). pose proof (td_next_pid _ _ Ht). lia.
  - eapply holds_look; [| exact Hl]. cbn. by rewrite (td_runners _ _ Ht).
  - eapply Forall_impl; [exact Hok |]. intros lg [Hop Hmd]. split; [| done].
    unfold opened in *. destruct (lfile lg); [done | by rewrite (td_paths _ _ Ht)].
Qed.

(** ** Recording a result *)

Lemma recorded_lookup sr r l st w :
  srunners (the_heap (recorded sr r l st w)) !! sr = Some (with_stats st (with_resultlst l r)).
Proof. apply lookup_insert_eq. Qed.

Lemma recorded_same sr r l st w : w_os (recorded sr r l st w) = w_os w /\
  suites (the_heap (recorded sr r l st w)) = suites (the_heap w) /\
  tcases (the_heap (recorded sr r l st w)) = tcases (the_heap w) /\
  taglists (the_heap (recorded sr r l st w)) = taglists (the_heap w) /\
  next_loc (the_heap (recorded sr r l st w)) = next_loc (the_heap w) /\
  the_statics (recorded sr r l st w) = the_statics w /\
  the_signals (recorded sr r l st w) = the_signals w /\
  env (w_proc (recorded sr r l st w)) = env (w_proc w) /\
  p_umem (w_proc (recorded sr r l st w)) = p_umem (w_proc w).
Proof. cbn. by destruct (srunners (the_heap w) !! sr). Qed.

Lemma recorded_still sr r l st w : srunners (the_heap w) !! sr = Some r -> still sr w (recorded sr r l st w).
Proof.
  intros Hr. destruct (recorded_same sr r l st w) as (_ & E1 & E2 & E3 & E4 & E5 & E6 & E7 & _).
  constructor; [done | by rewrite E5 | done |]. constructor; rewrite ?E1, ?E2, ?E3, ?E4; try done.
  - intros r0 Hr0. simplify_eq. eexists. split; [apply recorded_lookup |]. by constructor.
  - intros a Ha. unfold recorded, put_stats, upd_heap. cbn. rewrite lookup_insert_ne by congruence.
    destruct (srunners (the_heap w) !! sr); [cbn; by apply lookup_insert_ne | done].
Qed.

Lemma recorded_running st U w sr c logs rs tr : running st U w sr c logs rs ->
  loggable tr -> Z.of_nat (length rs) < INT_MAX ->
  exists r l s, srunners (the_heap w) !! sr = Some r /\
    srunner_add_failure sr tr w = (Ret tt, recorded sr r l s w) /\
    running st U (recorded sr r l s w) sr c logs (rs ++ [tr]).
Proof.
  intros [Hc [[(fp & ms0 & [[M1 M2 M3 M4 M5] [Hp Hs] Hh Hsa Hd]) Hdep (r0 & Er0 & Em) Hf Hrs Hlgb Hpid] Hmem Hl Hok]] Htr Hb.
  destruct (add_failure_run w sr rs tr Hrs (lb_definite _ Htr) Hb) as (l & r & Er & E & Hrs').
  exists r, l, (stats_of (rs ++ [tr])). split; [done |]. split; [exact E |].
  pose proof (recorded_lookup sr r l (stats_of (rs ++ [tr])) w) as Er'.
  pose proof (recorded_still sr r l (stats_of (rs ++ [tr])) w Er) as Hst.
  set (w' := recorded sr r l (stats_of (rs ++ [tr])) w) in *.
  constructor; [by eapply still_case |]. constructor; try done.
  - constructor; try done; [| | apply Forall_app; split; [done | by constructor]].
    + by exists fp, ms0.
    + eexists. split; [exact Er' |]. simplify_eq. done.
  - eapply holds_look; [| exact Hl]. cbn [look loglst_ptr]. rewrite Er', Er. done.
Qed.
End Steps.

(** A change of the heap that leaves the runners. *)
Lemma between_heap {plat : Platform} st U w sr logs rs f : srunners (f (the_heap w)) = srunners (the_heap w) ->
  between st U w sr logs rs -> between st U (upd_heap f w) sr logs rs.
Proof.
  intros Hf [[(fp & ms0 & [[M1 M2 M3 M4 M5] [Hp Hs] Hh Hsa Hd]) Hdep (r & Er & Em) Hst [(r' & Er' & Est) Hrs Hdf] Hlgb Hpid] Hm Hl Hok].
  assert (E : srunners (the_heap (upd_heap f w)) = srunners (the_heap w)) by done.
  constructor; [constructor; try done | done | | done].
  - by exists fp, ms0.
  - exists r. by rewrite E.
  - constructor; [exists r'; by rewrite E | | done]. eapply holds_look; [| exact Hrs]. cbn. by rewrite Hf.
  - eapply holds_look; [| exact Hl]. cbn. by rewrite Hf.
Qed.

(** ** Tests whose result is known in advance *)

(** The test [tf] of [c] at [i], run in the mode [st] from the memory [u], has a result in [Q]: one
    that only marks points, computes and asserts, in both modes, or one that exits, is killed or
    never comes back, in a child. *)
Inductive test_at {plat : Platform} (st : fork_status) (w : world) (c : case) (tf : TF) (i : Z) (u : umem)
    (Q : TestResult -> Prop) : Prop :=
| at_plain : let s := script_of st c tf i u in
    st = CK_FORK /\ tf_signal tf = 0 /\ allowed_exit_value tf = 0 \/ st = CK_NOFORK ->
    plain_script w (c_timeout c) (ttest tf) s ->
    strlen (result_line (script_result st (c_name c) tf i 0 s)) < INT_MAX ->
    (forall d, Q (script_result st (c_name c) tf i d s)) -> test_at st w c tf i u Q
| at_abrupt pre cs fired : st = CK_FORK -> abrupt_script w c tf i u pre cs fired ->
    strlen (result_line (abrupt_result (c_name c) tf i pre cs fired)) < INT_MAX ->
    Q (abrupt_result (c_name c) tf i pre cs fired) -> test_at st w c tf i u Q.

(** ... from any memory in [U], which it keeps. *)
Definition test_run {plat : Platform} (st : fork_status) (w : world) (c : case) (tf : TF) (i : Z)
    (U : umem -> Prop) (Q : TestResult -> Prop) : Prop :=
  forall u, U u -> test_at st w c tf i u Q /\
    (st = CK_NOFORK -> U (memory_after (script_of st c tf i u) u)).

(** The call that runs a test (in srunner_iterate_tcase_tfuns). *)
Definition run_tfun {plat : Platform} (st : fork_status) (sr tc : loc) (tf : TF) (i : Z) : M world TestResult :=
  match st with
  | CK_FORK => tcase_run_tfun_fork sr tc tf i
  | CK_NOFORK => tcase_run_tfun_nofork sr tc tf i
  | _ => eprintf "Bad fork status in SRunner" "Bad fork status in SRunner" "check_run.c" 267
  end.

Section Turns.
Context {plat : Platform} {plat_ok : PlatformOK}.

Lemma script_loggable st tcname tf i d s :
  strlen (result_line (script_result st tcname tf i 0 s)) < INT_MAX -> loggable (script_result st tcname tf i d s).
Proof.
  unfold script_result, failure_result, plain_result.
  destruct (last_loc (tt_file (ttest tf), tt_line (ttest tf)) (sc_test s)) as [lf ln].
  destruct (first_fail (sc_setups s)) as [[[f l] m] |]; [case_decide |
    destruct (if failed (sc_test s) then None else _) as [[[f l] m] |]]; intros Hl;
    (constructor; [unfold definite; cbn; by try destruct (failed _) | split; [by eexists | exact Hl] | by eexists..]).
Qed.

Lemma abrupt_loggable tcname tf i pre cs fired :
  strlen (result_line (abrupt_result tcname tf i pre cs fired)) < INT_MAX ->
  loggable (abrupt_result tcname tf i pre cs fired).
Proof.
  intros Hl. unfold abrupt_result in *.
  destruct (last_loc (tt_file (ttest tf), tt_line (ttest tf)) pre) as [f l].
  destruct (verdict cs (tf_signal tf) (allowed_exit_value tf) fired None) as [rt m] eqn:Ev.
  constructor; [| split; [by eexists | exact Hl] | by eexists | by eexists].
  unfold definite. cbn. by eapply verdict_definite.
Qed.

Lemma test_step st U w sr c logs rs tf i Q : running st U w sr c logs rs -> test_run st w c tf i U Q ->
  exists tr w', run_tfun st sr (c_loc c) tf i w = (Ret tr, w') /\ tested w w' /\
    running st U w' sr c logs rs /\ Q tr /\ loggable tr.
Proof.
  intros [Hc Hb] Hq. pose proof Hb as [[(fp & ms0 & Hsb) _ Hm Hf _ _ Hpid] Hu _ _].
  assert (Hcr : can_run st w sr c fp ms0) by done.
  assert (H : exists tr w' fp' ms', run_tfun st sr (c_loc c) tf i w = (Ret tr, w') /\ tested w w' /\
    standby w' fp' ms' /\ U (p_umem (w_proc w')) /\ Q tr /\ loggable tr).
  { destruct (Hq _ Hu) as [[s [(-> & Hsig & Hall) | ->] Hp Hl HQ | pre cs fired -> Hab Hl HQ] Hmem].
    - destruct (fork_script w sr c tf i fp ms0) as (w' & fp' & E & Ht & Hi & Hsb'); try done.
      eexists _, w', fp', []. split; [exact E |]. rewrite (is_umem _ _ Hi).
      split; [done |]. split; [done |]. split; [done |]. split; [apply HQ | by apply script_loggable].
    - destruct (nofork_script w sr c tf i fp ms0) as (d & w' & fp' & ms' & E & Ht & Hsb' & Hu'); try done.
      eexists _, w', fp', ms'. split; [exact E |]. rewrite Hu'. split; [done |]. split; [done |].
      split; [by apply Hmem |]. split; [apply HQ | by apply script_loggable].
    - destruct (abrupt_run w sr c tf i fp ms0 pre cs fired) as (w' & fp' & E & Ht & Hi & Hsb' & _); try done.
      eexists _, w', fp', []. split; [exact E |]. rewrite (is_umem _ _ Hi).
      split; [done |]. split; [done |]. split; [done |]. split; [done | by apply abrupt_loggable]. }
  destruct H as (tr & w' & fp' & ms' & E & Ht & Hsb' & Hu' & HQ & Hlg). exists tr, w'.
  split; [exact E |]. split; [done |]. split; [| done].
  constructor; [by eapply tested_case | by eapply tested_between].
Qed.

(** What a test does depends on nothing that the tests before it change. *)
Lemma plain_script_steady w w' x t s : steady w w' -> plain_script w x t s -> plain_script w' x t s.
Proof. intros Hst []. constructor; try done; by eapply steady_send_all. Qed.
Lemma abrupt_script_steady w w' c tf i u pre cs fired : steady w w' ->
  abrupt_script w c tf i u pre cs fired -> abrupt_script w' c tf i u pre cs fired.
Proof.
  intros Hst [(A1 & A2 & A3) (call & post & Hfn & Ha) A4 A5 A6 A7 A8]. pose proof (sy_signals _ _ Hst) as Es.
  constructor; rewrite ?Es; try done; try by eapply steady_send_all.
  - split; [done |]. split; [done |]. by eapply steady_send_all.
  - exists call, post. split; [done |]. unfold abrupt_end in *. by rewrite Es.
Qed.
Lemma test_run_steady st w w' c tf i U Q : steady w w' -> test_run st w c tf i U Q -> test_run st w' c tf i U Q.
Proof.
  intros Hst Hq u Hu. destruct (Hq u Hu) as [[s Hmode Hp Hl HQ | pre cs fired Hf Hab Hl HQ] Hmem]; (split; [| done]).
  - apply at_plain; try done. by eapply plain_script_steady.
  - eapply at_abrupt; try done. by eapply abrupt_script_steady.
Qed.
End Turns.
