(* ===== verification/RunSpec.v ===== *)
(** * Running the tests of a test case (src/check_run.c)

    One iteration, and the loops over iterations and tests: each index of each test runs once,
    in order, and the results of the runner are exactly those. *)
From S2P Require Import Prelude Error Types CList Pack PackSpec Loops World Str Result Msg.
From S2P Require Import MsgSpec Core CoreSpec Alike Print Log Run RunnerSpec RenderSpec LogSpec.
From S2P Require Import StatusSpec TraceSpec FixtureSpec TestSpec ScriptSpec TurnSpec.

(** No cursor moves but those of fixtures and tags. *)
Record unmoved (sr : loc) (logs : list Log) (w w' : world) : Prop := mkUnmoved {
  um_still : still sr w w';
  um_mute : mute logs w w';
  um_suites : suites (the_heap w') = suites (the_heap w);
  um_slst : look (slst_ptr sr) w' = look (slst_ptr sr) w;
  um_tests : forall tc, look (tflst_ptr tc) w' = look (tflst_ptr tc) w
}.
#[export] Instance unmoved_preorder sr logs : PreOrder (unmoved sr logs).
Proof. split; [by intros w; constructor | intros a b c [] []; constructor; [by etrans | by etrans | congruence..]]. Qed.

(** What the loop over the tests leaves: the cursor of its list moved. *)
Record swept (sr : loc) (logs : list Log) (w w' : world) : Prop := mkSwept {
  sw_still : still sr w w';
  sw_mute : mute logs w w';
  sw_suites : suites (the_heap w') = suites (the_heap w);
  sw_slst : look (slst_ptr sr) w' = look (slst_ptr sr) w
}.
#[export] Instance swept_preorder sr logs : PreOrder (swept sr logs).
Proof. split; [by intros w | intros a b c [] []; constructor; [by etrans | by etrans | congruence..]]. Qed.
Lemma unmoved_swept sr logs w w' : unmoved sr logs w w' -> swept sr logs w w'.
Proof. by intros []. Qed.

Section Iteration.
Context {plat : Platform} {plat_ok : PlatformOK}.

Lemma logged_unmoved sr logs w w' : is_Some (srunners (the_heap w) !! sr) -> logged sr w w' -> mute logs w w' ->
  unmoved sr logs w w'.
Proof.
  intros [r Hr] H Hm. constructor; [by apply logged_still | done | apply H | |].
  - destruct (lg_runner _ _ _ H r Hr) as (r' & Hr' & Ha). cbn. by rewrite Hr, Hr'; cbn; rewrite (al_slst _ _ Ha).
  - intros tc. cbn. by rewrite (lg_tcases _ _ _ H).
Qed.
Lemma tested_unmoved sr logs w w' : tested w w' -> unmoved sr logs w w'.
Proof.
  intros H. constructor; [by apply tested_still | intros _; apply H | apply H | | apply H]. cbn. by rewrite (td_runners _ _ H).
Qed.
Lemma recorded_unmoved sr logs r l s w : srunners (the_heap w) !! sr = Some r -> unmoved sr logs w (recorded sr r l s w).
Proof.
  intros Hr. destruct (recorded_same sr r l s w) as (_ & E1 & E2 & _).
  constructor; [by apply recorded_still | done | done | cbn [look slst_ptr field_ptr]; by rewrite recorded_lookup, Hr |].
  intros tc. cbn [look tflst_ptr field_ptr]. by rewrite E2.
Qed.

(** The runner is there. *)
Lemma between_runner st U w sr logs rs : between st U w sr logs rs -> is_Some (srunners (the_heap w) !! sr).
Proof. intros [[_ _ (r & Er & _)] _ _ _]. by exists r. Qed.

(** One turn of the loop: events, the test, its result recorded. *)
Lemma run_iteration_run st U w sr c logs rs tf i Q :
  running st U w sr c logs rs -> test_run st w c tf i U Q ->
  Z.of_nat (length rs) < INT_MAX ->
  num_tests_run (the_statics w) + 2 * Z.of_nat (length logs) <= INT_MAX ->
  exists tr w', run_iteration sr (c_loc c) tf i w = (Ret tt, w') /\
    running st U w' sr c logs (rs ++ [tr]) /\ Q tr /\
    unmoved sr logs w w' /\ tap_below (num_tests_run (the_statics w) + 2 * Z.of_nat (length logs)) w'.
Proof.
  intros Hrun Hq Hb Htap. unfold run_iteration, log_test_start.
  pose proof Hrun as [Hc [_ _ Hlogs Hok]]. pose proof (between_runner _ _ _ _ _ _ (rn_between _ _ _ _ _ _ _ Hrun)) as Hr0.
  pose proof (ca_tcase _ _ Hc) as (t & Htc & _).
  rewrite bind_assoc, (bind_ret _ _ _ _ _ (get_tcase_run _ _ _ Htc)).
  destruct (send_evt_run sr (CLSTART_T (fst (vsnprintf 99 (tc_name t +:+ ":" +:+ tt_name (ttest tf)))))
    logs w I Hlogs Hok ltac:(lia)) as (w1 & E1 & Hl1 & Hlogs1 & Ht1 & Hs1).
  rewrite (bind_ret _ _ _ _ _ E1).
  pose proof (logged_running _ _ _ _ _ _ _ _ Hl1 Hlogs1 Hrun) as Hrun1.
  apply unsaid in Hs1; [| done]. apply (logged_unmoved _ logs _ _ Hr0 Hl1) in Hs1.
  rewrite (bind_ret _ _ _ _ _ (mode_run _ _ _ (po_mode _ _ _ _ (bt_poised _ _ _ _ _ _ (rn_between _ _ _ _ _ _ _ Hrun1))))).
  destruct (test_step st U w1 sr c logs rs tf i Q Hrun1) as (tr & w2 & E2 & Htd & Hrun2 & Ho & Hlg).
  { eapply test_run_steady; [eapply still_steady, Hs1 | exact Hq]. }
  rewrite (bind_ret _ _ _ _ _ E2).
  destruct (recorded_running st U w2 sr c logs rs tr Hrun2 Hlg Hb) as (r & l & s & Er & E3 & Hrun3).
  rewrite (bind_ret _ _ _ _ _ E3).
  destruct (recorded_same sr r l s w2) as (_ & _ & _ & _ & _ & Es & _).
  unfold tap_below in *. pose proof (rn_between _ _ _ _ _ _ _ Hrun3) as Hb3.
  destruct (send_evt_run sr (CLEND_T tr) logs _ Hlg (bt_logs _ _ _ _ _ _ Hb3)
    (bt_streams _ _ _ _ _ _ Hb3)) as (w4 & E4 & Hl4 & Hlogs4 & Ht4 & Hs4).
  { rewrite Es, (td_tap _ _ Htd). lia. }
  exists tr, w4. split; [exact E4 |].
  split; [by eapply logged_running |]. split; [done |]. split.
  - etrans; [exact Hs1 |]. etrans; [by eapply tested_unmoved |].
    etrans; [by eapply recorded_unmoved |]. eapply logged_unmoved; [| exact Hl4 | by apply unsaid in Hs4].
    rewrite recorded_lookup. by eexists.
  - rewrite Es, (td_tap _ _ Htd) in Ht4. unfold tap_below in *. lia.
Qed.
End Iteration.

(** ** The loops *)

(** The turns of the two nested loops, in order: each test with each of its indices. *)
Definition indices (tf : TF) : list Z := seqZ (loop_start tf) (loop_end tf - loop_start tf).
Definition turns (tfs : list TF) : list (TF * Z) := concat ((fun tf => pair tf <$> indices tf) <$> tfs).

Lemma turns_snoc tfs tf : turns (tfs ++ [tf]) = turns tfs ++ (pair tf <$> indices tf).
Proof. unfold turns. by rewrite fmap_app, concat_app; cbn; rewrite app_nil_r. Qed.

Lemma turns_split tfs k tf : tfs !! k = Some tf ->
  turns tfs = turns (take k tfs) ++ (pair tf <$> indices tf) ++ turns (drop (S k) tfs).
Proof.
  intros Hk. rewrite app_assoc, <- turns_snoc, <- (take_S_r _ _ _ Hk). unfold turns.
  by rewrite <- concat_app, <- fmap_app, take_drop.
Qed.

Lemma indices_steps tf : seqZ (loop_start tf) (Z.of_nat (length (indices tf))) = indices tf /\
  length (indices tf) = Z.to_nat (loop_end tf - loop_start tf).
Proof.
  unfold indices. rewrite length_seqZ. split; [| done].
  destruct (decide (0 <= loop_end tf - loop_start tf)); [by rewrite Z2Nat.id by lia |].
  by rewrite Z2Nat.nonpos, !seqZ_nil by lia.
Qed.

Section Loops.
Context {plat : Platform} {plat_ok : PlatformOK}.
(** What each test at each index is expected to result in. *)
Context (expect : string -> TF * Z -> TestResult -> Prop).

Definition turn_ok (st : fork_status) (w : world) (c : case) (U : umem -> Prop) (turn : TF * Z) : Prop :=
  test_run st w c (fst turn) (snd turn) U (expect (c_name c) turn).

Lemma turn_ok_steady st w w' c U turns : steady w w' -> Forall (turn_ok st w c U) turns ->
  Forall (turn_ok st w' c U) turns.
Proof. intros H Ht. eapply Forall_impl; [exact Ht |]. intros turn. by apply test_run_steady. Qed.

Lemma iterate_loop_run st U sr c logs tf : forall n i w rs,
  running st U w sr c logs rs ->
  Forall (turn_ok st w c U) (pair tf <$> seqZ i (Z.of_nat n)) ->
  Z.of_nat (length rs) + Z.of_nat n <= INT_MAX ->
  num_tests_run (the_statics w) + Z.of_nat n * (2 * Z.of_nat (length logs)) <= INT_MAX ->
  exists new w', iterate_loop n sr (c_loc c) tf i w = (Ret tt, w') /\
    running st U w' sr c logs (rs ++ new) /\
    Forall2 (expect (c_name c)) (pair tf <$> seqZ i (Z.of_nat n)) new /\
    unmoved sr logs w w' /\
    tap_below (num_tests_run (the_statics w) + Z.of_nat n * (2 * Z.of_nat (length logs))) w'.
Proof.
  induction n as [| n IH]; intros i w rs Hrun Hpt Hb Htap.
  - exists [], w. rewrite app_nil_r. split; [done |]. split; [done |].
    split; [by constructor |]. split; [done | unfold tap_below; lia].
  - cbn [iterate_loop]. rewrite Nat2Z.inj_succ, seqZ_cons, Z.pred_succ, <- Z.add_1_r in * by lia.
    apply Forall_cons in Hpt as [Hq Hpt].
    destruct (run_iteration_run st U w sr c logs rs tf i _ Hrun Hq ltac:(lia) ltac:(lia))
      as (tr & w1 & E1 & Hrun1 & Ho & Hs1 & Ht1).
    rewrite (bind_ret _ _ _ _ _ E1). unfold tap_below in Ht1.
    destruct (IH (i + 1) w1 (rs ++ [tr]) Hrun1) as (new & w2 & E2 & Hrun2 & Hf & Hs2 & Ht2).
    + eapply turn_ok_steady; [eapply still_steady, Hs1 | done].
    + rewrite length_app. simpl. lia.
    + lia.
    + exists (tr :: new), w2. rewrite <- app_assoc in Hrun2. split; [exact E2 |]. split; [exact Hrun2 |].
      split; [by constructor |]. split; [by etrans |]. unfold tap_below in *. lia.
Qed.

Lemma put_tests_eq tc t l w : tcases (the_heap w) !! tc = Some t ->
  put (tflst_ptr tc) l w = upd_heap (fun h => put_tcases (<[tc := with_tflst l t]> (tcases h)) h) w.
Proof. intros Ht. unfold tflst_ptr, field_ptr, upd_heap. cbn. by rewrite Ht. Qed.

Definition loop_inv st U sr c logs rs tfs w (k : nat) (s : world) : Prop :=
  exists new, running st U s sr c logs (rs ++ new) /\ swept sr logs w s /\
    Forall2 (expect (c_name c)) (turns (take k tfs)) new /\
    tap_below (num_tests_run (the_statics w) +
      Z.of_nat (length (turns (take k tfs))) * (2 * Z.of_nat (length logs))) s.

Lemma put_tests_inv st U sr c logs rs tfs w k l q s : loop_inv st U sr c logs rs tfs w k s ->
  holds (tflst_ptr (c_loc c)) s tfs -> lrep l (mkAlist tfs q) ->
  loop_inv st U sr c logs rs tfs w k (put (tflst_ptr (c_loc c)) l s).
Proof.
  intros (new & [Hc Hb] & [H1 H2 H3 H4] & Hf & Ht) Hh Hr. pose proof (put_tests_still sr _ _ _ _ _ Hh Hr) as Hst.
  exists new. pose proof (ca_tcase _ _ Hc) as (t & Htc & _). pose proof (still_case _ _ _ Hst _ Hc) as Hc'.
  rewrite (put_tests_eq _ _ _ _ Htc) in *.
  split; [constructor; [done | by apply between_heap] |]. split; [constructor; [by etrans | done..] |]. by split.
Qed.

(** One test of the loop, at all its indices. *)
Lemma iterate_tfun_run st U w sr c logs rs tfs k tf s :
  Forall (turn_ok st w c U) (turns tfs) ->
  Z.of_nat (length rs) + Z.of_nat (length (turns tfs)) <= INT_MAX ->
  num_tests_run (the_statics w) + Z.of_nat (length (turns tfs)) * (2 * Z.of_nat (length logs)) <= INT_MAX ->
  tfs !! k = Some tf -> loop_inv st U sr c logs rs tfs w k s ->
  exists s', iterate_loop (Z.to_nat (loop_end tf - loop_start tf)) sr (c_loc c) tf (loop_start tf) s = (Ret tt, s') /\
    loop_inv st U sr c logs rs tfs w (S k) s' /\ unmoved sr logs s s'.
Proof.
  intros Hpt Hb Htap Hk (new & Hr & Hsw & Hf & Ht).
  set (N := num_tests_run (the_statics w)) in *. set (L := 2 * Z.of_nat (length logs)) in *. unfold tap_below in Ht.
  pose proof (Forall2_length _ _ _ Hf) as Hlen. destruct (indices_steps tf) as [Hseq <-].
  rewrite (turns_split _ _ _ Hk), !length_app, length_fmap, !Forall_app in *.
  destruct Hpt as (_ & Hpt & _).
  destruct (iterate_loop_run st U sr c logs tf (length (indices tf)) (loop_start tf) s (rs ++ new) Hr)
    as (new' & s' & E & Hr' & Hf' & Hs' & Ht').
  - rewrite Hseq. eapply turn_ok_steady; [eapply still_steady, Hsw | done].
  - rewrite length_app. nia.
  - fold L. nia.
  - rewrite Hseq in Hf'. exists s'. split; [exact E |]. split; [| done].
    exists (new ++ new'). rewrite app_assoc. split; [exact Hr' |].
    split; [etrans; [exact Hsw | by apply unmoved_swept] |]. rewrite (take_S_r _ _ _ Hk), turns_snoc, length_app, length_fmap.
    split; [by apply Forall2_app | unfold tap_below in *; fold L N in Ht' |- *; nia].
Qed.

(** All the tests of a test case, whatever is logged: each index of each test once, in order,
    and the results of the runner are exactly those. *)
Lemma iterate_tfuns_run st U w sr c logs rs :
  running st U w sr c logs rs -> let ts := turns (c_tests c) in
  Forall (turn_ok st w c U) ts ->
  Z.of_nat (length rs) + Z.of_nat (length ts) <= INT_MAX ->
  num_tests_run (the_statics w) + Z.of_nat (length ts) * (2 * Z.of_nat (length logs)) <= INT_MAX ->
  exists new w', srunner_iterate_tcase_tfuns sr (c_loc c) w = (Ret tt, w') /\
    running st U w' sr c logs (rs ++ new) /\ Forall2 (expect (c_name c)) ts new /\ swept sr logs w w' /\
    tap_below (num_tests_run (the_statics w) + Z.of_nat (length ts) * (2 * Z.of_nat (length logs))) w'.
Proof.
  intros Hrun ts Hpt Hb Htap. unfold srunner_iterate_tcase_tfuns. pose proof (ca_tests _ _ (rn_case _ _ _ _ _ _ _ Hrun)) as Hh.
  destruct (list_for_each (tflst_ptr (c_loc c)) (R:=unit) (loop_inv st U sr c logs rs (c_tests c) w)
    (fun tfun => iterate_loop (Z.to_nat (loop_end tfun - loop_start tfun)) sr (c_loc c) tfun (loop_start tfun) ;;
       mret None) (c_tests c) w) as (w' & E & (new & Hrun' & Hsw & Hf & Ht) & Hh').
  - intros k l q s HI Hs Hr. by eapply put_tests_inv.
  - intros k tf s Hk HI _. destruct (iterate_tfun_run _ _ _ _ _ _ _ _ _ _ _ Hpt Hb Htap Hk HI)
      as (s' & E & HI' & Hs'). exists s'. rewrite (bind_ret _ _ _ _ _ E). split; [done |].
    split; [done | apply Hs'].
  - done.
  - exists []. rewrite app_nil_r. split; [done |]. split; [done |].
    split; [by constructor | unfold tap_below; cbn; lia].
  - rewrite firstn_all in *. rewrite (bind_ret _ _ _ _ _ E), mret_run. by exists new, w'.
Qed.
End Loops.
