(* ===== verification/SuiteSpec.v ===== *)
(** * Running the selected test cases of the suites of a runner (src/check_run.c)

    Refinement of the three outer loops: the tests of a test case, the selected test cases of a
    suite, the selected suites of a runner, against the list of turns a program describes. *)
From S2P Require Import Prelude Error Types CList Pack PackSpec Loops World Str Result Msg.
From S2P Require Import MsgSpec Core CoreSpec Alike Print Log Run RunnerSpec RenderSpec LogSpec.
From S2P Require Import SelectSpec StatusSpec TraceSpec FixtureSpec TestSpec ScriptSpec TurnSpec.
From S2P Require Import RunSpec.

(** ** The turns of a program *)

Section Plan.
Context (sname tcname include exclude : option string).

Definition case_chosen (c : case) : bool := selects tcname include exclude (c_name c) (c_tags c).
Definition suite_chosen (s : suite_desc) : bool :=
  from_option (fun n => bool_decide (n = su_title s)) true sname &&
  from_option (fun n => bool_decide (n ∈ c_name <$> su_cases s)) true tcname.

Definition case_plan (c : case) : list (string * (TF * Z)) := pair (c_name c) <$> turns (c_tests c).
Definition cases_plan (cs : list case) : list (string * (TF * Z)) :=
  concat ((fun c => if case_chosen c then case_plan c else []) <$> cs).
Definition plan (ss : list suite_desc) : list (string * (TF * Z)) :=
  concat ((fun s => if suite_chosen s then cases_plan (su_cases s) else []) <$> ss).

Lemma cases_plan_snoc cs c :
  cases_plan (cs ++ [c]) = cases_plan cs ++ (if case_chosen c then case_plan c else []).
Proof. unfold cases_plan. by rewrite fmap_app, concat_app; cbn; rewrite app_nil_r. Qed.
Lemma plan_snoc ss s : plan (ss ++ [s]) = plan ss ++ (if suite_chosen s then cases_plan (su_cases s) else []).
Proof. unfold plan. by rewrite fmap_app, concat_app; cbn; rewrite app_nil_r. Qed.
Lemma cases_plan_split cs k c : cs !! k = Some c -> cases_plan cs =
  cases_plan (take k cs) ++ (if case_chosen c then case_plan c else []) ++ cases_plan (drop (S k) cs).
Proof.
  intros Hk. rewrite app_assoc, <- cases_plan_snoc, <- (take_S_r _ _ _ Hk). unfold cases_plan.
  by rewrite <- concat_app, <- fmap_app, take_drop.
Qed.
Lemma plan_split ss k s : ss !! k = Some s -> plan ss =
  plan (take k ss) ++ (if suite_chosen s then cases_plan (su_cases s) else []) ++ plan (drop (S k) ss).
Proof.
  intros Hk. rewrite app_assoc, <- plan_snoc, <- (take_S_r _ _ _ Hk). unfold plan.
  by rewrite <- concat_app, <- fmap_app, take_drop.
Qed.

(** What the terminal shows of the suites, between the two ends of a run. *)
Definition suite_text (logs : list Log) (s : suite_desc) : string :=
  if suite_chosen s then told (event_text (CLSTART_S (su_title s))) logs else "".
Definition suites_text (logs : list Log) (ss : list suite_desc) : string :=
  foldr (fun s t => suite_text logs s +:+ t) "" ss.
Lemma suites_text_snoc logs ss s : suites_text logs (ss ++ [s]) = suites_text logs ss +:+ suite_text logs s.
Proof.
  unfold suites_text. induction ss as [| x ss IH]; cbn; [by rewrite string_app_nil_r |]. by rewrite IH, string_app_assoc.
Qed.
End Plan.

(** ** What happens between the tests *)

Section Between.
Context {plat : Platform} {plat_ok : PlatformOK}.

Lemma put_cases_eq s l x w : suites (the_heap w) !! s = Some x ->
  put (tclst_ptr s) l w = upd_heap (fun h => put_suites (<[s := with_tclst l x]> (suites h)) h) w.
Proof. intros Hx. unfold tclst_ptr, field_ptr, upd_heap. cbn. by rewrite Hx. Qed.
Lemma between_put_cases st U w sr logs rs s l x : suites (the_heap w) !! s = Some x ->
  between st U w sr logs rs -> between st U (put (tclst_ptr s) l w) sr logs rs.
Proof. intros Hx. rewrite (put_cases_eq _ _ _ _ Hx). by apply between_heap. Qed.

Lemma between_tags st U w w' sr logs rs : tags_kept w w' ->
  between st U w sr logs rs -> between st U w' sr logs rs.
Proof. intros [[x ->] _ _]. by apply between_heap. Qed.

(** Moving the cursor of the list of suites. *)
Lemma put_suites_eq sr l w r : srunners (the_heap w) !! sr = Some r ->
  put (slst_ptr sr) l w = upd_heap (fun h => put_srunners (<[sr := with_slst l r]> (srunners h)) h) w.
Proof. intros Hr. unfold slst_ptr, field_ptr, upd_heap. cbn. by rewrite Hr. Qed.
Lemma between_put_suites st U w sr logs rs l :
  between st U w sr logs rs -> between st U (put (slst_ptr sr) l w) sr logs rs.
Proof.
  intros [[(fp & ms0 & [[M1 M2 M3 M4 M5] [Hp Hs] Hh Hsa Hd]) Hdep (r & Er & Em) Hst [(r' & Er' & Est) Hrs Hdf] Hlgb Hpid] Hm Hl Hok].
  rewrite (put_suites_eq _ _ _ _ Er). simplify_eq.
  constructor; [constructor; try done | done | | done].
  - by exists fp, ms0.
  - eexists. split; [apply lookup_insert_eq | done].
  - constructor; [| | done].
    + eexists. split; [apply lookup_insert_eq | done].
    + eapply holds_look; [| exact Hrs]. cbn. by rewrite lookup_insert_eq, Er.
  - eapply holds_look; [| exact Hl]. cbn. by rewrite lookup_insert_eq, Er.
Qed.

(** An event between two tests. *)
Record event_sent (sr : loc) (logs : list Log) (e : cl_event) (w w' : world) : Prop := mkEventSent {
  es_still : still sr w w';
  es_slst : look (slst_ptr sr) w' = look (slst_ptr sr) w;
  es_text : tidy logs -> out (w_os w') = out (w_os w) +:+ told (event_text e) logs
}.
Lemma event_run st U w sr logs rs e : between st U w sr logs rs -> test_event e ->
  num_tests_run (the_statics w) + Z.of_nat (length logs) <= INT_MAX ->
  exists w', srunner_send_evt sr e w = (Ret tt, w') /\ between st U w' sr logs rs /\
    event_sent sr logs e w w' /\ tap_below (num_tests_run (the_statics w) + Z.of_nat (length logs)) w'.
Proof.
  intros Hb He Hn. destruct (send_evt_run sr e logs w He) as (w' & E & Hl & Hh & Ht & Hs); try apply Hb; [done |].
  exists w'. split; [done |]. split; [by eapply logged_between |]. split; [| done].
  destruct (between_runner _ _ _ _ _ _ Hb) as [r Hr]. destruct (lg_runner _ _ _ Hl r Hr) as (r' & Hr' & Ha).
  constructor; [apply logged_still; done | | done].
  cbn. rewrite Hr, Hr'. cbn. by rewrite (al_slst _ _ Ha).
Qed.
End Between.

(** ** Unchecked fixtures *)

(** The unchecked fixtures of [c] do not fail, and lead from the memories in [V] to those in [U]
    and back. *)
Record fixtures_ok {plat : Platform} (w : world) (V U : umem -> Prop) (c : case) : Prop := mkFixturesOk {
  fk_setups : forall u, V u -> let css := fixture_calls (c_fixtures c false true) u in
    Forall (Forall plain_call) css /\ Forall (sendable w) (msgs_of [m_setup] css) /\ fails css = false /\
    U (mem_all css u);
  fk_teardowns : forall u, U u -> let css := fixture_calls (c_fixtures c false false) u in
    Forall (Forall plain_call) css /\ Forall (sendable w) (teardown_msgs css) /\ fails css = false /\
    V (mem_all css u)
}.

Section Unchecked.
Context {plat : Platform} {plat_ok : PlatformOK}.

Lemma fixtures_ok_steady w w' V U c : steady w w' -> fixtures_ok w V U c -> fixtures_ok w' V U c.
Proof.
  intros H [Hs Ht]. split; intros u Hu.
  - destruct (Hs u Hu) as (H1 & H2 & H3). repeat (split; [done || by eapply steady_send_all |]). done.
  - destruct (Ht u Hu) as (H1 & H2 & H3). repeat (split; [done || by eapply steady_send_all |]). done.
Qed.

Lemma set_fork_status_run st w : st = CK_FORK \/ st = CK_NOFORK ->
  set_fork_status st w = (Ret tt, upd_statics (put_fstat_cur st) w).
Proof. by intros [-> | ->]. Qed.

Lemma standby_fstat st w fp ms0 : standby w fp ms0 -> standby (upd_statics (put_fstat_cur st) w) fp ms0.
Proof. intros [[M1 M2 M3 M4 M5] [Hp Hs] Hh Hsa Hd]. constructor; done. Qed.

(** What runs in another mode. *)
Lemma tested_in_mode st st' w w' : fstat_cur (the_statics w) = st ->
  tested (upd_statics (put_fstat_cur st') w) w' -> tested w (upd_statics (put_fstat_cur st) w').
Proof. intros Hf []. constructor; done. Qed.

(** The unchecked setups run in the process, whatever the mode; the first failure stops them. *)
Lemma unchecked_setup_run st w sr c fp ms0 : st = CK_FORK \/ st = CK_NOFORK -> standby w fp ms0 -> mode w sr st ->
  fstat_cur (the_statics w) = st -> case_at w c ->
  let css := fixture_calls (c_fixtures c false true) (p_umem (w_proc w)) in
  Forall (Forall plain_call) css -> Forall (sendable w) (msgs_of [m_setup] css) ->
  exists w' fp' ms', tested w w' /\ standby w' fp' ms' /\ p_umem (w_proc w') = mem_all css (p_umem (w_proc w)) /\
    srunner_run_unchecked_setup sr (c_loc c) w =
      match first_fail css with
      | Some x => (srunner_add_failure sr (failure_result CK_CTX_SETUP (c_name c) "unchecked_setup" 0 (-1) x) ;;
                   mret false) w'
      | None => (Ret true, w')
      end.
Proof.
  intros Hst Hsb Hm Hf Hc css Hp Hs. unfold srunner_run_unchecked_setup.
  rewrite (bind_ret _ _ _ _ _ (set_fork_status_run _ _ (or_intror eq_refl))).
  set (w1 := upd_statics _ w). destruct (ca_tcase _ _ Hc) as (t & Ht & Hn & _).
  assert (Ht1 : tcases (the_heap w1) !! c_loc c = Some t) by done.
  rewrite (bind_ret _ _ _ _ _ (get_tcase_run _ _ _ Ht1)), Hn.
  destruct (setups_nofork false (c_loc c) (c_fixtures c false true) (c_name c) "unchecked_setup" w1 fp ms0)
    as (w2 & fp2 & ms2 & E & Ht2 & Hsb2 & Hu2); try done.
  { by apply standby_fstat. } { apply (still_fixtures 0 w); [by apply heap_still | apply Hc]. }
  change (unch_sflst_ptr (c_loc c)) with (fixture_ptr false true (c_loc c)).
  rewrite (bind_ret _ _ _ _ _ E). change (p_umem (w_proc w1)) with (p_umem (w_proc w)) in *. fold css in Hu2 |- *.
  assert (Hm2 : mode w2 sr st) by by eapply (tested_mode w1).
  rewrite (bind_ret _ _ _ _ _ (mode_run _ _ _ Hm2)), (bind_ret _ _ _ _ _ (set_fork_status_run _ _ Hst)).
  exists (upd_statics (put_fstat_cur st) w2), fp2, ms2. split; [by eapply tested_in_mode |].
  split; [by apply standby_fstat |]. split; [done |].
  by destruct (first_fail css) as [[[f l] m] |].
Qed.

Lemma unchecked_setup_between st V U w sr c logs rs : st = CK_FORK \/ st = CK_NOFORK -> between st V w sr logs rs ->
  case_at w c -> fixtures_ok w V U c ->
  exists w', srunner_run_unchecked_setup sr (c_loc c) w = (Ret true, w') /\ tested w w' /\ running st U w' sr c logs rs.
Proof.
  intros Hst Hb Hc [Hs _]. pose proof Hb as [[(fp & ms0 & Hsb) _ Hm Hf _ _ _] Hu _ _].
  destruct (Hs _ Hu) as (S1 & S2 & S3 & S4).
  destruct (unchecked_setup_run st w sr c fp ms0) as (w' & fp' & ms' & Ht & Hsb' & Hu' & E); try done.
  rewrite (fails_none _ S3) in E. exists w'. split; [done |]. split; [done |].
  constructor; [by eapply tested_case |]. eapply tested_between; try done. by rewrite Hu'.
Qed.

Lemma unchecked_teardown_between st V U w sr c logs rs : st = CK_FORK \/ st = CK_NOFORK -> running st U w sr c logs rs ->
  fixtures_ok w V U c ->
  exists w', srunner_run_unchecked_teardown sr (c_loc c) w = (Ret tt, w') /\ tested w w' /\ between st V w' sr logs rs.
Proof.
  intros Hst [Hc Hb] [_ Ht]. pose proof Hb as [[(fp & ms0 & [Hms Hch Hh Hsa Hd]) _ Hm Hf _ _ _] Hu _ _].
  destruct (Ht _ Hu) as (T1 & T2 & T3 & T4). unfold srunner_run_unchecked_teardown.
  rewrite (bind_ret _ _ _ _ _ (mode_run _ _ _ Hm)).
  destruct (teardowns_sends false (c_loc c) st st (c_fixtures c false false) w fp ms0) as (w' & E & H); try done.
  { destruct Hst as [-> | ->]; [by right | by left]. } { apply Hc. } { unfold in_time. by rewrite Hd. }
  rewrite T3 in E. exists w'. split; [exact E |]. pose proof (sent_tested (F := frame) _ _ _ _ _ _ _ H) as Htd.
  split; [done |]. eapply (tested_between st U V w w' sr fp (ms0 ++ _)); try done.
  - constructor.
    + eapply frame_messaging; [apply (se_rel _ _ _ _ _ _ _ _ H) | done].
    + apply H.
    + by apply harmless_teardowns.
    + apply Forall_app. split; by eapply tested_send_all.
    + by rewrite (td_deadline _ _ Htd).
  - by rewrite (se_mem _ _ _ _ _ _ _ _ H).
Qed.
End Unchecked.

(** ** The loops *)

Section Suites.
Context {plat : Platform} {plat_ok : PlatformOK}.
Context (expect : string -> TF * Z -> TestResult -> Prop).
(** The memory of the user's code between test cases. *)
Context (V : umem -> Prop).

Definition case_ok (st : fork_status) (w : world) (c : case) : Prop :=
  exists U, fixtures_ok w V U c /\ Forall (turn_ok expect st w c U) (turns (c_tests c)).

Lemma case_ok_steady st w w' c : steady w w' -> case_ok st w c -> case_ok st w' c.
Proof.
  intros H (U & Hf & Ht). exists U. split; [by eapply fixtures_ok_steady | by eapply turn_ok_steady].
Qed.
Lemma cases_ok_steady st w w' cs : steady w w' -> Forall (case_ok st w) cs -> Forall (case_ok st w') cs.
Proof. intros H Hc. eapply Forall_impl; [exact Hc |]. intros c. by eapply case_ok_steady. Qed.

Definition expected (turn : string * (TF * Z)) (tr : TestResult) : Prop := expect (fst turn) (snd turn) tr.

(** After the turns [ts] and [k] suites, with the results of the turns added. *)
Record ran (st : fork_status) (sr : loc) (logs : list Log) (rs : list TestResult) (w : world)
    (ts : list (string * (TF * Z))) (k : nat) (text : string) (w' : world) : Prop := mkRan {
  ra_between : exists new, between st V w' sr logs (rs ++ new) /\ Forall2 expected ts new;
  ra_still : still sr w w';
  ra_text : tidy logs -> out (w_os w') = out (w_os w) +:+ text;
  ra_tap : tap_below (num_tests_run (the_statics w) +
    (Z.of_nat (length ts) + Z.of_nat k) * (2 * Z.of_nat (length logs))) w'
}.

Lemma ran_none st sr logs rs w : between st V w sr logs rs -> ran st sr logs rs w [] 0 "" w.
Proof.
  intros Hb. constructor; [| done | |].
  - exists []. rewrite app_nil_r. split; [done | constructor].
  - intros _. by rewrite string_app_nil_r.
  - unfold tap_below. lia.
Qed.

Lemma ran_then st sr logs rs w ts k t w1 ts2 k2 t2 {A} (m : M world A) a (P : world -> Prop) :
  ran st sr logs rs w ts k t w1 ->
  (forall new, between st V w1 sr logs (rs ++ new) -> length new = length ts ->
     exists w2, m w1 = (Ret a, w2) /\ ran st sr logs (rs ++ new) w1 ts2 k2 t2 w2 /\ P w2) ->
  exists w2, m w1 = (Ret a, w2) /\ ran st sr logs rs w (ts ++ ts2) (k + k2) (t +:+ t2) w2 /\ P w2.
Proof.
  intros [(new & Hb & Hf) Hc Hx Ht] Hm.
  destruct (Hm new Hb (eq_sym (Forall2_length _ _ _ Hf)))
    as (w2 & E & [(new2 & Hb2 & Hf2) Hc2 Hx2 Ht2] & HP).
  exists w2. split; [done |]. split; [| done]. constructor.
  - exists (new ++ new2). rewrite app_assoc. split; [done | by apply Forall2_app].
  - by etrans.
  - intros Htd. by rewrite (Hx2 Htd), (Hx Htd), string_app_assoc.
  - unfold tap_below in *. rewrite length_app. nia.
Qed.

(** A test case: its unchecked setups, its tests, its unchecked teardowns. *)
Lemma run_tcase_run st w sr logs rs c : st = CK_FORK \/ st = CK_NOFORK ->
  between st V w sr logs rs -> case_at w c -> case_ok st w c ->
  Z.of_nat (length rs) + Z.of_nat (length (case_plan c)) <= INT_MAX ->
  num_tests_run (the_statics w) + Z.of_nat (length (case_plan c)) * (2 * Z.of_nat (length logs)) <= INT_MAX ->
  exists w', srunner_run_tcase sr (c_loc c) w = (Ret tt, w') /\
    ran st sr logs rs w (case_plan c) 0 "" w' /\ swept sr logs w w'.
Proof.
  intros Hst Hb Hc (U & Hfx & Hok) Hlen Htap. unfold case_plan in *. rewrite length_fmap in *.
  unfold srunner_run_tcase.
  destruct (unchecked_setup_between st V U w sr c logs rs Hst Hb Hc Hfx) as (w1 & E1 & Ht1 & Hrun).
  rewrite (bind_ret _ _ _ _ _ E1). pose proof (tested_unmoved sr logs _ _ Ht1) as Hum1.
  destruct (iterate_tfuns_run expect st U w1 sr c logs rs Hrun) as (new & w2 & E2 & Hrun2 & Hf & Hsw & Htap2).
  { eapply turn_ok_steady; [eapply still_steady, Hum1 | done]. } { done. } { by rewrite (td_tap _ _ Ht1). }
  rewrite (bind_ret _ _ _ _ _ E2). pose proof (transitivity (unmoved_swept _ _ _ _ Hum1) Hsw) as Hsw2.
  destruct (unchecked_teardown_between st V U w2 sr c logs _ Hst Hrun2) as (w3 & E3 & Ht3 & Hb3).
  { eapply fixtures_ok_steady; [eapply still_steady, Hsw2 | done]. }
  exists w3. split; [exact E3 |].
  pose proof (transitivity Hsw2 (unmoved_swept _ _ _ _ (tested_unmoved sr logs _ _ Ht3))) as Hsw3. split; [| done].
  constructor; [| apply Hsw3 | intros Htd; rewrite string_app_nil_r; by apply (sw_mute _ _ _ _ Hsw3) |].
  - exists new. split; [done |]. clear -Hf. by induction Hf; constructor.
  - unfold tap_below in *. rewrite length_fmap, (td_tap _ _ Ht3). rewrite (td_tap _ _ Ht1) in Htap2. lia.
Qed.

(** One test case of a suite, if it is selected. *)
Context (sname tcname include exclude : option string) (inc exc : loc).

Definition selecting (w : world) : Prop :=
  holds (taglist_ptr inc) w (words_opt include) /\ holds (taglist_ptr exc) w (words_opt exclude).

Lemma selecting_still sr w w' : still sr w w' -> selecting w -> selecting w'.
Proof. intros H [H1 H2]. split; by eapply still_tags. Qed.

Definition apart (c : case) : Prop := c_tl c <> inc /\ c_tl c <> exc.

Definition case_turn (sr : loc) (tc : loc) : M world (option unit) :=
  sel ← tcase_selected tc tcname include exclude inc exc;
  (if (sel : bool) then srunner_run_tcase sr tc else mret tt) ;;
  mret None.

Lemma case_turn_run st w sr logs rs c : st = CK_FORK \/ st = CK_NOFORK ->
  between st V w sr logs rs -> selecting w -> apart c -> case_at w c -> case_ok st w c ->
  let ts := if case_chosen tcname include exclude c then case_plan c else [] in
  Z.of_nat (length rs) + Z.of_nat (length ts) <= INT_MAX ->
  num_tests_run (the_statics w) + Z.of_nat (length ts) * (2 * Z.of_nat (length logs)) <= INT_MAX ->
  exists w', case_turn sr (c_loc c) w = (Ret None, w') /\ ran st sr logs rs w ts 0 "" w' /\ swept sr logs w w'.
Proof.
  intros Hst Hb [Hi He] [Ha1 Ha2] Hc Hok ts Hlen Htap. unfold case_turn.
  pose proof Hc as [(t & Ht & Hn & Htm & Htl) Htg _ _].
  destruct (tcase_selected_run (c_loc c) t (c_tl c) inc exc (c_tags c) tcname include exclude w)
    as (w1 & E1 & Hk); [by split | done..|].
  rewrite (bind_ret _ _ _ _ _ E1), Hn. fold (case_chosen tcname include exclude c).
  pose proof (tags_kept_still sr _ _ Hk) as Hst1. pose proof (between_tags _ _ _ _ _ _ _ Hk Hb) as Hb1.
  destruct Hk as [[x Ex] _ _]. assert (Hsw1 : swept sr logs w w1) by (rewrite Ex in *; by constructor).
  assert (En : num_tests_run (the_statics w1) = num_tests_run (the_statics w)) by by rewrite Ex.
  subst ts. destruct (case_chosen tcname include exclude c).
  - destruct (run_tcase_run st w1 sr logs rs c Hst Hb1) as (w2 & E2 & [Hb2 Hc2 Hx2 Ht2] & Hsw2).
    { by eapply still_case. } { eapply case_ok_steady; [by eapply still_steady | done]. } { done. } { by rewrite En. }
    exists w2. rewrite (bind_ret _ _ _ _ _ E2), mret_run. split; [done |].
    pose proof (transitivity Hsw1 Hsw2) as Hsw. split; [| done].
    constructor; [done | by etrans | intros Htd; rewrite string_app_nil_r; by apply (sw_mute _ _ _ _ Hsw) | by rewrite En in Ht2].
  - exists w1. split; [done |]. split; [| done].
    destruct (ran_none st sr logs rs w1 Hb1) as [H1 _ _ H2]. rewrite En in H2. constructor; try done.
    intros Htd. rewrite string_app_nil_r. by apply (sw_mute _ _ _ _ Hsw1).
Qed.

(** The selected test cases of a suite. *)
Lemma cases_run st w sr logs rs s : st = CK_FORK \/ st = CK_NOFORK ->
  between st V w sr logs rs -> selecting w -> suite_at w s -> Forall apart (su_cases s) ->
  Forall (case_ok st w) (su_cases s) ->
  let ts := cases_plan tcname include exclude (su_cases s) in
  Z.of_nat (length rs) + Z.of_nat (length ts) <= INT_MAX ->
  num_tests_run (the_statics w) + Z.of_nat (length ts) * (2 * Z.of_nat (length logs)) <= INT_MAX ->
  exists w', list_for (tclst_ptr (su_loc s)) (case_turn sr) w = (Ret None, w') /\
    ran st sr logs rs w ts 0 "" w' /\ look (slst_ptr sr) w' = look (slst_ptr sr) w.
Proof.
  intros Hst Hb Hsel Hs Hap Hok ts Hlen Htap.
  pose proof (sa_list _ _ Hs) as Hh. pose proof (sa_cases _ _ Hs) as Hcs.
  destruct (list_for_each (tclst_ptr (su_loc s))
    (fun k t => ran st sr logs rs w (cases_plan tcname include exclude (take k (su_cases s))) 0 "" t /\
       look (slst_ptr sr) t = look (slst_ptr sr) w)
    (case_turn sr) (c_loc <$> su_cases s) w) as (w' & E & [Hr Hl] & _).
  - intros k l q t [[(new & Hb' & Hf) Hc Hx Ht] Hl] Hh' Hrep. pose proof (put_cases_still sr _ _ _ _ _ Hh' Hrep) as Hst'.
    destruct (sa_suite _ _ (still_suite _ _ _ Hc _ Hs)) as (x & Hsx & _). split.
    + rewrite (put_cases_eq _ _ _ _ Hsx) in *. constructor; [exists new | by etrans | done | done].
      split; [rewrite <- (put_cases_eq _ _ _ _ Hsx); by eapply between_put_cases | done].
    + rewrite <- Hl. by rewrite (put_cases_eq _ _ _ _ Hsx).
  - intros k a t Hk [Hr Hl] _. rewrite list_lookup_fmap in Hk.
    destruct (su_cases s !! k) as [c |] eqn:Ec; [| done]. injection Hk as <-.
    pose proof (cases_plan_split tcname include exclude _ _ _ Ec) as Hsplit.
    rewrite (take_S_r _ _ _ Ec), cases_plan_snoc. subst ts. rewrite Hsplit, !length_app in Hlen, Htap.
    rewrite Forall_lookup in Hcs, Hap, Hok. pose proof Hr as [_ Hc _ Ht]. unfold tap_below in Ht.
    destruct (ran_then _ _ _ _ _ _ _ _ t (if case_chosen tcname include exclude c then case_plan c else []) 0 ""
      (case_turn sr (c_loc c)) None (swept sr logs t) Hr) as (t' & E & Hr' & Hsw).
    { intros new Hb' Hn. apply (case_turn_run st t sr); try done.
      - by eapply selecting_still.
      - by eapply Hap.
      - eapply still_case; [done |]. by eapply Hcs.
      - eapply case_ok_steady; [by eapply still_steady |]. by eapply Hok.
      - rewrite length_app. lia.
      - nia. }
    exists t'. split; [done |]. split; [split; [done | by rewrite (sw_slst _ _ _ _ Hsw)] |]. cbn. by rewrite (sw_suites _ _ _ _ Hsw).
  - done.
  - split; [by eapply ran_none | done].
  - rewrite length_fmap, firstn_all in Hr. by exists w'.
Qed.

(** One suite of a runner, if it is selected. *)
Definition suite_turn (sr s : loc) : M world (option unit) :=
  sel ← suite_selected s sname tcname;
  (if (sel : bool) then
     log_suite_start sr s ;;
     list_for (R:=unit) (tclst_ptr s) (case_turn sr) ;;
     log_suite_end sr s
   else mret tt) ;;
  mret None.

Lemma suite_event_run st w sr logs rs s x e : between st V w sr logs rs ->
  suites (the_heap w) !! s = Some x -> (forall n, test_event (e n)) ->
  num_tests_run (the_statics w) + Z.of_nat (length logs) <= INT_MAX ->
  exists w', (x ← get_suite s; srunner_send_evt sr (e (s_name x))) w = (Ret tt, w') /\
    between st V w' sr logs rs /\ event_sent sr logs (e (s_name x)) w w' /\
    tap_below (num_tests_run (the_statics w) + Z.of_nat (length logs)) w'.
Proof.
  intros Hb Hx He Hn. rewrite (bind_ret _ _ _ _ _ (get_suite_run _ _ _ Hx)). by apply event_run.
Qed.

Lemma names_live w s : suite_at w s -> live w (c_loc <$> su_cases s) /\
  name_at w <$> (c_loc <$> su_cases s) = c_name <$> su_cases s.
Proof.
  intros [_ _ Hc]. unfold live. rewrite Forall_fmap. split.
  - eapply Forall_impl; [exact Hc |]. intros c [(t & Ht & _) _ _ _]. by eexists.
  - rewrite <- list_fmap_compose. apply list_fmap_ext. intros i c Hi. rewrite Forall_lookup in Hc.
    destruct (ca_tcase _ _ (Hc _ _ Hi)) as (t & Ht & Hn & _). cbn. unfold name_at. by rewrite Ht.
Qed.

(** A selected suite: its title to the logs, its test cases, and its end. *)
Lemma suite_body_run st w sr logs rs s : st = CK_FORK \/ st = CK_NOFORK ->
  between st V w sr logs rs -> selecting w -> suite_at w s -> Forall apart (su_cases s) ->
  Forall (case_ok st w) (su_cases s) ->
  let ts := cases_plan tcname include exclude (su_cases s) in
  Z.of_nat (length rs) + Z.of_nat (length ts) <= INT_MAX ->
  num_tests_run (the_statics w) + (Z.of_nat (length ts) + 1) * (2 * Z.of_nat (length logs)) <= INT_MAX ->
  exists w', (log_suite_start sr (su_loc s) ;; list_for (R:=unit) (tclst_ptr (su_loc s)) (case_turn sr) ;;
      log_suite_end sr (su_loc s)) w = (Ret tt, w') /\
    ran st sr logs rs w ts 1 (told (event_text (CLSTART_S (su_title s))) logs) w' /\
    look (slst_ptr sr) w' = look (slst_ptr sr) w.
Proof.
  intros Hst Hb Hsel Hs Hap Hok ts Hlen Htap. destruct (sa_suite _ _ Hs) as (x & Hx & Hn).
  pose proof (Zle_0_nat (length ts * length logs)) as Hpos. rewrite Nat2Z.inj_mul in Hpos.
  destruct (suite_event_run st w sr logs rs (su_loc s) x CLSTART_S Hb Hx (fun _ => I) ltac:(nia))
    as (w1 & E1 & Hb1 & [Hc1 El1 Hx1] & Ht1).
  unfold log_suite_start. rewrite (bind_ret _ _ _ _ _ E1). unfold tap_below in Ht1.
  destruct (cases_run st w1 sr logs rs s Hst Hb1) as (w2 & E2 & [(new & Hb2 & Hf) Hc2 Hs2 Ht2] & El2).
  { by eapply selecting_still. } { by eapply still_suite. } { done. } { eapply cases_ok_steady; [by eapply still_steady | done]. } { done. } { fold ts. nia. }
  fold ts in Hf, Ht2. rewrite (bind_ret _ _ _ _ _ E2). unfold tap_below in Ht2. pose proof (transitivity Hc1 Hc2) as Hc.
  destruct (sa_suite _ _ (still_suite _ _ _ Hc _ Hs)) as (x2 & Hx2 & _).
  destruct (suite_event_run st w2 sr logs _ (su_loc s) x2 CLEND_S Hb2 Hx2 (fun _ => I) ltac:(nia))
    as (w3 & E3 & Hb3 & [Hc3 El3 Hx3] & Ht3).
  unfold log_suite_end. exists w3. split; [exact E3 |]. unfold tap_below in Ht3. split.
  - constructor; [by exists new | by etrans | | unfold tap_below; nia]. intros Htd.
    by rewrite (Hx3 Htd), (told_nothing (event_text _)), (Hs2 Htd), (Hx1 Htd), !string_app_nil_r, Hn.
  - by rewrite El3, El2, El1.
Qed.

Lemma suite_turn_run st w sr logs rs s : st = CK_FORK \/ st = CK_NOFORK ->
  between st V w sr logs rs -> selecting w -> suite_at w s -> Forall apart (su_cases s) ->
  Forall (case_ok st w) (su_cases s) ->
  let ts := if suite_chosen sname tcname s then cases_plan tcname include exclude (su_cases s) else [] in
  Z.of_nat (length rs) + Z.of_nat (length ts) <= INT_MAX ->
  num_tests_run (the_statics w) + (Z.of_nat (length ts) + 1) * (2 * Z.of_nat (length logs)) <= INT_MAX ->
  exists w', suite_turn sr (su_loc s) w = (Ret None, w') /\ ran st sr logs rs w ts 1 (suite_text sname tcname logs s) w' /\
    look (slst_ptr sr) w' = look (slst_ptr sr) w.
Proof.
  intros Hst Hb Hsel Hs Hap Hok ts Hlen Htap. unfold suite_turn.
  destruct (sa_suite _ _ Hs) as (x & Hx & Hn). destruct (names_live _ _ Hs) as [Hlive Hnames].
  destruct (suite_selected_run (su_loc s) x _ sname tcname w Hx (sa_list _ _ Hs) Hlive) as (l & E1 & Hh1).
  rewrite (bind_ret _ _ _ _ _ E1). set (w1 := put (tclst_ptr (su_loc s)) l w) in *.
  rewrite Hnames, Hn. fold (suite_chosen sname tcname s).
  pose proof (moved_cases_still sr _ _ _ _ (sa_list _ _ Hs) Hh1) as Hc1. fold w1 in Hc1.
  pose proof (between_put_cases _ _ _ _ _ _ _ l x Hx Hb) as Hb1. fold w1 in Hb1.
  assert (Hsame : look (slst_ptr sr) w1 = look (slst_ptr sr) w /\ the_statics w1 = the_statics w /\ w_os w1 = w_os w).
  { unfold w1. by rewrite (put_cases_eq _ _ _ _ Hx). }
  destruct Hsame as (El1 & Est & Eos). subst ts. unfold suite_text. destruct (suite_chosen sname tcname s).
  - destruct (suite_body_run st w1 sr logs rs s Hst Hb1) as (w2 & E2 & [Hb2 Hc2 Hx2 Ht2] & El2).
    { by eapply selecting_still. } { by eapply still_suite. } { done. } { eapply cases_ok_steady; [by eapply still_steady | done]. } { done. } { by rewrite Est. }
    exists w2. rewrite (bind_ret _ _ _ _ _ E2), mret_run. split; [done |].
    split; [| by rewrite El2]. rewrite Est in Ht2. rewrite Eos in Hx2. constructor; [done | by etrans | done | done].
  - exists w1. split; [done |]. split; [| done].
    destruct (ran_none st sr logs rs w1 Hb1) as [H1 _ Hx1 _]. rewrite Eos in Hx1.
    constructor; [done | done | done |]. unfold tap_below. rewrite Est. cbn [length]. lia.
Qed.

(** The selected suites of a runner. *)
Lemma suites_run st w sr logs rs ss : st = CK_FORK \/ st = CK_NOFORK ->
  between st V w sr logs rs -> selecting w -> program_at w sr ss ->
  Forall (fun s => Forall apart (su_cases s)) ss -> Forall (fun s => Forall (case_ok st w) (su_cases s)) ss ->
  let ts := plan sname tcname include exclude ss in
  Z.of_nat (length rs) + Z.of_nat (length ts) <= INT_MAX ->
  num_tests_run (the_statics w) + (Z.of_nat (length ts) + Z.of_nat (length ss)) * (2 * Z.of_nat (length logs))
    <= INT_MAX ->
  exists w', list_for (slst_ptr sr) (suite_turn sr) w = (Ret None, w') /\ ran st sr logs rs w ts (length ss)
    (suites_text sname tcname logs ss) w'.
Proof.
  intros Hst Hb Hsel Hp Hap Hok ts Hlen Htap. pose proof Hp as [Hh Hss].
  destruct (list_for_each (slst_ptr sr)
    (fun k t => ran st sr logs rs w (plan sname tcname include exclude (take k ss)) k
       (suites_text sname tcname logs (take k ss)) t)
    (suite_turn sr) (su_loc <$> ss) w) as (w' & E & Hr & Hh').
  - intros k l q t [(new & Hb' & Hf) Hc Hx Ht] Hh' Hrep. pose proof (put_suites_still _ _ _ _ _ Hh' Hrep) as Hst'.
    destruct (between_runner _ _ _ _ _ _ Hb') as [r Hr']. rewrite (put_suites_eq _ _ _ _ Hr') in *.
    constructor; [exists new | by etrans | exact Hx | exact Ht].
    split; [rewrite <- (put_suites_eq _ _ _ _ Hr'); by eapply between_put_suites | done].
  - intros k a t Hk Hr _. rewrite list_lookup_fmap in Hk.
    destruct (ss !! k) as [s |] eqn:Ec; [| done]. injection Hk as <-.
    pose proof (plan_split sname tcname include exclude _ _ _ Ec) as Hsplit.
    assert (Hk : (k < length ss)%nat) by by eapply lookup_lt_Some.
    rewrite (take_S_r _ _ _ Ec), plan_snoc, suites_text_snoc. subst ts. rewrite Hsplit, !length_app in Hlen, Htap.
    rewrite Forall_lookup in Hss, Hap, Hok. pose proof Hr as [_ Hc _ Ht]. unfold tap_below in Ht.
    destruct (ran_then _ _ _ _ _ _ _ _ t
      (if suite_chosen sname tcname s then cases_plan tcname include exclude (su_cases s) else []) 1 (suite_text sname tcname logs s)
      (suite_turn sr (su_loc s)) None (fun t' => look (slst_ptr sr) t' = look (slst_ptr sr) t) Hr)
      as (t' & E & Hr' & El).
    { intros new Hb' Hn. apply (suite_turn_run st t sr); try done.
      - by eapply selecting_still.
      - eapply still_suite; [done |]. by eapply Hss.
      - by eapply Hap.
      - eapply cases_ok_steady; [by eapply still_steady |]. by eapply Hok.
      - rewrite length_app. lia.
      - nia. }
    exists t'. split; [done |]. split; [by replace (S k) with (k + 1)%nat by lia | done].
  - done.
  - by eapply ran_none.
  - rewrite length_fmap, firstn_all in Hr. by exists w'.
Qed.
End Suites.
