(* ===== verification/WholeSpec.v ===== *)
(** * A whole run (src/check_run.c, srunner_run_tagged)

    The lists of tags asked for, made for a run and freed after it; the events, logs and
    channels at its ends; and the run itself. *)
From S2P Require Import Prelude Error Types CList Pack PackSpec Loops World Str Result Msg.
From S2P Require Import MsgSpec Core CoreSpec Alike Print Log Run RunnerSpec RenderSpec LogSpec.
From S2P Require Import LogRunSpec SelectSpec StatusSpec TraceSpec FixtureSpec TestSpec.
From S2P Require Import ScriptSpec.
From S2P Require Import TurnSpec RunSpec SuiteSpec.

(** No list of tags lies beyond the last address given out. *)
Definition tags_below (w : world) : Prop :=
  forall a, is_Some (taglists (the_heap w) !! a) -> a < next_loc (the_heap w).
(** Two addresses given out: what a run does to the allocator. *)
Definition bumped (w : world) : world := upd_heap bump_loc (upd_heap bump_loc w).

Section Lists.
Context {plat : Platform} {plat_ok : PlatformOK}.

Lemma holds_tags_below w a xs : tags_below w -> holds (taglist_ptr a) w xs -> a < next_loc (the_heap w).
Proof. intros Hb (l & q & Hl & _). rewrite look_taglist in Hl. apply Hb. by eexists. Qed.

Lemma new_tags_holds l w a xs : tags_below w -> holds (taglist_ptr a) w xs -> holds (taglist_ptr a) (new_tags l w) xs.
Proof.
  intros Hb Ha. pose proof (holds_tags_below _ _ _ Hb Ha). eapply holds_look; [| exact Ha].
  rewrite !look_taglist. apply lookup_insert_ne. lia.
Qed.
Lemma new_tags_below l w : tags_below w -> tags_below (new_tags l w).
Proof.
  intros Hb a Ha. cbn in *. destruct (decide (a = next_loc (the_heap w))) as [-> | Hne]; [lia |].
  rewrite lookup_insert_ne in Ha by congruence. specialize (Hb a Ha). lia.
Qed.
Lemma between_new_tags st U l w sr logs rs :
  between st U w sr logs rs -> between st U (new_tags l w) sr logs rs.
Proof. intros Hb. apply between_heap; [done |]. by apply between_heap. Qed.
Lemma new_tags_program l w sr ss : tags_below w -> program_at w sr ss -> program_at (new_tags l w) sr ss.
Proof.
  intros Hb. apply more_program; try done.
  apply Forall_forall. intros s _. apply Forall_forall. intros c _ xs. by apply new_tags_holds.
Qed.

(** The lists of the tags to select by. *)
Lemma selecting_run include exclude w : tags_below w ->
  (forall t, include = Some t -> strlen t <= INT_MAX) -> (forall t, exclude = Some t -> strlen t <= INT_MAX) ->
  let n := next_loc (the_heap w) in
  exists l1 l2, let w1 := new_tags l1 w in let w2 := new_tags l2 w1 in
    tag_string_to_list include w = (Ret n, w1) /\ tag_string_to_list exclude w1 = (Ret (n + 1), w2) /\
    selecting include exclude n (n + 1) w2.
Proof.
  intros Ht Hi He n.
  destruct (tag_string_to_list_run include w Hi) as (l1 & E1 & q1 & Hr1).
  destruct (tag_string_to_list_run exclude (new_tags l1 w) He) as (l2 & E2 & q2 & Hr2).
  exists l1, l2. split; [exact E1 |]. split; [exact E2 |]. split.
  - apply new_tags_holds; [by apply new_tags_below |]. exists l1, q1. split; [| exact Hr1].
    rewrite look_taglist. apply lookup_insert_eq.
  - exists l2, q2. split; [| exact Hr2]. rewrite look_taglist. apply lookup_insert_eq.
Qed.

(** At the end of the loops the elements of the two lists are freed, and the lists. *)
Lemma free_tags_run st U w sr logs rs include exclude inc exc : inc <> exc ->
  between st U w sr logs rs -> selecting include exclude inc exc w ->
  exists w1, (apply_free (taglist_ptr inc) ;; apply_free (taglist_ptr exc) ;;
      check_list_free (Some inc) ;; check_list_free (Some exc)) w = (Ret tt, without_tags exc (without_tags inc w1)) /\
    tags_kept w w1 /\ between st U (without_tags exc (without_tags inc w1)) sr logs rs.
Proof.
  intros Hne Hb [Hi He].
  destruct (apply_free_run _ _ _ Hi) as (w1 & E1 & Hk1). rewrite (bind_ret _ _ _ _ _ E1).
  destruct (apply_free_run exc w1 _ ltac:(by rewrite <- Hk1)) as (w2 & E2 & Hk2).
  rewrite (bind_ret _ _ _ _ _ E2). pose proof (transitivity Hk1 Hk2) as Hk.
  assert (Hi2 : holds (taglist_ptr inc) w2 (words_opt include)) by by rewrite <- Hk.
  assert (He2 : holds (taglist_ptr exc) w2 (words_opt exclude)) by by rewrite <- Hk.
  rewrite (bind_ret _ _ _ _ _ (check_list_free_run _ _ _ Hi2)).
  rewrite (check_list_free_run exc _ (words_opt exclude)) by by apply without_tags_holds.
  exists w2. split; [done |]. split; [done |].
  apply between_heap; [done |]. apply between_heap; [done |]. by eapply between_tags.
Qed.

(** Without the lists made for it, the heap of a run is alike what it was. *)
Lemma still_without sr w l1 l2 w' : tags_below w -> let n := next_loc (the_heap w) in
  still sr (new_tags l2 (new_tags l1 w)) w' -> still sr (bumped w) (without_tags (n + 1) (without_tags n w')).
Proof.
  intros Hb n [E M S [H1 H2 H3 H4 H5 H6]]. constructor; try done. constructor; try done.
  intros a. specialize (H4 a). cbn in *. destruct (decide (a = n + 1)) as [-> | N2]; [| destruct (decide (a = n)) as [-> | N1]].
  - rewrite lookup_delete_eq. destruct (taglists (the_heap w) !! (n + 1)) eqn:Et; [| constructor].
    pose proof (Hb (n + 1) ltac:(by eexists)). lia.
  - rewrite lookup_delete_ne, lookup_delete_eq by done. destruct (taglists (the_heap w) !! n) eqn:Et; [| constructor].
    pose proof (Hb n ltac:(by eexists)). lia.
  - fold n in H4. rewrite !lookup_insert_ne in H4 by congruence. by rewrite !lookup_delete_ne by congruence.
Qed.
End Lists.

(** ** All the suites *)

Section Iterate.
Context {plat : Platform} {plat_ok : PlatformOK}.
Context (expect : string -> TF * Z -> TestResult -> Prop) (V : umem -> Prop).

Lemma program_apart w sr ss a b : program_at w sr ss -> tags_below w -> next_loc (the_heap w) <= a ->
  next_loc (the_heap w) <= b -> Forall (fun s => Forall (apart a b) (su_cases s)) ss.
Proof.
  intros [_ Hs] Ht Ha Hb. eapply Forall_impl; [exact Hs |]. intros s [_ _ Hc].
  eapply Forall_impl; [exact Hc |]. intros c [_ Hg _ _].
  pose proof (holds_tags_below _ _ _ Ht Hg). split; lia.
Qed.

Lemma iterate_suites_run st w sr logs rs ss sname tcname include exclude mode :
  st = CK_FORK \/ st = CK_NOFORK -> between st V w sr logs rs -> program_at w sr ss -> tags_below w ->
  (forall t, include = Some t -> strlen t <= INT_MAX) -> (forall t, exclude = Some t -> strlen t <= INT_MAX) ->
  Forall (fun s => Forall (case_ok expect V st w) (su_cases s)) ss ->
  let ts := plan sname tcname include exclude ss in
  Z.of_nat (length rs) + Z.of_nat (length ts) <= INT_MAX ->
  num_tests_run (the_statics w) + (Z.of_nat (length ts) + Z.of_nat (length ss)) * (2 * Z.of_nat (length logs))
    <= INT_MAX ->
  exists w' new, srunner_iterate_suites sr sname tcname include exclude mode w = (Ret tt, w') /\
    between st V w' sr logs (rs ++ new) /\ Forall2 (expected expect) ts new /\ still sr (bumped w) w' /\
    (tidy logs -> out (w_os w') = out (w_os w) +:+ suites_text sname tcname logs ss).
Proof.
  intros Hst Hb Hp Ht Hi He Hok ts Hlen Htap. unfold srunner_iterate_suites.
  destruct (selecting_run include exclude w Ht Hi He) as (l1 & l2 & E1 & E2 & Hsel).
  rewrite (bind_ret _ _ _ _ _ E1), (bind_ret _ _ _ _ _ E2).
  assert (Hap : Forall (fun s => Forall (apart (next_loc (the_heap w)) (next_loc (the_heap w) + 1)) (su_cases s)) ss)
    by (apply (program_apart w sr); [done | done | lia | lia]).
  set (inc := next_loc (the_heap w)) in *. set (w2 := new_tags l2 (new_tags l1 w)) in *.
  destruct (suites_run expect V sname tcname include exclude inc (inc + 1) st w2 sr logs rs ss Hst)
    as (w3 & E3 & [(new & Hb3 & Hf) Hc3 Hx3 _]); try done.
  { by do 2 apply between_new_tags. }
  { apply new_tags_program; [by apply new_tags_below | by apply new_tags_program]. }
  { eapply Forall_impl; [exact Hok |]. intros s. by apply cases_ok_steady. }
  change (list_for (slst_ptr sr) _) with (list_for (slst_ptr sr) (suite_turn sname tcname include exclude inc (inc + 1) sr)).
  rewrite (bind_ret _ _ _ _ _ E3).
  destruct (free_tags_run st V w3 sr logs _ include exclude inc (inc + 1) ltac:(lia) Hb3) as (w4 & E4 & Hk4 & Hb4);
    [by eapply selecting_still |].
  eexists _, new. split; [exact E4 |]. split; [done |]. split; [done |].
  split; [apply (still_without sr w l1 l2 w4 Ht); etrans; [exact Hc3 | by apply tags_kept_still] |].
  destruct Hk4 as [[f ->] _ _]. exact Hx3.
Qed.
End Iterate.

(** ** The run *)

(** A process between runs, with the results [rs] of earlier ones. *)
Record idle {plat : Platform} (st : fork_status) (w : world) (sr : loc) (rs : list TestResult) : Prop := mkIdle {
  id_nested : nested w 0;
  id_limit : 0 < msg_limit w;
  id_window : msg_limit w * 2 < 2 ^ 64;
  id_deadline : deadline (w_os w) = None;
  id_mode : mode w sr st;
  id_results : runner_has w sr rs;
  id_loggable : Forall loggable rs;
  id_pid : 0 <= p_pgid (w_proc w) < next_pid (w_os w)
}.

(** An argument of a run, or its variable of the environment. *)
Definition arg_or_env (w : world) (arg : option string) (var : string) : option string :=
  match arg with Some a => Some a | None => env (w_proc w) !! var end.

Definition disposition_of (w : world) (sig : Z) : disposition := default SIG_DFL (sigact (the_signals w) !! sig).

(** The world once the three signals are handled. *)
Definition handling (w : world) : world :=
  upd_signals (fun s => mkSignals
    (<[SIGTERM := SIG_HANDLER]> (<[SIGINT := SIG_HANDLER]> (<[SIGALRM := SIG_HANDLER]> (sigact s))))
    (disposition_of w SIGINT) (disposition_of w SIGTERM) (disposition_of w SIGALRM)) w.

(** The dispositions put back. *)
Definition restoring : M world unit :=
  old ← gets (fun w => sigalarm_old_action (the_signals w));
  sigaction_set SIGALRM old ;;
  old ← gets (fun w => sigint_old_action (the_signals w));
  sigaction_set SIGINT old ;;
  old ← gets (fun w => sigterm_old_action (the_signals w));
  sigaction_set SIGTERM old.

Section Whole.
Context {plat : Platform} {plat_ok : PlatformOK}.

(** The part of a run under the handlers. *)
Definition run_handled (sr : loc) (sname tcname include exclude : option string) (mode : print_output)
    : M world unit :=
  srunner_run_init sr mode ;;
  srunner_iterate_suites sr sname tcname include exclude mode ;;
  srunner_run_end sr mode ;;
  restoring.

Lemma or_env_run arg var w : or_env arg var w = (Ret (arg_or_env w arg var), w).
Proof. by destruct arg. Qed.

Lemma run_tagged_handled sr sname tcname include exclude mode w : mode < CK_LAST ->
  srunner_run_tagged (Some sr) sname tcname include exclude mode w =
  run_handled sr (arg_or_env w sname "CK_RUN_SUITE") (arg_or_env w tcname "CK_RUN_CASE")
    (arg_or_env w include "CK_INCLUDE_TAGS") (arg_or_env w exclude "CK_EXCLUDE_TAGS") mode (handling w).
Proof.
  intros Hm. unfold srunner_run_tagged.
  rewrite (bind_ret _ _ _ _ _ (or_env_run _ _ _)), (bind_ret _ _ _ _ _ (or_env_run _ _ _)).
  rewrite (bind_ret _ _ _ _ _ (or_env_run _ _ _)), (bind_ret _ _ _ _ _ (or_env_run _ _ _)).
  rewrite decide_False by lia. rewrite (bind_ret _ _ _ _ _ (mret_run _ _)).
  unfold sigaction_get, sigaction_set.
  do 3 (rewrite (bind_ret _ _ _ _ _ (gets_run _ _)), (bind_ret _ _ _ _ _ (modify_run _ _)),
    (bind_ret _ _ _ _ _ (modify_run _ _))).
  match goal with |- _ ?x = _ => replace x with (handling w); [done |] end.
  unfold handling, disposition_of, upd_signals, on_proc, the_signals. cbn.
  by rewrite !(lookup_insert_ne _ SIGALRM SIGINT), !(lookup_insert_ne _ SIGINT SIGTERM),
    !(lookup_insert_ne _ SIGALRM SIGTERM) by done.
Qed.

Lemma restoring_run w old : (forall sig, sig <> SIGALRM -> sig <> SIGINT -> sig <> SIGTERM ->
    disposition_of w sig = old sig) ->
  sigalarm_old_action (the_signals w) = old SIGALRM -> sigint_old_action (the_signals w) = old SIGINT ->
  sigterm_old_action (the_signals w) = old SIGTERM ->
  exists f, restoring w = (Ret tt, upd_signals f w) /\ forall sig, disposition_of (upd_signals f w) sig = old sig.
Proof.
  intros Ho Ha Hi Ht. unfold restoring, sigaction_set.
  do 2 rewrite (bind_ret _ _ _ _ _ (gets_run _ _)), (bind_ret _ _ _ _ _ (modify_run _ _)).
  rewrite (bind_ret _ _ _ _ _ (gets_run _ _)), modify_run.
  exists (fun s => put_sigact (<[SIGTERM := old SIGTERM]> (<[SIGINT := old SIGINT]>
    (<[SIGALRM := old SIGALRM]> (sigact s)))) s).
  split.
  - f_equal. unfold upd_signals, on_proc, the_signals in *. cbn. by rewrite Ha, Hi, Ht.
  - intros sig. unfold disposition_of. cbn. rewrite !lookup_insert. repeat case_decide; subst; try done.
    by apply Ho.
Qed.

(** Starting: the channel, the logs, the first event. *)
Lemma run_init_run st V w sr r rs mode : st = CK_FORK \/ st = CK_NOFORK -> idle st w sr rs -> V (p_umem (w_proc w)) ->
  srunners (the_heap w) !! sr = Some r -> reportable (length rs) ->
  exists w', srunner_run_init sr mode w = (Ret tt, w') /\ between st V w' sr (run_logs w r mode) rs /\ still sr w w' /\
    num_tests_run (the_statics w') <= Z.max 0 (num_tests_run (the_statics w)) /\
    (tidy (run_logs w r mode) -> out (w_os w') = out (w_os w) +:+ told (end_text rs CLSTART_SR) (run_logs w r mode)).
Proof.
  intros Hst [Hn Hl1 Hl2 Hd Hm Hrs Hlg Hpid] HV Hr Hrep. unfold srunner_run_init.
  rewrite (bind_ret _ _ _ _ _ (mode_run _ _ _ Hm)), (bind_ret _ _ _ _ _ (set_fork_status_run _ _ Hst)).
  set (w1 := upd_statics _ w).
  assert (Hn1 : nested w1 0) by (destruct Hn; by constructor).
  destruct (setup_first w1 Hn1 Hl1 Hl2) as (E2 & Hm2 & Hd2 & Hc2). set (w2 := upd_pipes _ _) in *.
  rewrite (bind_ret _ _ _ _ _ E2).
  assert (Hrp2 : reports w2 sr rs).
  { constructor; [destruct Hrs; by constructor | | done]. eapply Forall_impl; [exact Hlg |]. by intros tr []. }
  assert (Hp2 : poised st w2 sr rs).
  { constructor; try done; [| apply Hrp2]. exists (next_file (w_os w1)), []. by constructor. }
  destruct (init_logging_run sr w2 r rs mode Hr Hrp2) as (w3 & E3 & Hl3 & Hh3 & Hok3 & Hn3 & Hx3).
  rewrite (bind_ret _ _ _ _ _ E3). change (run_logs w2 r mode) with (run_logs w r mode) in *.
  destruct (end_evt_run sr CLSTART_SR _ rs w3 I Hh3 Hok3 (logged_reports _ _ _ _ Hl3 Hrp2))
    as (w4 & E4 & Hl4 & Hh4 & Hn4 & Hx4).
  pose proof (transitivity Hl3 Hl4) as Hl. exists w4. split; [exact E4 |].
  split; [constructor; [by eapply logged_poised | by rewrite (lg_umem _ _ _ Hl) | done | exact (logged_streams _ _ _ _ Hl4 Hok3)] |].
  change (num_tests_run (the_statics w2)) with (num_tests_run (the_statics w)) in Hn3.
  split; [etrans; [| by apply logged_still]; by apply heap_still |]. split; [lia |].
  intros Htd. by rewrite (Hx4 Htd), (Hx3 Htd).
Qed.

(** Dropping the list of logs of a runner. *)
Definition drop_logs (sr : loc) (r : SRunner) : world -> world :=
  upd_heap (fun h => put_srunners (<[sr := with_loglst None r]> (srunners h)) h).

Lemma drop_logs_poised st w sr rs r : srunners (the_heap w) !! sr = Some r ->
  poised st w sr rs -> poised st (drop_logs sr r w) sr rs.
Proof.
  intros Er [(fp & ms0 & [[M1 M2 M3 M4 M5] [Hp Hs] Hh Hsa Hd]) Hdep (r0 & Er0 & Em) Hst [(r' & Er' & Est) Hrs Hdf] Hlgb Hpid].
  simplify_eq. constructor; try done.
  - by exists fp, ms0.
  - eexists. split; [apply lookup_insert_eq | done].
  - constructor; [| | done].
    + eexists. split; [apply lookup_insert_eq | done].
    + eapply holds_look; [| exact Hrs]. cbn. by rewrite lookup_insert_eq, Er.
Qed.

Lemma poised_reports st w sr rs : poised st w sr rs -> reportable (length rs) -> reports w sr rs.
Proof.
  intros Hp Hr. constructor; [apply Hp | | done].
  eapply Forall_impl; [apply (po_loggable _ _ _ _ Hp) |]. intros tr Htr. apply (lb_printable _ Htr).
Qed.

(** Ending: the last events, the logs closed, the channel torn down with what is in it. *)
Lemma run_end_run st V w sr logs rs mode : between st V w sr logs rs -> reportable (length rs) ->
  exists w', srunner_run_end sr mode w = (Ret tt, w') /\ idle st w' sr rs /\ V (p_umem (w_proc w')) /\ still sr w w' /\
    fstat_cur (the_statics w') = CK_FORK /\ (loglst <$> srunners (the_heap w') !! sr) = Some None /\
    (tidy logs -> out (w_os w') = out (w_os w) +:+ told (end_text rs CLEND_SR) logs).
Proof.
  intros [Hp HV Hh Hok] Hrep. unfold srunner_run_end.
  destruct (end_evt_run sr CLEND_SR logs rs w I Hh Hok (poised_reports _ _ _ _ Hp Hrep))
    as (w1 & E1 & Hl1 & Hh1 & _ & Hx1).
  unfold log_srunner_end. rewrite (bind_ret _ _ _ _ _ E1).
  pose proof (logged_poised _ _ _ _ _ Hl1 Hp) as Hp1.
  destruct (end_logging_run sr w1 logs rs Hh1 (logged_streams _ _ _ _ Hl1 Hok) (poised_reports _ _ _ _ Hp1 Hrep))
    as (w3 & w2 & r & E2 & Hl2 & Hr2 & Hx2 & E3).
  rewrite (bind_ret _ _ _ _ _ E2). change (w3 = drop_logs sr r w2) in E3.
  pose proof (logged_poised _ _ _ _ _ Hl2 Hp1) as Hp2. pose proof (transitivity Hl1 Hl2) as Hl.
  pose proof (drop_logs_poised _ _ _ _ _ Hr2 Hp2) as Hp3. rewrite <- E3 in Hp3.
  pose proof Hp3 as [(fp & ms0 & [M3 C3 _ _ Dl3]) D3 Mo3 _ R3 L3 P3]. destruct (teardown_last w3 fp ms0 M3 D3 C3) as [E4 [N1 N2 N3 N4 N5]].
  rewrite (bind_ret _ _ _ _ _ E4). set (w4 := upd_pipes _ _) in *.
  rewrite (set_fork_status_run CK_FORK w4 (or_introl eq_refl)).
  eexists. split; [reflexivity |]. split; [| split; [| split; [| split; [done | split]]]].
  - destruct R3. constructor; first [done | apply M3 | by constructor].
  - change (V (p_umem (w_proc w3))). rewrite E3. change (V (p_umem (w_proc w2))). by rewrite (lg_umem _ _ _ Hl).
  - assert (H3 : still sr w2 w3) by (rewrite E3; by eapply still_runner).
    pose proof (transitivity (logged_still _ _ _ Hl) H3) as Hs. etrans; [exact Hs |]. by apply heap_still.
  - change (the_heap _) with (the_heap w3). rewrite E3. cbn. by rewrite lookup_insert_eq.
  - intros Htd. change (out (w_os w3) = out (w_os w) +:+ told (end_text rs CLEND_SR) logs).
    rewrite E3. change (out (w_os w2) = out (w_os w) +:+ told (end_text rs CLEND_SR) logs). by rewrite (Hx2 Htd), (Hx1 Htd).
Qed.

(** The heap that a run leaves, up to its signals. *)
Lemma still_heap_bumped sr w w' : heap_alike sr (the_heap w) (the_heap w') ->
  heap_alike sr (the_heap (bumped w)) (the_heap (bumped w')).
Proof. intros [H1 H2 H3 H4 H5 H6]. constructor; try done. cbn. by rewrite H1. Qed.

Lemma alike_program w w' sr ss : heap_alike sr (the_heap (bumped w)) (the_heap w') ->
  program_at w sr ss -> program_at w' sr ss.
Proof.
  intros Ha Hp. set (w1 := mkWorld (set_heap (the_heap w') (w_proc w)) (w_os w)).
  apply (heap_program w1); [done |]. apply (still_program sr (bumped w)); [by constructor |].
  eapply more_program; [..| exact Hp]; try done.
  apply Forall_forall. intros s _. by apply Forall_forall.
Qed.

(** What the terminal shows of a run, all its logs but that of standard output being files: the title
    of each selected suite after the first words, and the report of all the results. *)
Definition run_text (sname tcname : option string) (mode : print_output) (ss : list suite_desc)
    (rs : list TestResult) : string :=
  if bool_decide (CK_SILENT < mode) then
    "Running suite(s):" +:+
    foldr (fun s t => (if suite_chosen sname tcname s then " " +:+ su_title s +:+ nl else "") +:+ t) "" ss +:+
    report mode rs (percent rs)
  else "".

Lemma told_run f w r mode : tidy (run_logs w r mode) -> told f (run_logs w r mode) =
  if bool_decide (CK_SILENT < mode_in w mode) then f (mkLog lf_stdout stdout_lfun_ false (mode_in w mode)) else "".
Proof.
  unfold run_logs. intros [_ H]%Forall_app. cbn [app].
  change (told f (?a :: ?l)) with (says f a +:+ told f l). rewrite told_files; [apply string_app_nil_r | exact H |].
  by rewrite !Forall_app, !Forall_fmap, !Forall_forall.
Qed.

(** No log of a run is sent to standard output by its name. *)
Definition own_files (w : world) (log xml tap : option string) : Prop :=
  name_or_env w log "CK_LOG_FILE_NAME" <> Some STDOUT_OVERRIDE_LOG_FILE_NAME /\
  name_or_env w xml "CK_XML_LOG_FILE_NAME" <> Some STDOUT_OVERRIDE_LOG_FILE_NAME /\
  name_or_env w tap "CK_TAP_LOG_FILE_NAME" <> Some STDOUT_OVERRIDE_LOG_FILE_NAME.
Lemma own_files_tidy w r mode : own_files w (log_fname r) (xml_fname r) (tap_fname r) -> tidy (run_logs w r mode).
Proof.
  assert (Hf : forall fn (n : option string), n <> Some STDOUT_OVERRIDE_LOG_FILE_NAME ->
    tidy (file_log fn (mode_in w mode) <$> option_list n)).
  { intros fn [n |] Hn; [| constructor]. constructor; [| constructor]. cbn. unfold stream_of.
    rewrite decide_False by congruence. discriminate. }
  intros (H1 & H2 & H3). unfold run_logs, tidy. cbv zeta. rewrite !Forall_app. split; [by constructor |].
  split; [by apply Hf |]. split; by apply Hf.
Qed.

Lemma told_whole w r sname tcname mode ss rs0 rs t : tidy (run_logs w r mode) ->
  ((t +:+ told (end_text rs0 CLSTART_SR) (run_logs w r mode)) +:+
     suites_text sname tcname (run_logs w r mode) ss) +:+ told (end_text rs CLEND_SR) (run_logs w r mode) =
  t +:+ run_text sname tcname (mode_in w mode) ss rs.
Proof.
  intros Htd. unfold run_text. rewrite !(told_run _ _ _ _ Htd). cbn [end_text log_mode].
  assert (Hs : suites_text sname tcname (run_logs w r mode) ss = if bool_decide (CK_SILENT < mode_in w mode) then
    foldr (fun s t => (if suite_chosen sname tcname s then " " +:+ su_title s +:+ nl else "") +:+ t) "" ss else "").
  { unfold suites_text. induction ss as [| s ss IH]; cbn [foldr]; [by case_bool_decide |].
    rewrite IH. unfold suite_text. rewrite (told_run _ _ _ _ Htd). cbn [event_text].
    by destruct (suite_chosen sname tcname s); case_bool_decide. }
  rewrite Hs. case_bool_decide; [by rewrite !string_app_assoc | by rewrite !string_app_nil_r].
Qed.

(** A whole run, of tests whose results are known, from a memory in [V]. *)
Lemma whole_run (expect : string -> TF * Z -> TestResult -> Prop) V st w sr r rs ss sname tcname include exclude mode :
  st = CK_FORK \/ st = CK_NOFORK -> mode < CK_LAST ->
  idle st w sr rs -> V (p_umem (w_proc w)) -> srunners (the_heap w) !! sr = Some r -> program_at w sr ss -> tags_below w ->
  let inc := arg_or_env w include "CK_INCLUDE_TAGS" in
  let exc := arg_or_env w exclude "CK_EXCLUDE_TAGS" in
  let ts := plan (arg_or_env w sname "CK_RUN_SUITE") (arg_or_env w tcname "CK_RUN_CASE") inc exc ss in
  (forall t, inc = Some t -> strlen t <= INT_MAX) -> (forall t, exc = Some t -> strlen t <= INT_MAX) ->
  Forall (fun s => Forall (case_ok expect V st (handling w)) (su_cases s)) ss ->
  Z.of_nat (length rs) + Z.of_nat (length ts) <= INT_MAX ->
  Z.max 0 (num_tests_run (the_statics w)) +
    (Z.of_nat (length ts) + Z.of_nat (length ss)) * (2 * Z.of_nat (length (run_logs w r mode))) <= INT_MAX ->
  reportable (length rs) -> reportable (length rs + length ts) ->
  exists w' new, srunner_run_tagged (Some sr) sname tcname include exclude mode w = (Ret tt, w') /\
    Forall2 (expected expect) ts new /\ idle st w' sr (rs ++ new) /\ V (p_umem (w_proc w')) /\
    heap_alike sr (the_heap (bumped w)) (the_heap w') /\ (loglst <$> srunners (the_heap w') !! sr) = Some None /\
    fstat_cur (the_statics w') = CK_FORK /\ (forall sig, disposition_of w' sig = disposition_of w sig) /\
    (own_files w (log_fname r) (xml_fname r) (tap_fname r) -> out (w_os w') = out (w_os w) +:+
       run_text (arg_or_env w sname "CK_RUN_SUITE") (arg_or_env w tcname "CK_RUN_CASE") (mode_in w mode) ss (rs ++ new)).
Proof.
  intros Hst Hmode Hidle HV Hr Hp Htb inc exc ts Hi He Hok Hlen Htap Hrep1 Hrep2.
  rewrite run_tagged_handled by done. fold inc exc. set (w0 := handling w) in *.
  assert (Hidle0 : idle st w0 sr rs) by (destruct Hidle as [[] ? ? ? ? [] ? ?]; by constructor).
  destruct (run_init_run st V w0 sr r rs mode Hst Hidle0 HV Hr Hrep1) as (w1 & E1 & Hb1 & Hs1 & Hn1 & Hx1).
  unfold run_handled. rewrite (bind_ret _ _ _ _ _ E1). change (run_logs w0 r mode) with (run_logs w r mode) in *.
  assert (Hp1 : program_at w1 sr ss) by (apply (still_program _ _ _ Hs1); by apply (heap_program w)).
  assert (Htb1 : tags_below w1).
  { intros a [l' Hl']. pose proof (ha_tags _ _ _ (st_heap _ _ _ Hs1) a) as Ha. rewrite Hl' in Ha.
    inversion Ha as [l ? _ El |]; subst. rewrite (ha_next _ _ _ (st_heap _ _ _ Hs1)). apply Htb. exists l. exact (eq_sym El). }
  destruct (iterate_suites_run expect V st w1 sr (run_logs w r mode) rs ss (arg_or_env w sname "CK_RUN_SUITE")
    (arg_or_env w tcname "CK_RUN_CASE") inc exc mode Hst Hb1 Hp1 Htb1 Hi He) as (w2 & new & E2 & Hb2 & Hf & Hs2 & Hx2).
  { eapply Forall_impl; [exact Hok |]. intros s. by apply cases_ok_steady, (still_steady sr). }
  { done. } { fold ts. change (num_tests_run (the_statics w0)) with (num_tests_run (the_statics w)) in Hn1. lia. }
  rewrite (bind_ret _ _ _ _ _ E2). fold ts in Hf.
  destruct (run_end_run st V w2 sr _ (rs ++ new) mode Hb2) as (w3 & E3 & Hid3 & HV3 & Hs3 & Hfs3 & Hll3 & Hx3).
  { by rewrite length_app, <- (Forall2_length _ _ _ Hf). }
  rewrite (bind_ret _ _ _ _ _ E3).
  assert (Hsg : the_signals w3 = the_signals w0).
  { rewrite (st_signals _ _ _ Hs3), (st_signals _ _ _ Hs2). exact (st_signals _ _ _ Hs1). }
  destruct (restoring_run w3 (disposition_of w)) as (f & E4 & Hdisp); [| by rewrite Hsg.. |].
  { intros sig H1 H2 H3. unfold disposition_of. rewrite Hsg. cbn.
    by rewrite !lookup_insert_ne by congruence. }
  exists (upd_signals f w3), new. split; [exact E4 |]. split; [exact Hf |].
  split; [destruct Hid3 as [[] ? ? ? ? [] ? ?]; by constructor |]. split; [done |].
  split; [| split; [done | split; [done | split; [done |]]]].
  2: { intros Htd%(own_files_tidy w r mode). change (out (w_os (upd_signals f w3))) with (out (w_os w3)).
    rewrite (Hx3 Htd), (Hx2 Htd), (Hx1 Htd). by apply told_whole. }
  change (the_heap (upd_signals f w3)) with (the_heap w3).
  etrans; [exact (still_heap_bumped _ _ _ (st_heap _ _ _ Hs1)) |]. etrans; [apply (st_heap _ _ _ Hs2) | apply (st_heap _ _ _ Hs3)].
Qed.
End Whole.
