(* ===== verification/BuiltSpec.v ===== *)
(** * A program that a client has built, ready to run

    The image that a client leaves describes the suites of a runner, as the theorems on runs
    take them. *)
From S2P Require Import Prelude Error Types CList Pack PackSpec Loops World Str Result Msg.
From S2P Require Import MsgSpec Core CoreSpec Alike Print Log Run RunnerSpec RenderSpec LogSpec.
From S2P Require Import LogRunSpec SelectSpec StatusSpec TraceSpec FixtureSpec TestSpec.
From S2P Require Import ScriptSpec.
From S2P Require Import TurnSpec RunSpec SuiteSpec WholeSpec Image BuildSpec FreeSpec ClientSpec.

Definition case_in (i : image) (c : loc) : option case :=
  d ← im_cases i !! c;
  Some (mkCase c (ac_name d) (ac_timeout d) (ac_tags d) (default [] (im_tags i !! ac_tags d)) (ac_tests d)
    (ac_fixtures d)).
Definition suite_in (i : image) (s : loc) : option suite_desc :=
  d ← im_suites i !! s; Some (mkSuiteDesc s (as_name d) (omap (case_in i) (as_cases d))).
(** The suites [ss] of an image. *)
Definition program_of (i : image) (ss : list loc) : list suite_desc := omap (suite_in i) ss.

Lemma omap_all {A B} (f : A -> option B) (g : B -> A) (l : list A) :
  (forall a b, f a = Some b -> g b = a) -> Forall (fun a => is_Some (f a)) l -> g <$> omap f l = l.
Proof.
  intros Hg. induction 1 as [| a l [b Hb] _ IH]; [done |]. cbn. rewrite Hb. cbn. by rewrite IH, (Hg a b).
Qed.
Lemma Forall_omap {A B} (f : A -> option B) (P : B -> Prop) (l : list A) :
  (forall a b, a ∈ l -> f a = Some b -> P b) -> Forall P (omap f l).
Proof. intros H. apply Forall_forall. intros b (a & Ha & Hf)%list_elem_of_omap. by apply (H a). Qed.

Lemma case_in_at w i c x : models w i -> wf i -> case_in i c = Some x -> case_at w x.
Proof.
  unfold case_in. intros Hm Hwf E. apply bind_Some in E as (d & Hd & E). injection E as <-.
  destruct (models_case _ _ Hm _ _ Hd) as (t & Ht & [H1 H2 H3 H4 H5]).
  destruct (wf_cases i Hwf _ _ Hd) as [ts Hts]. constructor; cbn.
  - by exists t.
  - rewrite Hts. by apply (models_tags _ _ Hm).
  - by apply (models_tests_hold _ _ _ _ Hm).
  - intros ck b. by apply (models_fixtures_hold _ _ _ _ _ _ Hm).
Qed.

Lemma program_of_at w i sr r : models w i -> wf i -> im_runners i !! sr = Some r ->
  program_at w sr (program_of i (ar_suites r)).
Proof.
  intros Hm Hwf Hr. destruct (wf_runners i Hwf _ _ Hr) as [Hl _]. constructor.
  - unfold program_of. rewrite omap_all; [by apply (models_suites_hold _ _ _ _ Hm) | |].
    + intros s x E. unfold suite_in in E. by apply bind_Some in E as (d & _ & [= <-]).
    + eapply Forall_impl; [exact Hl |]. intros s [d Hd]. unfold suite_in. rewrite Hd. by eexists.
  - apply Forall_omap. intros s x Hs E. unfold suite_in in E. apply bind_Some in E as (d & Hd & E).
    injection E as <-. destruct (models_suite _ _ Hm _ _ Hd) as (y & Hy & [H1 H2]).
    destruct (wf_suites i Hwf _ _ Hd) as [_ Hlive]. constructor; cbn.
    + by exists y.
    + rewrite omap_all; [by apply (models_cases_hold _ _ _ _ Hm) | |].
      * intros c z E. unfold case_in in E. by apply bind_Some in E as (? & _ & [= <-]).
      * eapply Forall_impl; [exact Hlive |]. intros c [z Hz]. unfold case_in. rewrite Hz. by eexists.
    + apply Forall_omap. intros c z Hc E. by apply (case_in_at w i c z Hm Hwf E).
Qed.

Lemma models_tags_below w i : models w i -> wf i -> tags_below w.
Proof.
  intros Hm Hwf a [l Hl]. pose proof (md_tags _ _ Hm a) as H. rewrite Hl in H. inversion H as [? ts _ E |]; subst.
  rewrite (md_next _ _ Hm). by eapply (wf_tags_fresh i Hwf).
Qed.

(** The image after a run of [sr]: two addresses given out, and the results. *)
Definition with_results (rs : list TestResult) (r : arunner) : arunner :=
  mkARunner (ar_suites r) rs (ar_log r) (ar_xml r) (ar_tap r) (ar_fork r).
Definition ran_image (sr : loc) (r : arunner) (rs : list TestResult) (i : image) : image :=
  put_next (im_next i + 2) (put_runner sr (with_results rs r) i).

Lemma map_alike_after {A B} (R : A -> A -> Prop) (P : A -> B -> Prop) (m m' : gmap loc A) (n : gmap loc B) :
  (forall x x' d, R x x' -> P x d -> P x' d) -> map_alike R m m' -> map_Forall2 (fun _ => P) m n ->
  map_Forall2 (fun _ => P) m' n.
Proof.
  intros HRP H1 H2 a. specialize (H1 a). specialize (H2 a).
  destruct H2 as [x d HP |]; inversion H1; subst; constructor; eauto.
Qed.

Lemma models_ran w w' i sr r rs : models w i -> im_runners i !! sr = Some r ->
  heap_alike sr (the_heap (bumped w)) (the_heap w') -> runner_has w' sr rs ->
  (loglst <$> srunners (the_heap w') !! sr) = Some None -> models w' (ran_image sr r rs i).
Proof.
  intros Hm Hr [H1 H2 H3 H4 H5 H6] [(x' & Hx' & Est) Hrs _] Hl.
  destruct (models_runner _ _ Hm _ _ Hr) as (x & Hx & [R1 R2 R3 R4 R5 R6 R7 R8]).
  constructor; cbn.
  - rewrite H1. cbn. rewrite (md_next _ _ Hm). lia.
  - eapply map_alike_after; [| exact H2 | apply Hm]. intros y y' d [] []. constructor; [congruence | auto].
  - eapply map_alike_after; [| exact H3 | apply Hm]. intros y y' d [E1 E2 E3 E4 E5] [F1 F2 F3 F4 F5].
    constructor; [congruence.. | by apply E4 | intros ck s; by apply E5 | congruence].
  - eapply map_alike_after; [| exact H4 | apply Hm]. intros y y' d. auto.
  - intros a. destruct (decide (a = sr)) as [-> | Hne].
    + rewrite Hx' in Hl |- *. rewrite lookup_insert_eq. constructor. destruct (H5 x Hx) as (x2 & Hx2 & []). rewrite Hx' in Hx2. injection Hx2 as <-.
      destruct (field_holds_inv _ _ _ _ _ _ _ Hrs) as (x3 & Hx3 & Hl3). rewrite Hx' in Hx3. injection Hx3 as <-.
      injection Hl as Hl. constructor; cbn; try congruence; auto.
    + rewrite lookup_insert_ne, (H6 a Hne) by congruence. apply (md_runners _ _ Hm a).
Qed.

Lemma wf_ran i sr r rs : wf i -> im_runners i !! sr = Some r -> Forall definite rs -> wf (ran_image sr r rs i).
Proof.
  intros Hwf Hr Hd. apply wf_next; [| cbn; lia]. destruct (wf_runners i Hwf _ _ Hr) as [Hl _].
  apply wf_put_runner; [done | by eapply (wf_runners_fresh i) | exact Hl | done].
Qed.

(** The fork status of a runner with the setting [f]. *)
Definition fork_of (e : gmap string string) (f : fork_status) : fork_status :=
  if decide (f = CK_FORK_GETENV) then
    match e !! "CK_FORK" with
    | Some v => if decide (v = "no") then CK_NOFORK else CK_FORK
    | None => CK_FORK
    end
  else f.

(** A process that may build and run programs: no channel open, no alarm set. *)
Record quiescent {plat : Platform} (w : world) : Prop := mkQuiescent {
  qs_nested : nested w 0;
  qs_limit : 0 < msg_limit w;
  qs_window : msg_limit w * 2 < 2 ^ 64;
  qs_deadline : deadline (w_os w) = None;
  qs_pid : 0 <= p_pgid (w_proc w) < next_pid (w_os w)
}.

Section Built.
Context {plat : Platform} {plat_ok : PlatformOK}.

Lemma quiescent_idle st w w' i sr r : quiescent w -> heap_only w w' -> models w' i ->
  im_runners i !! sr = Some r -> ar_results r = [] -> fork_of (env (w_proc w)) (ar_fork r) = st ->
  idle st w' sr [].
Proof.
  intros [[] ? ? ? ?] [h ->] Hm Hr He Hst.
  destruct (models_runner _ _ Hm _ _ Hr) as (x & Hx & [H1 H2 H3 H4 H5 H6 H7 H8]). rewrite He in *.
  constructor; try done.
  - exists x. split; [exact Hx |]. rewrite H8. by rewrite <- Hst.
  - constructor; [by exists x | | done]. by eapply field_holds.
Qed.

Lemma run_logs_length w r mode : (length (run_logs w r mode) <= 4)%nat.
Proof.
  assert (Ho : forall A (o : option A), (length (option_list o) <= 1)%nat) by (intros A []; simpl; lia).
  unfold run_logs. cbv zeta. rewrite !length_app, !length_fmap. cbn [length].
  pose proof (Ho _ (name_or_env w (log_fname r) "CK_LOG_FILE_NAME")).
  pose proof (Ho _ (name_or_env w (xml_fname r) "CK_XML_LOG_FILE_NAME")).
  pose proof (Ho _ (name_or_env w (tap_fname r) "CK_TAP_LOG_FILE_NAME")). lia.
Qed.

(** A client and the run of a runner that it has built. *)
Lemma built_run (expect : string -> TF * Z -> TestResult -> Prop) (V : umem -> Prop)
    st w p i0 i sr r sname tcname include exclude mode :
  st = CK_FORK \/ st = CK_NOFORK -> mode < CK_LAST ->
  quiescent w -> V (p_umem (w_proc w)) -> models w i0 -> wf i0 -> image_after (env (w_proc w)) p i0 = Some (sr, i) ->
  im_runners i !! sr = Some r -> ar_results r = [] -> fork_of (env (w_proc w)) (ar_fork r) = st ->
  let inc := arg_or_env w include "CK_INCLUDE_TAGS" in
  let exc := arg_or_env w exclude "CK_EXCLUDE_TAGS" in
  let ss := program_of i (ar_suites r) in
  let ts := plan (arg_or_env w sname "CK_RUN_SUITE") (arg_or_env w tcname "CK_RUN_CASE") inc exc ss in
  (forall t, inc = Some t -> strlen t <= INT_MAX) -> (forall t, exc = Some t -> strlen t <= INT_MAX) ->
  Forall (fun s => Forall (case_ok expect V st (handling w)) (su_cases s)) ss ->
  Z.of_nat (length ts) <= INT_MAX ->
  Z.max 0 (num_tests_run (the_statics w)) + (Z.of_nat (length ts) + Z.of_nat (length ss)) * 8 <= INT_MAX ->
  reportable (length ts) ->
  exists w' new, (sr ← run_client p; srunner_run_tagged (Some sr) sname tcname include exclude mode) w = (Ret tt, w') /\
    Forall2 (expected expect) ts new /\ idle st w' sr new /\
    models w' (ran_image sr r new i) /\ wf (ran_image sr r new i) /\
    (own_files w (ar_log r) (ar_xml r) (ar_tap r) -> out (w_os w') = out (w_os w) +:+
       run_text (arg_or_env w sname "CK_RUN_SUITE") (arg_or_env w tcname "CK_RUN_CASE") (mode_in w mode) ss new).
Proof.
  intros Hst Hmode Hq HV Hm0 Hwf0 Ei Hr He Hfk inc exc ss ts Hinc Hexc Hok Hlen Htap Hrep.
  destruct (client_run p w i0 sr i Hm0 Hwf0 Ei) as (w1 & Ep & Hm & Hwf & Hh).
  destruct (models_runner _ _ Hm _ _ Hr) as (x & Hx & Hra). pose proof Hh as [h ->].
  destruct (whole_run expect V st (upd_heap (fun _ => h) w) sr x [] ss sname tcname include exclude mode)
    as (w' & new & Er & Hf & Hid & HV' & Ha & Hl & _ & _ & Htx); try done.
  - by eapply quiescent_idle.
  - by apply program_of_at.
  - by eapply models_tags_below.
  - eapply Forall_impl; [exact Hok |]. intros s. by apply cases_ok_steady.
  - etrans; [| exact Htap]. apply Z.add_le_mono_l, Z.mul_le_mono_nonneg_l; [lia |].
    pose proof (run_logs_length (upd_heap (fun _ => h) w) x mode). lia.
  - apply reportable_100. simpl. lia.
  - exists w', new. split; [by rewrite (bind_ret _ _ _ _ _ Ep) |]. split; [done |]. split; [done |].
    split; [by eapply models_ran; [| | | apply Hid |] |]. split; [apply wf_ran; [done | done | apply Hid] |].
    destruct Hra as [_ _ _ H4 H5 H6 _ _]. intros Ho. apply Htx. by rewrite H4, H5, H6.
Qed.

(** The main function of a test program, as that of the examples: it builds a runner with its suites,
    runs it and frees it; its result is the exit status of the program. *)
Definition EXIT_SUCCESS : Z := 0.
Definition EXIT_FAILURE : Z := 1.
Definition check_main (p : client) (mode : print_output) : M world Z :=
  sr ← run_client p;
  srunner_run_all (Some sr) mode ;;
  number_failed ← srunner_ntests_failed sr;
  srunner_free (Some sr) ;;
  mret (if decide (number_failed = 0) then EXIT_SUCCESS else EXIT_FAILURE).

Lemma sole_owner_ran i sr r rs : im_runners i !! sr = Some r -> sole_owner i sr (ar_suites r) ->
  sole_owner (ran_image sr r rs i) sr (ar_suites r).
Proof.
  intros Hr (H1 & H2 & H3 & H4). split; [done |]. split; [done |]. split; [| done].
  intros a x. cbn. rewrite lookup_insert_Some. intros [[-> _] | [_ Hx]]; [by left | by apply (H3 a x)].
Qed.

(** The main function of a program that a client builds. *)
Lemma main_run (expect : string -> TF * Z -> TestResult -> Prop) (V : umem -> Prop)
    st w p i0 i sr r mode :
  st = CK_FORK \/ st = CK_NOFORK -> mode < CK_LAST ->
  quiescent w -> V (p_umem (w_proc w)) -> models w i0 -> wf i0 -> image_after (env (w_proc w)) p i0 = Some (sr, i) ->
  im_runners i !! sr = Some r -> ar_results r = [] -> fork_of (env (w_proc w)) (ar_fork r) = st ->
  sole_owner i sr (ar_suites r) ->
  let var := fun x => env (w_proc w) !! x in
  let ss := program_of i (ar_suites r) in
  let ts := plan (var "CK_RUN_SUITE") (var "CK_RUN_CASE") (var "CK_INCLUDE_TAGS") (var "CK_EXCLUDE_TAGS") ss in
  (forall t, var "CK_INCLUDE_TAGS" = Some t -> strlen t <= INT_MAX) ->
  (forall t, var "CK_EXCLUDE_TAGS" = Some t -> strlen t <= INT_MAX) ->
  Forall (fun s => Forall (case_ok expect V st (handling w)) (su_cases s)) ss ->
  Z.of_nat (length ts) <= INT_MAX ->
  Z.max 0 (num_tests_run (the_statics w)) + (Z.of_nat (length ts) + Z.of_nat (length ss)) * 8 <= INT_MAX ->
  reportable (length ts) ->
  exists w' new status, check_main p mode w = (Ret status, w') /\
    (status = EXIT_SUCCESS <-> Forall (fun tr => rtype tr = CK_PASS) new) /\
    (status = EXIT_SUCCESS \/ status = EXIT_FAILURE) /\
    Forall2 (expected expect) ts new /\
    models w' (erase_runner sr (ar_suites r) (ran_image sr r new i)) /\
    wf (erase_runner sr (ar_suites r) (ran_image sr r new i)) /\
    (own_files w (ar_log r) (ar_xml r) (ar_tap r) -> out (w_os w') = out (w_os w) +:+
       run_text (var "CK_RUN_SUITE") (var "CK_RUN_CASE") (mode_in w mode) ss new).
Proof.
  intros Hst Hmode Hq HV Hm0 Hwf0 Ei Hr He Hfk Ho var ss ts Hinc Hexc Hok Hlen Htap Hrep.
  destruct (built_run expect V st w p i0 i sr r None None None None mode) as (w1 & new & E & Hf & Hid & Hm & Hwf & Hx); try done.
  set (i1 := ran_image sr r new i) in *. set (r1 := with_results new r).
  assert (Hr1 : im_runners i1 !! sr = Some r1) by apply lookup_insert_eq.
  assert (Ho1 : sole_owner i1 sr (ar_suites r1)) by exact (sole_owner_ran i sr r new Hr Ho).
  destruct (srunner_free_refines w1 i1 sr r1 Hm Hwf Hr1 Ho1) as (w2 & E2 & Hm2 & [h Hh2]).
  exists w2, new, (if decide (Z.of_nat (length (failing new)) = 0) then EXIT_SUCCESS else EXIT_FAILURE).
  split; [| split; [rewrite <- (failing_none new) by apply (id_results _ _ _ _ Hid); by case_decide; destruct (failing new) | split; [by case_decide; [left | right] |]]].
  2: { split; [exact Hf | split; [exact Hm2 |]].
    split; [by apply wf_erase_runner with (r := r1) | by rewrite Hh2]. }
  apply bind_inv in E as (sr' & w0 & Ep & E). pose proof (client_run p w i0 sr i Hm0 Hwf0 Ei) as (w0' & Ep' & _).
  rewrite Ep' in Ep. injection Ep as <- <-. unfold check_main.
  rewrite (bind_ret _ _ _ _ _ Ep'). unfold srunner_run_all. rewrite (bind_ret _ _ _ _ _ E).
  rewrite (bind_ret _ _ _ _ _ (ntests_failed_run _ _ _ (id_results _ _ _ _ Hid))).
  revert E2. unfold mbind, M_bind. by destruct (srunner_free (Some sr) w1) as [[[] | | | | |] ?]; try done; intros [= <-].
Qed.
End Built.
