(* ===== verification/CoreProps.v ===== *)
(** * Properties of suites, test cases and runners *)
From S2P Require Import Prelude Error Types CList Loops Pack World Str Result Msg MsgSpec Core.
From S2P Require Import CoreSpec Alike Print Log Run SelectSpec RunnerSpec Demo.

Lemma and_iff3 (A B C P Q R : Prop) :
  (A <-> P) -> (B <-> Q) -> (C <-> R) -> ((A /\ B) /\ C <-> P /\ Q /\ R).
Proof. tauto. Qed.

Section Properties.
Context {plat : Platform} {plat_ok : PlatformOK}.

(** C23: a test case is run exactly when its name is the one asked for, or none was; it has
    one of the included tags, or none were asked for; and it has none of the excluded tags.
    The tags asked for are the words of the strings. Looking changes no list. *)
Theorem tcase_selected_spec tc t tl inc exc xs tcname include exclude w :
  tagged w tc t tl xs -> tl <> inc -> tl <> exc ->
  holds (taglist_ptr inc) w (words_opt include) -> holds (taglist_ptr exc) w (words_opt exclude) ->
  exists b w', tcase_selected tc tcname include exclude inc exc w = (Ret b, w') /\
    tags_kept w w' /\
    (b = true <->
       (forall n, tcname = Some n -> n = tc_name t) /\
       (forall s, include = Some s -> exists g, g ∈ xs /\ g ∈ words s) /\
       (forall s, exclude = Some s -> forall g, g ∈ xs -> g ∈ words s -> False)).
Proof.
  intros Htag Hi He Hinc Hexc.
  destruct (tcase_selected_run tc t tl inc exc xs tcname include exclude w Htag Hi He Hinc Hexc)
    as (w' & E & Hk).
  exists (selects tcname include exclude (tc_name t) xs), w'. split; [exact E |]. split; [done |].
  unfold selects. rewrite !andb_true_iff, negb_true_iff. apply and_iff3.
  - destruct tcname as [n |]; simpl; [| done]. rewrite bool_decide_eq_true. naive_solver.
  - destruct include as [s |]; simpl; [| done]. rewrite common_spec.
    split; [by intros H s' [= <-] | intros H; by apply H].
  - destruct exclude as [s |]; simpl; [| done]. destruct (common xs (words s)) eqn:Ec.
    + apply common_spec in Ec as (g & Hx & Hg).
      split; [done |]. intros Hno. destruct (Hno s eq_refl g Hx Hg).
    + split; [| done]. intros _ s' [= <-] g Hx Hg.
      assert (Hc : common xs (words s) = true) by (apply common_spec; by exists g). congruence.
Qed.

(** A tag: not empty, without spaces. *)
Definition tag (t : string) : Prop := t <> "" /\ pieces t = [t].

Lemma pieces_app_space t u : pieces t = [t] -> pieces (t +:+ String SPACE u) = t :: pieces u.
Proof.
  unfold String.app. induction t as [| c t IH]; simpl; [done |].
  destruct (pieces_cons t) as (t' & ts & E). rewrite E in *.
  destruct (decide (c = SPACE)); [done |]. intros [= -> ->]. by rewrite IH by done.
Qed.

(** C36: a string of tags becomes the list of its words, in order, whatever spaces surround
    them: a new list at a new address, with every other object of the heap as it was. Tags
    each followed by a space come back as they were. *)
Theorem tag_string_to_list_words s w :
  (forall t, s = Some t -> strlen t <= INT_MAX) ->
  (exists w', tag_string_to_list s w = (Ret (next_loc (the_heap w)), w') /\
    holds (taglist_ptr (next_loc (the_heap w))) w' (words_opt s) /\
    (forall a, a <> next_loc (the_heap w) -> taglists (the_heap w') !! a = taglists (the_heap w) !! a) /\
    tcases (the_heap w') = tcases (the_heap w) /\ suites (the_heap w') = suites (the_heap w) /\
    srunners (the_heap w') = srunners (the_heap w) /\ w_os w' = w_os w) /\
  (forall ts, Forall tag ts ->
     words (foldr (fun t u => t +:+ String SPACE u) "" ts) = ts).
Proof.
  intros Hs. split.
  - destruct (tag_string_to_list_run s w Hs) as (l & E & q & Hr). exists (new_tags l w).
    split; [exact E |]. split.
    { exists l, q. split; [| done]. rewrite look_taglist. apply lookup_insert_eq. }
    split; [| done]. intros a Ha. apply lookup_insert_ne. congruence.
  - intros ts. induction 1 as [| t ts [Hne Ht] _ IH]; [done |]. unfold words in *. cbn [foldr].
    rewrite pieces_app_space, filter_cons_True by done. by rewrite IH.
Qed.

(** Adding a test case to a suite puts it at the end, and does nothing when it is already
    there, so that a suite never holds a test case twice. *)
Lemma suite_add_tcase_once s tc w tcs : holds (tclst_ptr s) w tcs -> NoDup tcs ->
  Z.of_nat (length tcs) < INT_MAX ->
  exists w' tcs', suite_add_tcase (Some s) (Some tc) w = (Ret tt, w') /\
    holds (tclst_ptr s) w' tcs' /\ NoDup tcs' /\
    tcs' = (if decide (tc ∈ tcs) then tcs else tcs ++ [tc]) /\
    w_os w' = w_os w /\ tcases (the_heap w') = tcases (the_heap w).
Proof.
  intros Hh Hd Hb. destruct (suite_add_tcase_run s tc w tcs Hh Hb) as (l & E & Hl).
  eexists _, _. split; [exact E |]. split; [exact Hl |]. split; [| split; [done | split]].
  - case_decide; [done |]. apply NoDup_app. split; [done |]. split; [| apply NoDup_singleton].
    intros x Hx ->%list_elem_of_singleton. done.
  - done.
  - apply put_tclst_tcases.
Qed.

(** C35: whatever sequence of fixtures is registered with a test case, its setups run in the
    order of registration and its teardowns in the opposite order, checked and unchecked ones
    apart; the tests of the test case are not touched. *)
Theorem fixtures_nest tc w ts rgs :
  fixtures_are tc w (fun _ _ => []) ts -> Z.of_nat (length rgs) <= INT_MAX ->
  exists w', register_all tc rgs w = (Ret tt, w') /\
    holds (ch_sflst_ptr tc) w' (concat (setups true <$> rgs)) /\
    holds (ch_tflst_ptr tc) w' (concat (teardowns true <$> reverse rgs)) /\
    holds (unch_sflst_ptr tc) w' (concat (setups false <$> rgs)) /\
    holds (unch_tflst_ptr tc) w' (concat (teardowns false <$> reverse rgs)) /\
    holds (tflst_ptr tc) w' ts.
Proof.
  intros Hx Hb. destruct (register_all_run tc ts rgs w _ Hx) as (w' & E & [Hf Ht]).
  { intros c s. simpl. lia. }
  exists w'. split; [exact E |]. unfold after, in_order in Hf.
  pose proof (Hf true true) as H1. pose proof (Hf true false) as H2.
  pose proof (Hf false true) as H3. pose proof (Hf false false) as H4.
  cbn [app fixture_ptr] in *. rewrite !app_nil_r in *. done.
Qed.

(** C32: adding a result keeps the counters of the runner in agreement with its results: so
    many run, so many failures, so many errors. *)
Theorem srunner_add_failure_counts w sr rs tr : runner_has w sr rs -> definite tr ->
  Z.of_nat (length rs) < INT_MAX ->
  exists w', srunner_add_failure sr tr w = (Ret tt, w') /\ runner_has w' sr (rs ++ [tr]) /\
    srunner_ntests_run sr w' = (Ret (Z.of_nat (length rs) + 1), w') /\
    srunner_ntests_failed sr w' = (Ret (Z.of_nat (length (failing (rs ++ [tr])))), w').
Proof.
  intros Hw Htr Hb. destruct (add_failure_run w sr rs tr Hw Htr Hb) as (l & r & _ & E & H).
  eexists. split; [exact E |]. split; [exact H |]. split; [| by apply ntests_failed_run].
  rewrite (ntests_run_run _ _ _ H), length_app, Nat2Z.inj_add. done.
Qed.

(** C31: the arrays given to the caller hold exactly the results, and exactly those that are
    not passes, in order; no element is written outside the memory allocated for them. *)
Theorem srunner_arrays w sr rs : runner_has w sr rs ->
  (exists w', srunner_results sr w = (Ret rs, w') /\ holds (resultlst_ptr sr) w' rs) /\
  (exists w', srunner_failures sr w = (Ret (failing rs), w') /\ holds (resultlst_ptr sr) w' rs).
Proof.
  intros H. pose proof H as [_ Hh Hd]. split.
  - unfold srunner_results. rewrite (bind_ret _ _ _ _ _ (ntests_run_run _ _ _ H)), (bind_ret _ _ _ _ _ (emalloc_run _ _)).
    assert (Hall : filter (fun x : TestResult => (fun _ => true) x = true) rs = rs)
      by (clear; induction rs as [| tr rs IH]; [done | rewrite filter_cons_True by done; by rewrite IH]).
    destruct (push_loop_run sr (fun _ => true) rs w (Z.of_nat (length rs)) Hh) as (l & E & Hl).
    { by rewrite Hall. }
    rewrite Hall in E. exists (put (resultlst_ptr sr) l w). split; [| done].
    unfold with_local. unfold push_loop in E. cbv beta iota in E.
    unfold mbind at 1, M_bind at 1. rewrite E. done.
  - unfold srunner_failures. rewrite (bind_ret _ _ _ _ _ (ntests_failed_run _ _ _ H)), (bind_ret _ _ _ _ _ (emalloc_run _ _)).
    destruct (push_loop_run sr (fun tr => non_pass (rtype tr)) rs w (Z.of_nat (length (failing rs))) Hh) as (l & E & Hl); [done |].
    exists (put (resultlst_ptr sr) l w). split; [| done].
    unfold with_local, push_loop in *. unfold mbind at 1, M_bind at 1. rewrite E. done.
Qed.
End Properties.

(** ** Witnesses *)

#[local] Existing Instance Demo.plat.
#[local] Existing Instance Demo.plat_ok.

(** Evaluates that a list of a concrete world holds its elements, the cursor at [q]. *)
Ltac holds_demo q :=
  eexists _, q; split; [reflexivity |];
  constructor; cbn -[Z.pow words words_opt];
    first [ reflexivity | vm_compute; reflexivity | vm_compute; discriminate
          | vm_compute; split; [discriminate | lia] | lia | done
          | by exists 0 | by exists 1 | by exists 2 | by exists 3 | by split; [| lia] | idtac ].

(** A test case with two tags, and two lists of tags to select by. *)
Definition w_tags : world := Eval vm_compute in
  snd ((tcase_set_tags tc0 (Some "fast db") ;; tag_string_to_list (Some "db  net") ;;
        tag_string_to_list (Some "slow")) w_fork).
Definition tcase_tagged : TCase := Eval vm_compute in default no_tcase (tcases (the_heap w_tags) !! tc0).

Lemma tcase_selected_spec_witness :
  exists b w', tcase_selected tc0 (Some "Core") (Some "db  net") (Some "slow") 1005 1006 w_tags = (Ret b, w') /\
    tags_kept w_tags w' /\ b = true.
Proof.
  destruct (tcase_selected_spec tc0 tcase_tagged 1004 1005 1006 ["fast"; "db"] (Some "Core")
    (Some "db  net") (Some "slow") w_tags) as (b & w' & E & Hk & Hb).
  - split; [reflexivity |]. split; [reflexivity |]. holds_demo (Some 1%nat).
  - discriminate.
  - discriminate.
  - holds_demo (Some 1%nat).
  - holds_demo (Some 0%nat).
  - exists b, w'. split; [exact E |]. split; [exact Hk |]. apply Hb. split; [by intros n [= <-] |].
    split.
    + intros s [= <-]. exists "db". split; [by right; left | by left].
    + intros s [= <-] g Hg Hs. cbn in Hs. apply list_elem_of_singleton in Hs. subst g.
      apply elem_of_cons in Hg as [Hg | Hg]; [done |]. by apply list_elem_of_singleton in Hg.
Defined.

Lemma tag_string_to_list_words_witness :
  exists w', tag_string_to_list (Some " fast  db") w_fork = (Ret 1004, w') /\
    holds (taglist_ptr 1004) w' ["fast"; "db"].
Proof.
  destruct (tag_string_to_list_words (Some " fast  db") w_fork) as [(w' & E & Hh & _) _].
  - by intros t [= <-].
  - exists w'. split; [exact E | exact Hh].
Defined.

Lemma suite_add_tcase_once_witness :
  exists w', suite_add_tcase (Some 1000) (Some tc0) w_fork = (Ret tt, w') /\
    holds (tclst_ptr 1000) w' [tc0].
Proof.
  destruct (suite_add_tcase_once 1000 tc0 w_fork [tc0]) as (w' & tcs' & E & Hh & _ & -> & _).
  - holds_demo (Some 0%nat).
  - apply NoDup_singleton.
  - reflexivity.
  - exists w'. split; [exact E | exact Hh].
Defined.

Definition demo_setup : SFun := fun _ => [u_mark_point "a.c" 1].
Definition demo_teardown : SFun := fun _ => [u_mark_point "a.c" 2].

Lemma fixtures_nest_witness :
  exists w', register_all tc0 [(true, Some demo_setup, Some demo_teardown); (false, Some demo_setup, None);
      (true, None, Some demo_setup)] w_fork =
      (Ret tt, w') /\
    holds (ch_tflst_ptr tc0) w' [mkFixture 1 demo_setup; mkFixture 1 demo_teardown].
Proof.
  destruct (fixtures_nest tc0 w_fork [tf_of t_pass; tf_of t_fail; tf_of t_hang]
    [(true, Some demo_setup, Some demo_teardown); (false, Some demo_setup, None);
      (true, None, Some demo_setup)]) as (w' & E & _ & H & _).
  - split; [intros c s; destruct c, s; holds_demo (@None nat) | holds_demo (Some 2%nat)].
  - vm_compute. discriminate.
  - exists w'. split; [exact E | exact H].
Defined.

(** A runner with two results, one of them a failure. *)
Definition r_pass : TestResult := mkTestResult CK_PASS CK_CTX_TEST (Some "a.c") 5 (Some 0) 0
  (Some "Core") (Some "t_pass") (Some "Passed").
Definition r_fail : TestResult := mkTestResult CK_FAILURE CK_CTX_TEST (Some "a.c") 15 (Some 0) 0
  (Some "Core") (Some "t_fail") (Some "1 == 2").
Definition w_results : world := Eval vm_compute in
  snd ((srunner_add_failure sr0 r_pass ;; srunner_add_failure sr0 r_fail) w_fork).

Lemma w_results_has : runner_has w_results sr0 [r_pass; r_fail].
Proof.
  constructor; [eexists; split; reflexivity | holds_demo (Some 1%nat) |].
  repeat constructor; discriminate.
Qed.

Lemma srunner_add_failure_counts_witness :
  exists w', srunner_add_failure sr0 r_fail w_results = (Ret tt, w') /\
    runner_has w' sr0 [r_pass; r_fail; r_fail] /\
    srunner_ntests_run sr0 w' = (Ret (2 + 1), w') /\
    srunner_ntests_failed sr0 w' = (Ret 2, w').
Proof.
  apply (srunner_add_failure_counts w_results sr0 [r_pass; r_fail] r_fail w_results_has);
    [discriminate | reflexivity].
Defined.

Lemma srunner_arrays_witness :
  (exists w', srunner_results sr0 w_results = (Ret [r_pass; r_fail], w') /\
     holds (resultlst_ptr sr0) w' [r_pass; r_fail]) /\
  (exists w', srunner_failures sr0 w_results = (Ret [r_fail], w') /\
     holds (resultlst_ptr sr0) w' [r_pass; r_fail]).
Proof. apply (srunner_arrays w_results sr0 [r_pass; r_fail] w_results_has). Defined.
