(* ===== verification/TestProps.v ===== *)
(** * Properties of one test, forked or not *)
From S2P Require Import Prelude Error Types CList Pack PackSpec World Str Result Msg MsgSpec.
From S2P Require Import Loops Core CoreSpec Alike Print Log Run StatusSpec TraceSpec FixtureSpec.
From S2P Require Import TestSpec ScriptSpec TurnSpec Demo CoreProps.

Section Results.
Context {plat : Platform} {plat_ok : PlatformOK}.

(** C9: a test and its checked fixtures, that mark points, compute, assign variables and make
    assertions, have in the process the result of their script: that of the first failed setup,
    else of the test if it fails, else of the first failed teardown, else a pass. In a child the
    verdict, context, location and message are the same. When no setup fails the results are the same but for the duration,
    which a child that fails does not report; when one does, it is reported under the name of
    the test by a child and under the name "checked_setup" in the process. A child leaves the
    memory of the process as it was; in the process the test leaves what it assigned. *)
Theorem fork_nofork_agree wf wn srf srn c tf i fpf fpn msf msn :
  can_run CK_FORK wf srf c fpf msf -> can_run CK_NOFORK wn srn c fpn msn ->
  tf_signal tf = 0 -> allowed_exit_value tf = 0 -> p_umem (w_proc wn) = p_umem (w_proc wf) ->
  let s := script_of CK_NOFORK c tf i (p_umem (w_proc wf)) in
  plain_script wf (c_timeout c) (ttest tf) s -> plain_script wn (c_timeout c) (ttest tf) s ->
  exists trf d wf' wn', let trn := script_result CK_NOFORK (c_name c) tf i d s in
    tcase_run_tfun_fork srf (c_loc c) tf i wf = (Ret trf, wf') /\
    tcase_run_tfun_nofork srn (c_loc c) tf i wn = (Ret trn, wn') /\
    rtype trf = rtype trn /\ tr_ctx trf = tr_ctx trn /\ tr_file trf = tr_file trn /\ tr_line trf = tr_line trn /\
    tr_msg trf = tr_msg trn /\ tr_tcname trf = tr_tcname trn /\
    (fails (sc_setups s) = false -> set_duration d trf = trn) /\
    (fails (sc_setups s) = true -> tr_tname trf = Some (tt_name (ttest tf)) /\ tr_tname trn = Some "checked_setup") /\
    p_umem (w_proc wf') = p_umem (w_proc wf) /\ p_umem (w_proc wn') = memory_after s (p_umem (w_proc wf)).
Proof.
  intros Hrf Hrn Hsig Hall Hu s Hpf Hpn.
  destruct (fork_script wf srf c tf i fpf msf Hrf Hsig Hall (script_modes_plain _ _ _ _ _ _ _ Hpf))
    as (wf' & fp' & Ef & _ & Hif & _).
  destruct (nofork_script wn srn c tf i fpn msn Hrn) as (d & wn' & fpn' & msn' & En & _ & _ & Hun); [by rewrite Hu |].
  rewrite Hu in En, Hun. fold s in En, Hun.
  eexists _, d, wf', wn'. split; [exact Ef |]. split; [exact En |]. rewrite (is_umem _ _ Hif).
  rewrite script_modes_fail. fold s. set (df := if script_fails s then -1 else _).
  assert (E : fails (sc_setups s) = false -> forall d, script_result CK_FORK (c_name c) tf i d (script_of CK_FORK c tf i (p_umem (w_proc wf))) =
    script_result CK_NOFORK (c_name c) tf i d s) by (intros H d'; by apply script_modes_result).
  destruct (fails (sc_setups s)) eqn:Es.
  - destruct (fails_some _ Es) as [[[f l] m] Ex]. rewrite script_modes. fold s. unfold script_result. cbn [sc_setups]. by rewrite Ex.
  - rewrite (E eq_refl). unfold script_result, plain_result. rewrite (fails_none _ Es).
    destruct (if failed (sc_test s) then None else _) as [[[f l] m] |]; [done |]. by destruct (last_loc _ _).
Qed.

(** C7: whatever a test does in its child (it may exit, be killed, run out of time, or corrupt
    its memory), the parent gets the verdict of the child's end, its own heap, environment,
    user memory and signal dispositions are untouched, and it is ready to run the next test on
    an empty channel. *)
Theorem fork_isolates w sr c tf i fp ms0 cs wc ms r fired :
  can_run CK_FORK w sr c fp ms0 -> cause_ok cs ->
  child_main sr (c_loc c) tf i (child_world w (c_timeout c)) = (stops cs, wc) -> alarm_fired (w_os wc) = fired ->
  (fired = true -> sigact (the_signals w) !! SIGALRM = Some SIG_HANDLER) ->
  open_files (w_os wc) !! fp = Some (stream ms) -> Forall (sendable w) ms -> rcv_result ms = Some r ->
  exists w' fp', tcase_run_tfun_fork sr (c_loc c) tf i w = (Ret (fork_result (c_name c) tf i cs fired r), w') /\
    isolated w w' /\ standby w' fp' [].
Proof.
  intros [Hsb Hcase _ _ Hpid] Hc Hch Hf Hs Hst Hms Hr.
  destruct (reaped_run w sr c tf i fp ms0 cs wc ms r fired) as (E & Hi & Hsb' & _); try done. by eexists _, _.
Qed.

(** C37: in a child, no failure is seen of a test that is expected to exit with status 1, be it in
    the test, in a setup or in a teardown: the child of a failed assertion exits with that very
    status, and the test passes, its failure message replaced. *)
Theorem failed_assertion_meets_expected_exit w sr c tf i fp ms0 :
  can_run CK_FORK w sr c fp ms0 -> tf_signal tf = 0 -> allowed_exit_value tf = 1 ->
  let s := script_of CK_FORK c tf i (p_umem (w_proc w)) in
  plain_script w (c_timeout c) (ttest tf) s -> script_fails s = true ->
  exists tr w', tcase_run_tfun_fork sr (c_loc c) tf i w = (Ret tr, w') /\
    rtype tr = CK_PASS /\ tr_msg tr = Some "Passed".
Proof.
  intros Hr Hsig Hall s Hp Hf. destruct (fork_messages w sr c tf i fp ms0 Hr Hp) as (r & w' & fp' & _ & E & _).
  fold s in E. eexists _, w'. split; [exact E |]. unfold fork_result. by rewrite Hf, Hsig, Hall.
Qed.

(** C12: a test that, after setups and a beginning in which nothing fails, exits, dies from a signal
    or never comes back, gets the verdict for that end, at the last location it reported; one
    that never comes back is killed when its time limit has passed, not before and not after. *)
Theorem abrupt_test_result w sr c tf i fp ms0 pre cs fired :
  can_run CK_FORK w sr c fp ms0 -> abrupt_script w c tf i (p_umem (w_proc w)) pre cs fired ->
  exists w', tcase_run_tfun_fork sr (c_loc c) tf i w = (Ret (abrupt_result (c_name c) tf i pre cs fired), w') /\
    isolated w w' /\ (fired = true -> clock (w_os w') = clock (w_os w) + default 0 (limit_of (c_timeout c))).
Proof.
  intros Hr Hab. destruct (abrupt_run w sr c tf i fp ms0 pre cs fired Hr Hab) as (w' & fp' & E & _ & Hi & _ & Hck).
  by exists w'.
Qed.
End Results.

(** ** Witnesses *)

#[local] Existing Instance Demo.plat.
#[local] Existing Instance Demo.plat_ok.

(** A list of a concrete heap, wherever its cursor is. *)
Ltac holds_any := first [ solve [holds_demo (@None nat)] | solve [holds_demo (Some 0%nat)] | solve [holds_demo (Some 1%nat)]
  | solve [holds_demo (Some 2%nat)] | solve [holds_demo (Some 3%nat)] ].
Ltac case_demo :=
  constructor; [ eexists; repeat split; reflexivity | holds_any | holds_any | intros [] []; holds_any ].
Ltac can_run_demo :=
  constructor;
    [ constructor;
        [ constructor; [exact I | by constructor | vm_compute; lia | reflexivity | reflexivity]
        | constructor; reflexivity | apply harmless_nil | constructor | reflexivity ]
    | case_demo | eexists; split; reflexivity | reflexivity | vm_compute; split; [discriminate | reflexivity] ].

Lemma w_fork_can : can_run CK_FORK w_fork_fixed sr0 case_fixed 3 [].
Proof. can_run_demo. Qed.
Lemma w_nofork_can : can_run CK_NOFORK w_nofork_fixed sr0 case_fixed 3 [].
Proof. can_run_demo. Qed.

(** Evaluates the argument of a Forall. *)
Ltac eval_Forall := match goal with |- Forall ?P ?l =>
  let l' := eval vm_compute in l in replace l with l' by (vm_compute; reflexivity) end.
(** Closes [plain_script] for a concrete script. *)
Ltac plain_demo :=
  match goal with |- plain_script _ _ _ ?s =>
    let s' := eval vm_compute in s in replace s with s' by (vm_compute; reflexivity) end;
  constructor; cbn [sc_setups sc_test sc_teardowns];
    [ repeat constructor; vm_compute; discriminate
    | repeat constructor; vm_compute; discriminate
    | repeat constructor; vm_compute; discriminate
    | eval_Forall; repeat constructor; vm_compute; discriminate
    | eval_Forall; repeat constructor; vm_compute; discriminate
    | vm_compute; reflexivity
    | let l := fresh in let H := fresh in intros l H; vm_compute in H; injection H as <-; vm_compute; reflexivity ].
(** Closes [abrupt_script] for a concrete test that makes the call [c] at once. *)
Ltac abrupt_demo c :=
  constructor;
    [ let su := fresh in intros su; let l := eval vm_compute in su in replace su with l by (vm_compute; reflexivity);
      split; [repeat constructor; vm_compute; discriminate |]; split; [reflexivity |];
      eval_Forall; repeat constructor; vm_compute; discriminate
    | exists c, []; split; vm_compute; reflexivity
    | constructor | reflexivity
    | let l := fresh in let H := fresh in intros l H; vm_compute in H; injection H as <-; vm_compute; reflexivity
    | repeat constructor; vm_compute; discriminate
    | vm_compute; reflexivity ].

(** A test that passes and breaks its teardown. *)
Lemma fork_nofork_agree_witness : exists trf d wf' wn',
    tcase_run_tfun_fork sr0 tc0 (tf_of t_break) 0 w_fork_fixed = (Ret trf, wf') /\
    tcase_run_tfun_nofork sr0 tc0 (tf_of t_break) 0 w_nofork_fixed =
      (Ret (mkTestResult CK_FAILURE CK_CTX_TEARDOWN (Some "f.c") 6 (Some 0) d (Some "Core")
              (Some "t_break") (Some "x != 3")), wn') /\
    rtype trf = CK_FAILURE /\ tr_msg trf = Some "x != 3" /\
    p_umem (w_proc wf') = mem_fixed /\ p_umem (w_proc wn') = <["x" := 3]> mem_fixed.
Proof.
  destruct (fork_nofork_agree w_fork_fixed w_nofork_fixed sr0 sr0 case_fixed (tf_of t_break) 0 3 3 [] [])
    as (trf & d & wf' & wn' & Ef & En & E1 & _ & _ & _ & E2 & _ & _ & _ & Uf & Un).
  - exact w_fork_can.
  - exact w_nofork_can.
  - reflexivity.
  - reflexivity.
  - reflexivity.
  - plain_demo.
  - plain_demo.
  - exists trf, d, wf', wn'. split; [exact Ef |]. split; [exact En |]. split; [exact E1 |]. split; [exact E2 |].
    split; [exact Uf |]. rewrite Un. vm_compute. reflexivity.
Defined.

(** A child that is killed by a segmentation fault before its test function starts. *)
Lemma fork_isolates_witness :
  exists wc w' fp',
    child_main sr0 tc0 (tf_of t_segv) 0 (child_world w_fork_fixed (mkTimespec 4 0)) = (Killed 11, wc) /\
    tcase_run_tfun_fork sr0 tc0 (tf_of t_segv) 0 w_fork_fixed =
      (Ret (mkTestResult CK_ERROR CK_CTX_TEST (Some "a.c") 33 (Some 0) (-1) (Some "Core")
              (Some "t_segv") (Some "Received signal 11 (Segmentation fault)")), w') /\
    isolated w_fork_fixed w' /\ standby w' fp' [].
Proof.
  set (wc := snd (child_main sr0 tc0 (tf_of t_segv) 0 (child_world w_fork_fixed (mkTimespec 4 0)))).
  exists wc.
  assert (E : child_main sr0 tc0 (tf_of t_segv) 0 (child_world w_fork_fixed (mkTimespec 4 0)) =
    (stops (signalled 11), wc)) by (vm_compute; reflexivity).
  destruct (fork_isolates w_fork_fixed sr0 case_fixed (tf_of t_segv) 0 3 [] (signalled 11) wc
    [m_setup; loc_msg (mkLocMsg 2 (Some "f.c")); ctx_msg (mkCtxMsg CK_CTX_TEST); loc_msg (mkLocMsg 33 (Some "a.c"))]
    (mkRcvMsg CK_CTX_TEST CK_CTX_INVALID None (-1) (Some "a.c") 33 None (-1)) false)
    as (w' & fp' & E' & Hi & Hr).
  - exact w_fork_can.
  - vm_compute. split; discriminate.
  - exact E.
  - vm_compute. reflexivity.
  - discriminate.
  - vm_compute. reflexivity.
  - repeat constructor; vm_compute; discriminate.
  - reflexivity.
  - exists w', fp'. split; [exact E |]. split; [| split; [exact Hi | exact Hr]].
    change tc0 with (c_loc case_fixed). rewrite E'. f_equal.
Defined.

(** A test that never comes back, under the default time limit of four seconds. *)
Lemma abrupt_test_result_witness :
  exists w', tcase_run_tfun_fork sr0 tc0 (tf_of t_hang) 0 w_fork_fixed =
      (Ret (mkTestResult CK_ERROR CK_CTX_TEST (Some "a.c") 23 (Some 0) (-1) (Some "Core")
              (Some "t_hang") (Some "Test timeout expired")), w') /\
    isolated w_fork_fixed w' /\ (true = true -> clock (w_os w') = 0 + 4000000000).
Proof.
  apply (abrupt_test_result w_fork_fixed sr0 case_fixed (tf_of t_hang) 0 3 [] [] (signalled 9) true).
  - exact w_fork_can.
  - abrupt_demo u_hang.
Defined.

(** The failing test, declared to exit with status 1. *)
Lemma failed_assertion_meets_expected_exit_witness :
  exists tr w', tcase_run_tfun_fork sr0 tc0 (mkTF t_fail 0 1 0 1) 0 w_fork_fixed = (Ret tr, w') /\
    rtype tr = CK_PASS /\ tr_msg tr = Some "Passed".
Proof.
  apply (failed_assertion_meets_expected_exit w_fork_fixed sr0 case_fixed (mkTF t_fail 0 1 0 1) 0 3 []).
  - exact w_fork_can.
  - reflexivity.
  - reflexivity.
  - plain_demo.
  - vm_compute. reflexivity.
Defined.
