(* ===== verification/StatusProps.v ===== *)
(** * Properties of verdicts and of the signal handlers *)
From S2P Require Import Prelude Error Types CList Pack PackSpec World Str Result Msg MsgSpec.
From S2P Require Import Core Print Log Run Demo StatusSpec TestSpec.

(** Closes the equivalences of one branch of the verdict. *)
Ltac verdict_case :=
  match goal with H : (_, _) = (_, _) |- _ => injection H as <- <- end;
  repeat match goal with
    | |- _ /\ _ => split
    | |- _ <-> _ => split
    | |- _ <> _ => discriminate
    | H : exists _, _ |- _ => destruct H
    | H : _ /\ _ |- _ => destruct H
    | H : _ \/ _ |- _ => destruct H
    | H : exited _ = exited _ |- _ => injection H as <-
    | H : signalled _ = signalled _ |- _ => injection H as <-
    | |- _ -> _ => intro
    end;
  first [ congruence | lia | tauto | by eauto | by eauto 7 | left; done | right; split; [done |]; by eauto | eexists; split; [reflexivity |]; tauto | idtac ].

Section Verdicts.
Context {plat : Platform} {plat_ok : PlatformOK}.

(** C11: the verdict on a child, from its wait status. It passes exactly when it was killed by
    the declared signal before its time limit, or, when no signal is declared, exited with the
    declared status (as a signed byte). Any other exit is a failure, except that a test that
    declares no signal and sent no message is in error, as is every other death by a signal.
    There is always a message, and no other field changes. *)
Theorem set_fork_info_verdict tr c expected allowed w : cause_ok c ->
  exists rt m, set_fork_info tr (wstatus c) expected allowed w =
      (Ret (set_msg (Some m) (set_rtype rt tr)), w) /\
    (rt = CK_PASS <-> (c = signalled expected /\ alarmed w = false) \/
       (expected = 0 /\ exists code, c = exited code /\ s8 (code mod 256) = allowed)) /\
    (rt = CK_FAILURE <-> exists code, c = exited code /\
       (expected <> 0 \/ (s8 (code mod 256) <> allowed /\ tr_msg tr <> None))) /\
    rt <> CK_TEST_RESULT_INVALID.
Proof.
  intros Hc. pose proof (set_fork_info_run tr c expected allowed w Hc) as E.
  destruct (verdict c expected allowed (alarmed w) (tr_msg tr)) as [rt m] eqn:Ev.
  exists rt, m. split; [exact E |]. clear E. unfold verdict in Ev. destruct c as [code | s].
  - destruct (decide (expected <> 0)); [by verdict_case |].
    assert (expected = 0) by lia.
    destruct (decide (s8 (code mod 256) = allowed)); [by verdict_case |].
    destruct (tr_msg tr); by verdict_case.
  - simpl in Hc. destruct (decide (s = expected)) as [-> | Hne].
    + destruct (alarmed w); by verdict_case.
    + destruct (alarmed w), (decide (expected = 0)); by verdict_case.
Qed.

(** An unexpected exit is reported with the status as a signed byte: an exit with 128 to
    255, which the shell and waitpid report as such, is reported as a negative number. *)
Theorem early_exit_reported_signed tr code allowed w :
  128 <= code < 256 -> code - 256 <> allowed -> tr_msg tr = None ->
  set_fork_info tr (exit_wstatus code) 0 allowed w =
    (Ret (set_msg (Some (snprintf_msg ("Early exit with return value " +:+ dec (code - 256))))
            (set_rtype CK_ERROR tr)), w).
Proof.
  intros Hc Ha Hm. assert (Es : s8 (code mod 256) = code - 256).
  { rewrite Z.mod_small by lia. unfold wrap_s. change (2 ^ (8 - 1)) with 128. change (2 ^ 8) with 256.
    replace (code + 128) with (code - 128 + 1 * 256) by lia. rewrite Z.mod_add, Z.mod_small by lia. lia. }
  change (exit_wstatus code) with (wstatus (exited code)). rewrite set_fork_info_run by done.
  unfold verdict. rewrite decide_False by auto. rewrite Es, Hm. rewrite decide_False by done.
  unfold early_exit. by rewrite Es.
Qed.

(** ** The handlers *)

Definition log_kill (g s : Z) (w : world) : world :=
  on_os (fun o => put_kills (kills o ++ [(g, s)]) o) w.

Lemma killpg_own g s w : g = p_pgid (w_proc w) -> s <> SIGKILL ->
  killpg g s w = (Ret true, log_kill g s w).
Proof.
  intros -> Hs. unfold killpg. rewrite (bind_ret _ _ _ _ _ (modify_run _ _)).
  rewrite (bind_ret _ _ _ _ _ (gets_run _ _)). rewrite decide_True by (left; done).
  by rewrite decide_False.
Qed.

Lemma sigaction_get_run s d w : sigact (the_signals w) !! s = Some d ->
  sigaction_get s w = (Ret d, w).
Proof. intros H. unfold sigaction_get, gets. by rewrite H. Qed.

Lemma default_action_deadly s w : s = SIGTERM \/ s = SIGINT ->
  default_action s w = (Killed s, w).
Proof. by intros [-> | ->]. Qed.

(** What the handler does on SIGTERM and SIGINT: the signal for the child, and the saved
    action, which it restores. *)
Definition child_signal (sig : Z) : Z := if decide (sig = SIGINT) then SIGKILL else SIGTERM.
Definition saved_action (sig : Z) (w : world) : disposition :=
  if decide (sig = SIGINT) then sigint_old_action (the_signals w)
  else sigterm_old_action (the_signals w).
Definition restore (sig : Z) (d : disposition) : world -> world :=
  upd_signals (fun s => put_sigact (<[sig := d]> (sigact s)) s).

Lemma sig_handler_interrupt sig w : sig = SIGTERM \/ sig = SIGINT ->
  group_pid (the_statics w) <> p_pgid (w_proc w) -> group_pid (the_statics w) <> 0 ->
  sig_handler sig w = (Ret true,
    log_kill (p_pgid (w_proc w)) sig (log_kill (group_pid (the_statics w)) (child_signal sig)
      (restore sig (saved_action sig w) w))).
Proof.
  intros Hs Hg H0. unfold sig_handler.
  rewrite decide_False by (by destruct Hs as [-> | ->]). rewrite decide_True by done.
  erewrite bind_ret; cycle 1.
  { instantiate (2 := child_signal sig). instantiate (1 := restore sig (saved_action sig w) w).
    destruct Hs as [-> | ->]; reflexivity. }
  rewrite (bind_ret _ _ _ _ _ (gets_run _ _)). cbv zeta.
  erewrite bind_ret by (apply killpg_other; [exact Hg | exact H0]).
  rewrite (bind_ret _ _ _ _ _ (gets_run _ _)).
  apply killpg_own; [done | by destruct Hs as [-> | ->]].
Qed.

(** C22: a signal that interrupts a run reaches the tests and then the runner: on SIGTERM (or
    SIGINT) the handler kills the group of the running child with SIGTERM (or SIGKILL),
    restores the action the program had before the run, and sends the signal to its own group,
    so that a program that had the default action dies from that very signal. *)
Theorem interrupt_kills_child_then_self sig w : sig = SIGTERM \/ sig = SIGINT ->
  saved_action sig w = SIG_DFL ->
  sigact (the_signals w) !! sig = Some SIG_HANDLER ->
  group_pid (the_statics w) <> p_pgid (w_proc w) -> group_pid (the_statics w) <> 0 ->
  exists w', deliver sig w = (Killed sig, w') /\
    kills (w_os w') = kills (w_os w) ++
      [(group_pid (the_statics w), child_signal sig); (p_pgid (w_proc w), sig)] /\
    sigact (the_signals w') = <[sig := SIG_DFL]> (sigact (the_signals w)).
Proof.
  intros Hs Hd Hh Hg H0. eexists. unfold deliver.
  rewrite decide_False by (by destruct Hs as [-> | ->]).
  rewrite (bind_ret _ _ _ _ _ (sigaction_get_run _ _ _ Hh)).
  rewrite (bind_ret _ _ _ _ _ (sig_handler_interrupt _ _ Hs Hg H0)). rewrite Hd.
  erewrite bind_ret by (apply sigaction_get_run; apply lookup_insert_eq).
  split; [by apply default_action_deadly |].
  split; [cbn; by rewrite <- app_assoc | done].
Qed.


(** check_waitpid_and_exit tries again until waitpid gives a child, and exits with 0 exactly when its
    status is 0; without a child (in the child itself) it exits with 0 at once; and it never
    comes back when every call fails. *)
Lemma check_waitpid_and_exit_run pid failed pid_w c (w : world) : cause_ok c -> 0 <= pid_w ->
  Forall (fun reply => fst reply = -1) failed ->
  (0 < pid -> forall rest, check_waitpid_and_exit pid (failed ++ (pid_w, wstatus c) :: rest) w =
     (Exit (match c with exited code => if decide (code mod 256 = 0) then 0 else 1 | signalled _ => 1 end), w)) /\
  (0 < pid -> check_waitpid_and_exit pid failed w = (Hang, w)) /\
  (pid <= 0 -> forall replies, check_waitpid_and_exit pid replies w = (Exit 0, w)).
Proof.
  intros Hc Hw Hf. unfold check_waitpid_and_exit. split_and!.
  - intros Hp rest. rewrite decide_True by done.
    assert (E : check_waitpid_loop (failed ++ (pid_w, wstatus c) :: rest) w = (Ret (wstatus c), w)).
    { induction Hf as [| [p s] failed Hp' _ IH]; cbn [app check_waitpid_loop]; [by rewrite decide_False by lia |].
      by rewrite decide_True. }
    rewrite bind_assoc, (bind_ret _ _ _ _ _ E). rewrite waserror_spec by done. destruct c as [code | s]; cbn.
    + repeat case_bool_decide; case_decide; try done; lia.
    + cbn in Hc. by rewrite bool_decide_eq_true_2 by lia.
  - intros Hp. rewrite decide_True by done. rewrite bind_assoc.
    assert (E : check_waitpid_loop failed w = (Hang, w)).
    { induction Hf as [| [p s] failed Hp' _ IH]; cbn [check_waitpid_loop]; [done |]. by rewrite decide_True. }
    unfold mbind, M_bind. by rewrite E.
  - intros Hp replies. by rewrite decide_False by lia.
Qed.
End Verdicts.

(** ** Witnesses *)

#[local] Existing Instance Demo.plat.
#[local] Existing Instance Demo.plat_ok.

(** A child that was to exit with 3, and did. *)
Definition tr_demo : TestResult :=
  mkTestResult CK_TEST_RESULT_INVALID CK_CTX_TEST (Some "a.c") 3 None 0 None None None.

Lemma set_fork_info_verdict_witness :
  exists rt m,
    set_fork_info tr_demo (exit_wstatus 3) 0 3 w_fork =
      (Ret (set_msg (Some m) (set_rtype rt tr_demo)), w_fork) /\ rt = CK_PASS.
Proof.
  destruct (set_fork_info_verdict tr_demo (exited 3) 0 3 w_fork I) as (rt & m & E & Hp & _ & _).
  exists rt, m. split; [exact E |]. apply Hp. right. split; [reflexivity |]. exists 3.
  split; reflexivity.
Defined.

(** A run interrupted from the keyboard while the child 500 runs. *)
Definition w_running : world :=
  upd_statics (put_group_pid 500)
    (upd_signals (put_sigact {[SIGINT := SIG_HANDLER; SIGTERM := SIG_HANDLER]}) w_fork).

Lemma interrupt_kills_child_then_self_witness :
  exists w', deliver SIGINT w_running = (Killed SIGINT, w') /\
    kills (w_os w') = [] ++ [(500, SIGKILL); (100, SIGINT)] /\
    sigact (the_signals w') = <[SIGINT := SIG_DFL]> (sigact (the_signals w_running)).
Proof.
  apply (interrupt_kills_child_then_self SIGINT w_running); [by right | reflexivity.. | |];
    discriminate.
Defined.

Lemma early_exit_reported_signed_witness :
  set_fork_info tr_demo (exit_wstatus 200) 0 0 w_fork =
    (Ret (set_msg (Some "Early exit with return value -56") (set_rtype CK_ERROR tr_demo)), w_fork).
Proof. apply (early_exit_reported_signed tr_demo 200 0 w_fork); [lia | lia | reflexivity]. Defined.
