(* ===== verification/RenderProps.v ===== *)
(** * Properties of what is printed and logged *)
From S2P Require Import Prelude Error Types CList Loops Pack World Str Result Msg MsgSpec Core.
From S2P Require Import CoreSpec Alike Print Log Run RunnerSpec RenderSpec Demo CoreProps.

Section Properties.
Context {plat : Platform} {plat_ok : PlatformOK}.

(** Ck_strdup_printf returns, with the whole text whatever its length below INT_MAX, and
    changes nothing. *)
Lemma ck_strdup_printf_total text (w : world) : strlen text < INT_MAX ->
  ck_strdup_printf text w = (Ret text, w).
Proof. apply ck_strdup_printf_run. Qed.

(** The report of a runner is a summary with its three counts, then one line for each
    result that the mode shows, in the order of the results: all of them in the verbose mode,
    those that are not passes in the normal mode, none below. Nothing else is written. *)
Theorem srunner_fprint_report file sr mode rs pc w :
  runner_has w sr rs -> opened w file -> Forall printable rs -> mode <> CK_ENV ->
  percent_passed (stats_of rs) w = (Ret pc, w) -> strlen (summary_line (stats_of rs) pc) < INT_MAX ->
  exists w', srunner_fprint file sr mode w = (Ret tt, w') /\
    contents w' file = contents w file +:+ report mode rs pc /\
    (forall f, f <> file -> contents w' f = contents w f) /\
    holds (resultlst_ptr sr) w' rs.
Proof.
  intros Hrs Ho Hp Hm Hpc Hl.
  destruct (srunner_fprint_run file sr mode rs pc w Hrs Ho Hp Hm Hpc Hl) as (l & E & Hh).
  eexists. split; [exact E |]. split; [apply (emit_contents file _ w) |].
  split; [by intros f Hf; apply (emit_contents_other file f _ w) |].
  rewrite <- emit_results. exact Hh.
Qed.

(** C33: a TAP log has one numbered line for each test that ended, in order from 1, "ok" or
    "not ok", and then the plan with their number; the count starts again with each run. *)
Theorem tap_log_numbers sr file mode es w :
  opened w file -> forallb inner es = true ->
  Z.of_nat (length (omap ended es)) <= INT_MAX ->
  exists w', tap_events sr file mode ([CLINITLOG_SR] ++ es ++ [CLENDLOG_SR]) w = (Ret tt, w') /\
    contents w' file = contents w file +:+ lines (tap_lines 0 (omap ended es) ++
      ["1.." +:+ dec (Z.of_nat (length (omap ended es)))]).
Proof.
  intros Ho Hi Hb. assert (Happ : forall es1 es2 s, tap_events sr file mode (es1 ++ es2) s =
    (tap_events sr file mode es1 ;; tap_events sr file mode es2) s).
  { intros es1 es2. induction es1 as [| e es1 IH]; intros s; [done |]. cbn [app tap_events].
    rewrite bind_assoc. apply bind_ext. intros [] s' _. apply IH. }
  cbn [app tap_events]. rewrite (bind_ret _ _ _ _ _ (tap_init_run _ _ _ _)), Happ.
  rewrite (bind_ret _ _ _ _ _ (tap_events_run sr file mode es 0 (tap_count 0 w) Ho Hi eq_refl Hb)).
  cbn [tap_events]. eexists. split; [by rewrite (bind_ret _ _ _ _ _ (tap_plan_run _ _ _ _)) |].
  rewrite lines_app, lines_one, !emit_contents. by rewrite !string_app_assoc.
Qed.

(** C34: XML character data is safe and reads back: the text written for a string has no
    markup character, and a reader of XML gets from it the string, without the bytes that
    cannot appear in an XML document (control characters) and without every byte above 127. *)
Theorem xml_text_roundtrip file s w : opened w file ->
  exists t w', fprint_xml_esc file s w = (Ret tt, w') /\
    contents w' file = contents w file +:+ t /\
    any markup t = false /\ unescape None t = keep representable s.
Proof.
  intros Ho. exists (xml_text s), (emit file (xml_text s) w).
  split; [by apply fprint_xml_esc_run |]. split; [apply emit_contents |].
  split; [apply xml_text_plain | apply unescape_text].
Qed.

(** For up to 100 tests, the percentage printed is the quotient rounded down, or one less
    where binary32 falls just below it; it is 100 exactly when every test passed. *)
Lemma percent_passed_bounds st (w : world) :
  0 < n_checked st <= 100 -> 0 <= n_failed st -> 0 <= n_errors st ->
  n_failed st + n_errors st <= n_checked st ->
  exists p, percent_passed st w = (Ret p, w) /\
    (let q := 100 * (n_checked st - (n_failed st + n_errors st)) / n_checked st in q - 1 <= p <= q) /\
    (p = 100 <-> n_failed st = 0 /\ n_errors st = 0).
Proof.
  intros Hn Hf He Hs. unfold percent_passed.
  destruct (decide (n_failed st = 0 /\ n_errors st = 0)) as [[-> ->] | Hne].
  - exists 100. split; [done |]. cbv zeta. replace (n_checked st - (0 + 0)) with (n_checked st) by lia.
    rewrite Z.div_mul by lia. split; [lia | done].
  - rewrite decide_False by lia.
    destruct (percent_range (n_checked st - (n_failed st + n_errors st)) (n_checked st)) as (p & E & Hr & Hp);
      [lia | lia |].
    exists p. unfold percent32 in E. rewrite E. split; [done |]. split; [exact Hr |].
    split; [done | intros H; by destruct Hne].
Qed.
End Properties.

(** ** Witnesses *)

#[local] Existing Instance Demo.plat.
#[local] Existing Instance Demo.plat_ok.

(** A text longer than the first buffer of the loop. *)
Definition long_text : string := string_of (replicate 150 "x"%char).
Lemma ck_strdup_printf_total_witness : ck_strdup_printf long_text w0 = (Ret long_text, w0).
Proof. apply (ck_strdup_printf_total long_text w0). vm_compute. reflexivity. Defined.

Lemma srunner_fprint_report_witness :
  exists w', srunner_fprint lf_stdout sr0 CK_NORMAL w_results = (Ret tt, w') /\
    contents w' lf_stdout =
      "50%: Checks: 2, Failures: 1, Errors: 0" +:+ nl +:+ "a.c:15:F:Core:t_fail:0: 1 == 2" +:+ nl.
Proof.
  destruct (srunner_fprint_report lf_stdout sr0 CK_NORMAL [r_pass; r_fail] 50 w_results)
    as (w' & E & Hc & _ & _).
  - exact w_results_has.
  - exact I.
  - rewrite !Forall_cons. split; [| split; [| done]]; (split; [by eexists | vm_compute; reflexivity]).
  - discriminate.
  - vm_compute. reflexivity.
  - vm_compute. reflexivity.
  - exists w'. split; [exact E |]. rewrite Hc. vm_compute. reflexivity.
Defined.

Lemma tap_log_numbers_witness :
  exists w', tap_events sr0 lf_stdout CK_SILENT
      ([CLINITLOG_SR] ++ [CLSTART_SR; CLSTART_S "S"; CLEND_T r_pass; CLEND_T r_fail; CLEND_SR] ++
       [CLENDLOG_SR]) w_fork = (Ret tt, w') /\
    contents w' lf_stdout = "ok 1 - a.c:Core:t_pass: Passed" +:+ nl +:+
      "not ok 2 - a.c:Core:t_fail: 1 == 2" +:+ nl +:+ "1..2" +:+ nl.
Proof.
  destruct (tap_log_numbers sr0 lf_stdout CK_SILENT
    [CLSTART_SR; CLSTART_S "S"; CLEND_T r_pass; CLEND_T r_fail; CLEND_SR] w_fork) as (w' & E & Hc).
  - exact I.
  - reflexivity.
  - vm_compute. discriminate.
  - exists w'. split; [exact E |]. rewrite Hc. vm_compute. reflexivity.
Defined.

Lemma xml_text_roundtrip_witness :
  exists t w', fprint_xml_esc lf_stdout "a<b && c" w0 = (Ret tt, w') /\
    contents w' lf_stdout = "" +:+ t /\ any markup t = false /\ unescape None t = "a<b && c".
Proof. apply (xml_text_roundtrip lf_stdout "a<b && c" w0). exact I. Defined.

(** 53 tests of 100 passed: the percentage printed is 52. *)
Lemma percent_passed_bounds_witness :
  exists p, percent_passed (mkTestStats 100 47 0) w0 = (Ret p, w0) /\ 53 - 1 <= p <= 53 /\
    (p = 100 <-> 47 = 0 /\ 0 = 0).
Proof. apply (percent_passed_bounds (mkTestStats 100 47 0) w0); vm_compute; intuition discriminate. Defined.

(** The percentage of tests passed can be one less than the quotient rounded down, because
    the quotient is taken in binary32 and then truncated: 53 tests of 100 are 52 percent. *)
Theorem percent_passed_truncates (w : world) :
  percent_passed (mkTestStats 100 47 0) w = (Ret 52, w) /\ 100 * (100 - (47 + 0)) / 100 = 53.
Proof. split; vm_compute; reflexivity. Qed.
