(* ===== verification/RunProps.v ===== *)
(** * Properties of runs of many tests *)
From S2P Require Import Prelude Error Types CList Pack PackSpec Loops World Str Result Msg.
From S2P Require Import MsgSpec Core CoreSpec Alike Print Log Run RunnerSpec RenderSpec LogSpec.
From S2P Require Import StatusSpec TraceSpec FixtureSpec TestSpec ScriptSpec TurnSpec RunSpec.
From S2P Require Import SuiteSpec Demo CoreProps TestProps.

Section Properties.
Context {plat : Platform} {plat_ok : PlatformOK}.

(** C6: whatever the logs and in both modes, running the tests of a test case returns, and
    adds to the runner exactly one result for each index of each test, in order, the one known
    for that test; the counters of the runner agree with its results, and the memory of the
    user's code, which the tests share in the process, stays in the invariant they keep. *)
Theorem iterate_tfuns_complete (expect : string -> TF * Z -> TestResult -> Prop) st U w sr c logs rs :
  running st U w sr c logs rs -> let ts := turns (c_tests c) in
  Forall (fun turn => test_run st w c (fst turn) (snd turn) U (expect (c_name c) turn)) ts ->
  Z.of_nat (length rs) + Z.of_nat (length ts) <= INT_MAX ->
  num_tests_run (the_statics w) + Z.of_nat (length ts) * (2 * Z.of_nat (length logs)) <= INT_MAX ->
  exists new w', srunner_iterate_tcase_tfuns sr (c_loc c) w = (Ret tt, w') /\
    runner_has w' sr (rs ++ new) /\ Forall2 (expect (c_name c)) ts new /\ U (p_umem (w_proc w')).
Proof.
  intros Hrun ts Ht Hb Htap.
  destruct (iterate_tfuns_run expect st U w sr c logs rs Hrun Ht Hb Htap) as (new & w' & E & [_ [Hp Hu _ _]] & Hf & _).
  exists new, w'. split; [exact E |]. split; [apply Hp | done].
Qed.

(** A test leaves the results of the runner alone. *)
Lemma tested_runner w w' sr rs : tested w w' -> runner_has w sr rs -> runner_has w' sr rs.
Proof.
  intros Ht [H1 H2 H3]. constructor; [by rewrite (td_runners _ _ Ht) | | done].
  eapply holds_look; [| exact H2]. cbn. by rewrite (td_runners _ _ Ht).
Qed.

(** C13: a failed unchecked setup is the one result of its test case, in both modes: the setups
    after it, the tests and the teardowns are not run. *)
Theorem failed_unchecked_setup_skips st V w sr c logs rs x : st = CK_FORK \/ st = CK_NOFORK ->
  between st V w sr logs rs -> case_at w c ->
  let css := fixture_calls (c_fixtures c false true) (p_umem (w_proc w)) in
  Forall (Forall plain_call) css -> Forall (sendable w) (msgs_of [m_setup] css) -> first_fail css = Some x ->
  Z.of_nat (length rs) < INT_MAX ->
  exists w', srunner_run_tcase sr (c_loc c) w = (Ret tt, w') /\
    runner_has w' sr (rs ++ [failure_result CK_CTX_SETUP (c_name c) "unchecked_setup" 0 (-1) x]) /\
    p_umem (w_proc w') = mem_all css (p_umem (w_proc w)).
Proof.
  intros Hst Hb Hc css Hp Hs Hx Hr. pose proof Hb as [[(fp & ms0 & Hsb) _ Hm Hf Hrs _ _] _ _ _].
  destruct (unchecked_setup_run st w sr c fp ms0) as (w1 & fp' & ms' & Ht & _ & Hu & E); try done.
  fold css in Hu, E. rewrite Hx in E. unfold srunner_run_tcase. set (tr := failure_result _ _ _ _ _ _) in *.
  pose proof (tested_runner _ _ _ _ Ht Hrs) as Hrs1.
  destruct (add_failure_run w1 sr rs tr Hrs1) as (l & r & Er & E2 & Hrs2); [by destruct x as [[f l] m] | done |].
  rewrite (bind_ret _ _ _ _ _ E2) in E. eexists. rewrite (bind_ret _ _ _ _ _ E). split; [done |].
  split; [exact Hrs2 | by rewrite <- Hu].
Qed.

(** A test in the process, when the channel holds the failure of a teardown. *)
Lemma blamed_run w sr c tf i fp ms m : messaging w -> channel w fp ms -> Forall (sendable w) ms ->
  deadline (w_os w) = None -> mode w sr CK_NOFORK -> fstat_cur (the_statics w) = CK_NOFORK -> case_at w c ->
  (forall b, c_fixtures c true b = []) -> let cs := fn (ttest tf) i (p_umem (w_proc w)) in
  Forall plain_call cs -> Forall (sendable w) (test_msgs (ttest tf) cs) ->
  failctx (rcv_fold ms) = CK_CTX_TEARDOWN /\ rmsg_msg (rcv_fold ms) = Some m ->
  exists w' tr, tcase_run_tfun_nofork sr (c_loc c) tf i w = (Ret tr, w') /\
     rtype tr = CK_FAILURE /\ tr_ctx tr = CK_CTX_TEARDOWN /\ tr_msg tr = Some m /\ tr_tname tr = Some (tt_name (ttest tf)).
Proof.
  intros M1 C1 S1 D1 Hm Hf Hc Hnone cs Hp Hs [F1 F2]. destruct (ca_tcase _ _ Hc) as (t & Ht & _).
  assert (Hl : forall w' b, case_at w' c -> holds (fixture_ptr true b (c_loc c)) w' []).
  { intros w' b Hc'. rewrite <- (Hnone b). apply Hc'. }
  unfold tcase_run_tfun_nofork, tcase_run_checked_setup.
  rewrite bind_assoc, (bind_ret _ _ _ _ _ (mode_run _ _ _ Hm)), bind_assoc, (bind_ret _ _ _ _ _ (get_tcase_run _ _ _ Ht)).
  unfold srunner_run_setup. rewrite decide_False, bind_assoc, (bind_ret _ _ _ _ _ (mret_run _ _)) by done.
  rewrite (bind_ret _ _ _ _ _ (list_for_empty (fixture_ptr true true (c_loc c)) _ _ (Hl w true Hc))).
  rewrite (bind_ret _ _ _ _ _ (get_clockid_run _)), (bind_ret _ _ _ _ _ (clock_gettime_run _ _)).
  pose proof (test_body_sends w fp ms (ttest tf) i cs eq_refl Hp C1 Hs ltac:(unfold in_time; by rewrite D1)) as Hb.
  rewrite Hf in Hb. apply setjmp_sends, sends_inert in Hb as (w2 & E2 & H2).
  rewrite (bind_ret _ _ _ _ _ E2), (bind_ret _ _ _ _ _ (clock_gettime_run _ _)).
  pose proof (sent_tested (F := frame) _ _ _ _ _ _ _ H2) as Ht2. pose proof (tested_case _ _ _ Ht2 Hc) as Hc2.
  unfold tcase_run_checked_teardown, srunner_run_teardown. rewrite bind_assoc.
  rewrite (bind_ret _ _ _ _ _ (list_for_empty (fixture_ptr true false (c_loc c)) _ _ (Hl w2 false Hc2))).
  rewrite (bind_ret _ _ _ _ _ (mret_run _ _)). destruct (ca_tcase _ _ Hc2) as (t2 & Htc2 & _).
  rewrite (bind_ret _ _ _ _ _ (get_tcase_run _ _ _ Htc2)).
  set (r := rcvmsg_update_ctx (rcv_fold ms) CK_CTX_TEST).
  assert (Er : failctx r = CK_CTX_TEARDOWN /\ rmsg_msg r = Some m /\ lastctx r = CK_CTX_TEST).
  { unfold r, rcvmsg_update_ctx. by case_decide. }
  destruct Er as (R1 & R2 & R3).
  assert (Ers : rcv_result (ms ++ test_msgs (ttest tf) cs) = Some r).
  { assert (E : rcv_fold (ms ++ test_msgs (ttest tf) cs) = r).
    { unfold rcv_fold, test_msgs. rewrite !foldl_app. cbn [foldl rcv_step ctx]. fold (rcv_fold ms). fold r.
      rewrite decide_False by by rewrite R1. apply fold_trace_after_failure; [by rewrite R1 | by rewrite R2]. }
    unfold rcv_result. rewrite E. by rewrite R3. }
  destruct (receive_nofork w2 fp _ r (tc_name t2) (tt_name (ttest tf)) i
    (s32 (DIFF_IN_USEC (ts_of (clock (w_os w))) (ts_of (clock (w_os w2))))) ltac:(eapply frame_messaging; [apply (se_rel _ _ _ _ _ _ _ _ H2) | done])
    (se_channel _ _ _ _ _ _ _ _ H2)) as (E & _); [| by rewrite (td_deadline _ _ Ht2) | done |].
  { apply (Forall_app (sendable w2)). split; by eapply tested_send_all. }
  eexists _, _. split; [exact E |]. clear Ers E. clearbody r. destruct r as [lc fc ff fl tf' tl m' d]. cbn in R1, R2, R3. by subst.
Qed.

(** C14: a failure in an unchecked teardown is not reported as such. In the mode CK_FORK the process
    that runs the tests exits with status 1 there and then, whatever the runner had left to do: no
    result has been added to the runner since, and nothing printed or logged. In the mode CK_NOFORK
    the teardown returns, the failure stays in the channel, and the test that runs in the process
    next is reported to have failed in a teardown, with the message of that failure, whether its own
    assertions hold or not. The next test is one that marks points, asserts, computes and assigns, in
    a test case without checked fixtures, and no unchecked setup has run in between. *)
Theorem failed_unchecked_teardown st U w sr c c' tf i logs rs f l m : running st U w sr c logs rs ->
  let u := p_umem (w_proc w) in let css := fixture_calls (c_fixtures c false false) u in
  Forall (Forall plain_call) css -> Forall (sendable w) (teardown_msgs css) -> first_fail css = Some (f, l, m) ->
  let cs := fn (ttest tf) i (mem_all css u) in
  case_at w c' -> (forall b, c_fixtures c' true b = []) -> Forall plain_call cs -> Forall (sendable w) (test_msgs (ttest tf) cs) ->
  (st = CK_FORK -> exists w', (forall A (rest : M world A),
       (srunner_run_unchecked_teardown sr (c_loc c) ;; rest) w = (Exit 1, w')) /\
     runner_has w' sr rs /\ out (w_os w') = out (w_os w) /\ paths (w_os w') = paths (w_os w)) /\
  (st = CK_NOFORK -> exists w1 w2 tr, srunner_run_unchecked_teardown sr (c_loc c) w = (Ret tt, w1) /\
     tcase_run_tfun_nofork sr (c_loc c') tf i w1 = (Ret tr, w2) /\
     rtype tr = CK_FAILURE /\ tr_ctx tr = CK_CTX_TEARDOWN /\ tr_msg tr = Some m /\ tr_tname tr = Some (tt_name (ttest tf))).
Proof.
  intros [Hc Hb] u css Hp Hs Hx cs Hc' Hnone Hpc Hsc. pose proof Hb as [[(fp & ms0 & [M1 C1 H1 S1 D1]) _ Hm Hf _ _ _] _ _ _].
  assert (Hin : forall w' e, deadline (w_os w') = None -> in_time w' e) by (intros w' e H; unfold in_time; by rewrite H).
  assert (Hfl : fails css = true) by (by rewrite first_fail_fails, Hx).
  assert (Htd : st = CK_FORK \/ st = CK_NOFORK -> sends frame w fp ms0 (srunner_run_unchecked_teardown sr (c_loc c))
    (if fails css then fixture_outcome st tt else Ret tt) (teardown_msgs css) (total css) (mem_all css u)).
  { intros Hst. unfold srunner_run_unchecked_teardown. eapply (sends_read frame); [by apply mode_run |].
    change (unch_tflst_ptr (c_loc c)) with (fixture_ptr false false (c_loc c)).
    apply (teardowns_sends false (c_loc c) st st (c_fixtures c false false)); try done; [| apply Hc | by apply Hin].
    destruct Hst as [-> | ->]; [by right | by left]. }
  rewrite Hfl in Htd. split; intros ->.
  - destruct (Htd (or_introl eq_refl)) as (w' & E & H). pose proof (sent_tested (F := frame) _ _ _ _ _ _ _ H) as Ht.
    exists w'. split; [intros A rest; by apply bind_exit |].
    split; [apply (tested_runner w); [done | apply Hb] | split; apply Ht].
  - destruct (Htd (or_intror eq_refl)) as (w1 & E & H). pose proof (sent_tested (F := frame) _ _ _ _ _ _ _ H) as Ht1.
    destruct (blamed_run w1 sr c' tf i fp (ms0 ++ teardown_msgs css) m) as (w2 & tr & E2 & H2).
    + eapply frame_messaging; [apply (se_rel _ _ _ _ _ _ _ _ H) | done].
    + apply H.
    + apply Forall_app. split; by eapply tested_send_all.
    + by rewrite (td_deadline _ _ Ht1).
    + by eapply tested_mode.
    + by rewrite (td_fstat _ _ Ht1).
    + by eapply tested_case.
    + done.
    + by rewrite (se_mem _ _ _ _ _ _ _ _ H).
    + rewrite (se_mem _ _ _ _ _ _ _ _ H). by eapply tested_send_all.
    + pose proof (fold_teardowns (c_fixtures c false false) u (rcv_fold ms0) (harmless_clean _ H1)) as [_ _ _ _ X].
      fold css in X. rewrite Hx in X. unfold rcv_fold in *. rewrite foldl_app. by destruct X as (-> & -> & _).
    + exists w1, w2, tr. by split.
Qed.

(** A run of no runner does nothing, and a run in an unknown print mode stops the process
    with status 2 before it starts: nothing is printed, opened or installed. *)
Lemma run_tagged_guards sname tcname inc exc mode w :
  srunner_run_tagged None sname tcname inc exc mode w = (Ret tt, w) /\
  (CK_LAST <= mode -> forall sr, exists t, srunner_run_tagged (Some sr) sname tcname inc exc mode w =
     (Exit 2, on_os (fun o => put_err (err o +:+ t) o) w)).
Proof.
  assert (Ho : forall a n s, exists r, or_env a n s = (Ret r, s)).
  { intros [a |] n s; [by exists (Some a) | by eexists]. }
  destruct (Ho tcname "CK_RUN_CASE" w) as [r1 E1]. destruct (Ho sname "CK_RUN_SUITE" w) as [r2 E2].
  destruct (Ho inc "CK_INCLUDE_TAGS" w) as [r3 E3]. destruct (Ho exc "CK_EXCLUDE_TAGS" w) as [r4 E4].
  unfold srunner_run_tagged. split.
  - by rewrite (bind_ret _ _ _ _ _ E1), (bind_ret _ _ _ _ _ E2), (bind_ret _ _ _ _ _ E3), (bind_ret _ _ _ _ _ E4).
  - intros Hm sr. rewrite (bind_ret _ _ _ _ _ E1), (bind_ret _ _ _ _ _ E2), (bind_ret _ _ _ _ _ E3),
      (bind_ret _ _ _ _ _ E4). rewrite decide_True by done. eexists. apply bind_exit. reflexivity.
Qed.

(** The fork mode of a runner is the one it was given, and otherwise what CK_FORK says:
    forking, unless it is "no". *)
Lemma fork_status_resolved w sr r : srunners (the_heap w) !! sr = Some r ->
  (forall st, st <> CK_FORK_GETENV -> exists w', srunner_set_fork_status sr st w = (Ret tt, w') /\
     srunner_fork_status sr w' = (Ret st, w')) /\
  (fstat r = CK_FORK_GETENV -> srunner_fork_status sr w =
     (Ret (if decide (env (w_proc w) !! "CK_FORK" = Some "no") then CK_NOFORK else CK_FORK), w)).
Proof.
  intros Hr. split.
  - intros st Hst. unfold srunner_set_fork_status. eexists.
    rewrite (bind_ret _ _ _ _ _ (get_srunner_run _ _ _ Hr)). split; [reflexivity |].
    apply mode_run. eexists. split; [apply lookup_insert_eq |]. cbn. by rewrite decide_False.
  - intros Hf. apply mode_run. exists r. split; [done |]. rewrite (decide_True (P := fstat r = CK_FORK_GETENV)) by done.
    destruct (env (w_proc w) !! "CK_FORK") as [e |]; [| done].
    destruct (decide (e = "no")) as [-> | Hne]; [by rewrite decide_True |].
    by rewrite decide_False by congruence.
Qed.
End Properties.

(** ** Witnesses *)

#[local] Existing Instance Demo.plat.
#[local] Existing Instance Demo.plat_ok.

(** A run of four tests in children, logged to the terminal and to a TAP file. *)
Definition w_logged : world := ltac:(eval_world (fun rgs ts => with_mem mem_fixed
  (snd ((srunner_set_tap sr0 (Some "out.tap") ;; srunner_init_logging sr0 CK_SILENT)
         (started_with CK_FORK rgs ts))))).
Definition logs_two : list Log :=
  [mkLog lf_stdout stdout_lfun_ false CK_SILENT; mkLog (lf_path "out.tap") tap_lfun_ true CK_SILENT].
Definition U_fixed (u : umem) : Prop := u = mem_fixed.

(** What is expected of the tests: passes, a failure, an error at the time limit. *)
Definition expect_demo (tcname : string) (turn : TF * Z) (tr : TestResult) : Prop :=
  rtype tr = (if decide (tt_name (ttest (fst turn)) = "t_fail") then CK_FAILURE
              else if decide (tt_name (ttest (fst turn)) = "t_hang") then CK_ERROR else CK_PASS) /\
  tr_tcname tr = Some tcname.

(** Closes [running] for a concrete world between two tests. *)
Ltac running_demo :=
  constructor; [case_demo |]; constructor;
    [ constructor;
        [ exists 3, []; constructor; [| constructor; reflexivity | apply harmless_nil | constructor | reflexivity];
          constructor; [exact I | by constructor | vm_compute; lia | reflexivity | reflexivity]
        | reflexivity | eexists; split; reflexivity | reflexivity
        | constructor; [eexists; split; reflexivity | holds_any | constructor]
        | constructor | vm_compute; split; [discriminate | reflexivity] ]
    | reflexivity | holds_any
    | ].
Lemma w_logged_running : running CK_FORK U_fixed w_logged sr0 case_fixed logs_two [].
Proof.
  running_demo. unfold logs_two. rewrite !Forall_cons. split; [by split |]. split; [| done]. split; [by eexists | done].
Qed.

(** Closes [test_run] for the tests of [case_fixed] in children. *)
Ltac plain_turn := intros u ->; split; [| discriminate]; apply at_plain;
  [left; split; [reflexivity | split; reflexivity] | plain_demo | vm_compute; reflexivity | intros d; split; vm_compute; reflexivity].
Ltac hang_turn := intros u ->; split; [| discriminate];
  apply (at_abrupt _ _ _ _ _ _ _ [] (signalled SIGKILL) true); [reflexivity | abrupt_demo u_hang | vm_compute; reflexivity | split; vm_compute; reflexivity].

Lemma turns_fixed : turns (c_tests case_fixed) = [(tf_of t_use, 0); (tf_of t_pass, 0); (tf_of t_fail, 0); (tf_of t_hang, 0)].
Proof. reflexivity. Qed.
Lemma demo_results name new : Forall2 (expect_demo name) (turns (c_tests case_fixed)) new ->
  (rtype <$> new) = [CK_PASS; CK_PASS; CK_FAILURE; CK_ERROR].
Proof.
  rewrite turns_fixed. intros (tr1 & l1 & [R1 _] & (tr2 & l2 & [R2 _] & (tr3 & l3 & [R3 _] & (tr4 & l4 & [R4 _] & Hn & ->)%Forall2_cons_inv_l
    & ->)%Forall2_cons_inv_l & ->)%Forall2_cons_inv_l & ->)%Forall2_cons_inv_l.
  apply Forall2_nil_inv_l in Hn as ->. cbn [fmap list_fmap]. rewrite R1, R2, R3, R4. reflexivity.
Qed.

Lemma iterate_tfuns_complete_witness :
  exists new w', srunner_iterate_tcase_tfuns sr0 tc0 w_logged = (Ret tt, w') /\
    runner_has w' sr0 new /\ (rtype <$> new) = [CK_PASS; CK_PASS; CK_FAILURE; CK_ERROR].
Proof.
  destruct (iterate_tfuns_complete expect_demo CK_FORK U_fixed w_logged sr0 case_fixed logs_two [])
    as (new & w' & E & Hh & Hf & _).
  - exact w_logged_running.
  - rewrite turns_fixed, !Forall_cons. split; [plain_turn |]. split; [plain_turn |]. split; [plain_turn |]. split; [hang_turn | done].
  - vm_compute. discriminate.
  - vm_compute. discriminate.
  - exists new, w'. split; [exact E |]. split; [exact Hh | by apply (demo_results "Core")].
Defined.

(** A test case whose unchecked fixtures fail, in both modes. *)
Definition logs_one : list Log := [mkLog lf_stdout stdout_lfun_ false CK_SILENT].
Definition w_bad_fork : world := Eval vm_compute in
  snd (srunner_init_logging sr0 CK_SILENT (started_with CK_FORK bad_fixtures [t_pass])).
Definition w_bad_nofork : world := Eval vm_compute in
  snd (srunner_init_logging sr0 CK_SILENT (started_with CK_NOFORK bad_fixtures [t_pass])).
Lemma w_bad_fork_running : running CK_FORK (eq ∅) w_bad_fork sr0 case_bad logs_one [].
Proof. running_demo. constructor; [by split | done]. Qed.
Lemma w_bad_nofork_running : running CK_NOFORK (eq ∅) w_bad_nofork sr0 case_bad logs_one [].
Proof. running_demo. constructor; [by split | done]. Qed.

Lemma failed_unchecked_setup_skips_witness : exists w', srunner_run_tcase sr0 tc0 w_bad_fork = (Ret tt, w') /\
  runner_has w' sr0 [mkTestResult CK_FAILURE CK_CTX_SETUP (Some "f.c") 21 (Some 0) (-1) (Some "Core")
    (Some "unchecked_setup") (Some "ready")].
Proof.
  destruct (failed_unchecked_setup_skips CK_FORK (eq ∅) w_bad_fork sr0 case_bad logs_one [] ("f.c", 21, "ready"))
    as (w' & E & Hr & _).
  - by left.
  - apply w_bad_fork_running.
  - apply w_bad_fork_running.
  - eval_Forall. repeat constructor.
  - eval_Forall. repeat constructor; vm_compute; discriminate.
  - vm_compute. reflexivity.
  - vm_compute. reflexivity.
  - exists w'. split; [exact E | exact Hr].
Defined.

Lemma failed_unchecked_teardown_witness :
  (exists w', (forall A (rest : M world A), (srunner_run_unchecked_teardown sr0 tc0 ;; rest) w_bad_fork = (Exit 1, w')) /\
     runner_has w' sr0 [] /\ out (w_os w') = out (w_os w_bad_fork) /\ paths (w_os w') = paths (w_os w_bad_fork)) /\
  (exists w1 w2 tr, srunner_run_unchecked_teardown sr0 tc0 w_bad_nofork = (Ret tt, w1) /\
     tcase_run_tfun_nofork sr0 tc0 (tf_of t_pass) 0 w1 = (Ret tr, w2) /\
     rtype tr = CK_FAILURE /\ tr_ctx tr = CK_CTX_TEARDOWN /\ tr_msg tr = Some "left" /\ tr_tname tr = Some "t_pass").
Proof.
  split.
  - eapply (failed_unchecked_teardown CK_FORK (eq ∅) w_bad_fork sr0 case_bad case_bad (tf_of t_pass) 0 logs_one [] "f.c" 31 "left");
      [exact w_bad_fork_running | | | vm_compute; reflexivity | apply w_bad_fork_running | by intros [] | | | reflexivity];
      eval_Forall; repeat constructor; vm_compute; discriminate.
  - eapply (failed_unchecked_teardown CK_NOFORK (eq ∅) w_bad_nofork sr0 case_bad case_bad (tf_of t_pass) 0 logs_one [] "f.c" 31 "left");
      [exact w_bad_nofork_running | | | vm_compute; reflexivity | apply w_bad_nofork_running | by intros [] | | | reflexivity];
      eval_Forall; repeat constructor; vm_compute; discriminate.
Defined.

Lemma run_tagged_guards_witness : exists t,
  srunner_run_tagged (Some sr0) None None None None CK_LAST w_fork =
    (Exit 2, on_os (fun o => put_err (err o +:+ t) o) w_fork).
Proof. apply (run_tagged_guards None None None None CK_LAST w_fork). vm_compute. discriminate. Defined.

Lemma fork_status_resolved_witness :
  exists w', srunner_set_fork_status sr0 CK_NOFORK w_fork = (Ret tt, w') /\
    srunner_fork_status sr0 w' = (Ret CK_NOFORK, w').
Proof.
  destruct (srunners (the_heap w_fork) !! sr0) as [r |] eqn:E; [| discriminate E].
  apply (fork_status_resolved w_fork sr0 r E). discriminate.
Defined.
