(* ===== verification/WholeProps.v ===== *)
(** * Properties of whole runs *)
From S2P Require Import Prelude Error Types CList Pack PackSpec Loops World Str Result Msg.
From S2P Require Import MsgSpec Core CoreSpec Alike Print Log Run RunnerSpec RenderSpec LogSpec.
From S2P Require Import LogRunSpec SelectSpec StatusSpec TraceSpec FixtureSpec TestSpec.
From S2P Require Import ScriptSpec.
From S2P Require Import TurnSpec RunSpec SuiteSpec WholeSpec Demo CoreProps TestProps RunProps.

(** A run of the runner [sr], with the results [rs] of earlier runs, and of whose tests [expect] says
    what they result in: in both modes for a test with its checked fixtures, and in a child also for
    one that exits, is killed or never comes back. The unchecked fixtures of the test cases lead the
    memory of the user's code from an invariant [V] to one their tests may rely on, and back. *)
Section Run.
Context {plat : Platform} {plat_ok : PlatformOK}.
Context (expect : string -> TF * Z -> TestResult -> Prop) (V : umem -> Prop).
Context (st : fork_status) (w : world) (sr : loc) (r : SRunner) (rs : list TestResult) (ss : list suite_desc).
Context (sname tcname include exclude : option string) (mode : print_output).
Hypothesis Hst : st = CK_FORK \/ st = CK_NOFORK.
Hypothesis Hmode : mode < CK_LAST.
Hypothesis Hidle : idle st w sr rs.
Hypothesis HV : V (p_umem (w_proc w)).
Hypothesis Hr : srunners (the_heap w) !! sr = Some r.
Hypothesis Hprogram : program_at w sr ss.
Hypothesis Htags : tags_below w.
Let sn := arg_or_env w sname "CK_RUN_SUITE".
Let tn := arg_or_env w tcname "CK_RUN_CASE".
Let inc := arg_or_env w include "CK_INCLUDE_TAGS".
Let exc := arg_or_env w exclude "CK_EXCLUDE_TAGS".
Let ts := plan sn tn inc exc ss.
Hypothesis Hinc : forall t, inc = Some t -> strlen t <= INT_MAX.
Hypothesis Hexc : forall t, exc = Some t -> strlen t <= INT_MAX.
Hypothesis Hok : Forall (fun s => Forall (case_ok expect V st (handling w)) (su_cases s)) ss.
Hypothesis Hlen : Z.of_nat (length rs) + Z.of_nat (length ts) <= INT_MAX.
Hypothesis Htap : Z.max 0 (num_tests_run (the_statics w)) +
  (Z.of_nat (length ts) + Z.of_nat (length ss)) * (2 * Z.of_nat (length (run_logs w r mode))) <= INT_MAX.
Hypothesis Hrep : reportable (length rs).
Hypothesis Hrep' : reportable (length rs + length ts).

(** C3: a run comes back, and every selected test has run. Whatever names and tags are asked
    for, by argument or by the environment, whatever logs are open and whatever the print mode,
    srunner_run_tagged returns, and has added to the runner exactly one result for each index of
    each test of each selected test case of each selected suite, in the order of registration:
    the result known for the test. Afterwards the suites are as they were, the channel and the logs
    are closed, the signal dispositions are restored, and the runner is ready for another run, its
    counters in agreement with all its results. *)
Theorem run_tagged_completes :
  exists w' new, srunner_run_tagged (Some sr) sname tcname include exclude mode w = (Ret tt, w') /\
    Forall2 (expected expect) ts new /\ idle st w' sr (rs ++ new) /\ V (p_umem (w_proc w')) /\ program_at w' sr ss /\
    (loglst <$> srunners (the_heap w') !! sr) = Some None /\
    fstat_cur (the_statics w') = CK_FORK /\ (forall sig, disposition_of w' sig = disposition_of w sig).
Proof using All.
  destruct (whole_run expect V st w sr r rs ss sname tcname include exclude mode) as
    (w' & new & E & Hf & Hid' & HV' & Ha & H1 & H2 & H3 & _); try done.
  exists w', new. repeat (split; [done |]). split; [by eapply alike_program | done].
Qed.

(** C4: what a run shows. Whatever is selected and however its tests end, a run whose other logs are
    files adds to standard output, unless it is silent, exactly this: "Running suite(s):", the title
    of each selected suite on a line, and the report of all the results of the runner, those of
    earlier runs first: the summary of their counts, and a line for each result that the mode shows.
    Its tests and its other logs add nothing to it. *)
Theorem run_tagged_prints : own_files w (log_fname r) (xml_fname r) (tap_fname r) ->
  exists w' new, srunner_run_tagged (Some sr) sname tcname include exclude mode w = (Ret tt, w') /\
    Forall2 (expected expect) ts new /\ runner_has w' sr (rs ++ new) /\
    out (w_os w') = out (w_os w) +:+ run_text sn tn (mode_in w mode) ss (rs ++ new).
Proof using All.
  intros Hown. destruct (whole_run expect V st w sr r rs ss sname tcname include exclude mode) as
    (w' & new & E & Hf & Hid' & _ & _ & _ & _ & _ & Hx); try done.
  exists w', new. split; [exact E |]. split; [exact Hf |]. split; [apply Hid' | by apply Hx].
Qed.
End Run.

(** ** Witnesses *)

#[local] Existing Instance Demo.plat.
#[local] Existing Instance Demo.plat_ok.

(** A program built but not yet run, logged to a TAP file, with fixtures of both kinds and a test
    that never ends. *)
Definition w_idle : world := ltac:(eval_world (fun rgs ts =>
  snd ((build_with CK_FORK rgs ts ;; srunner_set_tap sr0 (Some "out.tap")) w0))).
Definition r_idle : SRunner := Eval vm_compute in
  default (mkSRunner (mkList 0 0 0 0 []) (mkTestStats 0 0 0) (mkList 0 0 0 0 []) None None None None CK_FORK)
    (srunners (the_heap w_idle) !! sr0).
Definition suite_demo : suite_desc := mkSuiteDesc 1000 "S" [case_fixed].
(** Before the test case and after it. *)
Definition V_fixed (u : umem) : Prop := u = ∅ \/ u = {["y" := 0]}.

Lemma w_idle_idle : idle CK_FORK w_idle sr0 [].
Proof.
  constructor.
  - constructor; try done; constructor.
  - reflexivity.
  - reflexivity.
  - reflexivity.
  - eexists. split; reflexivity.
  - constructor; [eexists; split; reflexivity | holds_any | constructor].
  - constructor.
  - vm_compute. split; [discriminate | reflexivity].
Qed.

Lemma w_idle_program : program_at w_idle sr0 [suite_demo].
Proof.
  constructor; [holds_any |]. constructor; [| done].
  constructor; [eexists; split; reflexivity | holds_any |]. constructor; [case_demo | done].
Qed.

Lemma w_idle_tags : tags_below w_idle.
Proof.
  assert (H : map_Forall (fun a _ => a < next_loc (the_heap w_idle)) (taglists (the_heap w_idle)))
    by (refine (bool_decide_eq_true_1 _ _); vm_compute; reflexivity).
  intros a [l Hl]. exact (H a l Hl).
Qed.

(** Closes a condition on the calls of concrete unchecked fixtures. *)
Ltac fixtures_demo := let css := fresh in intros css; let l := eval vm_compute in css in
  replace css with l by (vm_compute; reflexivity); clear css;
  split; [repeat constructor; vm_compute; discriminate |];
  split; [eval_Forall; repeat constructor; vm_compute; discriminate | split; [reflexivity |]].

(** Closes [case_ok] for the test case of the demo, in children. *)
Ltac case_ok_demo :=
  exists U_fixed; split;
    [ constructor; [intros u [-> | ->]; fixtures_demo; vm_compute; reflexivity | intros u ->; fixtures_demo; right; vm_compute; reflexivity]
    | match goal with |- Forall _ ?l => change l with (turns (c_tests case_fixed)) end;
      rewrite turns_fixed, !Forall_cons; split; [plain_turn | split; [plain_turn | split; [plain_turn | split; [hang_turn | done]]]] ].
Lemma case_fixed_ok : case_ok expect_demo V_fixed CK_FORK (handling w_idle) case_fixed.
Proof. case_ok_demo. Qed.

Lemma expected_results name new : Forall2 (expected expect_demo) (pair name <$> turns (c_tests case_fixed)) new ->
  (rtype <$> new) = [CK_PASS; CK_PASS; CK_FAILURE; CK_ERROR].
Proof. intros H. apply (demo_results name). by rewrite Forall2_fmap_l in H. Qed.

Lemma run_tagged_completes_witness :
  exists w' new, srunner_run_tagged (Some sr0) None None None None CK_NORMAL w_idle = (Ret tt, w') /\
    (rtype <$> new) = [CK_PASS; CK_PASS; CK_FAILURE; CK_ERROR] /\ idle CK_FORK w' sr0 new.
Proof.
  destruct (run_tagged_completes expect_demo V_fixed CK_FORK w_idle sr0 r_idle [] [suite_demo] None None None None CK_NORMAL)
    as (w' & new & E & Hf & Hid & _).
  - by left.
  - reflexivity.
  - exact w_idle_idle.
  - by left.
  - reflexivity.
  - exact w_idle_program.
  - exact w_idle_tags.
  - discriminate.
  - discriminate.
  - constructor; [constructor; [exact case_fixed_ok | constructor] | constructor].
  - vm_compute. discriminate.
  - vm_compute. discriminate.
  - apply reportable_100. vm_compute. lia.
  - apply reportable_100. vm_compute. lia.
  - exists w', new. split; [exact E |]. split; [| exact Hid]. by apply (expected_results "Core").
Defined.

(** Of the four tests two pass: in the mode that shows no results, the text is known. *)
Lemma run_tagged_prints_witness :
  exists w', srunner_run_tagged (Some sr0) None None None None CK_MINIMAL w_idle = (Ret tt, w') /\
    out (w_os w') = "Running suite(s): S" +:+ nl +:+ "50%: Checks: 4, Failures: 1, Errors: 1" +:+ nl.
Proof.
  destruct (run_tagged_prints expect_demo V_fixed CK_FORK w_idle sr0 r_idle [] [suite_demo] None None None None CK_MINIMAL)
    as (w' & new & E & Hf & _ & Hx).
  - by left.
  - reflexivity.
  - exact w_idle_idle.
  - by left.
  - reflexivity.
  - exact w_idle_program.
  - exact w_idle_tags.
  - discriminate.
  - discriminate.
  - constructor; [constructor; [exact case_fixed_ok | constructor] | constructor].
  - vm_compute. discriminate.
  - vm_compute. discriminate.
  - apply reportable_100. vm_compute. lia.
  - apply reportable_100. vm_compute. lia.
  - repeat split; discriminate.
  - exists w'. split; [exact E |]. rewrite Hx. apply (expected_results "Core") in Hf.
    destruct new as [| t1 [| t2 [| t3 [| t4 [| t5 new]]]]]; try discriminate Hf.
    destruct t1, t2, t3, t4. injection Hf as R1 R2 R3 R4. simpl in R1, R2, R3, R4. subst. vm_compute. reflexivity.
Defined.
