(* ===== verification/BuildProps.v ===== *)
(** * Properties of clients: building a program, running it, freeing it *)
From S2P Require Import Prelude Error Types CList Pack PackSpec Loops World Str Result Msg.
From S2P Require Import MsgSpec Core CoreSpec Alike Print Log Run RunnerSpec RenderSpec LogSpec.
From S2P Require Import LogRunSpec SelectSpec StatusSpec TraceSpec FixtureSpec TestSpec.
From S2P Require Import ScriptSpec.
From S2P Require Import TurnSpec RunSpec SuiteSpec WholeSpec Image BuildSpec FreeSpec ClientSpec.
From S2P Require Import BuiltSpec Demo CoreProps TestProps RunProps WholeProps.

Section Properties.
Context {plat : Platform} {plat_ok : PlatformOK}.

(** C5: a well-typed client does not go wrong. A client is any sequence of calls that create
    suites, test cases and runners, fill and configure them, ask about them and free runners,
    each call given what earlier calls returned. If each call is one that [step] allows (it is
    given live objects, a list has room, a timeout fits, a runner is freed that shares nothing),
    the client returns its result, the heap has the contents that [step] computes, these are well formed
    again (suites of distinct live test cases, test cases with tags of their own, runners of live
    suites), and nothing outside the heap has changed. *)
Theorem client_does_not_go_wrong p w i v i' : models w i -> wf i ->
  image_after (env (w_proc w)) p i = Some (v, i') ->
  exists w', run_client p w = (Ret v, w') /\ models w' i' /\ wf i' /\ heap_only w w'.
Proof. apply client_run. Qed.

(** C15: freeing a runner that shares nothing frees the runner, its suites, their test cases and
    the lists of tags of these, each exactly once, and nothing else: every other object is still
    there with its contents, and none of them refers to one that is gone. *)
Theorem srunner_free_frees w i sr r : models w i -> wf i -> im_runners i !! sr = Some r ->
  sole_owner i sr (ar_suites r) ->
  let ss := ar_suites r in let cs := cases_of i ss in let ts := tags_of i cs in
  exists w' i', srunner_free (Some sr) w = (Ret tt, w') /\ models w' i' /\ wf i' /\ heap_only w w' /\
    (forall a, im_runners i' !! a = if decide (a = sr) then None else im_runners i !! a) /\
    (forall a, im_suites i' !! a = if decide (a ∈ ss) then None else im_suites i !! a) /\
    (forall a, im_cases i' !! a = if decide (a ∈ cs) then None else im_cases i !! a) /\
    (forall a, im_tags i' !! a = if decide (a ∈ ts) then None else im_tags i !! a).
Proof.
  intros Hm Hwf Hr Ho ss cs ts. destruct (srunner_free_refines w i sr r Hm Hwf Hr Ho) as (w' & E & Hm' & Hh).
  exists w', (erase_runner sr ss i). split.
  { revert E. unfold mbind, M_bind. by destruct (srunner_free (Some sr) w) as [[[] | | | | |] ?]; try done; intros [= <-]. }
  split; [done |]. split; [by apply wf_erase_runner |]. split; [done |].
  split; [| split; [| split]]; intros a; cbn; try apply lookup_delete_all.
  case_decide as Ha; [subst; apply lookup_delete_eq | apply lookup_delete_ne; congruence].
Qed.

(** C1: from an empty program to its results. A client builds any program it likes, in a process
    with no run going on, and then runs the runner it results in, with any selection, logs and print
    mode. Both return, and the runner has exactly one result for each index of each test of each
    selected test case of each selected suite, in the order in which the client added them, each
    the result known for that test and its fixtures. The contents of the heap are those that the
    client built, with these results, and well formed: the runner is ready for another run, and
    the client may go on. *)
Theorem built_program_completes (expect : string -> TF * Z -> TestResult -> Prop) (V : umem -> Prop)
    st w p i0 i sr r sname tcname include exclude mode :
  st = CK_FORK \/ st = CK_NOFORK -> mode < CK_LAST ->
  quiescent w -> V (p_umem (w_proc w)) -> models w i0 -> wf i0 -> image_after (env (w_proc w)) p i0 = Some (sr, i) ->
  im_runners i !! sr = Some r -> ar_results r = [] -> fork_of (env (w_proc w)) (ar_fork r) = st ->
  let inc := arg_or_env w include "CK_INCLUDE_TAGS" in
  let exc := arg_or_env w exclude "CK_EXCLUDE_TAGS" in
  let ss := program_of i (ar_suites r) in
  let ts := plan (arg_or_env w sname "CK_RUN_SUITE") (arg_or_env w tcname "CK_RUN_CASE") inc exc ss in
  (forall t, inc = Some t -> strlen t <= INT_MAX) -> (forall t, exc = Some t -> strlen t <= INT_MAX) ->
  Forall (fun s => Forall (case_ok expect V st (handling w)) (su_cases s)) ss ->
  Z.of_nat (length ts) <= INT_MAX ->
  Z.max 0 (num_tests_run (the_statics w)) + (Z.of_nat (length ts) + Z.of_nat (length ss)) * 8 <= INT_MAX ->
  reportable (length ts) ->
  exists w' new, (sr ← run_client p; srunner_run_tagged (Some sr) sname tcname include exclude mode) w = (Ret tt, w') /\
    Forall2 (expected expect) ts new /\ idle st w' sr new /\
    models w' (ran_image sr r new i) /\ wf (ran_image sr r new i).
Proof.
  intros. destruct (built_run expect V st w p i0 i sr r sname tcname include exclude mode)
    as (w' & new & E & Hf & Hid & Hm & Hwf & _); try done. by exists w', new.
Qed.

(** C2: the whole life of a test program, its main function: it builds its suites and a runner of
    its own, runs them all, asks for the number of failures and frees the runner. It returns, there
    has been one result for each index of each selected test, the exit status is a success exactly
    when none of them is a failure or an error, and everything the runner owned is freed, each
    object once, and nothing else. If its logs are files, standard output has got the titles of the
    selected suites and the report of these results, and nothing else. *)
Theorem main_completes (expect : string -> TF * Z -> TestResult -> Prop) (V : umem -> Prop)
    st w p i0 i sr r mode :
  st = CK_FORK \/ st = CK_NOFORK -> mode < CK_LAST ->
  quiescent w -> V (p_umem (w_proc w)) -> models w i0 -> wf i0 -> image_after (env (w_proc w)) p i0 = Some (sr, i) ->
  im_runners i !! sr = Some r -> ar_results r = [] -> fork_of (env (w_proc w)) (ar_fork r) = st ->
  sole_owner i sr (ar_suites r) ->
  let var := fun x => env (w_proc w) !! x in
  let ss := program_of i (ar_suites r) in
  let ts := plan (var "CK_RUN_SUITE") (var "CK_RUN_CASE") (var "CK_INCLUDE_TAGS") (var "CK_EXCLUDE_TAGS") ss in
  (forall t, var "CK_INCLUDE_TAGS" = Some t -> strlen t <= INT_MAX) ->
  (forall t, var "CK_EXCLUDE_TAGS" = Some t -> strlen t <= INT_MAX) ->
  Forall (fun s => Forall (case_ok expect V st (handling w)) (su_cases s)) ss ->
  Z.of_nat (length ts) <= INT_MAX ->
  Z.max 0 (num_tests_run (the_statics w)) + (Z.of_nat (length ts) + Z.of_nat (length ss)) * 8 <= INT_MAX ->
  reportable (length ts) ->
  exists w' new status, check_main p mode w = (Ret status, w') /\
    (status = EXIT_SUCCESS <-> Forall (fun tr => rtype tr = CK_PASS) new) /\
    (status = EXIT_SUCCESS \/ status = EXIT_FAILURE) /\
    Forall2 (expected expect) ts new /\
    models w' (erase_runner sr (ar_suites r) (ran_image sr r new i)) /\
    wf (erase_runner sr (ar_suites r) (ran_image sr r new i)) /\
    (own_files w (ar_log r) (ar_xml r) (ar_tap r) -> out (w_os w') = out (w_os w) +:+
       run_text (var "CK_RUN_SUITE") (var "CK_RUN_CASE") (mode_in w mode) ss new).
Proof. apply main_run. Qed.
End Properties.

(** ** Witnesses *)

#[local] Existing Instance Demo.plat.
#[local] Existing Instance Demo.plat_ok.

Definition image0 : image := mkImage 1000 ∅ ∅ ∅ ∅.
Lemma w0_models : models w0 image0.
Proof. constructor; first [reflexivity | apply map_Forall2_empty]. Qed.

(** A client that builds the suite of Demo with its fixtures, and one that frees what it has built. *)
Fixpoint add_fixtures (tc : Z) (rgs : list registration) (k : client) : client :=
  match rgs with
  | [] => k
  | rg :: rgs => c_call (c_tcase_add_fixture tc rg) (fun _ => add_fixtures tc rgs k)
  end.
Fixpoint add_tests (tc : Z) (ts : list TTest) (k : client) : client :=
  match ts with
  | [] => k
  | t :: ts => c_call (c_tcase_add_test (Some tc) (Some t) 0 0 0 1) (fun _ => add_tests tc ts k)
  end.
Definition building (k : Z -> client) : client :=
  c_call (c_suite_create (Some "S")) (fun s =>
  c_call (c_tcase_create (Some "Core")) (fun tc =>
  c_call (c_suite_add_tcase (Some s) (Some tc)) (fun _ =>
  c_call (c_suite_add_tcase (Some s) (Some tc)) (fun _ =>
  add_fixtures tc d_fixtures (add_tests tc tests_fixed (
  c_call (c_srunner_create (Some s)) (fun sr =>
  c_call (c_srunner_set_fork_status sr CK_FORK) (fun _ =>
  c_call (c_srunner_set_tap sr (Some "out.tap")) (fun _ => k sr))))))))).
Definition built : client := building c_ret.
Definition built_freed : client := building (fun sr => c_call (c_srunner_free (Some sr)) c_ret).

Definition image_built : image := default image0 (snd <$> image_after (env (w_proc w0)) built image0).
Definition runner_built : arunner := mkARunner [1000] [] None None (Some "out.tap") CK_FORK.

Lemma image_built_eq : image_after (env (w_proc w0)) built image0 = Some (1003, image_built).
Proof. vm_compute. reflexivity. Qed.
Lemma runner_built_eq : im_runners image_built !! 1003 = Some runner_built.
Proof. reflexivity. Qed.

Lemma client_does_not_go_wrong_witness :
  exists w' i', run_client built_freed w0 = (Ret 0, w') /\ models w' i' /\ wf i' /\
    im_suites i' = ∅ /\ im_cases i' = ∅ /\ im_tags i' = ∅ /\ im_runners i' = ∅.
Proof.
  destruct (image_after (env (w_proc w0)) built_freed image0) as [[v i'] |] eqn:E; [| vm_compute in E; discriminate E].
  destruct (client_does_not_go_wrong built_freed w0 image0 v i' w0_models (wf_empty 1000) E)
    as (w' & Er & Hm & Hwf & _).
  vm_compute in E. injection E as <- <-. eexists w', _. split; [exact Er |]. split; [exact Hm |]. split; [exact Hwf |].
  repeat split; reflexivity.
Defined.

Lemma owner_built : sole_owner image_built 1003 [1000].
Proof. refine (bool_decide_eq_true_1 _ _). vm_compute. reflexivity. Qed.

Lemma built_runs : exists w', run_client built w0 = (Ret 1003, w') /\ models w' image_built /\
  wf image_built /\ heap_only w0 w'.
Proof. apply (client_run built w0 image0 _ _ w0_models (wf_empty 1000) image_built_eq). Qed.

Lemma srunner_free_frees_witness : exists w w', models w image_built /\
  srunner_free (Some 1003) w = (Ret tt, w') /\ exists i', models w' i' /\
  im_suites i' !! 1000 = None /\ im_cases i' !! 1002 = None /\ im_tags i' !! 1001 = None.
Proof.
  destruct built_runs as (w & _ & Hm & Hwf & _).
  destruct (srunner_free_frees w image_built 1003 runner_built Hm Hwf runner_built_eq owner_built)
    as (w' & i' & E & Hm' & _ & _ & _ & Hs & Hc & Ht).
  exists w, w'. split; [exact Hm |]. split; [exact E |]. exists i'. split; [exact Hm' |].
  rewrite Hs, Hc, Ht. repeat split; reflexivity.
Defined.

Lemma w0_quiescent : quiescent w0.
Proof.
  constructor; [constructor; try done; constructor | reflexivity.. |].
  vm_compute. split; [discriminate | reflexivity].
Qed.

(** The test case of the client. *)
Definition case_built : case := default case_fixed (case_in image_built 1002).
Lemma program_built : program_of image_built [1000] = [mkSuiteDesc 1000 "S" [case_built]].
Proof. reflexivity. Qed.
Lemma case_built_ok : case_ok expect_demo V_fixed CK_FORK (handling w0) case_built.
Proof. case_ok_demo. Qed.
Lemma cases_built_ok : Forall (fun s => Forall (case_ok expect_demo V_fixed CK_FORK (handling w0)) (su_cases s))
  (program_of image_built (ar_suites runner_built)).
Proof.
  change (ar_suites runner_built) with [1000]. rewrite program_built.
  constructor; [constructor; [exact case_built_ok | constructor] | constructor].
Qed.

Lemma built_program_completes_witness :
  exists w' new, (sr ← run_client built; srunner_run_tagged (Some sr) None None None None CK_NORMAL) w0 = (Ret tt, w') /\
    (rtype <$> new) = [CK_PASS; CK_PASS; CK_FAILURE; CK_ERROR] /\ idle CK_FORK w' 1003 new.
Proof.
  destruct (built_program_completes expect_demo V_fixed CK_FORK w0 built image0 image_built 1003 runner_built
    None None None None CK_NORMAL) as (w' & new & E & Hf & Hid & _).
  - by left.
  - reflexivity.
  - exact w0_quiescent.
  - by left.
  - exact w0_models.
  - apply wf_empty.
  - exact image_built_eq.
  - exact runner_built_eq.
  - reflexivity.
  - reflexivity.
  - discriminate.
  - discriminate.
  - exact cases_built_ok.
  - vm_compute. discriminate.
  - vm_compute. discriminate.
  - apply reportable_100. vm_compute. lia.
  - exists w', new. split; [exact E |]. split; [| exact Hid]. by apply (expected_results "Core").
Defined.

(** Two of the four tests do not pass: the program fails, and nothing is left. *)
Lemma main_completes_witness :
  exists w' i', check_main built CK_NORMAL w0 = (Ret EXIT_FAILURE, w') /\ models w' i' /\
    im_suites i' = ∅ /\ im_cases i' = ∅ /\ im_tags i' = ∅ /\ im_runners i' = ∅.
Proof.
  destruct (main_completes expect_demo V_fixed CK_FORK w0 built image0 image_built 1003 runner_built CK_NORMAL)
    as (w' & new & s & E & Hs & Hd & Hf & Hm & _).
  - by left.
  - reflexivity.
  - exact w0_quiescent.
  - by left.
  - exact w0_models.
  - apply wf_empty.
  - exact image_built_eq.
  - exact runner_built_eq.
  - reflexivity.
  - reflexivity.
  - exact owner_built.
  - discriminate.
  - discriminate.
  - exact cases_built_ok.
  - vm_compute. discriminate.
  - vm_compute. discriminate.
  - apply reportable_100. vm_compute. lia.
  - apply (expected_results "Core") in Hf. eexists w', _. destruct Hd as [-> | ->].
    + destruct Hs as [Hs _]. specialize (Hs eq_refl). rewrite <- (Forall_fmap rtype (fun c => c = CK_PASS)), Hf in Hs.
      rewrite !Forall_cons in Hs. destruct Hs as (_ & _ & Hs & _). discriminate Hs.
    + split; [exact E |]. split; [exact Hm |]. repeat split; reflexivity.
Defined.

(** A suite that is added to a runner twice is freed twice. *)
Lemma suite_added_twice_freed_twice :
  fst ((s ← suite_create (Some "S"); sr ← srunner_create (Some s); srunner_add_suite sr (Some s) ;;
        srunner_free (Some sr)) w0) = Fault.
Proof. vm_compute. reflexivity. Qed.
