(* ===== verification/AssertProps.v ===== *)
(** * Properties of the assertions *)
From S2P Require Import Prelude Error Types CList Pack PackSpec World Assert Str Result Msg.
From S2P Require Import MsgSpec.
From S2P Require Import Loops Core CoreSpec Alike Print Log Run RenderSpec StatusSpec.
From S2P Require Import TraceSpec FixtureSpec.
From S2P Require Import TestSpec ScriptSpec TurnSpec Demo CoreProps TestProps RunProps.

(** ** The text of ck_assert_mem *)

Definition hex_pair (c : ascii) : bytes := [high_digit (byte_Z c); low_digit (byte_Z c)].
Definition hexes (x : bytes) : bytes := concat (hex_pair <$> x).
(** The bytes of an object in hexadecimal; of more than 64, the first 63 and two dots. *)
Definition mem_text (x : bytes) : bytes :=
  if decide (length x <= 64)%nat then hexes x else hexes (take 63 x) ++ ["."; "."]%char.

Lemma hexes_length x : length (hexes x) = (2 * length x)%nat.
Proof. unfold hexes. induction x as [| c x IH]; [done |]. cbn [fmap list_fmap concat]. rewrite length_app, IH. simpl. lia. Qed.
Lemma hexes_snoc x c : hexes (x ++ [c]) = hexes x ++ hex_pair c.
Proof. unfold hexes. rewrite fmap_app, concat_app. cbn. done. Qed.

Lemma put_char_run {u : unit} i c (b : chars) : 0 <= i < Z.of_nat (length b) ->
  put_char i c b u = (Ret (<[Z.to_nat i := Some c]> b), u).
Proof. intros H. unfold put_char. by rewrite decide_True. Qed.
Lemma byte_at_run {u : unit} (i : nat) x c : x !! i = Some c -> byte_at (Z.of_nat i) x u = (Ret (byte_Z c), u).
Proof.
  intros H. unfold byte_at. rewrite decide_True by lia. rewrite Nat2Z.id.
  by rewrite (bind_ret _ _ _ _ _ (deref_Some _ _ _ H)).
Qed.

(** An array with the digits of [x] so far, and cells never written. *)
Definition partial (x : bytes) : chars := (Some <$> hexes x) ++ replicate (129 - 2 * length x) None.
Lemma partial_length x : (length x <= 64)%nat -> length (partial x) = 129%nat.
Proof. intros. unfold partial. rewrite length_app, length_fmap, length_replicate, hexes_length. lia. Qed.
Lemma partial_put x c : (length x < 64)%nat ->
  <[Z.to_nat (Z.of_nat (length x) * 2 + 1) := Some (low_digit (byte_Z c))]>
    (<[Z.to_nat (Z.of_nat (length x) * 2) := Some (high_digit (byte_Z c))]> (partial x)) = partial (x ++ [c]).
Proof.
  intros Hl. unfold partial. rewrite hexes_snoc, fmap_app, length_app. cbn [length].
  replace (129 - 2 * length x)%nat with (S (S (129 - 2 * (length x + 1)))) by lia.
  set (r := replicate _ None). cbn [replicate].
  assert (El : length (Some <$> hexes x) = (2 * length x)%nat) by by rewrite length_fmap, hexes_length.
  rewrite insert_app_r_alt by lia. rewrite insert_app_r_alt by lia. rewrite El.
  replace (Z.to_nat (Z.of_nat (length x) * 2) - 2 * length x)%nat with 0%nat by lia.
  replace (Z.to_nat (Z.of_nat (length x) * 2 + 1) - 2 * length x)%nat with 1%nat by lia.
  cbn. by rewrite <- app_assoc.
Qed.

Lemma hex_loop_run {u : unit} n : forall i x y, (i + n <= length x)%nat -> (i + n <= length y)%nat ->
  (i + n <= 64)%nat ->
  hex_loop n (Z.of_nat i) x y (partial (take i x)) (partial (take i y)) u =
    (Ret (partial (take (i + n) x), partial (take (i + n) y)), u).
Proof.
  induction n as [| n IH]; intros i x y Hx Hy Hn; [by rewrite Nat.add_0_r |]. cbn [hex_loop].
  destruct (lookup_lt_is_Some_2 x i ltac:(lia)) as [a Ha], (lookup_lt_is_Some_2 y i ltac:(lia)) as [b Hb].
  assert (Lx : length (take i x) = i) by (rewrite length_take; lia).
  assert (Ly : length (take i y) = i) by (rewrite length_take; lia).
  pose proof (partial_put (take i x) a ltac:(lia)) as Px. pose proof (partial_put (take i y) b ltac:(lia)) as Py.
  rewrite Lx in Px. rewrite Ly in Py. rewrite <- (take_S_r _ _ _ Ha) in Px. rewrite <- (take_S_r _ _ _ Hb) in Py.
  pose proof (partial_length (take i x) ltac:(lia)). pose proof (partial_length (take i y) ltac:(lia)).
  rewrite (bind_ret _ _ _ _ _ (byte_at_run i x a Ha)).
  erewrite bind_ret by (apply put_char_run; lia).
  rewrite (bind_ret _ _ _ _ _ (byte_at_run i y b Hb)).
  erewrite bind_ret by (apply put_char_run; lia).
  rewrite (bind_ret _ _ _ _ _ (byte_at_run i x a Ha)).
  erewrite bind_ret by (apply put_char_run; rewrite length_insert; lia).
  rewrite (bind_ret _ _ _ _ _ (byte_at_run i y b Hb)).
  erewrite bind_ret by (apply put_char_run; rewrite length_insert; lia).
  rewrite Px, Py. replace (Z.of_nat i + 1) with (Z.of_nat (S i)) by lia.
  rewrite IH by lia. by rewrite <- Nat.add_succ_comm.
Qed.

Lemma lower_hex_text n : lower_hex n <> "000"%char.
Proof.
  unfold lower_hex. change 15 with (Z.ones 4). rewrite Z.land_ones by lia.
  pose proof (Z.mod_pos_bound n (2 ^ 4) ltac:(lia)) as H. change (2 ^ 4) with 16 in *.
  remember (n mod 16) as m. clear Heqm.
  assert (Hm : In m (map Z.of_nat (seq 0 16))).
  { rewrite <- (Z2Nat.id m) by lia. apply in_map, in_seq. lia. }
  repeat (destruct Hm as [<- | Hm]; [discriminate |]). destruct Hm.
Qed.
Lemma hexes_text x : "000"%char ∉ hexes x.
Proof.
  unfold hexes. induction x as [| c x IH]; [apply not_elem_of_nil |]. cbn.
  rewrite !not_elem_of_cons. split; [| split; [| exact IH]];
    apply not_eq_sym, lower_hex_text.
Qed.
Lemma mem_text_text x : "000"%char ∉ mem_text x.
Proof.
  unfold mem_text. case_decide; [apply hexes_text |]. rewrite elem_of_app. intros [Hx | Hx].
  - by apply hexes_text in Hx.
  - by rewrite !elem_of_cons, elem_of_nil in Hx; destruct Hx as [? | [? | []]].
Qed.

Lemma text_in_run t (r : chars) (u : unit) : "000"%char ∉ t ->
  text_in ((Some <$> t) ++ Some "000"%char :: r) u = (Ret (string_of t), u).
Proof.
  induction t as [| c t IH]; intros Ht; [done |]. apply not_elem_of_cons in Ht as [Hc Ht].
  cbn. rewrite decide_False by congruence. by rewrite (bind_ret _ _ _ _ _ (IH Ht)).
Qed.

(** Ending an array: with a NUL, and with dots before it when the object was cut. *)
Lemma partial_nul x : (length x <= 64)%nat -> exists r,
  <[Z.to_nat (Z.of_nat (length x) * 2) := Some "000"%char]> (partial x) = (Some <$> hexes x) ++ Some "000"%char :: r.
Proof.
  intros Hl. unfold partial.
  assert (El : length (Some <$> hexes x) = (2 * length x)%nat) by by rewrite length_fmap, hexes_length.
  rewrite insert_app_r_alt by lia. rewrite El.
  replace (Z.to_nat (Z.of_nat (length x) * 2) - 2 * length x)%nat with 0%nat by lia.
  replace (129 - 2 * length x)%nat with (S (128 - 2 * length x)) by lia. cbn. by eexists.
Qed.

Lemma partial_dots x c : length x = 63%nat -> exists r,
  <[127%nat := Some "."%char]> (<[126%nat := Some "."%char]> (<[128%nat := Some "000"%char]> (partial (x ++ [c])))) =
    (Some <$> (hexes x ++ ["."; "."]%char)) ++ Some "000"%char :: r.
Proof.
  intros Hl. unfold partial. rewrite hexes_snoc, !fmap_app, <- !app_assoc, length_app, Hl. cbn [length].
  assert (El : length (Some <$> hexes x) = 126%nat) by (rewrite length_fmap, hexes_length; lia).
  rewrite !insert_app_r_alt by (rewrite ?El; lia). rewrite El. exists []. by rewrite <- app_assoc.
Qed.

(** ** Comparison *)

Fixpoint lexcmp (x y : bytes) : Z :=
  match x, y with
  | a :: x, b :: y => if decide (a = b) then lexcmp x y else byte_Z a - byte_Z b
  | _, _ => 0
  end.

Lemma byte_Z_inj a b : byte_Z a = byte_Z b -> a = b.
Proof. unfold byte_Z. intros H. apply N2Z.inj in H. apply (f_equal ascii_of_N) in H. by rewrite !ascii_N_embedding in H. Qed.

Lemma lexcmp_eq x y : length x = length y -> (lexcmp x y = 0 <-> x = y).
Proof.
  revert y. induction x as [| a x IH]; intros [| b y] Hl; try done. cbn in *. case_decide as Hd.
  - subst. rewrite IH by lia. split; [by intros -> | by intros [= ->]].
  - split; [| by intros [= -> ->]]. intros H. destruct Hd. apply byte_Z_inj. lia.
Qed.

Lemma memcmp_run {u : unit} n : forall i x y, (i + n <= length x)%nat -> (i + n <= length y)%nat ->
  memcmp n (Z.of_nat i) x y u = (Ret (lexcmp (take n (drop i x)) (take n (drop i y))), u).
Proof.
  induction n as [| n IH]; intros i x y Hx Hy; [done |]. cbn [memcmp].
  destruct (lookup_lt_is_Some_2 x i ltac:(lia)) as [a Ha], (lookup_lt_is_Some_2 y i ltac:(lia)) as [b Hb].
  rewrite (bind_ret _ _ _ _ _ (byte_at_run i x a Ha)), (bind_ret _ _ _ _ _ (byte_at_run i y b Hb)).
  rewrite (drop_S x a i Ha), (drop_S y b i Hb). cbn [take lexcmp].
  destruct (decide (a = b)) as [-> | Hne].
  - rewrite decide_True by done. replace (Z.of_nat i + 1) with (Z.of_nat (S i)) by lia. apply IH; lia.
  - rewrite decide_False; [done |]. intros E. by apply Hne, byte_Z_inj.
Qed.

(** What the two arrays hold in the end. *)
Lemma mem_strings_run x y (L : nat) u : (L <= length x)%nat -> (L <= length y)%nat ->
  exists rx ry, mem_strings x y (Z.of_nat L) u =
    (Ret ((Some <$> mem_text (take L x)) ++ Some "000"%char :: rx,
          (Some <$> mem_text (take L y)) ++ Some "000"%char :: ry), u).
Proof.
  intros Hx Hy. unfold mem_strings, CK_MAX_ASSERT_MEM_PRINT_SIZE.
  assert (Lx : length (take L x) = L) by (rewrite length_take; lia).
  assert (Ly : length (take L y) = L) by (rewrite length_take; lia).
  unfold mem_text. rewrite Lx, Ly. destruct (decide (L <= 64)%nat) as [Hl | Hl].
  - rewrite decide_False by lia. rewrite Nat2Z.id.
    pose proof (hex_loop_run (u := u) L 0 x y Hx Hy Hl) as E. cbn [Nat.add] in E.
    change (partial (take 0 x)) with fresh_chars in E. change (partial (take 0 y)) with fresh_chars in E.
    change (Z.of_nat 0) with 0 in E. rewrite (bind_ret _ _ _ _ _ E).
    destruct (partial_nul (take L x) ltac:(lia)) as [rx Ex], (partial_nul (take L y) ltac:(lia)) as [ry Ey].
    rewrite Lx in Ex. rewrite Ly in Ey.
    erewrite bind_ret by (apply put_char_run; rewrite partial_length; lia).
    erewrite bind_ret by (apply put_char_run; rewrite partial_length; lia).
    rewrite decide_False by (intros H; by apply H). rewrite Ex, Ey. by eexists _, _.
  - rewrite decide_True by lia. change (Z.to_nat 64) with 64%nat.
    pose proof (hex_loop_run (u := u) 64 0 x y ltac:(lia) ltac:(lia) ltac:(lia)) as E. cbn [Nat.add] in E.
    change (partial (take 0 x)) with fresh_chars in E. change (partial (take 0 y)) with fresh_chars in E.
    change (Z.of_nat 0) with 0 in E. rewrite (bind_ret _ _ _ _ _ E).
    destruct (lookup_lt_is_Some_2 x 63 ltac:(lia)) as [a Ha], (lookup_lt_is_Some_2 y 63 ltac:(lia)) as [b Hb].
    pose proof (partial_length (take 64 x)) as P1. pose proof (partial_length (take 64 y)) as P2.
    rewrite length_take in P1, P2. specialize (P1 ltac:(lia)). specialize (P2 ltac:(lia)).
    do 2 erewrite bind_ret by (apply put_char_run; rewrite ?length_insert; lia).
    rewrite decide_True by lia.
    do 4 erewrite bind_ret by (apply put_char_run; rewrite !length_insert; lia).
    change (Z.to_nat (64 * 2)) with 128%nat. change (Z.to_nat (64 * 2 - 2)) with 126%nat.
    change (Z.to_nat (64 * 2 - 1)) with 127%nat.
    rewrite (take_S_r _ _ _ Ha), (take_S_r _ _ _ Hb).
    destruct (partial_dots (take 63 x) a) as [rx Ex]; [rewrite length_take; lia |].
    destruct (partial_dots (take 63 y) b) as [ry Ey]; [rewrite length_take; lia |].
    rewrite Ex, Ey, !take_take. replace (63 `min` L)%nat with 63%nat by lia. by eexists _, _.
Qed.

Lemma mem_text_length x : (length (mem_text x) <= 128)%nat.
Proof.
  unfold mem_text. case_decide; [rewrite hexes_length; lia |].
  rewrite length_app, hexes_length, length_take. cbn [length]. lia.
Qed.

(** The call that ck_assert_mem makes *)
Definition mem_call (file : string) (line : Z) (op : cmp) (a b : bytes) (tx ty : string) : ucall :=
  ck_assert_msg file line (int_op op 0 (lexcmp b a)) ("0 " +:+ op_text op +:+ " memcmp(_ck_y, _ck_x, _ck_l)")
    (Some (assertion_text tx op ty +:+
       two_values tx (in_quotes (string_of (mem_text a))) ty (in_quotes (string_of (mem_text b))))).
Lemma ck_assert_mem_run file line x op y (L : nat) tx ty u : (L <= length x)%nat -> (L <= length y)%nat ->
  ck_assert_mem file line x op y (Z.of_nat L) tx ty u = (Ret (mem_call file line op (take L x) (take L y) tx ty), u).
Proof.
  intros Hx Hy. unfold ck_assert_mem, mem_call. destruct (mem_strings_run x y L u Hx Hy) as (rx & ry & E).
  rewrite (bind_ret _ _ _ _ _ E). rewrite Nat2Z.id.
  pose proof (memcmp_run (u := u) L 0 y x Hy Hx) as Ec. rewrite !drop_0 in Ec. change (Z.of_nat 0) with 0 in Ec.
  rewrite (bind_ret _ _ _ _ _ Ec). destruct (int_op op 0 _); [done |].
  rewrite (bind_ret _ _ _ _ _ (text_in_run _ _ _ (mem_text_text (take L x)))).
  by rewrite (bind_ret _ _ _ _ _ (text_in_run _ _ _ (mem_text_text (take L y)))).
Qed.

(** C27: ck_assert_mem compares exactly L bytes and shows them in hexadecimal, the first 63 and two
    dots when they are more than 64. Whatever L is, nothing is written outside its two arrays of
    129 characters and nothing read outside the two objects; the text is complete; the assertion
    holds exactly when X stands before the operator and Y after it in the order of memcmp, so that
    with == the bytes are the same. (The comments of the macros for <, <= and >= say the opposite:
    see [mem_order_reversed].) *)
Theorem ck_assert_mem_shows file line x op y (L : nat) tx ty u :
  (L <= length x)%nat -> (L <= length y)%nat ->
  let a := take L x in let b := take L y in
  exists holds, ck_assert_mem file line x op y (Z.of_nat L) tx ty u =
    (Ret (ck_assert_msg file line holds ("0 " +:+ op_text op +:+ " memcmp(_ck_y, _ck_x, _ck_l)")
       (Some (assertion_text tx op ty +:+
          two_values tx (in_quotes (string_of (mem_text a))) ty (in_quotes (string_of (mem_text b)))))), u) /\
    holds = int_op op 0 (lexcmp b a) /\
    (op = op_eq -> (holds = true <-> a = b)) /\ (op = op_ne -> (holds = true <-> a <> b)) /\
    (length (mem_text a) <= 128)%nat.
Proof.
  intros Hx Hy a b. exists (int_op op 0 (lexcmp b a)).
  assert (La : length a = L) by (unfold a; rewrite length_take; lia).
  assert (Lb : length b = L) by (unfold b; rewrite length_take; lia).
  split; [by apply ck_assert_mem_run | split; [done |]].
  pose proof (lexcmp_eq b a ltac:(lia)) as He. split; [| split; [| apply mem_text_length]].
  - intros ->. unfold int_op. rewrite Z.eqb_eq. naive_solver.
  - intros ->. unfold int_op. rewrite negb_true_iff, Z.eqb_neq. naive_solver.
Qed.

(** ** A test that is a sequence of assertions *)

Record assertion := mkAssertion {
  as_file : string;
  as_line : Z;
  as_holds : bool;
  as_expr : string;
  as_msg : option string
}.
Definition call_of (a : assertion) : ucall :=
  ck_assert_msg (as_file a) (as_line a) (as_holds a) (as_expr a) (as_msg a).
Definition loc_of (a : assertion) : string * Z := (as_file a, as_line a).
(** The message of an assertion that fails: the one given, or the expression, cut to the buffer. *)
Definition failure_of (a : assertion) : string :=
  assert_text ("Assertion '" +:+ as_expr a +:+ "' failed") (as_msg a).

Lemma call_of_held a : as_holds a = true -> call_of a = u_mark_point (as_file a) (as_line a).
Proof. unfold call_of, ck_assert_msg. by intros ->. Qed.
Lemma call_of_failed a : as_holds a = false ->
  call_of a = u_assert_failed (as_file a) (as_line a) ("Assertion '" +:+ as_expr a +:+ "' failed") (as_msg a).
Proof. unfold call_of, ck_assert_msg. by intros ->. Qed.

Lemma held_trace l d : Forall (fun a => as_holds a = true) l ->
  failed (call_of <$> l) = false /\ fail_text (call_of <$> l) = None /\
  last_loc d (call_of <$> l) = foldl (fun _ a => loc_of a) d l.
Proof.
  unfold failed, fail_text, last_loc. intros H. revert d. induction H as [| a l Ha _ IH]; intros d; [done |].
  cbn. rewrite (call_of_held a Ha). cbn. apply IH.
Qed.
Lemma failed_trace pre a post d : Forall (fun a => as_holds a = true) pre -> as_holds a = false ->
  failed (call_of <$> pre ++ a :: post) = true /\
  fail_text (call_of <$> pre ++ a :: post) = Some (failure_of a) /\
  last_loc d (call_of <$> pre ++ a :: post) = loc_of a.
Proof.
  unfold failed, fail_text, last_loc. intros H Ha. revert d.
  induction H as [| b l Hb _ IH]; intros d; cbn.
  - rewrite (call_of_failed a Ha). by cbn.
  - rewrite (call_of_held b Hb). cbn. apply IH.
Qed.

Lemma first_failure (l : list assertion) : Forall (fun a => as_holds a = true) l \/
  exists pre a post, l = pre ++ a :: post /\ Forall (fun a => as_holds a = true) pre /\ as_holds a = false.
Proof.
  induction l as [| a l [IH | (pre & b & post & -> & Hp & Hb)]]; [by left | |];
    destruct (as_holds a) eqn:E.
  - left. by constructor.
  - right. by exists [], a, l.
  - right. exists (a :: pre), b, post. split; [done |]. split; [by constructor | done].
  - right. by exists [], a, (pre ++ b :: post).
Qed.

Section Tests.
Context {plat : Platform} {plat_ok : PlatformOK}.

(** The test [tf], run from the memory [u], is the assertions [l]: its setups do not fail, and
    neither do its teardowns when the assertions hold. *)
Record asserting (st : fork_status) (w : world) (c : case) (tf : TF) (i : Z) (u : umem) (l : list assertion)
    (s : script) : Prop := mkAsserting {
  ag_script : s = script_of st c tf i u;
  ag_mode : st = CK_FORK /\ tf_signal tf = 0 /\ allowed_exit_value tf = 0 \/ st = CK_NOFORK;
  ag_plain : plain_script w (c_timeout c) (ttest tf) s;
  ag_line : strlen (result_line (script_result st (c_name c) tf i 0 s)) < INT_MAX;
  ag_test : sc_test s = call_of <$> l;
  ag_setups : fails (sc_setups s) = false;
  ag_teardowns : Forall (fun a => as_holds a = true) l -> fails (sc_teardowns s) = false
}.

Lemma asserting_result st w c tf i u l s d : asserting st w c tf i u l s ->
  script_result st (c_name c) tf i d s = plain_result (c_name c) (ttest tf) i (call_of <$> l) d.
Proof.
  intros [_ _ _ _ Ht Hs Htd]. unfold script_result. rewrite (fails_none _ Hs), Ht.
  destruct (first_failure l) as [Hall | (pre & a & post & -> & Hpre & Ha)].
  - by destruct (held_trace l ("", 0) Hall) as (-> & _); rewrite (fails_none _ (Htd Hall)).
  - by destruct (failed_trace pre a post ("", 0) Hpre Ha) as (-> & _).
Qed.

(** C8: assertions decide. A test that is a sequence of assertions, run in the process or in a
    child from any memory the tests keep, passes exactly when all of them hold, and is located at
    the last of them; otherwise it is a failure with the message, the file and the line of the
    first that does not hold, whatever comes after it. The runner is then ready for the next test. *)
Theorem assertions_decide st U w sr c logs rs tf i (l : list assertion) :
  running st U w sr c logs rs ->
  (forall u, U u -> exists s, asserting st w c tf i u l s /\ (st = CK_NOFORK -> U (memory_after s u))) ->
  exists tr w', run_tfun st sr (c_loc c) tf i w = (Ret tr, w') /\ running st U w' sr c logs rs /\
    (rtype tr = CK_PASS <-> Forall (fun a => as_holds a = true) l) /\
    (Forall (fun a => as_holds a = true) l ->
       tr_msg tr = Some "Passed" /\
       (tr_file tr, tr_line tr) =
         (let '(f, n) := foldl (fun _ a => loc_of a) (tt_file (ttest tf), tt_line (ttest tf)) l in (Some f, n))) /\
    (forall pre a post, l = pre ++ a :: post -> Forall (fun a => as_holds a = true) pre -> as_holds a = false ->
       rtype tr = CK_FAILURE /\ tr_msg tr = Some (failure_of a) /\
       tr_file tr = Some (as_file a) /\ tr_line tr = as_line a).
Proof.
  intros Hrun Hag. set (d := (tt_file (ttest tf), tt_line (ttest tf))).
  destruct (test_step st U w sr c logs rs tf i
    (fun tr => exists dur, tr = plain_result (c_name c) (ttest tf) i (call_of <$> l) dur) Hrun)
    as (tr & w' & E & _ & Hrun' & [dur ->] & _).
  { intros u Hu. destruct (Hag u Hu) as (s & Ha & HU). pose proof (asserting_result _ _ _ _ _ _ _ _ 0 Ha) as Er.
    pose proof Ha as [-> ]. split; [apply at_plain; try done | done].
    intros d'. exists d'. by apply (asserting_result _ _ _ _ _ _ _ _ _ Ha). }
  exists (plain_result (c_name c) (ttest tf) i (call_of <$> l) dur), w'.
  split; [exact E |]. split; [exact Hrun' |]. unfold plain_result. fold d.
  destruct (first_failure l) as [Hall | (pre & a & post & -> & Hpre & Ha)].
  - destruct (held_trace l d Hall) as (E1 & E2 & E3). rewrite E1, E2, E3.
    destruct (foldl _ d l) as [f n]. cbn. split; [done |]. split; [done |].
    intros pre a post -> _ Ha. apply Forall_app in Hall as [_ [Hc _]%Forall_cons]. congruence.
  - destruct (failed_trace pre a post d Hpre Ha) as (E1 & E2 & E3). rewrite E1, E2, E3. cbn.
    assert (Hno : Forall (fun a => as_holds a = true) (pre ++ a :: post) -> False).
    { intros [_ [Hc _]%Forall_cons]%Forall_app. congruence. }
    split; [split; [done | tauto] |]. split; [tauto |].
    intros pre' a' post' El Hpre' Ha'.
    destruct (failed_trace pre' a' post' d Hpre' Ha') as (_ & E2' & E3'). rewrite <- El in E2', E3'.
    rewrite E2 in E2'. rewrite E3 in E3'. unfold loc_of in E3'. injection E2' as ->. by injection E3' as -> ->.
Qed.
End Tests.

(** ** Opposite assertions *)

Definition opposite (op : cmp) : cmp :=
  match op with
  | op_eq => op_ne | op_ne => op_eq | op_lt => op_ge | op_le => op_gt | op_gt => op_le | op_ge => op_lt
  end.

Lemma int_op_opposite op x y : int_op (opposite op) x y = negb (int_op op x y).
Proof. destruct op; cbn; rewrite ?negb_involutive; try done; rewrite ?Z.ltb_antisym, ?Z.leb_antisym; by rewrite ?negb_involutive. Qed.

Lemma ck_assert_msg_fails file line b text msg : is_assert (ck_assert_msg file line b text msg) = negb b.
Proof. by destruct b. Qed.

Lemma SFcompare_nan x y : SFcompare x y = None -> is_nan x = true \/ is_nan y = true.
Proof.
  destruct x as [s | s | | s m e], y as [s' | s' | | s' m' e']; cbn; try (by left); try (by right);
    repeat case_match; done.
Qed.
Lemma SFcompare_swap x y : SFcompare y x = CompOpp <$> SFcompare x y.
Proof.
  destruct x as [s | s | | s m e], y as [s' | s' | | s' m' e']; cbn; try done;
    try (by destruct s, s'); try (by destruct s); try (by destruct s').
  change (Pos.compare_cont Eq m' m) with (Pos.compare m' m). change (Pos.compare_cont Eq m m') with (Pos.compare m m').
  rewrite (Z.compare_antisym e e'), (Pos.compare_antisym m m').
  destruct s, s', (e ?= e'), (Pos.compare m m'); done.
Qed.

Lemma float_op_opposite op x y : is_nan x = false -> is_nan y = false ->
  float_op (opposite op) x y = negb (float_op op x y).
Proof.
  intros Hx Hy. destruct (SFcompare x y) as [c |] eqn:E.
  2: { apply SFcompare_nan in E as [E | E]; congruence. }
  pose proof (SFcompare_swap x y) as E'. rewrite E in E'. cbn in E'.
  destruct op; cbn; unfold SFeqb, SFltb, SFleb; rewrite ?E, ?E'; by destruct c.
Qed.
Lemma float_op_nan op x y : is_nan x = true \/ is_nan y = true -> float_op op x y = bool_decide (op = op_ne).
Proof.
  intros H. assert (E : SFcompare x y = None).
  { destruct H, x, y; try done. }
  pose proof (SFcompare_swap x y) as E'. rewrite E in E'. cbn in E'.
  destruct op; cbn; unfold SFeqb, SFltb, SFleb; by rewrite ?E, ?E'.
Qed.

(** ** The order of the macros

    The comments of ck_assert_str_lt, _le and _ge and of ck_assert_mem_lt, _le and _ge say that the
    test fails unless 0 < strcmp(X,Y), 0 <= strcmp(X,Y) and 0 >= strcmp(X,Y) (memcmp for the second),
    that is, unless X is above Y, or not below it, or not above it. The code compares Y with X. *)

Lemma strcmp_opp x y : strcmp x y = - strcmp y x.
Proof.
  revert y. induction x as [| c x IH]; intros [| d y]; cbn; try lia.
  destruct (decide (c = d)) as [-> | Hne]; [rewrite decide_True by done; apply IH | rewrite decide_False by congruence; lia].
Qed.
Lemma lexcmp_opp x y : length x = length y -> lexcmp x y = - lexcmp y x.
Proof.
  revert y. induction x as [| c x IH]; intros [| d y]; cbn; try done. intros [= Hl].
  destruct (decide (c = d)) as [-> | Hne]; [rewrite decide_True by done; by apply IH | rewrite decide_False by congruence; lia].
Qed.
(** What the comments ask for, of the comparison of X with Y. *)
Definition commented (op : cmp) (xy : Z) : bool :=
  match op with op_lt | op_gt => 0 <? xy | op_le => 0 <=? xy | op_ge => xy <=? 0 | op_eq => xy =? 0 | op_ne => negb (xy =? 0) end.
Lemma order_reversed op xy yx : xy = - yx -> xy <> 0 ->
  int_op op 0 yx = match op with op_lt | op_le | op_ge => negb (commented op xy) | _ => commented op xy end.
Proof. intros -> Hne. destruct op; unfold int_op, commented; lia. Qed.

(** Of different values, the assertions with <, <= and >= hold exactly when their comments say that
    the test fails; those with >, == and != do what the comments say. *)
Lemma str_order_reversed file line op x y tx ty : strcmp x y <> 0 ->
  negb (is_assert (ck_assert_str file line (Some x) op (Some y) tx ty)) =
    match op with op_lt | op_le | op_ge => negb (commented op (strcmp x y)) | _ => commented op (strcmp x y) end.
Proof.
  intros Hne. rewrite <- (order_reversed op (strcmp x y) (strcmp y x) (strcmp_opp x y) Hne).
  unfold ck_assert_str, ck_assert_str_. rewrite ck_assert_msg_fails, negb_involutive. done.
Qed.
Lemma mem_order_reversed file line x op y (L : nat) tx ty u : (L <= length x)%nat -> (L <= length y)%nat ->
  let xy := lexcmp (take L x) (take L y) in xy <> 0 ->
  exists call, ck_assert_mem file line x op y (Z.of_nat L) tx ty u = (Ret call, u) /\
    negb (is_assert call) = match op with op_lt | op_le | op_ge => negb (commented op xy) | _ => commented op xy end.
Proof.
  intros Hx Hy xy Hne. eexists. split; [by apply ck_assert_mem_run |].
  rewrite <- (order_reversed op xy (lexcmp (take L y) (take L x))); [| apply lexcmp_opp; rewrite !length_take; lia | done].
  unfold mem_call. by rewrite ck_assert_msg_fails, negb_involutive.
Qed.

(** C28: of two opposite assertions on the same values exactly one holds: on integers, signed and
    unsigned, pointers, strings, and floating point numbers. The exceptions: both fail when a string
    is NULL, whatever the operator, unless the macro is one for pointers to strings; and when one
    of the numbers is a NaN, every comparison fails but !=. (By their comments, ck_assert_str_le and
    ck_assert_str_gt would both hold when X is above Y: see [str_order_reversed].) *)
Theorem opposite_assertions file line op tx ty :
  (forall X Y, is_assert (ck_assert_int file line X (opposite op) Y tx ty) = negb (is_assert (ck_assert_int file line X op Y tx ty))) /\
  (forall X Y, is_assert (ck_assert_uint file line X (opposite op) Y tx ty) = negb (is_assert (ck_assert_uint file line X op Y tx ty))) /\
  (forall X Y, is_assert (ck_assert_ptr file line X (opposite op) Y tx ty) = negb (is_assert (ck_assert_ptr file line X op Y tx ty))) /\
  (forall x y, is_assert (ck_assert_str file line (Some x) (opposite op) (Some y) tx ty) =
     negb (is_assert (ck_assert_str file line (Some x) op (Some y) tx ty))) /\
  (forall X Y, X = None \/ Y = None -> is_assert (ck_assert_str file line X op Y tx ty) = true) /\
  (forall X Y, is_assert (ck_assert_pstr_ne file line X Y tx ty) = negb (is_assert (ck_assert_pstr_eq file line X Y tx ty))) /\
  (forall g x y, is_nan x = false -> is_nan y = false ->
     is_assert (ck_assert_floating file line g x (opposite op) y tx ty) =
       negb (is_assert (ck_assert_floating file line g x op y tx ty))) /\
  (forall g x y, is_nan x = true \/ is_nan y = true ->
     is_assert (ck_assert_floating file line g x op y tx ty) = negb (bool_decide (op = op_ne))).
Proof.
  unfold ck_assert_int, ck_assert_uint, ck_assert_ptr, ck_assert_str, ck_assert_pstr_eq, ck_assert_pstr_ne,
    ck_assert_str_, ck_assert_floating.
  split_and!; intros *; rewrite ?ck_assert_msg_fails.
  - by rewrite int_op_opposite.
  - by rewrite int_op_opposite.
  - by rewrite int_op_opposite.
  - cbn [is_null andb orb negb]. by rewrite int_op_opposite.
  - by intros [-> | ->]; [| destruct X].
  - destruct X, Y; cbn; by rewrite ?negb_involutive.
  - intros Hx Hy. by rewrite float_op_opposite.
  - intros H. by rewrite float_op_nan.
Qed.

(** A NULL and a string are different for ck_assert_pstr_ne, although its documentation ends by
    saying that the test fails unless both are not NULL. *)
Lemma pstr_ne_null_passes file line y tx ty :
  ck_assert_pstr_ne file line None (Some y) tx ty = u_mark_point file line.
Proof. done. Qed.
(** fail_unless fails when its expression is false; its comment says unless. *)
Lemma fail_unless_false file line text msg : is_assert (fail_unless file line false text msg) = true.
Proof. done. Qed.

(** ** Witnesses *)

#[local] Existing Instance Demo.plat.
#[local] Existing Instance Demo.plat_ok.

Definition bytes70 : bytes := replicate 69 "a"%char ++ ["z"%char].

Lemma ck_assert_mem_shows_witness : exists holds,
  ck_assert_mem "a.c" 9 (replicate 70 "a"%char) op_eq bytes70 70 "p" "q" tt =
    (Ret (ck_assert_msg "a.c" 9 holds "0 == memcmp(_ck_y, _ck_x, _ck_l)"
       (Some (assertion_text "p" op_eq "q" +:+
          two_values "p" (in_quotes (string_of (mem_text (replicate 70 "a"%char)))) "q"
            (in_quotes (string_of (mem_text bytes70)))))), tt) /\
    holds = false.
Proof.
  destruct (ck_assert_mem_shows "a.c" 9 (replicate 70 "a"%char) op_eq bytes70 70 "p" "q" tt) as (h & E & -> & _).
  - vm_compute. lia.
  - vm_compute. lia.
  - eexists. split; [exact E |]. vm_compute. reflexivity.
Defined.

(** A test of three assertions, of which the second fails. *)
Definition three_asserts : list assertion :=
  [ mkAssertion "a.c" 51 true "_ck_x == _ck_y" (Some "Assertion 'x == 4' failed: x == 4, 4 == 4");
    mkAssertion "a.c" 52 false (str_expr op_eq false false) (Some ("Assertion 's == t' failed: s == " +:+ Assert.shown (Some "a") +:+ ", t == " +:+ Assert.shown (Some "b")));
    mkAssertion "a.c" 53 false "_ck_x < _ck_y" (Some "Assertion 'x < 3' failed: x == 4, 3 == 3") ].
Definition t_asserts : TTest := START_TEST "a.c" 50 "t_asserts" (fun _ _ =>
  [ ck_assert_int "a.c" 51 4 op_eq 4 "x" "4";
    ck_assert_str "a.c" 52 (Some "a") op_eq (Some "b") "s" "t";
    ck_assert_int "a.c" 53 4 op_lt 3 "x" "3" ]).

Lemma assertions_decide_witness : exists tr w',
  run_tfun CK_FORK sr0 tc0 (tf_of t_asserts) 0 w_logged = (Ret tr, w') /\
  rtype tr = CK_FAILURE /\ tr_line tr = 52.
Proof.
  destruct (assertions_decide CK_FORK U_fixed w_logged sr0 case_fixed logs_two [] (tf_of t_asserts) 0 three_asserts)
    as (tr & w' & E & _ & _ & _ & H).
  - exact w_logged_running.
  - intros u ->. exists (script_of CK_FORK case_fixed (tf_of t_asserts) 0 mem_fixed). split; [| discriminate].
    constructor; [reflexivity | by left | plain_demo | | | |]; vm_compute; reflexivity.
  - exists tr, w'. split; [exact E |].
    destruct (H [mkAssertion "a.c" 51 true "_ck_x == _ck_y" (Some "Assertion 'x == 4' failed: x == 4, 4 == 4")] _ _ eq_refl)
      as (H1 & _ & _ & H2); [by repeat constructor | reflexivity |]. by split.
Defined.

Lemma opposite_assertions_witness :
  is_assert (ck_assert_str "a.c" 1 None op_ne (Some "b") "s" "t") = true /\
  is_assert (ck_assert_floating "a.c" 1 (fun _ => "") S754_nan op_eq (S754_zero false) "x" "y") = true.
Proof.
  destruct (opposite_assertions "a.c" 1 op_ne "s" "t") as (_ & _ & _ & _ & H & _).
  destruct (opposite_assertions "a.c" 1 op_eq "x" "y") as (_ & _ & _ & _ & _ & _ & _ & H').
  split; [apply H; by left | rewrite H'; [reflexivity | by left]].
Defined.
