(* ===== verification/Money.v ===== *)
(** * The example of the tutorial (src/doc/example/)

    The library for money that the manual develops, in its versions money.3.c to money.c, and
    the test programs for it, tests/check_money.3.c to tests/check_money.c: user code, as the
    trace of calls that it makes, and clients that build suites of it. *)
From S2P Require Import Prelude Error Types CList Pack World Assert Str Result Msg MsgSpec Core.
From S2P Require Import CoreSpec Alike Print Log Run Image BuildSpec FreeSpec ClientSpec.
From S2P Require Import BuiltSpec.
From S2P Require Import TraceSpec.

(** ** User code

    A computation over the memory of the user's code: the calls it makes, and its value with the
    memory it leaves, unless one of these calls ends it. *)
Definition U (A : Type) : Type := umem -> list ucall * option (A * umem).
#[export] Instance U_ret : MRet U := fun _ a u => ([], Some (a, u)).
#[export] Instance U_bind : MBind U := fun _ _ k m u =>
  match m u with
  | (t, Some (a, u')) => let '(t', r) := k a u' in (t ++ t', r)
  | (t, None) => (t, None)
  end.

Definition ends (c : ucall) : bool :=
  match c with u_assert_failed _ _ _ _ | u_exit _ | u_raise _ | u_hang => true | _ => false end.
Definition act (c : ucall) : U unit := fun u => ([c], if ends c then None else Some (tt, write_of u c)).
Definition crash {A} (sig : Z) : U A := fun _ => ([u_raise sig], None).
Definition SIGABRT : Z := 6.
Definition SIGSEGV : Z := 11.

(** A static variable, zero at the start of the program. *)
Definition variable (x : string) : U Z := fun u => ([], Some (default 0 (u !! x), u)).
Definition assign (x : string) (v : Z) : U unit := act (u_write x v).

(** ** Objects on the heap

    An object is at an address and has fields; one that is not there has none, and NULL is not the
    address of any. Reading or writing a field that is not there is taken as what it is for
    NULL, a segmentation fault. [can_allocate]: whether malloc succeeds. *)
Definition NULL : Z := 0.
Definition heap_top : string := "<heap>".
Definition field (f : string) (p : Z) : string := f +:+ "@" +:+ dec p.
Definition is_live (p : Z) (u : umem) : bool := bool_decide (u !! field "live" p = Some 1).

Definition read_field (f : string) (p : Z) : U Z := fun u =>
  match (if is_live p u then u !! field f p else None) with
  | Some v => ([], Some (v, u))
  | None => crash SIGSEGV u
  end.
Definition write_field (f : string) (p v : Z) : U unit := fun u =>
  if is_live p u then assign (field f p) v u else crash SIGSEGV u.

Definition malloc (can_allocate : umem -> bool) : U Z := fun u =>
  if can_allocate u then
    (top ← variable heap_top;
     assign heap_top (top + 1) ;;
     assign (field "live" (top + 1)) 1 ;;
     mret (top + 1)) u
  else ([], Some (NULL, u)).
Definition free (p : Z) : U unit := fun u =>
  if decide (p = NULL) then ([], Some (tt, u))
  else if is_live p u then assign (field "live" p) 0 u else crash SIGABRT u.

(** The string literal of the example, and the string at an address. *)
Definition USD : Z := 4096.
Definition text (p : Z) : option string := if decide (p = USD) then Some "USD" else None.

(** ** The library (src/money.h) *)

Class Money_h := {
  money_create : Z -> Z -> U Z;
  money_amount : Z -> U Z;
  money_currency : Z -> U Z;
  money_free : Z -> U unit
}.

(** src/money.3.c *)
Definition money_create_3 (amount currency : Z) : U Z := mret NULL.
Definition money_amount_3 (m : Z) : U Z := mret 0.
Definition money_currency_3 (m : Z) : U Z := mret NULL.
Definition money_free_3 (m : Z) : U unit := mret tt.
Definition money_3 : Money_h := Build_Money_h money_create_3 money_amount_3 money_currency_3 money_free_3.

(** src/money.4.c *)
Definition money_create_4 (amount currency : Z) : U Z := mret NULL.
Definition money_amount_4 (m : Z) : U Z := read_field "amount" m.
Definition money_currency_4 (m : Z) : U Z := mret NULL.
Definition money_free_4 (m : Z) : U unit := mret tt.
Definition money_4 : Money_h := Build_Money_h money_create_4 money_amount_4 money_currency_4 money_free_4.

Section Library.
Context (can_allocate : umem -> bool).

(** src/money.5.c *)
Definition money_create_5 (amount currency : Z) : U Z :=
  m ← malloc can_allocate;
  if decide (m = NULL) then mret NULL
  else
    write_field "amount" m amount ;;
    write_field "currency" m currency ;;
    mret m.
Definition money_amount_5 (m : Z) : U Z := read_field "amount" m.
Definition money_currency_5 (m : Z) : U Z := read_field "currency" m.
Definition money_free_5 (m : Z) : U unit := free m.
Definition money_5 : Money_h := Build_Money_h money_create_5 money_amount_5 money_currency_5 money_free_5.

(** src/money.c, of which src/money.6.c is a copy *)
Definition money_create_6 (amount currency : Z) : U Z :=
  if decide (amount < 0) then mret NULL
  else
    m ← malloc can_allocate;
    if decide (m = NULL) then mret NULL
    else
      write_field "amount" m amount ;;
      write_field "currency" m currency ;;
      mret m.
Definition money_amount_6 (m : Z) : U Z := read_field "amount" m.
Definition money_currency_6 (m : Z) : U Z := read_field "currency" m.
Definition money_free_6 (m : Z) : U unit := free m.
Definition money_6 : Money_h := Build_Money_h money_create_6 money_amount_6 money_currency_6 money_free_6.
End Library.

(** ** The tests *)

Definition test_body (m : U unit) : TFun := fun _ u => fst (m u).
Definition fixture_body (m : U unit) : SFun := fun u => fst (m u).
Definition in_file : string := "check_money.c".
(** The text of a string literal in the source. *)
Definition literal (s : string) : string := String "034"%char (s +:+ String "034"%char EmptyString).

Section Tests.
Context {lib : Money_h}.

(** tests/check_money.3.c and tests/check_money.6.c, with the lines of the first *)
Definition test_money_create_3 : TTest := START_TEST in_file 25 "test_money_create" (test_body (
  m ← money_create 5 USD;
  x ← money_amount m; act (ck_assert_int in_file 30 x op_eq 5 "money_amount(m)" "5") ;;
  x ← money_currency m;
  act (ck_assert_str in_file 31 (text x) op_eq (Some "USD") "money_currency(m)" (literal "USD")) ;;
  money_free m)).

(** tests/check_money.c; tests/check_money.7.c is the same on other lines. *)
Definition setup : SFun := fixture_body (m ← money_create 5 USD; assign "five_dollars" m).
Definition teardown : SFun := fixture_body (m ← variable "five_dollars"; money_free m).

Definition test_money_create : TTest := START_TEST in_file 39 "test_money_create" (test_body (
  m ← variable "five_dollars";
  x ← money_amount m; act (ck_assert_int in_file 41 x op_eq 5 "money_amount(five_dollars)" "5") ;;
  m ← variable "five_dollars";
  x ← money_currency m;
  act (ck_assert_str in_file 42 (text x) op_eq (Some "USD") "money_currency(five_dollars)" (literal "USD")))).
(** ... and of tests/check_money.6.c, from another line [n]. *)
Definition test_money_create_neg (n : Z) : TTest := START_TEST in_file n "test_money_create_neg" (test_body (
  m ← money_create (-1) USD;
  act (ck_assert_msg in_file (n + 4) (bool_decide (m = NULL)) "m == NULL"
    (Some "NULL should be returned on attempt to create with a negative amount")))).
Definition test_money_create_zero (n : Z) : TTest := START_TEST in_file n "test_money_create_zero" (test_body (
  m ← money_create 0 USD;
  x ← money_amount m;
  if decide (x <> 0) then act (ck_abort_msg in_file (n + 6) (Some "Zero is a valid amount of money")) else mret tt)).

(** ** The suites and the program *)

Definition tcase_add_test (tc : Z) (t : TTest) (k : client) : client :=
  c_call (c_tcase_add_test (Some tc) (Some t) 0 0 0 1) (fun _ => k).

Definition money_suite_3 : client :=
  c_call (c_suite_create (Some "Money")) (fun s =>
  c_call (c_tcase_create (Some "Core")) (fun tc_core =>
  tcase_add_test tc_core test_money_create_3 (
  c_call (c_suite_add_tcase (Some s) (Some tc_core)) (fun _ => c_ret s)))).

Definition money_suite_6 : client :=
  c_call (c_suite_create (Some "Money")) (fun s =>
  c_call (c_tcase_create (Some "Core")) (fun tc_core =>
  tcase_add_test tc_core test_money_create_3 (
  c_call (c_suite_add_tcase (Some s) (Some tc_core)) (fun _ =>
  c_call (c_tcase_create (Some "Limits")) (fun tc_limits =>
  tcase_add_test tc_limits (test_money_create_neg 36) (
  tcase_add_test tc_limits (test_money_create_zero 46) (
  c_call (c_suite_add_tcase (Some s) (Some tc_limits)) (fun _ => c_ret s)))))))).

Definition money_suite : client :=
  c_call (c_suite_create (Some "Money")) (fun s =>
  c_call (c_tcase_create (Some "Core")) (fun tc_core =>
  c_call (c_tcase_add_fixture tc_core (true, Some setup, Some teardown)) (fun _ =>
  tcase_add_test tc_core test_money_create (
  c_call (c_suite_add_tcase (Some s) (Some tc_core)) (fun _ =>
  c_call (c_tcase_create (Some "Limits")) (fun tc_limits =>
  tcase_add_test tc_limits (test_money_create_neg 46) (
  tcase_add_test tc_limits (test_money_create_zero 56) (
  c_call (c_suite_add_tcase (Some s) (Some tc_limits)) (fun _ => c_ret s))))))))).
End Tests.

(** main: the suite, and a runner for it. *)
Definition with_runner (suite : client) : client :=
  c_bind suite (fun s => c_call (c_srunner_create (Some s)) c_ret).
Definition check_money {plat : Platform} (suite : client) : M world Z := check_main (with_runner suite) CK_NORMAL.
