(* ===== verification/MoneyProps.v ===== *)
(** * Properties of the example of the tutorial

    What the library for money does on the heap; the outputs of the steps of the tutorial; and
    that the test program of its last step succeeds, on every platform and in both modes. *)
From S2P Require Import Prelude Error Types CList Pack PackSpec Loops World Assert Str Result.
From S2P Require Import Msg.
From S2P Require Import MsgSpec Core CoreSpec Alike Print Log Run RunnerSpec RenderSpec LogSpec.
From S2P Require Import LogRunSpec SelectSpec StatusSpec TraceSpec FixtureSpec TestSpec.
From S2P Require Import ScriptSpec.
From S2P Require Import TurnSpec RunSpec SuiteSpec WholeSpec Image BuildSpec FreeSpec ClientSpec.
From S2P Require Import BuiltSpec Demo CoreProps TestProps RunProps WholeProps BuildProps Money.

(** ** The library on the heap *)

Definition top (u : umem) : Z := default 0 (u !! heap_top).

(** At [p] is an object with the fields [a] and [c]. *)
Record money_at (u : umem) (p a c : Z) : Prop := mkMoneyAt {
  ma_live : u !! field "live" p = Some 1;
  ma_amount : u !! field "amount" p = Some a;
  ma_currency : u !! field "currency" p = Some c
}.

(** The memory of a computation is that of its calls. *)
Definition coherent {A} (m : U A) : Prop := forall u t a u', m u = (t, Some (a, u')) ->
  u' = mem t u /\ Forall (fun c => ends c = false) t.

Lemma mem_run t t' u : Forall (fun c => ends c = false) t -> mem (t ++ t') u = mem t' (mem t u).
Proof.
  unfold mem. intros H. revert u. induction H as [| c t Hc _ IH]; intros u; [done |].
  destruct c; try done; cbn; apply IH.
Qed.
Lemma coherent_ret {A} (a : A) : coherent (mret a).
Proof. by intros u t b u' [= <- <- <-]. Qed.
Lemma coherent_bind {A B} (m : U A) (k : A -> U B) : coherent m -> (forall a, coherent (k a)) -> coherent (m ≫= k).
Proof.
  intros Hm Hk u t b u'. unfold mbind, U_bind. destruct (m u) as [t1 [[a u1] |]] eqn:E1; [| done].
  destruct (k a u1) as [t2 r] eqn:E2. intros [= <- ->].
  destruct (Hm _ _ _ _ E1) as [-> H1], (Hk _ _ _ _ _ E2) as [-> H2].
  rewrite mem_run by done. split; [done | by apply Forall_app].
Qed.
Lemma coherent_act c : coherent (act c).
Proof. intros u t [] u'. unfold act. destruct c; intros [= <- <-]; split; try done; by repeat constructor. Qed.
Lemma coherent_crash {A} s : coherent (crash (A := A) s).
Proof. by intros u t a u'. Qed.
Lemma coherent_if {A} (f : umem -> bool) (m k : U A) : coherent m -> coherent k ->
  coherent (fun u => if f u then m u else k u).
Proof. intros Hm Hk u t a u'. destruct (f u); [apply Hm | apply Hk]. Qed.

(** The calls of a computation, one by one. *)
Lemma trace_bind {A B} (m : U A) (k : A -> U B) u t a u' : m u = (t, Some (a, u')) ->
  fst ((m ≫= k) u) = t ++ fst (k a u').
Proof. intros E. unfold mbind, U_bind. rewrite E. by destruct (k a u'). Qed.
Lemma trace_act {B} c (k : unit -> U B) u : ends c = false -> fst ((act c ≫= k) u) = c :: fst (k tt (write_of u c)).
Proof. intros H. unfold mbind, U_bind, act. rewrite H. by destruct (k tt _). Qed.

(** Different fields have different names, at any addresses. *)
Ltac fields := unfold top, field, heap_top; repeat first [rewrite lookup_insert_eq | rewrite lookup_insert_ne by discriminate].

Section Library.
Context (can_allocate : umem -> bool).

(** The calls of money_create when it makes an object at [p]. *)
Definition creating (p a c : Z) : list ucall :=
  [u_write heap_top p; u_write (field "live" p) 1; u_write (field "amount" p) a; u_write (field "currency" p) c].
Definition created (p a c : Z) (u : umem) : umem :=
  <[field "currency" p := c]> (<[field "amount" p := a]> (<[field "live" p := 1]> (<[heap_top := p]> u))).

Lemma created_at p a c u : money_at (created p a c u) p a c.
Proof. unfold created. constructor; by fields. Qed.
Lemma created_top p a c u : top (created p a c u) = p.
Proof. unfold created. by fields. Qed.

(** money_create refuses negative amounts, gives NULL when there is no memory, and otherwise a
    new object with the amount and the currency; money_amount and money_currency read them, and
    on NULL they end the program with a segmentation fault; money_free takes the object away. *)
Lemma money_library u a c : 0 <= top u ->
  (a < 0 -> money_create_6 can_allocate a c u = ([], Some (NULL, u))) /\
  (0 <= a -> can_allocate u = false -> money_create_6 can_allocate a c u = ([], Some (NULL, u))) /\
  (0 <= a -> can_allocate u = true -> let p := top u + 1 in
     money_create_6 can_allocate a c u = (creating p a c, Some (p, created p a c u)) /\ p <> NULL /\
     money_at (created p a c u) p a c).
Proof.
  intros Ht. unfold money_create_6, malloc, NULL. split; [| split]; intros Ha.
  - by rewrite decide_True by done.
  - intros Hc. rewrite decide_False by lia. unfold mbind at 1, U_bind at 1. rewrite Hc. by rewrite decide_True.
  - intros Hc. set (p := top u + 1). rewrite decide_False by lia. split; [| split; [unfold p; lia | apply created_at]].
    unfold mbind at 1, U_bind at 1. rewrite Hc. unfold mbind, U_bind, variable, assign, act. cbn [fst snd ends app write_of].
    fold (top u). fold p. cbn [mret U_ret app]. rewrite decide_False by (unfold p; lia).
    unfold write_field, is_live. rewrite lookup_insert_eq, bool_decide_true by done. unfold assign, act. cbn [ends write_of app].
    rewrite lookup_insert_ne by (unfold field; discriminate). rewrite lookup_insert_eq, bool_decide_true by done. reflexivity.
Qed.

Lemma money_accessors u p a c : money_at u p a c ->
  money_amount_6 p u = ([], Some (a, u)) /\ money_currency_6 p u = ([], Some (c, u)) /\
  (p <> NULL -> money_free_6 p u = ([u_write (field "live" p) 0], Some (tt, <[field "live" p := 0]> u))).
Proof.
  intros [H1 H2 H3]. unfold money_amount_6, money_currency_6, money_free_6, read_field, free, is_live.
  rewrite H1, H2, H3, bool_decide_true by done. split; [done |]. split; [done |]. intros Hp. by rewrite decide_False.
Qed.
Lemma money_null u : u !! field "live" NULL = None ->
  money_amount_6 NULL u = ([u_raise SIGSEGV], None) /\ money_currency_6 NULL u = ([u_raise SIGSEGV], None) /\
  money_free_6 NULL u = ([], Some (tt, u)).
Proof. intros H. unfold money_amount_6, money_currency_6, money_free_6, read_field, free, is_live. by rewrite H. Qed.

Lemma money_coherent a c p : coherent (money_create_6 can_allocate a c) /\ coherent (money_amount_6 p) /\
  coherent (money_currency_6 p) /\ coherent (money_free_6 p).
Proof.
  assert (Hv : forall x, coherent (variable x)) by (intros x u t b u' [= <- _ <-]; split; [done | constructor]).
  assert (Hw : forall f q v, coherent (write_field f q v)).
  { intros. apply coherent_if; [apply coherent_act | apply coherent_crash]. }
  assert (Hr : forall f q, coherent (read_field f q)).
  { intros f q u t b u'. unfold read_field. destruct (if is_live q u then _ else _); [| apply coherent_crash].
    intros [= <- _ <-]. split; [done | constructor]. }
  assert (Hm : coherent (malloc can_allocate)).
  { apply coherent_if; [| apply coherent_ret]. apply coherent_bind; [apply Hv | intros x].
    repeat (apply coherent_bind; [apply coherent_act | intros []]). apply coherent_ret. }
  split; [| split; [apply Hr | split; [apply Hr |]]].
  - unfold money_create_6. case_decide; [apply coherent_ret |]. apply coherent_bind; [exact Hm | intros m].
    case_decide; [apply coherent_ret |]. repeat (apply coherent_bind; [apply Hw | intros []]). apply coherent_ret.
  - intros u t b u'. unfold money_free_6, free. case_decide; [apply coherent_ret |].
    apply (coherent_if (is_live p) (assign (field "live" p) 0) (crash SIGABRT)); [apply coherent_act | apply coherent_crash].
Qed.
End Library.

(** ** A client that builds a suite of two test cases *)


Definition two_cases (f g : SFun) (t1 t2 t3 : TTest) : client :=
  c_call (c_suite_create (Some "Money")) (fun s =>
  c_call (c_tcase_create (Some "Core")) (fun tc_core =>
  c_call (c_tcase_add_fixture tc_core (true, Some f, Some g)) (fun _ =>
  tcase_add_test tc_core t1 (
  c_call (c_suite_add_tcase (Some s) (Some tc_core)) (fun _ =>
  c_call (c_tcase_create (Some "Limits")) (fun tc_limits =>
  tcase_add_test tc_limits t2 (
  tcase_add_test tc_limits t3 (
  c_call (c_suite_add_tcase (Some s) (Some tc_limits)) (fun _ => c_ret s))))))))).

Definition money_runner : arunner := mkARunner [1000] [] None None None CK_FORK_GETENV.

(** What it builds in a process that has allocated nothing. *)
Lemma two_cases_built {plat : Platform} e ts f g t1 t2 t3 : initial_timeout e = Some ts -> exists i,
  image_after e (with_runner (two_cases f g t1 t2 t3)) image0 = Some (1005, i) /\
  im_runners i !! 1005 = Some money_runner /\ sole_owner i 1005 [1000] /\
  program_of i [1000] = [mkSuiteDesc 1000 "Money"
    [mkCase 1002 "Core" ts 1001 [] [tf_of t1] (after [(true, Some f, Some g)] (fun _ _ => []));
     mkCase 1004 "Limits" ts 1003 [] [tf_of t2; tf_of t3] (fun _ _ => [])]].
Proof.
  intros Hts. eexists. split; [| split; [| split]].
  - unfold with_runner, two_cases, tcase_add_test. cbn -[initial_timeout]. rewrite Hts. vm_compute. reflexivity.
  - vm_compute. reflexivity.
  - refine (bool_decide_eq_true_1 _ _). vm_compute. reflexivity.
  - vm_compute. reflexivity.
Qed.

(** ** The test program of the last step *)

Section Program.
Context {plat : Platform} {plat_ok : PlatformOK} (can_allocate : umem -> bool).
Context (malloc_succeeds : forall u, can_allocate u = true).
#[local] Instance money : Money_h := money_6 can_allocate.

(** The memories that the tests keep: those in which the next address is not NULL. *)
Definition heap_ok (u : umem) : Prop := 0 <= top u.

Definition case_core (ts : timespec) : case := mkCase 1002 "Core" ts 1001 [] [tf_of test_money_create]
  (after [(true, Some setup, Some teardown)] (fun _ _ => [])).
Definition case_limits (ts : timespec) : case := mkCase 1004 "Limits" ts 1003 []
  [tf_of (test_money_create_neg 46); tf_of (test_money_create_zero 56)] (fun _ _ => []).

(** What the tests do. *)
Definition core_script (p : Z) : script :=
  mkScript [creating p 5 USD ++ [u_write "five_dollars" p]]
    [u_mark_point in_file 41; u_mark_point in_file 42] [[u_write (field "live" p) 0]].

Lemma core_calls st ts u : heap_ok u ->
  script_of st (case_core ts) (tf_of test_money_create) 0 u = core_script (top u + 1).
Proof.
  intros Hu. destruct (money_library can_allocate u 5 USD Hu) as (_ & _ & E).
  specialize (E ltac:(lia) (malloc_succeeds u)). set (p := top u + 1) in *. destruct E as (E & Hp & Hat).
  set (u1 := <["five_dollars" := p]> (created p 5 USD u)).
  assert (Hat1 : money_at u1 p 5 USD).
  { destruct Hat as [H1 H2 H3]. unfold u1. constructor; rewrite lookup_insert_ne by (unfold field; discriminate); done. }
  destruct (money_accessors u1 p 5 USD Hat1) as (Ea & Ec & Ef). specialize (Ef Hp).
  change (money_create_6 can_allocate 5) with (money_create 5) in E. change (money_amount_6 p) with (money_amount p) in Ea.
  change (money_currency_6 p) with (money_currency p) in Ec. change (money_free_6 p) with (money_free p) in Ef.
  assert (Es : setup u = creating p 5 USD ++ [u_write "five_dollars" p]).
  { unfold setup, fixture_body. by rewrite (trace_bind _ _ _ _ _ _ E). }
  assert (Ev : variable "five_dollars" u1 = ([], Some (p, u1))).
  { unfold variable, u1. by rewrite lookup_insert_eq. }
  assert (Em : mem_all [setup u] u = u1) by by rewrite Es.
  assert (Et : fn test_money_create 0 u1 = [u_mark_point in_file 41; u_mark_point in_file 42]).
  { unfold test_money_create. cbn [fn START_TEST]. unfold test_body.
    rewrite (trace_bind _ _ _ _ _ _ Ev), (trace_bind _ _ _ _ _ _ Ea), trace_act by done.
    cbn [write_of]. by rewrite (trace_bind _ _ _ _ _ _ Ev), (trace_bind _ _ _ _ _ _ Ec). }
  assert (Etd : teardown u1 = [u_write (field "live" p) 0]).
  { unfold teardown, fixture_body. rewrite (trace_bind _ _ _ _ _ _ Ev). by apply (f_equal fst Ef). }
  unfold script_of. change (c_fixtures (case_core ts) true true) with [mkFixture 1 setup].
  change (c_fixtures (case_core ts) true false) with [mkFixture 1 teardown]. cbn [fixture_calls fun_].
  assert (Ff : failed (setup u) = false) by by rewrite Es.
  rewrite Ff. cbn [fails existsb orb]. rewrite Ff. cbn [orb ttest tf_of]. rewrite Em, Et.
  change (failed _) with false at 1. rewrite andb_false_r.
  change (mem _ u1) with u1. rewrite Etd. by rewrite Es.
Qed.

Definition neg_script : script := mkScript [] [u_mark_point in_file 50] [].
Lemma neg_calls st ts u : heap_ok u -> script_of st (case_limits ts) (tf_of (test_money_create_neg 46)) 0 u = neg_script.
Proof.
  intros Hu. destruct (money_library can_allocate u (-1) USD Hu) as (E & _). specialize (E ltac:(lia)).
  change (money_create_6 can_allocate (-1)) with (money_create (-1)) in E.
  assert (Et : fn (test_money_create_neg 46) 0 u = [u_mark_point in_file 50]).
  { unfold test_money_create_neg. cbn [fn START_TEST]. unfold test_body. by rewrite (trace_bind _ _ _ _ _ _ E). }
  unfold script_of. change (c_fixtures (case_limits ts) true true) with (@nil Fixture).
  change (c_fixtures (case_limits ts) true false) with (@nil Fixture). cbn [fixture_calls fails existsb orb ttest tf_of mem_all foldl].
  rewrite Et. by destruct (bool_decide _).
Qed.

Definition zero_script (p : Z) : script := mkScript [] (creating p 0 USD) [].
Lemma zero_calls st ts u : heap_ok u ->
  script_of st (case_limits ts) (tf_of (test_money_create_zero 56)) 0 u = zero_script (top u + 1).
Proof.
  intros Hu. destruct (money_library can_allocate u 0 USD Hu) as (_ & _ & E).
  specialize (E ltac:(lia) (malloc_succeeds u)). set (p := top u + 1) in *. destruct E as (E & Hp & Hat).
  destruct (money_accessors _ p 0 USD Hat) as (Ea & _).
  change (money_create_6 can_allocate 0) with (money_create 0) in E. change (money_amount_6 p) with (money_amount p) in Ea.
  assert (Et : fn (test_money_create_zero 56) 0 u = creating p 0 USD).
  { unfold test_money_create_zero. cbn [fn START_TEST]. unfold test_body.
    rewrite (trace_bind _ _ _ _ _ _ E), (trace_bind _ _ _ _ _ _ Ea). by rewrite decide_False by tauto. }
  unfold script_of. change (c_fixtures (case_limits ts) true true) with (@nil Fixture).
  change (c_fixtures (case_limits ts) true false) with (@nil Fixture). cbn [fixture_calls fails existsb orb ttest tf_of mem_all foldl].
  rewrite Et. by destruct (bool_decide _).
Qed.

(** *** They pass *)

Context (w : world) (room_in_channel : 64 <= msg_limit w).

Lemma short_sendable m : Z.of_nat (length (enc m)) <= 64 -> msg_ok m -> sendable w m.
Proof. intros H1 H2. split; [done | lia]. Qed.

Definition passed (tcname : string) (turn : TF * Z) (tr : TestResult) : Prop := rtype tr = CK_PASS.

Lemma test_passes st c t u s : st = CK_FORK \/ st = CK_NOFORK -> script_of st c (tf_of t) 0 u = s ->
  plain_script w (c_timeout c) t s ->
  strlen (result_line (script_result st (c_name c) (tf_of t) 0 0 s)) < INT_MAX ->
  (forall d, rtype (script_result st (c_name c) (tf_of t) 0 d s) = CK_PASS) ->
  test_at st w c (tf_of t) 0 u (passed (c_name c) (tf_of t, 0)).
Proof. intros [-> | ->] <- Hp Hl Hr; apply at_plain; try done; [by left | by right]. Qed.

(** Closes [plain_script] for calls that take no time. *)
Ltac sends_short := eval_Forall; repeat (constructor; [apply short_sendable; vm_compute; repeat split; discriminate |]); constructor.
Ltac quiet_script H := constructor; cbn [sc_setups sc_test sc_teardowns];
  [ repeat constructor | repeat constructor | repeat constructor | sends_short | sends_short | reflexivity | exact H ].

Lemma core_passes st ts : st = CK_FORK \/ st = CK_NOFORK -> (forall l, limit_of ts = Some l -> 0 < l) ->
  turn_ok passed st w (case_core ts) heap_ok (tf_of test_money_create, 0).
Proof.
  intros Hst Hl u Hu. cbn [fst snd]. split.
  - eapply test_passes; [exact Hst | by apply core_calls | quiet_script Hl | by vm_compute | by intros d].
  - intros _. rewrite core_calls by done. unfold heap_ok, top, heap_top in *.
    unfold memory_after, core_script, creating, mem_all, mem. cbn. fields. cbn. lia.
Qed.
Lemma limits_pass st ts : st = CK_FORK \/ st = CK_NOFORK -> (forall l, limit_of ts = Some l -> 0 < l) ->
  Forall (turn_ok passed st w (case_limits ts) heap_ok)
    [(tf_of (test_money_create_neg 46), 0); (tf_of (test_money_create_zero 56), 0)].
Proof.
  intros Hst Hl. rewrite !Forall_cons. split; [| split; [| done]]; intros u Hu; cbn [fst snd]; split.
  - eapply test_passes; [exact Hst | by apply neg_calls | quiet_script Hl | by vm_compute | by intros d].
  - intros _. by rewrite neg_calls.
  - eapply test_passes; [exact Hst | by apply zero_calls | quiet_script Hl | by vm_compute | by intros d].
  - intros _. rewrite zero_calls by done. unfold heap_ok, top, heap_top in *.
    unfold memory_after, zero_script, creating, mem_all, mem. cbn. fields. cbn. lia.
Qed.

(** *** The program succeeds *)

Lemma money_cases_ok st ts : st = CK_FORK \/ st = CK_NOFORK -> (forall l, limit_of ts = Some l -> 0 < l) ->
  Forall (fun s => Forall (case_ok passed heap_ok st w) (su_cases s))
    [mkSuiteDesc 1000 "Money" [case_core ts; case_limits ts]].
Proof.
  intros Hst Hl. assert (Hno : forall c, (forall b, c_fixtures c false b = []) -> fixtures_ok w heap_ok heap_ok c).
  { intros c Hc. constructor; intros u Hu; rewrite Hc; cbn; (split; [constructor | split; [constructor | by split]]). }
  apply Forall_singleton. apply Forall_cons. split; [| apply Forall_singleton]; exists heap_ok; (split; [apply Hno; by intros [] |]).
  - apply Forall_singleton. by apply core_passes.
  - by apply limits_pass.
Qed.
End Program.

(** Two cases with one test and two have at most three turns, whatever is selected. *)
Lemma two_cases_plan sname tcname inc exc d c1 c2 : length (turns (c_tests c1)) = 1%nat ->
  length (turns (c_tests c2)) = 2%nat ->
  (length (plan sname tcname inc exc [mkSuiteDesc d "Money" [c1; c2]]) <= 3)%nat.
Proof.
  intros H1 H2. unfold plan, cases_plan, case_plan. cbn [fmap list_fmap concat su_cases].
  destruct (suite_chosen sname tcname _), (case_chosen tcname inc exc c1), (case_chosen tcname inc exc c2);
    cbn [concat]; rewrite ?length_app, ?length_fmap, ?H1, ?H2; cbn; lia.
Qed.

(** All three pass, and the normal mode shows no passes. *)
Lemma money_text d cs new : length new = 3%nat -> Forall (fun tr => rtype tr = CK_PASS) new ->
  run_text None None CK_NORMAL [mkSuiteDesc d "Money" cs] new =
    "Running suite(s): Money" +:+ nl +:+ "100%: Checks: 3, Failures: 0, Errors: 0" +:+ nl.
Proof.
  intros Hn Hp. destruct new as [| t1 [| t2 [| t3 [| t4 new]]]]; try discriminate Hn.
  rewrite !Forall_cons in Hp. destruct Hp as (H1 & H2 & H3 & _), t1, t2, t3. simpl in H1, H2, H3. subst.
  vm_compute. reflexivity.
Qed.

(** C21: the tutorial ends well. In a new process, with an environment that gives tests any time at
    all, messages room and whatever selection, mode and logs, on any platform on which calls
    succeed, and with any malloc that has memory, the test program of the example, its library
    in the last version, runs and exits with success. With no variable set that selects tests or names
    a log, it prints the name of its suite and a summary of three checks passed. *)
Theorem check_money_succeeds {plat : Platform} {plat_ok : PlatformOK} can_allocate w ts :
  (forall u, can_allocate u = true) -> quiescent w -> models w image0 -> heap_ok (p_umem (w_proc w)) ->
  64 <= msg_limit w -> num_tests_run (the_statics w) <= 1000 ->
  initial_timeout (env (w_proc w)) = Some ts -> (forall l, limit_of ts = Some l -> 0 < l) ->
  (forall x t, env (w_proc w) !! x = Some t -> strlen t <= INT_MAX) ->
  exists w', check_money (money_suite (lib := money_6 can_allocate)) w = (Ret EXIT_SUCCESS, w') /\
    (Forall (fun x => env (w_proc w) !! x = None) ["CK_RUN_SUITE"; "CK_RUN_CASE"; "CK_INCLUDE_TAGS"; "CK_EXCLUDE_TAGS";
       "CK_LOG_FILE_NAME"; "CK_XML_LOG_FILE_NAME"; "CK_TAP_LOG_FILE_NAME"] ->
     out (w_os w') = out (w_os w) +:+ "Running suite(s): Money" +:+ nl +:+ "100%: Checks: 3, Failures: 0, Errors: 0" +:+ nl).
Proof.
  intros Hmal Hq Hm Hu Hlim Htap Hts Hl Henv.
  destruct (two_cases_built (env (w_proc w)) ts (setup (lib := money_6 can_allocate)) (teardown (lib := money_6 can_allocate))
    (test_money_create (lib := money_6 can_allocate)) (test_money_create_neg (lib := money_6 can_allocate) 46)
    (test_money_create_zero (lib := money_6 can_allocate) 56) Hts) as (i & Ei & Hr & Ho & Hp).
  change (program_of i [1000] = [mkSuiteDesc 1000 "Money" [case_core can_allocate ts; case_limits can_allocate ts]]) in Hp.
  set (st := fork_of (env (w_proc w)) CK_FORK_GETENV).
  assert (Hst : st = CK_FORK \/ st = CK_NOFORK).
  { unfold st, fork_of. rewrite decide_True by done. destruct (env (w_proc w) !! "CK_FORK"); [case_decide |]; auto. }
  pose proof (fun a b c d => two_cases_plan a b c d 1000 (case_core can_allocate ts) (case_limits can_allocate ts) eq_refl eq_refl) as Hlen.
  destruct (main_run passed heap_ok st w (with_runner (money_suite (lib := money_6 can_allocate))) image0 i 1005 money_runner CK_NORMAL)
    as (w' & new & s & E & Hs & _ & Hf & _ & _ & Hx); try done.
  - apply Henv.
  - apply Henv.
  - change (ar_suites money_runner) with [1000]. rewrite Hp. by apply (money_cases_ok can_allocate Hmal (handling w)).
  - change (ar_suites money_runner) with [1000]. rewrite Hp. etrans; [apply inj_le, Hlen | done].
  - change (ar_suites money_runner) with [1000]. rewrite Hp. cbn [length].
    match goal with |- context [plan ?a ?b ?c ?d _] => pose proof (Hlen a b c d) end. unfold INT_MAX. lia.
  - change (ar_suites money_runner) with [1000]. rewrite Hp. apply reportable_100.
    match goal with |- context [plan ?a ?b ?c ?d _] => pose proof (Hlen a b c d) end. lia.
  - assert (Hall : Forall (fun tr => rtype tr = CK_PASS) new) by (clear -Hf; induction Hf; by constructor).
    exists w'. unfold check_money. rewrite E. split; [do 2 f_equal; by apply Hs |].
    rewrite !Forall_cons. intros (V1 & V2 & V3 & V4 & V5 & V6 & V7 & _).
    change (ar_suites money_runner) with [1000] in Hf, Hx. rewrite Hp in Hf, Hx. rewrite V1, V2, V3, V4 in Hf. rewrite V1, V2 in Hx.
    rewrite Hx by (unfold own_files, name_or_env; cbn; by rewrite V5, V6, V7).
    change (mode_in w CK_NORMAL) with CK_NORMAL. rewrite money_text; [done | | done].
    by rewrite <- (Forall2_length _ _ _ Hf).
Qed.

(** ** Witness, and the steps of the tutorial *)

#[local] Existing Instance Demo.plat.
#[local] Existing Instance Demo.plat_ok.

Definition memory_left (u : umem) : bool := true.

Lemma check_money_succeeds_witness :
  exists w', check_money (money_suite (lib := money_6 memory_left)) w0 = (Ret EXIT_SUCCESS, w') /\
    out (w_os w') = "Running suite(s): Money" +:+ nl +:+ "100%: Checks: 3, Failures: 0, Errors: 0" +:+ nl.
Proof.
  destruct (check_money_succeeds memory_left w0 (mkTimespec 4 0)) as (w' & E & Hx).
  - reflexivity.
  - exact w0_quiescent.
  - exact w0_models.
  - vm_compute. discriminate.
  - vm_compute. discriminate.
  - vm_compute. discriminate.
  - vm_compute. reflexivity.
  - intros l H. vm_compute in H. injection H as <-. reflexivity.
  - intros x t H. discriminate H.
  - exists w'. split; [exact E | apply Hx]. repeat constructor.
Defined.

(** What the program prints, and its exit status, on the platform of Demo. *)
Definition prints (suite : client) (status : Z) (report : string) : Prop :=
  let '(o, w) := check_money suite w0 in o = Ret status /\
  out (w_os w) = "Running suite(s): Money" +:+ nl +:+ report.

(** The stubs fail the first test at the first assertion. *)
Example tutorial_stubs : prints (money_suite_3 (lib := money_3)) EXIT_FAILURE (
  "0%: Checks: 1, Failures: 1, Errors: 0" +:+ nl +:+
  "check_money.c:30:F:Core:test_money_create:0: Assertion 'money_amount(m) == 5' failed: money_amount(m) == 0, 5 == 5" +:+ nl).
Proof. vm_compute. split; reflexivity. Qed.
(** money_amount without money_create ends the child by a signal. *)
Example tutorial_amount : prints (money_suite_3 (lib := money_4)) EXIT_FAILURE (
  "0%: Checks: 1, Failures: 0, Errors: 1" +:+ nl +:+
  "check_money.c:25:E:Core:test_money_create:0: (after this point) Received signal 11 (Segmentation fault)" +:+ nl).
Proof. vm_compute. split; reflexivity. Qed.
Example tutorial_create : prints (money_suite_3 (lib := money_5 memory_left)) EXIT_SUCCESS (
  "100%: Checks: 1, Failures: 0, Errors: 0" +:+ nl).
Proof. vm_compute. split; reflexivity. Qed.
(** A negative amount is not refused yet. *)
Example tutorial_limits : prints (money_suite_6 (lib := money_5 memory_left)) EXIT_FAILURE (
  "66%: Checks: 3, Failures: 1, Errors: 0" +:+ nl +:+
  "check_money.c:40:F:Limits:test_money_create_neg:0: NULL should be returned on attempt to create with a negative amount" +:+ nl).
Proof. vm_compute. split; reflexivity. Qed.
Example tutorial_refused : prints (money_suite_6 (lib := money_6 memory_left)) EXIT_SUCCESS (
  "100%: Checks: 3, Failures: 0, Errors: 0" +:+ nl).
Proof. vm_compute. split; reflexivity. Qed.
(** Without memory the tests use NULL. *)
Example tutorial_no_memory : prints (money_suite (lib := money_6 (fun _ => false))) EXIT_FAILURE (
  "33%: Checks: 3, Failures: 0, Errors: 2" +:+ nl +:+
  "check_money.c:39:E:Core:test_money_create:0: (after this point) Received signal 11 (Segmentation fault)" +:+ nl +:+
  "check_money.c:56:E:Limits:test_money_create_zero:0: (after this point) Received signal 11 (Segmentation fault)" +:+ nl).
Proof. vm_compute. split; reflexivity. Qed.
