(* ===== verification/MsgProps.v ===== *)
(** * Properties of messaging *)
From S2P Require Import Prelude Error Types CList Pack PackSpec World Str Result Msg MsgSpec.
From S2P Require Import Core Print Log Run Demo.

Section Nesting.
Context {plat : Platform} {plat_ok : PlatformOK}.

(** The life of the channels: [true] sets messaging up, [false] tears it down. *)
Fixpoint run_ops (ops : list bool) : M world unit :=
  match ops with
  | [] => mret tt
  | o :: ops => (if (o : bool) then setup_messaging else teardown_messaging) ;; run_ops ops
  end.

(** The reference: a depth between 0 and 2. *)
Definition nest_one (o : bool) (d : nat) : option nat :=
  if o then (if decide (d < 2)%nat then Some (1 + d)%nat else None)
  else (if decide (d = 0)%nat then None else Some (d - 1)%nat).
Fixpoint nest (ops : list bool) (d : nat) : option nat :=
  match ops with [] => Some d | o :: ops => d' ← nest_one o d; nest ops d' end.

(** C17: messaging nests to depth two: any sequence of setups and teardowns that keeps the
    depth between 0 and 2 succeeds, with a channel of its own for each level and no file left
    in the temporary directory, and one that leaves those bounds stops the process with
    status 2 at that point. *)
Theorem messaging_nests ops : forall w d, nested w d ->
  match nest ops d with
  | Some d' => exists w', run_ops ops w = (Ret tt, w') /\ nested w' d' /\
      tmp_names (w_os w') = tmp_names (w_os w)
  | None => exists w', run_ops ops w = (Exit 2, w')
  end.
Proof.
  induction ops as [| o ops IH]; intros w d Hw; cbn [nest run_ops]; [by exists w |].
  destruct o; cbn [nest_one].
  - case_decide as Hd; cbn [mbind option_bind].
    + destruct (setup_nested w d Hw Hd) as (w1 & E & H1 & Et). rewrite (bind_ret _ _ _ _ _ E).
      specialize (IH w1 _ H1). rewrite <- Et. exact IH.
    + destruct Hw as [_ [_ _ Hne] Hl _ _]. destruct (the_pipes w) as [[f1 |] n1 [f2 |] n2] eqn:Ep;
        cbn in *; subst; try (simpl in Hd; lia); try (by specialize (Hne eq_refl)).
      eexists. apply bind_exit. unfold setup_messaging, setup_pipe.
      rewrite (bind_ret _ _ _ _ _ (gets_run _ _)), Ep. reflexivity.
  - case_decide as Hd; cbn [mbind option_bind].
    + destruct Hw as [_ _ Hl _ _]. destruct (the_pipes w) as [[f1 |] n1 [f2 |] n2] eqn:Ep;
        cbn in *; try lia.
      eexists. apply bind_exit. unfold teardown_messaging, teardown_pipe.
      rewrite (bind_ret _ _ _ _ _ (gets_run _ _)), Ep. reflexivity.
    + destruct d as [| d]; [done |]. destruct (teardown_nested w d Hw) as (w1 & E & H1 & Et).
      rewrite (bind_ret _ _ _ _ _ E). replace (S d - 1)%nat with d by lia.
      specialize (IH w1 _ H1). rewrite <- Et. exact IH.
Qed.

(** What a process sends, as calls. *)
Definition send (m : CheckMsg) : M world unit :=
  match m with
  | ctx_msg c => send_ctx_info (ctx c)
  | loc_msg l => send_loc_info (default "" (file l)) (line l)
  | fail_msg f => send_failure_info (default "" (msg f))
  | duration_msg d => send_duration_info (duration d)
  end.
Fixpoint send_all (ms : list CheckMsg) : M world unit :=
  match ms with [] => mret tt | m :: ms => send m ;; send_all ms end.
(** A message made by one of those calls: its text is not NULL. *)
Definition texted (m : CheckMsg) : Prop :=
  match m with loc_msg l => is_Some (file l) | fail_msg f => is_Some (msg f) | _ => True end.

Lemma send_run w fp ms m : channel w fp ms -> sendable w m -> texted m ->
  send m w = (Ret tt, put_stream fp (ms ++ [m]) w).
Proof.
  intros Hc Hs Ht. destruct m as [[c] | [f] | [l f] | [d]]; cbn in *.
  - by apply send_ctx_run.
  - destruct Ht as [t ->]. by apply send_failure_run.
  - destruct Ht as [t ->]. by apply send_loc_run.
  - by apply send_duration_run.
Qed.

Lemma send_all_run ms : forall w fp ms0, channel w fp ms0 -> Forall (sendable w) ms ->
  Forall texted ms -> send_all ms w = (Ret tt, put_stream fp (ms0 ++ ms) w).
Proof.
  induction ms as [| m ms IH]; intros w fp ms0 Hc Hs Ht; cbn [send_all].
  - by rewrite app_nil_r, put_stream_id.
  - apply Forall_cons in Hs as [Hs1 Hs], Ht as [Ht1 Ht].
    rewrite (bind_ret _ _ _ _ _ (send_run w fp ms0 m Hc Hs1 Ht1)).
    rewrite (IH _ fp (ms0 ++ [m])); [| by eapply put_stream_channel | done | done].
    by rewrite put_stream_twice, <- app_assoc.
Qed.

(** C16: what is sent is received: after any sequence of messages, however long, the receiver
    gets the result that the fold of those messages determines, and both sides go on with a
    new, empty channel; nothing but the channel has changed. *)
Theorem messages_received w fp ms r b :
  messaging w -> channel w fp [] -> Forall (sendable w) ms -> Forall texted ms ->
  rcv_result ms = Some r ->
  exists w', (send_all ms ;; receive_test_result b) w = (Ret (Some (result_of r b)), w') /\
    messaging w' /\ channel w' (next_file (w_os w)) [] /\
    the_heap w' = the_heap w /\ the_statics w' = the_statics w /\ tmp_names (w_os w') = tmp_names (w_os w).
Proof.
  intros Hm Hc Hs Ht Hr. rewrite (bind_ret _ _ _ _ _ (send_all_run ms w fp [] Hc Hs Ht)).
  assert (Hc1 : channel (put_stream fp ms w) fp ms) by by eapply put_stream_channel.
  assert (Hm1 : messaging (put_stream fp ms w)) by (destruct Hm; by constructor).
  cbn [app]. rewrite (receive_run (put_stream fp ms w) fp ms r b Hm1 Hc1); [| done | done].
  destruct (reset_channel_channel _ _ _ Hm1 Hc1) as [Hc2 Hm2].
  eexists. split; [reflexivity |]. split; [exact Hm2 |]. split; [exact Hc2 | done].
Qed.
End Nesting.

(** ** Witnesses *)

#[local] Existing Instance Demo.plat.
#[local] Existing Instance Demo.plat_ok.

Lemma w0_nested : nested w0 0.
Proof. constructor; try done; constructor. Qed.

Lemma messaging_nests_witness :
  (exists w', run_ops [true; true; false; false] w0 = (Ret tt, w') /\ nested w' 0 /\
     tmp_names (w_os w') = []) /\
  (exists w', run_ops [true; true; true] w0 = (Exit 2, w')).
Proof.
  split; [apply (messaging_nests [true; true; false; false] w0 0) |
          apply (messaging_nests [true; true; true] w0 0)]; exact w0_nested.
Defined.

(** A failed test, as its messages. *)
Definition ms_fail : list CheckMsg :=
  [ctx_msg (mkCtxMsg CK_CTX_TEST); loc_msg (mkLocMsg 13 (Some "a.c"));
   loc_msg (mkLocMsg 15 (Some "a.c")); fail_msg (mkFailMsg (Some "1 == 2"))].

Lemma messages_received_witness :
  exists w', (send_all ms_fail ;; receive_test_result false) w_fork =
      (Ret (Some (mkTestResult CK_TEST_RESULT_INVALID CK_CTX_TEST (Some "a.c") 15 None (-1) None None
         (Some "1 == 2"))), w') /\ channel w' 4 [].
Proof.
  destruct (messages_received w_fork 3 ms_fail
    (mkRcvMsg CK_CTX_TEST CK_CTX_TEST None (-1) (Some "a.c") 15 (Some "1 == 2") (-1)) false)
    as (w' & E & _ & Hc & _).
  - constructor; [exact I | by constructor | vm_compute; lia | reflexivity | reflexivity].
  - constructor; reflexivity.
  - repeat constructor; vm_compute; discriminate.
  - repeat constructor; by eexists.
  - reflexivity.
  - exists w'. split; [exact E | exact Hc].
Defined.
