(* ===== verification/Snprintf.v ===== *)
(** * The replacement of snprintf (src/lib/snprintf.c)

    The C99 formatter compiled where the C library has none: the writer [OUTCHAR], the
    conversions of strings, integers and floating-point numbers, and the state machine that
    reads the format.  [long double] is the x87 format (a mantissa of 64 bits), with the
    arithmetic of SpecFloat; intmax_t, long, size_t and ptrdiff_t have 64 bits.  A signed
    operation that overflows, an argument of another type and an access outside an array are
    undefined: [Fault]. *)
From Stdlib Require Import Floats.SpecFloat.
From S2P Require Import Prelude.

Abbreviation u16 := (wrap_u 16).
Abbreviation s16 := (wrap_s 16).
Abbreviation s64 := (wrap_s 64).

Definition MAX_CONVERT_LENGTH : nat := 43.
Definition UINTMAX_MAX : Z := 18446744073709551615.
Definition INTMAX_MIN : Z := -9223372036854775808.
Definition EOVERFLOW : Z := 75.
Definition ERANGE : Z := 34.
Definition NUL : ascii := "000".

(** Format read states *)
Inductive print_s : Set :=
| PRINT_S_DEFAULT
| PRINT_S_FLAGS
| PRINT_S_WIDTH
| PRINT_S_DOT
| PRINT_S_PRECISION
| PRINT_S_MOD
| PRINT_S_CONV.

(** Format flags: one bit each *)
Definition PRINT_F_MINUS : Z := Z.shiftl 1 0.
Definition PRINT_F_PLUS : Z := Z.shiftl 1 1.
Definition PRINT_F_SPACE : Z := Z.shiftl 1 2.
Definition PRINT_F_NUM : Z := Z.shiftl 1 3.
Definition PRINT_F_ZERO : Z := Z.shiftl 1 4.
Definition PRINT_F_QUOTE : Z := Z.shiftl 1 5.
Definition PRINT_F_UP : Z := Z.shiftl 1 6.
Definition PRINT_F_UNSIGNED : Z := Z.shiftl 1 7.
Definition PRINT_F_TYPE_G : Z := Z.shiftl 1 8.
Definition PRINT_F_TYPE_E : Z := Z.shiftl 1 9.

(** [flags & f], as a condition *)
Definition has (flags f : Z) : bool := negb (Z.land flags f =? 0).

(** Conversion flags; none is 0 in the code. *)
Inductive print_c : Set :=
| PRINT_C_NONE
| PRINT_C_CHAR
| PRINT_C_SHORT
| PRINT_C_LONG
| PRINT_C_LDOUBLE
| PRINT_C_SIZE
| PRINT_C_PTRDIFF
| PRINT_C_INTMAX.

Definition CHARTOINT (ch : ascii) : Z := byte_Z ch - 48.
Definition ISDIGIT (ch : ascii) : bool := (48 <=? byte_Z ch) && (byte_Z ch <=? 57).

(** What localeconv() tells about numbers; None is NULL, and a C library without it. *)
Class Lconv := {
  decimal_point : option string;
  thousands_sep : option string;
}.

(** ** The state of a call

    The array behind [str] (None: NULL), the number of characters so far, the objects that
    pointer arguments point to, the arguments not yet fetched, and errno. *)
Inductive obj : Set :=
| OBytes (b : bytes)          (* an array of char *)
| OCell (w : Z) (z : Z).      (* an integer of [w] bits *)

Inductive arg : Set :=
| A_int (z : Z)               (* int and unsigned int *)
| A_long (z : Z)              (* the types of 64 bits *)
| A_double (f : spec_float)
| A_ldouble (f : spec_float)
| A_ptr (p : Z).              (* an address; 0 is NULL *)

Record pr : Set := mkPr {
  str : option bytes;
  len : Z;
  mem : gmap Z obj;
  args : list arg;
  errno : Z;
}.

Definition put_str b (s : pr) := mkPr b (len s) (mem s) (args s) (errno s).
Definition put_len l (s : pr) := mkPr (str s) l (mem s) (args s) (errno s).
Definition put_mem m (s : pr) := mkPr (str s) (len s) m (args s) (errno s).
Definition put_args a (s : pr) := mkPr (str s) (len s) (mem s) a (errno s).
Definition put_errno e (s : pr) := mkPr (str s) (len s) (mem s) (args s) e.

(** [str[i] = ch] *)
Definition store (i : Z) (ch : ascii) : M pr unit :=
  b ← gets str; b ← deref b;
  if decide (0 <= i < Z.of_nat (length b)) then
    modify (put_str (Some (<[Z.to_nat i := ch]> b)))
  else fault.

(** A signed operation whose result is not an [int], or not an [intmax_t]. *)
Definition as_int (z : Z) : M pr Z :=
  if decide (INT_MIN <= z <= INT_MAX) then mret z else fault.
Definition as_intmax (z : Z) : M pr Z :=
  if decide (INTMAX_MIN <= z < - INTMAX_MIN) then mret z else fault.

(** ** va_arg *)

Definition va_next : M pr arg :=
  a ← gets args;
  match a with
  | [] => fault
  | x :: a => modify (put_args a) ;; mret x
  end.
Definition va_int : M pr Z :=
  a ← va_next; match a with A_int z => mret (s32 z) | _ => fault end.
Definition va_uint : M pr Z :=
  a ← va_next; match a with A_int z => mret (u32 z) | _ => fault end.
Definition va_long : M pr Z :=
  a ← va_next; match a with A_long z => mret (s64 z) | _ => fault end.
Definition va_ulong : M pr Z :=
  a ← va_next; match a with A_long z => mret (u64 z) | _ => fault end.
Definition va_double : M pr spec_float :=
  a ← va_next; match a with A_double f => mret f | _ => fault end.
Definition va_ldouble : M pr spec_float :=
  a ← va_next; match a with A_ldouble f => mret f | _ => fault end.
Definition va_ptr : M pr Z :=
  a ← va_next; match a with A_ptr p => mret p | _ => fault end.

(** The characters a [char *] points to; NULL is None. *)
Definition chars_at (p : Z) : M pr (option bytes) :=
  if decide (p = 0) then mret None
  else m ← gets mem;
       match m !! p with Some (OBytes b) => mret (Some b) | _ => fault end.

(** ** Digits *)

Definition digit (caps : bool) (d : Z) : ascii :=
  default NUL (String.get (Z.to_nat d)
    (if caps then "0123456789ABCDEF"%string else "0123456789abcdef"%string)).

(** The loop of convert, after which [more] cells of [buf] are left: the digits in reverse
    order. *)
Fixpoint convert_loop (more : nat) (value base : Z) (caps : bool) : bytes :=
  let d := digit caps (value mod base) in
  let value := value / base in
  match more with
  | S more => if decide (value = 0) then [d] else d :: convert_loop more value base caps
  | O => [d]
  end.

(** What convert stores from [buf[0]] on; it returns the number of them. *)
Definition convert (value : Z) (size : nat) (base : Z) (caps : bool) : bytes :=
  convert_loop (size - 1) value base caps.

(** ** long double *)

Abbreviation ldouble := spec_float.
Definition ld_of_uint (z : Z) : ldouble := binary_normalize 64 16384 z 0 false.
(** The conversion of a double, which is exact. *)
Definition ld_of_double (x : spec_float) : ldouble :=
  match x with
  | S754_finite s m e => binary_normalize 64 16384 (if (s : bool) then Zneg m else Zpos m) e s
  | _ => x
  end.
Definition ld_add : ldouble -> ldouble -> ldouble := SFadd 64 16384.
Definition ld_sub : ldouble -> ldouble -> ldouble := SFsub 64 16384.
Definition ld_mul : ldouble -> ldouble -> ldouble := SFmul 64 16384.
Definition ld_div : ldouble -> ldouble -> ldouble := SFdiv 64 16384.
Definition ld_0 : ldouble := S754_zero false.
Definition ld_1 : ldouble := Eval vm_compute in ld_of_uint 1.
Definition ld_10 : ldouble := Eval vm_compute in ld_of_uint 10.
Definition ld_half : ldouble := Eval vm_compute in ld_div (ld_of_uint 1) (ld_of_uint 2).

Definition ISNAN (x : ldouble) : bool := negb (SFeqb x x).
Definition ISINF (x : ldouble) : bool := negb (SFeqb x ld_0) && SFeqb (ld_add x x) x.

(** Conversion to uintmax_t: the fraction is dropped; None where it is undefined. *)
Definition uint_of_ld (x : ldouble) : option Z :=
  match x with
  | S754_zero _ => Some 0
  | S754_finite s m e =>
    let v := if decide (0 <= e) then Zpos m * 2 ^ e else Zpos m / 2 ^ (- e) in
    let v := if (s : bool) then - v else v in
    if decide (0 <= v <= UINTMAX_MAX) then Some v else None
  | _ => None
  end.

Fixpoint scale (f : ldouble -> ldouble) (n : nat) (x : ldouble) : ldouble :=
  match n with O => x | S n => scale f n (f x) end.

Definition mypow10 (exponent : Z) : ldouble :=
  let result := scale (fun r => ld_mul r ld_10) (Z.to_nat exponent) ld_1 in
  scale (fun r => ld_div r ld_10) (Z.to_nat (- exponent)) result.

Definition cast (value : ldouble) : option Z :=
  if SFleb (ld_of_uint UINTMAX_MAX) value then Some UINTMAX_MAX
  else
    result ← uint_of_ld value;
    Some (if SFleb (ld_of_uint result) value then result else u64 (result - 1)).

Definition myround (value : ldouble) : option Z :=
  intpart ← cast value;
  Some (if SFltb (ld_sub value (ld_of_uint intpart)) ld_half then intpart else u64 (intpart + 1)).

(** The two loops of getexponent: [exponent] goes down from 0 to -99 at most, then up to 99 at
    most, so 99 and 198 turns are enough. *)
Fixpoint getexponent_neg (fuel : nat) (tmp : ldouble) (exponent : Z) : ldouble * Z :=
  match fuel with
  | O => (tmp, exponent)
  | S fuel =>
    if SFltb tmp ld_1 && SFltb ld_0 tmp then
      let exponent := exponent - 1 in
      if decide (-99 < exponent) then getexponent_neg fuel (ld_mul tmp ld_10) exponent
      else (tmp, exponent)
    else (tmp, exponent)
  end.
Fixpoint getexponent_pos (fuel : nat) (tmp : ldouble) (exponent : Z) : ldouble * Z :=
  match fuel with
  | O => (tmp, exponent)
  | S fuel =>
    if SFleb ld_10 tmp then
      let exponent := exponent + 1 in
      if decide (exponent < 99) then getexponent_pos fuel (ld_div tmp ld_10) exponent
      else (tmp, exponent)
    else (tmp, exponent)
  end.

Definition getexponent (value : ldouble) : Z :=
  let tmp := if SFleb ld_0 value then value else SFopp value in
  let '(tmp, exponent) := getexponent_neg 99 tmp 0 in
  snd (getexponent_pos 198 tmp exponent).

Section Snprintf.
Context {lc : Lconv} (size : Z).

(** The macro OUTCHAR(str, len, size, ch) *)
Definition OUTCHAR (ch : ascii) : M pr unit :=
  l ← gets len;
  (if decide (u64 (l + 1) < size) then store l ch else mret tt) ;;
  modify (put_len (u64 (l + 1))).

(** The loops that emit one character [n] times. *)
Fixpoint out_repeat (n : nat) (ch : ascii) : M pr unit :=
  match n with
  | O => mret tt
  | S n => OUTCHAR ch ;; out_repeat n ch
  end.
(** [while (padlen > 0)] and [while (padlen < 0)] *)
Definition out_leading (padlen : Z) (ch : ascii) : M pr unit :=
  out_repeat (Z.to_nat padlen) ch.
Definition out_trailing (padlen : Z) (ch : ascii) : M pr unit :=
  out_repeat (Z.to_nat (- padlen)) ch.

Fixpoint out_chars (t : bytes) : M pr unit :=
  match t with
  | [] => mret tt
  | c :: t => OUTCHAR c ;; out_chars t
  end.

Definition out_opt (c : option ascii) : M pr unit :=
  match c with Some c => OUTCHAR c | None => mret tt end.

Definition printsep : M pr unit :=
  match thousands_sep with
  | Some sep => out_chars (bytes_of sep)
  | None => OUTCHAR ","
  end.

Definition getnumsep (digits : Z) : M pr Z :=
  let separators := (digits - (if decide (Z.rem digits 3 = 0) then 1 else 0)) ÷ 3 in
  match thousands_sep with
  | Some sep => as_int (separators * strlen sep)
  | None => mret separators
  end.

(** ** fmtstr *)

(** [for (strln = 0; value[strln] != 0 && (noprecision || strln < precision); strln++)] *)
Fixpoint fmtstr_len (value : bytes) (strln precision : Z) : M pr Z :=
  match value with
  | [] => fault
  | c :: value =>
    if decide (c <> NUL /\ (precision = -1 \/ strln < precision)) then
      strln ← as_int (strln + 1); fmtstr_len value strln precision
    else mret strln
  end.

(** [while ( *value != 0 && (noprecision || precision-- > 0))] *)
Fixpoint fmtstr_put (value : bytes) (noprecision : bool) (precision : Z) : M pr unit :=
  match value with
  | [] => fault
  | c :: value =>
    if decide (c <> NUL /\ (noprecision = true \/ 0 < precision)) then
      OUTCHAR c ;;
      fmtstr_put value noprecision (if noprecision then precision else precision - 1)
    else mret tt
  end.

Definition fmtstr (value : option bytes) (width precision flags : Z) : M pr unit :=
  let value := default (bytes_of "(null)" ++ [NUL]) value in
  strln ← fmtstr_len value 0 precision;
  let padlen := width - strln in
  let padlen := if decide (padlen < 0) then 0 else padlen in
  let padlen := if has flags PRINT_F_MINUS then - padlen else padlen in
  out_leading padlen " " ;;
  fmtstr_put value (bool_decide (precision = -1)) precision ;;
  out_trailing padlen " ".

(** ** fmtint *)

Definition sign_char (flags : Z) : option ascii :=
  if has flags PRINT_F_PLUS then Some "+"%char
  else if has flags PRINT_F_SPACE then Some " "%char else None.

(** The digits from the first on, [rest] being those still to come. *)
Fixpoint put_digits (ds : bytes) (separators : Z) : M pr unit :=
  match ds with
  | [] => mret tt
  | d :: ds =>
    OUTCHAR d ;;
    let pos := Z.of_nat (length ds) in
    when (bool_decide (0 < separators) && bool_decide (0 < pos) && bool_decide (pos mod 3 = 0))
      printsep ;;
    put_digits ds separators
  end.

Definition fmtint (value base width precision flags : Z) : M pr unit :=
  let noprecision := bool_decide (precision = -1) in
  '(uvalue, sign) ←
    (if has flags PRINT_F_UNSIGNED then mret (u64 value, None)
     else if decide (0 <= value) then mret (value, sign_char flags)
     else uvalue ← as_intmax (- value); mret (uvalue, Some "-"%char));
  let iconvert := convert uvalue MAX_CONVERT_LENGTH base (has flags PRINT_F_UP) in
  let pos := Z.of_nat (length iconvert) in
  let num := has flags PRINT_F_NUM && bool_decide (uvalue <> 0) in
  let precision :=
    if num && bool_decide (base = 8) && bool_decide (precision <= pos) then pos + 1
    else precision in
  let hexprefix :=
    if num && bool_decide (base = 16) then
      Some (if has flags PRINT_F_UP then "X"%char else "x"%char)
    else None in
  separators ← (if has flags PRINT_F_QUOTE then getnumsep pos else mret 0);
  let zpadlen := precision - pos - separators in
  let spadlen := width - separators - (if decide (pos <= precision) then precision else pos)
                 - (match sign with Some _ => 1 | None => 0 end)
                 - (match hexprefix with Some _ => 2 | None => 0 end) in
  let zpadlen := if decide (zpadlen < 0) then 0 else zpadlen in
  let spadlen := if decide (spadlen < 0) then 0 else spadlen in
  let '(spadlen, zpadlen) :=
    if has flags PRINT_F_MINUS then (- spadlen, zpadlen)
    else if has flags PRINT_F_ZERO && noprecision then (0, zpadlen + spadlen)
    else (spadlen, zpadlen) in
  out_leading spadlen " " ;;
  out_opt sign ;;
  match hexprefix with
  | Some x => OUTCHAR "0" ;; OUTCHAR x
  | None => mret tt
  end ;;
  out_leading zpadlen "0" ;;
  put_digits (rev iconvert) separators ;;
  out_trailing spadlen " ".

(** ** fmtflt *)

(** How the code splits a value: the integer part, the fraction as an integer, the exponent,
    the number of fractional digits, and whether an exponent is printed. *)
Inductive flt_split : Set :=
| Overflowed
| Split (intpart fracpart exponent precision : Z) (estyle : bool).

(** From the label [again] on; a second turn is made only with [estyle] reset. *)
Fixpoint flt_again (fuel : nat) (fvalue : ldouble) (type_g estyle : bool)
    (precision exponent : Z) : option flt_split :=
  let precision := if decide (19 < precision) then 19 else precision in
  let ufvalue := if SFleb ld_0 fvalue then fvalue else SFopp fvalue in
  let ufvalue := if estyle then ld_div ufvalue (mypow10 exponent) else ufvalue in
  intpart ← cast ufvalue;
  if decide (intpart = UINTMAX_MAX) then Some Overflowed
  else
    mask ← uint_of_ld (mypow10 precision);
    fracpart ← myround (ld_mul (ld_of_uint mask) (ld_sub ufvalue (ld_of_uint intpart)));
    let '(intpart, fracpart, exponent) :=
      if decide (mask <= fracpart) then
        let intpart := u64 (intpart + 1) in
        if estyle && bool_decide (intpart = 10) then (1, 0, exponent + 1)
        else (intpart, 0, exponent)
      else (intpart, fracpart, exponent) in
    if type_g && estyle && bool_decide (exponent < precision + 1) && bool_decide (-4 <= exponent)
    then match fuel with
         | S fuel => flt_again fuel fvalue type_g false (precision - exponent) exponent
         | O => None
         end
    else Some (Split intpart fracpart exponent precision estyle).

(** The exponent's characters, in reverse order. *)
Definition flt_econvert (exponent flags : Z) : bytes :=
  let '(exponent, esign) :=
    if decide (exponent < 0) then (- exponent, "-"%char) else (exponent, "+"%char) in
  let econvert := convert exponent 2 10 false in
  (if decide (length econvert = 1%nat) then econvert ++ ["0"%char] else econvert) ++
  [esign; if has flags PRINT_F_UP then "E"%char else "e"%char].

Fixpoint count_zeros (fconvert : bytes) : nat :=
  match fconvert with
  | c :: fconvert => if decide (c = "0"%char) then S (count_zeros fconvert) else O
  | [] => O
  end.

(** Everything fmtflt emits for a split value; the digits are in reverse order. *)
Definition flt_emit (sign : option ascii) (omitzeros : bool) (intpart fracpart exponent : Z)
    (precision : Z) (estyle : bool) (width flags : Z) : M pr unit :=
  let econvert := if estyle then flt_econvert exponent flags else [] in
  let epos := Z.of_nat (length econvert) in
  let iconvert := convert intpart MAX_CONVERT_LENGTH 10 false in
  let ipos := Z.of_nat (length iconvert) in
  let fconvert := if decide (fracpart <> 0) then convert fracpart MAX_CONVERT_LENGTH 10 false
                  else [] in
  let fpos := Z.of_nat (length fconvert) in
  let leadfraczeros := precision - fpos in
  let '(omitcount, leadfraczeros) :=
    if (omitzeros : bool) then
      if decide (0 < fpos) then (Z.of_nat (count_zeros fconvert), leadfraczeros)
      else (precision, 0)
    else (0, leadfraczeros) in
  let precision := precision - omitcount in
  let emitpoint := bool_decide (0 < precision) || has flags PRINT_F_NUM in
  separators ← (if has flags PRINT_F_QUOTE then getnumsep ipos else mret 0);
  let padlen := width - ipos - epos - precision - separators - (if emitpoint then 1 else 0)
                - (match sign with Some _ => 1 | None => 0 end) in
  let padlen := if decide (padlen < 0) then 0 else padlen in
  '(padlen, sign) ←
    (if has flags PRINT_F_MINUS then mret (- padlen, sign)
     else if has flags PRINT_F_ZERO && bool_decide (0 < padlen) then
       out_opt sign ;; out_leading padlen "0" ;; mret (0, None)
     else mret (padlen, sign));
  out_leading padlen " " ;;
  out_opt sign ;;
  put_digits (rev iconvert) separators ;;
  when emitpoint
    (OUTCHAR (match decimal_point with Some (String c _) => c | _ => "."%char end)) ;;
  out_leading leadfraczeros "0" ;;
  out_chars (rev (drop (Z.to_nat omitcount) fconvert)) ;;
  out_chars (rev econvert) ;;
  out_trailing padlen " ".

(** The result is the flag [overflow]. *)
Definition fmtflt (fvalue : ldouble) (width precision flags : Z) : M pr bool :=
  let precision := if decide (precision = -1) then 6 else precision in
  let sign := if SFltb fvalue ld_0 then Some "-"%char else sign_char flags in
  let infnan :=
    if ISNAN fvalue then Some (if has flags PRINT_F_UP then "NAN" else "nan")%string
    else if ISINF fvalue then Some (if has flags PRINT_F_UP then "INF" else "inf")%string
    else None in
  match infnan with
  | Some t =>
    let t := match sign with Some c => c :: bytes_of t | None => bytes_of t end in
    fmtstr (Some (t ++ repeat NUL (MAX_CONVERT_LENGTH - length t))) width
           (Z.of_nat (length t)) flags ;;
    mret false
  | None =>
    let type_g := has flags PRINT_F_TYPE_G in
    let style_eg := has flags PRINT_F_TYPE_E || type_g in
    let precision := if type_g then precision - 1 else precision in
    let omitzeros := type_g && negb (has flags PRINT_F_NUM) in
    let exponent := if style_eg then getexponent fvalue else 0 in
    split ← deref (flt_again 1 fvalue type_g style_eg precision exponent);
    match split with
    | Overflowed => mret true
    | Split intpart fracpart exponent precision estyle =>
      flt_emit sign omitzeros intpart fracpart exponent precision estyle width flags ;;
      mret false
    end
  end.

(** ** The state machine of rpl_vsnprintf

    The local variables: [ch] is the character under inspection and [format] what follows it;
    None: the terminating NUL has been fetched. *)
Record regs : Set := mkRegs {
  state : print_s;
  ch : ascii;
  format : option string;
  cflags : print_c;
  flags : Z;
  width : Z;
  precision : Z;
}.

Definition to_state st (r : regs) :=
  mkRegs st (ch r) (format r) (cflags r) (flags r) (width r) (precision r).
Definition put_cflags c (r : regs) :=
  mkRegs (state r) (ch r) (format r) c (flags r) (width r) (precision r).
Definition put_flags f (r : regs) :=
  mkRegs (state r) (ch r) (format r) (cflags r) f (width r) (precision r).
Definition put_width w (r : regs) :=
  mkRegs (state r) (ch r) (format r) (cflags r) (flags r) w (precision r).
Definition put_precision p (r : regs) :=
  mkRegs (state r) (ch r) (format r) (cflags r) (flags r) (width r) p.

(** [ch = *format++] *)
Definition fetch (r : regs) : M pr regs :=
  let got c f := mkRegs (state r) c f (cflags r) (flags r) (width r) (precision r) in
  match format r with
  | Some (String c f) => mret (got c (Some f))
  | Some EmptyString => mret (got NUL None)
  | None => fault
  end.

(** How a turn of the loop ends: with the next one, or at the label [out] with [overflow]. *)
Inductive turn : Set :=
| Go (r : regs)
| Overflow.

Definition step_default (r : regs) : M pr turn :=
  r ← (if decide (ch r = "%"%char) then mret (to_state PRINT_S_FLAGS r)
       else OUTCHAR (ch r) ;; mret r);
  r ← fetch r; mret (Go r).

Definition flag_of (c : ascii) : option Z :=
  if decide (c = "-"%char) then Some PRINT_F_MINUS
  else if decide (c = "+"%char) then Some PRINT_F_PLUS
  else if decide (c = " "%char) then Some PRINT_F_SPACE
  else if decide (c = "#"%char) then Some PRINT_F_NUM
  else if decide (c = "0"%char) then Some PRINT_F_ZERO
  else if decide (c = "'"%char) then Some PRINT_F_QUOTE
  else None.

Definition step_flags (r : regs) : M pr turn :=
  match flag_of (ch r) with
  | Some f => r ← fetch (put_flags (Z.lor (flags r) f) r); mret (Go r)
  | None => mret (Go (to_state PRINT_S_WIDTH r))
  end.

Definition step_width (r : regs) : M pr turn :=
  if ISDIGIT (ch r) then
    let d := CHARTOINT (ch r) in
    if decide ((INT_MAX - d) / 10 < width r) then mret Overflow
    else r ← fetch (put_width (10 * width r + d) r); mret (Go r)
  else if decide (ch r = "*"%char) then
    w ← va_int;
    r ← (if decide (w < 0) then
           w ← as_int (- w);
           mret (put_width w (put_flags (Z.lor (flags r) PRINT_F_MINUS) r))
         else mret (put_width w r));
    r ← fetch r; mret (Go (to_state PRINT_S_DOT r))
  else mret (Go (to_state PRINT_S_DOT r)).

Definition step_dot (r : regs) : M pr turn :=
  if decide (ch r = "."%char) then
    r ← fetch (to_state PRINT_S_PRECISION r); mret (Go r)
  else mret (Go (to_state PRINT_S_MOD r)).

Definition step_precision (r : regs) : M pr turn :=
  let r := if decide (precision r = -1) then put_precision 0 r else r in
  if ISDIGIT (ch r) then
    let d := CHARTOINT (ch r) in
    if decide ((INT_MAX - d) / 10 < precision r) then mret Overflow
    else r ← fetch (put_precision (10 * precision r + d) r); mret (Go r)
  else if decide (ch r = "*"%char) then
    p ← va_int;
    r ← fetch (put_precision (if decide (p < 0) then -1 else p) r);
    mret (Go (to_state PRINT_S_MOD r))
  else mret (Go (to_state PRINT_S_MOD r)).

Definition modifier_of (c : ascii) : option print_c :=
  if decide (c = "L"%char) then Some PRINT_C_LDOUBLE
  else if decide (c = "j"%char) then Some PRINT_C_INTMAX
  else if decide (c = "t"%char) then Some PRINT_C_PTRDIFF
  else if decide (c = "z"%char) then Some PRINT_C_SIZE
  else if decide (c = "l"%char) then Some PRINT_C_LONG
  else None.

(** The case [l] fetches before it sets [cflags]; the others do the reverse. *)
Definition step_mod (r : regs) : M pr turn :=
  r ← (if decide (ch r = "h"%char) then
         r ← fetch r;
         if decide (ch r = "h"%char) then
           r ← fetch r; mret (put_cflags PRINT_C_CHAR r)
         else mret (put_cflags PRINT_C_SHORT r)
       else match modifier_of (ch r) with
            | Some c => fetch (put_cflags c r)
            | None => mret r
            end);
  mret (Go (to_state PRINT_S_CONV r)).

(** The argument of [d] and [i] *)
Definition conv_signed (c : print_c) : M pr Z :=
  match c with
  | PRINT_C_CHAR => v ← va_int; mret (s8 v)
  | PRINT_C_SHORT => v ← va_int; mret (s16 v)
  | PRINT_C_LONG => va_long
  | PRINT_C_SIZE => v ← va_ulong; mret (s64 v)
  | PRINT_C_INTMAX => va_long
  | PRINT_C_PTRDIFF => va_long
  | _ => va_int
  end.

(** The argument of [u], [o], [x] and [X], converted to intmax_t *)
Definition conv_unsigned (c : print_c) : M pr Z :=
  match c with
  | PRINT_C_CHAR => v ← va_uint; mret (u8 v)
  | PRINT_C_SHORT => v ← va_uint; mret (u16 v)
  | PRINT_C_LONG => v ← va_ulong; mret (s64 v)
  | PRINT_C_SIZE => v ← va_ulong; mret (s64 v)
  | PRINT_C_INTMAX => v ← va_ulong; mret (s64 v)
  | PRINT_C_PTRDIFF => va_long
  | _ => va_uint
  end.

Definition conv_float (r : regs) (fl precision : Z) : M pr bool :=
  fvalue ← (match cflags r with PRINT_C_LDOUBLE => va_ldouble | _ => f ← va_double; mret (ld_of_double f) end);
  fmtflt fvalue (width r) precision fl.

Definition conv_pointer (r : regs) : M pr unit :=
  strvalue ← va_ptr;
  if decide (strvalue = 0) then
    fmtstr (Some (bytes_of "(nil)" ++ [NUL])) (width r) (-1) (flags r)
  else
    fmtint (s64 strvalue) 16 (width r) (precision r)
           (Z.lor (Z.lor (flags r) PRINT_F_NUM) PRINT_F_UNSIGNED).

(** The conversion [n]: the width of the integer pointed to, and what is stored there *)
Definition conv_count (c : print_c) : M pr unit :=
  let w := match c with
           | PRINT_C_CHAR => 8
           | PRINT_C_SHORT => 16
           | PRINT_C_LONG | PRINT_C_SIZE | PRINT_C_INTMAX | PRINT_C_PTRDIFF => 64
           | _ => 32
           end in
  p ← va_ptr;
  m ← gets mem;
  l ← gets len;
  match m !! p with
  | Some (OCell w' _) =>
    if decide (w' = w /\ p <> 0) then modify (put_mem (<[p := OCell w (wrap_s w l)]> m))
    else fault
  | _ => fault
  end.

(** The switch over the conversion; the result is [overflow]. *)
Definition convert_arg (r : regs) : M pr bool :=
  let c := ch r in
  if decide (c = "d"%char \/ c = "i"%char) then
    value ← conv_signed (cflags r);
    fmtint value 10 (width r) (precision r) (flags r) ;; mret false
  else if decide (c = "X"%char \/ c = "x"%char \/ c = "o"%char \/ c = "u"%char) then
    let fl := if decide (c = "X"%char) then Z.lor (flags r) PRINT_F_UP else flags r in
    let base := if decide (c = "X"%char \/ c = "x"%char) then 16
                else if decide (c = "o"%char) then 8 else 10 in
    value ← conv_unsigned (cflags r);
    fmtint value base (width r) (precision r) (Z.lor fl PRINT_F_UNSIGNED) ;; mret false
  else if decide (c = "A"%char \/ c = "F"%char) then
    conv_float r (Z.lor (flags r) PRINT_F_UP) (precision r)
  else if decide (c = "a"%char \/ c = "f"%char) then conv_float r (flags r) (precision r)
  else if decide (c = "E"%char) then
    conv_float r (Z.lor (Z.lor (flags r) PRINT_F_UP) PRINT_F_TYPE_E) (precision r)
  else if decide (c = "e"%char) then
    conv_float r (Z.lor (flags r) PRINT_F_TYPE_E) (precision r)
  else if decide (c = "G"%char \/ c = "g"%char) then
    let fl := if decide (c = "G"%char) then Z.lor (flags r) PRINT_F_UP else flags r in
    conv_float r (Z.lor fl PRINT_F_TYPE_G)
               (if decide (precision r = 0) then 1 else precision r)
  else if decide (c = "c"%char) then
    cvalue ← va_int; OUTCHAR (Z_byte cvalue) ;; mret false
  else if decide (c = "s"%char) then
    strvalue ← va_ptr; strvalue ← chars_at strvalue;
    fmtstr strvalue (width r) (precision r) (flags r) ;; mret false
  else if decide (c = "p"%char) then conv_pointer r ;; mret false
  else if decide (c = "n"%char) then conv_count (cflags r) ;; mret false
  else if decide (c = "%"%char) then OUTCHAR c ;; mret false
  else mret false.

Definition step_conv (r : regs) : M pr turn :=
  overflow ← convert_arg r;
  if (overflow : bool) then mret Overflow
  else
    r ← fetch r;
    mret (Go (mkRegs PRINT_S_DEFAULT (ch r) (format r) PRINT_C_NONE 0 0 (-1))).

Definition step (r : regs) : M pr turn :=
  match state r with
  | PRINT_S_DEFAULT => step_default r
  | PRINT_S_FLAGS => step_flags r
  | PRINT_S_WIDTH => step_width r
  | PRINT_S_DOT => step_dot r
  | PRINT_S_PRECISION => step_precision r
  | PRINT_S_MOD => step_mod r
  | PRINT_S_CONV => step_conv r
  end.

(** [while (ch != 0) switch (state)]; the result is [overflow]. *)
Fixpoint turns (fuel : nat) (r : regs) : M pr bool :=
  if decide (ch r = NUL) then mret false
  else match fuel with
       | O => stop Hang
       | S fuel => t ← step r; match t with Go r => turns fuel r | Overflow => mret true end
       end.

(** From the label [out] on *)
Definition finish (overflow : bool) : M pr Z :=
  l ← gets len;
  (if decide (l < size) then store l NUL
   else if decide (0 < size) then store (size - 1) NUL else mret tt) ;;
  if decide (overflow = true \/ INT_MAX <= l) then
    modify (put_errno (if overflow then EOVERFLOW else ERANGE)) ;; mret (-1)
  else mret l.

Definition first_regs (fmt : string) : regs :=
  mkRegs PRINT_S_DEFAULT NUL (Some fmt) PRINT_C_NONE 0 0 (-1).

(** A turn fetches a character or goes on to a later state, so seven turns a character are
    enough. *)
Definition vsnprintf_body (fmt : string) : M pr Z :=
  modify (put_len 0) ;;
  r ← fetch (first_regs fmt);
  overflow ← turns (7 * String.length fmt) r;
  finish overflow.
End Snprintf.

(** [if (str == NULL && size != 0) size = 0] *)
Definition rpl_vsnprintf `{Lconv} (size : Z) (fmt : string) : M pr Z :=
  s ← gets str;
  let size := match s with None => 0 | Some _ => size end in
  vsnprintf_body size fmt.

(** The arguments that follow [format], as the list [va_start] makes available. *)
Definition rpl_snprintf `{Lconv} (size : Z) (fmt : string) (ap : list arg) : M pr Z :=
  modify (put_args ap) ;; rpl_vsnprintf size fmt.
