(* ===== verification/SnprintfSpec.v ===== *)
(** * What the formatter writes

    A call is described by the text it produces, apart from the array and its size:
    [written size ob t s] is the state in which [t] has been produced; [prints m t]: whatever the
    array and its size, [m] adds [t]. *)
From Stdlib Require Import Floats.SpecFloat.
From S2P Require Import Prelude Snprintf.

(** ** Text in an array *)

(** The first [size - 1] characters of [t] over the array [b]. *)
Definition room (size : Z) (t : bytes) : nat := length t `min` Z.to_nat (size - 1).
Definition place (size : Z) (t b : bytes) : bytes :=
  take (room size t) t ++ drop (room size t) b.

Definition written (size : Z) (ob : option bytes) (t : bytes) (s : pr) : pr :=
  mkPr (place size t <$> ob) (Z.of_nat (length t)) (mem s) (args s) (errno s).

(** The caller's promise: [size] bytes can be written, and none through NULL. *)
Definition fits (size : Z) (ob : option bytes) : Prop :=
  match ob with Some b => size <= Z.of_nat (length b) | None => size <= 0 end.

(** What is in the array when the call has returned. *)
Definition result_in (size : Z) (t b : bytes) : bytes :=
  if decide (size <= 0) then b
  else take (room size t) t ++ NUL :: drop (S (room size t)) b.

(** A count of characters that a size_t holds, with the NUL. *)
Definition counts (t : bytes) : Prop := Z.of_nat (length t) < 2 ^ 64 - 1.

Lemma counts_prefix t u : counts (t ++ u) -> counts t.
Proof. unfold counts. rewrite length_app. lia. Qed.

Lemma place_nil size b : place size [] b = b.
Proof. done. Qed.

Lemma place_length size t b : size <= Z.of_nat (length b) -> length (place size t b) = length b.
Proof. unfold place, room. intros. rewrite length_app, length_take, length_drop. lia. Qed.

(** One more character is stored while there is room, and dropped after that. *)
Lemma place_snoc size t c b :
  Z.of_nat (length t) + 1 < size -> size <= Z.of_nat (length b) ->
  place size (t ++ [c]) b = <[length t := c]> (place size t b).
Proof.
  intros Hr Hb. unfold place, room. rewrite length_app. cbn [length].
  rewrite !Nat.min_l by lia. rewrite (take_ge t), (take_ge (t ++ [c])) by (rewrite ?length_app; simpl; lia).
  destruct (drop (length t) b) as [| x d] eqn:E.
  { apply (f_equal length) in E. rewrite length_drop in E. simpl in E. lia. }
  apply (f_equal (drop 1)) in E as E'. rewrite drop_drop in E'. cbn in E'.
  rewrite insert_app_r_alt, Nat.sub_diag, E', <- app_assoc by lia. done.
Qed.
Lemma place_full size t c b : size <= Z.of_nat (length t) + 1 ->
  place size (t ++ [c]) b = place size t b.
Proof.
  intros Hr. unfold place, room. rewrite length_app. cbn [length].
  rewrite !Nat.min_r by lia. rewrite take_app_le by lia. done.
Qed.

(** ** Computations as producers of text *)

Definition prints (m : Z -> M pr unit) (u : bytes) : Prop := forall size ob t s,
  fits size ob -> counts (t ++ u) ->
  m size (written size ob t s) = (Ret tt, written size ob (t ++ u) s).

Lemma prints_nil : prints (fun _ => mret tt) [].
Proof. intros size ob t s _ _. by rewrite app_nil_r. Qed.

Lemma prints_bind m n u v : prints m u -> prints n v -> prints (fun size => m size ;; n size) (u ++ v).
Proof.
  intros Hm Hn size ob t s Hf. rewrite app_assoc. intros Hc.
  rewrite (bind_ret _ _ _ _ _ (Hm size ob t s Hf (counts_prefix _ _ Hc))). by apply Hn.
Qed.

Lemma store_written size ob t s c :
  fits size ob -> counts t -> Z.of_nat (length t) + 1 < size ->
  store (Z.of_nat (length t)) c (written size ob t s)
  = (Ret tt, put_str (place size (t ++ [c]) <$> ob) (written size ob t s)).
Proof.
  unfold fits, store. intros Hf _ Hr. destruct ob as [b |]; [| lia].
  rewrite (bind_ret _ _ _ _ _ (gets_run _ _)). cbn [written str fmap option_fmap option_map deref].
  rewrite (bind_ret _ _ _ _ _ (mret_run _ _)), place_length by done.
  rewrite decide_True by lia. rewrite Nat2Z.id, modify_run, <- place_snoc by done. done.
Qed.

Lemma OUTCHAR_prints c : prints (fun size => OUTCHAR size c) [c].
Proof.
  intros size ob t s Hf Hc.
  assert (Z.of_nat (length t) + 1 < 2 ^ 64 - 1) as Ht.
  { unfold counts in Hc. rewrite length_app in Hc. simpl in Hc. lia. }
  unfold OUTCHAR. rewrite (bind_ret _ _ _ _ _ (gets_run _ _)). cbn [written len].
  rewrite u64_small by lia. destruct (decide (Z.of_nat (length t) + 1 < size)) as [Hr | Hr].
  - rewrite (bind_ret _ _ _ _ _ (store_written _ _ _ _ _ Hf (counts_prefix _ _ Hc) Hr)), modify_run.
    unfold written. rewrite length_app. cbn. by rewrite Nat2Z.inj_add.
  - rewrite (bind_ret _ _ _ _ _ (mret_run _ _)), modify_run. unfold written.
    rewrite length_app. cbn. rewrite Nat2Z.inj_add. f_equal. f_equal.
    destruct ob; [| done]. cbn. by rewrite place_full by lia.
Qed.

Lemma prints_cons c n v : prints n v -> prints (fun size => OUTCHAR size c ;; n size) (c :: v).
Proof. exact (prints_bind _ n [c] v (OUTCHAR_prints c)). Qed.

Section Prints.
Context {lc : Lconv}.

Lemma out_repeat_prints n c : prints (fun size => out_repeat size n c) (repeat c n).
Proof. induction n as [| n IH]; [apply prints_nil | by apply prints_cons]. Qed.

Lemma out_leading_prints z c :
  prints (fun size => out_leading size z c) (repeat c (Z.to_nat z)).
Proof. apply out_repeat_prints. Qed.
Lemma out_trailing_prints z c :
  prints (fun size => out_trailing size z c) (repeat c (Z.to_nat (- z))).
Proof. apply out_repeat_prints. Qed.

Lemma out_chars_prints u : prints (fun size => out_chars size u) u.
Proof. induction u as [| c u IH]; [apply prints_nil | by apply prints_cons]. Qed.

Definition opt_text (c : option ascii) : bytes := match c with Some c => [c] | None => [] end.
Lemma out_opt_prints c : prints (fun size => out_opt size c) (opt_text c).
Proof. destruct c; [apply OUTCHAR_prints | apply prints_nil]. Qed.

(** The separator between groups of digits *)
Definition sep_text : bytes :=
  match thousands_sep with Some sep => bytes_of sep | None => [","%char] end.
Lemma printsep_prints : prints (fun size => printsep size) sep_text.
Proof. unfold printsep, sep_text. destruct thousands_sep; [apply out_chars_prints | apply OUTCHAR_prints]. Qed.

(** The digits [ds], the first one first, with a separator between groups of three. *)
Fixpoint group (ds : bytes) : bytes :=
  match ds with
  | [] => []
  | d :: ds =>
    d :: (if decide (0 < Z.of_nat (length ds) /\ Z.of_nat (length ds) mod 3 = 0) then sep_text
          else []) ++ group ds
  end.

Definition grouped (separators : Z) (ds : bytes) : bytes :=
  if decide (0 < separators) then group ds else ds.

Lemma put_digits_prints ds separators :
  prints (fun size => put_digits size ds separators) (grouped separators ds).
Proof.
  induction ds as [| d ds IH]; [unfold grouped; case_decide; apply prints_nil |].
  cbn [put_digits].
  assert (grouped separators (d :: ds) = [d] ++
    (if bool_decide (0 < separators) && bool_decide (0 < Z.of_nat (length ds))
        && bool_decide (Z.of_nat (length ds) mod 3 = 0) then sep_text else []) ++
    grouped separators ds) as ->.
  { unfold grouped. case_decide; simpl.
    - rewrite (bool_decide_eq_true_2 (0 < separators)) by done. simpl.
      rewrite <- bool_decide_and. case_decide.
      + by rewrite bool_decide_eq_true_2.
      + by rewrite bool_decide_eq_false_2.
    - by rewrite (bool_decide_eq_false_2 (0 < separators)) by done. }
  apply prints_bind; [apply OUTCHAR_prints |]. apply prints_bind; [| apply IH].
  unfold when. case_match; [apply printsep_prints | apply prints_nil].
Qed.
End Prints.

(** ** Strings *)

Fixpoint until_nul (b : bytes) : bytes :=
  match b with
  | [] => []
  | c :: b => if decide (c = NUL) then [] else c :: until_nul b
  end.

(** The characters that a precision (-1: none) lets through *)
Definition shown (precision : Z) (b : bytes) : bytes :=
  if decide (precision = -1) then until_nul b else take (Z.to_nat precision) (until_nul b).

Definition blanks (n : Z) : bytes := repeat " "%char (Z.to_nat n).

(** A text in a field of at least [width] characters, at its left or right end *)
Definition field (left : bool) (width : Z) (t : bytes) : bytes :=
  if left then t ++ blanks (width - Z.of_nat (length t))
  else blanks (width - Z.of_nat (length t)) ++ t.

Definition null_chars : bytes := bytes_of "(null)" ++ [NUL].

Definition str_text (value : option bytes) (width precision flags : Z) : bytes :=
  field (has flags PRINT_F_MINUS) width (shown precision (default null_chars value)).

Lemma nul_tail c b : NUL ∈ c :: b -> c <> NUL -> NUL ∈ b.
Proof. rewrite elem_of_cons. by intros [-> |]. Qed.

Lemma until_nul_text t : NUL ∉ t -> until_nul (t ++ [NUL]) = t.
Proof.
  induction t as [| c t IH]; [done |]. rewrite not_elem_of_cons. intros [Hc Hn]. cbn.
  rewrite decide_False by congruence. f_equal. by apply IH.
Qed.

Lemma field_length left width t :
  Z.of_nat (length (field left width t)) = Z.max width (Z.of_nat (length t)).
Proof. unfold field, blanks. destruct left; rewrite length_app, repeat_length; lia. Qed.

Section Str.
Context (precision : Z) (Hprec : -1 <= precision).

Let left_of (strln : Z) (b : bytes) : bytes :=
  if decide (precision = -1) then until_nul b else take (Z.to_nat (precision - strln)) (until_nul b).

Lemma fmtstr_len_run b strln s :
  NUL ∈ b -> 0 <= strln -> (precision <> -1 -> strln <= precision) ->
  strln + Z.of_nat (length (left_of strln b)) <= INT_MAX ->
  fmtstr_len b strln precision s = (Ret (strln + Z.of_nat (length (left_of strln b))), s).
Proof.
  revert strln. induction b as [| c b IH]; intros strln Hn H0 Hp Hmax; [by apply elem_of_nil in Hn |].
  unfold left_of in *. cbn [until_nul fmtstr_len] in *. destruct (decide (c = NUL)) as [-> | Hc].
  { rewrite (decide_False (P := NUL <> NUL /\ _)) by tauto.
    destruct (decide (precision = -1)); rewrite ?take_nil; simpl; by rewrite Z.add_0_r. }
  destruct (decide (precision = -1)) as [Hp1 | Hp1]; [| destruct (decide (strln < precision))].
  - rewrite decide_True by tauto. cbn [length] in Hmax.
    rewrite (bind_ret _ _ _ (strln + 1) s) by (unfold as_int; rewrite decide_True by (unfold INT_MIN; lia); done).
    rewrite IH by (eauto using nul_tail; lia). cbn [length]. f_equal. f_equal. lia.
  - replace (Z.to_nat (precision - strln)) with (S (Z.to_nat (precision - (strln + 1)))) in * by lia.
    rewrite decide_True by tauto. cbn [take length] in *.
    rewrite (bind_ret _ _ _ (strln + 1) s) by (unfold as_int; rewrite decide_True by (unfold INT_MIN; lia); done).
    rewrite IH by (eauto using nul_tail; lia). f_equal. f_equal. lia.
  - rewrite decide_False by tauto. replace (precision - strln) with 0 by (specialize (Hp Hp1); lia).
    simpl. by rewrite Z.add_0_r.
Qed.
End Str.

Lemma fmtstr_put_prints `{Lconv} b noprec precision : NUL ∈ b -> noprec = false -> 0 <= precision ->
  prints (fun size => fmtstr_put size b noprec precision) (take (Z.to_nat precision) (until_nul b)).
Proof.
  intros Hn -> Hp. revert precision Hn Hp. induction b as [| c b IH]; intros precision Hn Hp.
  { by apply elem_of_nil in Hn. }
  cbn [fmtstr_put until_nul]. destruct (decide (c = NUL)) as [-> | Hc].
  { rewrite take_nil. case_decide; [tauto | apply prints_nil]. }
  destruct (decide (0 < precision)) as [Hlt | Hge].
  - case_decide; [| tauto].
    replace (Z.to_nat precision) with (S (Z.to_nat (precision - 1))) by lia.
    apply prints_cons, IH; [by eapply nul_tail | lia].
  - case_decide as Hd; [by destruct Hd as [_ [|]] |]. replace precision with 0 by lia.
    apply prints_nil.
Qed.
Lemma fmtstr_put_all_prints `{Lconv} b precision : NUL ∈ b ->
  prints (fun size => fmtstr_put size b true precision) (until_nul b).
Proof.
  induction b as [| c b IH]; intros Hn; [by apply elem_of_nil in Hn |].
  cbn [fmtstr_put until_nul]. destruct (decide (c = NUL)) as [-> | Hc].
  - case_decide; [tauto | apply prints_nil].
  - case_decide; [| tauto]. apply prints_cons, IH. by eapply nul_tail.
Qed.

Lemma clamp_nat z : Z.to_nat (if decide (z < 0) then 0 else z) = Z.to_nat z.
Proof. case_decide; lia. Qed.
Lemma clamp_pos z : 0 <= (if decide (z < 0) then 0 else z).
Proof. case_decide; lia. Qed.

(** A padding is leading or trailing, according to its sign. *)
Definition leading (padlen : Z) c : bytes := repeat c (Z.to_nat padlen).
Definition trailing (padlen : Z) c : bytes := repeat c (Z.to_nat (- padlen)).
Lemma leading_none padlen c u : padlen <= 0 -> leading padlen c ++ u = u.
Proof. unfold leading. intros. by replace (Z.to_nat padlen) with O by lia. Qed.
Lemma trailing_none padlen c u : 0 <= padlen -> u ++ trailing padlen c = u.
Proof. unfold trailing. intros. replace (Z.to_nat (- padlen)) with O by lia. apply app_nil_r. Qed.

Lemma field_padded left width u :
  let padlen := width - Z.of_nat (length u) in
  let padlen := if decide (padlen < 0) then 0 else padlen in
  let padlen := if (left : bool) then - padlen else padlen in
  field left width u = leading padlen " " ++ u ++ trailing padlen " ".
Proof.
  cbv zeta. set (z := width - _). pose proof (clamp_pos z) as Hpos. unfold field, blanks. fold z.
  rewrite <- (clamp_nat z). destruct left.
  - rewrite leading_none by lia. unfold trailing. by rewrite Z.opp_involutive.
  - by rewrite trailing_none by lia.
Qed.

Lemma padded_prints `{Lconv} padlen m u : prints m u ->
  prints (fun size => out_leading size padlen " " ;; m size ;; out_trailing size padlen " ")
         (leading padlen " " ++ u ++ trailing padlen " ").
Proof.
  intros Hm. apply prints_bind; [apply out_leading_prints |].
  apply (prints_bind m); [done | apply out_trailing_prints].
Qed.

(** [%s]: the string up to its precision, in its field. *)
Lemma fmtstr_prints `{Lconv} value width precision flags :
  let b := default null_chars value in
  NUL ∈ b -> -1 <= precision -> Z.of_nat (length (shown precision b)) <= INT_MAX ->
  prints (fun size => fmtstr size value width precision flags) (str_text value width precision flags).
Proof.
  intros b Hn Hp Hmax size ob t s Hf. unfold fmtstr, str_text. fold null_chars b.
  assert (fmtstr_len b 0 precision (written size ob t s)
          = (Ret (Z.of_nat (length (shown precision b))), written size ob t s)) as Hlen.
  { rewrite fmtstr_len_run by (unfold shown in Hmax; rewrite ?Z.sub_0_r; done || lia || (intros; lia)).
    unfold shown. by rewrite Z.sub_0_r. }
  rewrite (bind_ret _ _ _ _ _ Hlen). clear Hlen. set (u := shown precision b) in *.
  assert (prints (fun size => fmtstr_put size b (bool_decide (precision = -1)) precision) u) as Hput.
  { unfold u, shown. destruct (decide (precision = -1)) as [-> | Hne].
    - rewrite bool_decide_eq_true_2 by done. by apply fmtstr_put_all_prints.
    - rewrite bool_decide_eq_false_2 by done. apply fmtstr_put_prints; [done.. | lia]. }
  rewrite field_padded.
  exact (padded_prints _ (fun size => fmtstr_put size b _ precision) u Hput size ob t s Hf).
Qed.

(** ** Integers *)

Section Ints.
Context {lc : Lconv}.

(** The separator is short enough for an int to count those of one number. *)
Class ShortSep : Prop := short_sep : Z.of_nat (length sep_text) <= 1000000.

(** The characters of the separators between [n] digits *)
Definition numsep (n : Z) : Z := (n - 1) / 3 * Z.of_nat (length sep_text).

Lemma groups_quot n : 0 < n -> (n - (if decide (Z.rem n 3 = 0) then 1 else 0)) ÷ 3 = (n - 1) / 3.
Proof.
  intros Hn. case_decide as Hr; rewrite Z.rem_mod_nonneg in Hr by lia.
  { by rewrite Z.quot_div_nonneg by lia. }
  rewrite Z.quot_div_nonneg by lia. Z.to_euclidean_division_equations. lia.
Qed.

Lemma getnumsep_run `{!ShortSep} n s : 0 < n <= 64 -> getnumsep n s = (Ret (numsep n), s).
Proof.
  intros Hn. unfold getnumsep. rewrite groups_quot by lia.
  pose proof short_sep as Hs. unfold numsep, sep_text in *.
  destruct thousands_sep as [sep |].
  - unfold strlen. rewrite <- bytes_of_length. unfold as_int. rewrite decide_True; [done |].
    pose proof (Z.div_le_lower_bound (n - 1) 3 0). pose proof (Z.div_le_upper_bound (n - 1) 3 21).
    unfold INT_MIN, INT_MAX. nia.
  - cbn [length]. by rewrite Z.mul_1_r.
Qed.

Lemma group_length ds : ds <> [] ->
  Z.of_nat (length (group ds)) = Z.of_nat (length ds) + numsep (Z.of_nat (length ds)).
Proof.
  induction ds as [| d ds IH]; [done |]. intros _. cbn [group length]. rewrite length_app.
  destruct (decide (ds = [])) as [-> | Hne]; [done |].
  assert (0 < Z.of_nat (length ds)) by (destruct ds; [done | simpl; lia]).
  rewrite !Nat2Z.inj_succ, Nat2Z.inj_add, IH by done. set (n := Z.of_nat (length ds)) in *.
  unfold numsep. replace (Z.succ n - 1) with n by lia.
  case_decide as Hd.
  - assert (n / 3 = (n - 1) / 3 + 1) as -> by (Z.to_euclidean_division_equations; lia). lia.
  - assert (n / 3 = (n - 1) / 3) as -> by (Z.to_euclidean_division_equations; lia). simpl. lia.
Qed.

(** The digits of a number, the first one first *)
Definition number (base : Z) (caps : bool) (v : Z) : bytes :=
  rev (convert v MAX_CONVERT_LENGTH base caps).

Definition zeros (n : Z) : bytes := repeat "0"%char (Z.to_nat n).

Definition int_sign (value flags : Z) : option ascii :=
  if has flags PRINT_F_UNSIGNED then None
  else if decide (0 <= value) then sign_char flags else Some "-"%char.

Definition int_text (value base width precision flags : Z) : bytes :=
  let uvalue := if has flags PRINT_F_UNSIGNED then u64 value else Z.abs value in
  let digits := number base (has flags PRINT_F_UP) uvalue in
  let n := Z.of_nat (length digits) in
  let alt := has flags PRINT_F_NUM && bool_decide (uvalue <> 0) in
  let hex := if alt && bool_decide (base = 16) then
               ["0"%char; if has flags PRINT_F_UP then "X"%char else "x"%char] else [] in
  let prefix := opt_text (int_sign value flags) ++ hex in
  let prec := if alt && bool_decide (base = 8) then Z.max precision (n + 1) else precision in
  let seps := if has flags PRINT_F_QUOTE then numsep n else 0 in
  let gap := width - Z.of_nat (length prefix) - seps - Z.max prec n in
  let body := zeros (prec - n - seps) ++ grouped seps digits in
  if has flags PRINT_F_MINUS then prefix ++ body ++ blanks gap
  else if has flags PRINT_F_ZERO && bool_decide (precision = -1) then
    prefix ++ zeros gap ++ body
  else blanks gap ++ prefix ++ body.

Lemma convert_loop_length more v base caps :
  (1 <= length (convert_loop more v base caps) <= S more)%nat.
Proof.
  revert v. induction more as [| more IH]; intros v; cbn [convert_loop]; [simpl; lia |].
  case_decide; simpl; [lia |]. specialize (IH (v / base)). lia.
Qed.
Lemma number_length base caps v : 0 < Z.of_nat (length (number base caps v)) <= 43.
Proof.
  unfold number, convert. rewrite length_rev.
  pose proof (convert_loop_length (MAX_CONVERT_LENGTH - 1) v base caps).
  unfold MAX_CONVERT_LENGTH in *. lia.
Qed.

(** A computation that only looks at its arguments, before one that prints *)
Lemma prints_first {A} (m : M pr A) (a : A) n u :
  (forall s, m s = (Ret a, s)) -> prints (fun size => n size a) u ->
  prints (fun size => m ≫= n size) u.
Proof.
  intros Hm Hn size ob t s Hf Hc. rewrite (bind_ret _ _ _ _ _ (Hm _)). by apply Hn.
Qed.

(** What the last part of fmtint prints *)
Lemma int_parts_print spadlen sign hex zpadlen digits seps :
  prints (fun size =>
    out_leading size spadlen " " ;; out_opt size sign ;;
    match hex with Some x => OUTCHAR size "0" ;; OUTCHAR size x | None => mret tt end ;;
    out_leading size zpadlen "0" ;; put_digits size digits seps ;;
    out_trailing size spadlen " ")
   (leading spadlen " " ++ opt_text sign ++
    match hex with Some x => ["0"%char; x] | None => [] end ++
    zeros zpadlen ++ grouped seps digits ++ trailing spadlen " ").
Proof.
  apply prints_bind; [apply out_leading_prints |].
  apply (prints_bind (fun size => out_opt size sign)); [apply out_opt_prints |].
  apply (prints_bind (fun size => match hex with Some x => OUTCHAR size "0" ;; OUTCHAR size x
                                            | None => mret tt end)).
  { destruct hex; [apply prints_cons, OUTCHAR_prints | apply prints_nil]. }
  apply (prints_bind (fun size => out_leading size zpadlen "0")); [apply out_leading_prints |].
  apply (prints_bind (fun size => put_digits size digits seps)); [apply put_digits_prints |].
  apply out_trailing_prints.
Qed.

(** The value and the sign that fmtint prints; the least intmax_t has no absolute value. *)
Lemma int_value_run value flags (s : pr) :
  INTMAX_MIN < value \/ has flags PRINT_F_UNSIGNED = true ->
  (if has flags PRINT_F_UNSIGNED then mret (u64 value, None)
   else if decide (0 <= value) then mret (value, sign_char flags)
   else uvalue ← as_intmax (- value); mret (uvalue, Some "-"%char)) s
  = (Ret ((if has flags PRINT_F_UNSIGNED then u64 value else Z.abs value), int_sign value flags), s).
Proof.
  unfold int_sign. intros Hv. destruct (has flags PRINT_F_UNSIGNED); [done |].
  destruct Hv as [Hv | ?]; [| done]. case_decide; [by rewrite Z.abs_eq |].
  unfold as_intmax. rewrite (decide_True (P := INTMAX_MIN <= - value < - INTMAX_MIN)) by (unfold INTMAX_MIN in *; lia).
  by rewrite (bind_ret _ _ _ _ _ (mret_run _ _)), Z.abs_neq by lia.
Qed.

Lemma clamp_blanks z : blanks (if decide (z < 0) then 0 else z) = blanks z.
Proof. unfold blanks. by rewrite clamp_nat. Qed.
Lemma zeros_clamp z : zeros (if decide (z < 0) then 0 else z) = zeros z.
Proof. unfold zeros. by rewrite clamp_nat. Qed.
Lemma zeros_app a b : 0 <= a -> 0 <= b -> zeros (a + b) = zeros a ++ zeros b.
Proof. intros. unfold zeros. by rewrite Z2Nat.inj_add, repeat_app by done. Qed.

Lemma prints_text m u v : prints m u -> u = v -> prints m v.
Proof. by intros ? <-. Qed.

Lemma prints_two {A} m n (a : A) k u v w : prints m u -> prints n v ->
  prints (fun size => k size a) w ->
  prints (fun size => (m size ;; n size ;; mret a) ≫= k size) (u ++ v ++ w).
Proof.
  intros Hm Hn Hk size ob t s Hf. rewrite !app_assoc. intros Hc.
  assert (counts ((t ++ u) ++ v)) as Hc2 by eauto using counts_prefix.
  assert (counts (t ++ u)) as Hc1 by eauto using counts_prefix.
  rewrite bind_assoc, (bind_ret _ _ _ _ _ (Hm size ob t s Hf Hc1)).
  rewrite bind_assoc, (bind_ret _ _ _ _ _ (Hn size ob (t ++ u) s Hf Hc2)).
  rewrite (bind_ret _ _ _ _ _ (mret_run _ _)). by apply Hk.
Qed.

Definition hex_text (hex : option ascii) : bytes :=
  match hex with Some x => ["0"%char; x] | None => [] end.

Lemma int_precision (b : bool) precision pos :
  (if b && bool_decide (precision <= pos) then pos + 1 else precision)
  = if b then Z.max precision (pos + 1) else precision.
Proof. destruct b; simpl; [case_bool_decide; lia | done]. Qed.

Lemma int_digits_max precision pos :
  (if decide (pos <= precision) then precision else pos) = Z.max precision pos.
Proof. case_decide; lia. Qed.

Lemma prefix_length sign hex : Z.of_nat (length (opt_text sign ++ hex_text hex))
  = (match sign with Some _ => 1 | None => 0 end) + (match hex with Some _ => 2 | None => 0 end).
Proof. by destruct sign, hex. Qed.

(** [%d], [%u], [%o], [%x]: sign, prefix, zeros and digits, in the field. *)
Lemma fmtint_prints `{!ShortSep} value base width precision flags :
  INTMAX_MIN < value \/ has flags PRINT_F_UNSIGNED = true ->
  prints (fun size => fmtint size value base width precision flags)
         (int_text value base width precision flags).
Proof.
  intros Hv. unfold fmtint, int_text. eapply prints_first; [intros s; by apply int_value_run |].
  cbv beta iota. set (uvalue := if has flags PRINT_F_UNSIGNED then _ else _).
  unfold number. rewrite length_rev. fold (number base (has flags PRINT_F_UP) uvalue).
  pose proof (number_length base (has flags PRINT_F_UP) uvalue) as Hn.
  unfold number in Hn. rewrite length_rev in Hn. set (pos := Z.of_nat _) in *.
  set (alt := has flags PRINT_F_NUM && _).
  eapply (prints_first _ (if has flags PRINT_F_QUOTE then numsep pos else 0)).
  { intros s. destruct (has flags PRINT_F_QUOTE); [apply getnumsep_run; lia | done]. }
  set (seps := if has flags PRINT_F_QUOTE then _ else 0).
  rewrite int_precision. set (prec := if alt && bool_decide (base = 8) then _ else precision).
  rewrite int_digits_max. set (sign := int_sign value flags).
  set (hex := if alt && bool_decide (base = 16) then Some _ else None).
  replace (opt_text sign ++ _) with (opt_text sign ++ hex_text hex)
    by (unfold hex; by destruct (alt && bool_decide (base = 16))).
  rewrite prefix_length.
  replace (width - seps - Z.max prec pos - _ - _) with
    (width - (match sign with Some _ => 1 | None => 0 end + match hex with Some _ => 2 | None => 0 end)
     - seps - Z.max prec pos) by (clearbody hex sign; destruct sign, hex; lia).
  set (gap := width - _ - _ - _). rewrite <- (zeros_clamp (prec - pos - seps)).
  pose proof (clamp_pos (prec - pos - seps)) as Hz. revert Hz.
  generalize (if decide (prec - pos - seps < 0) then 0 else prec - pos - seps). intros zpad Hz.
  clearbody gap seps sign hex. clear -Hz. destruct (has flags PRINT_F_MINUS).
  - eapply prints_text; [apply int_parts_print |].
    rewrite leading_none by (pose proof (clamp_pos gap); lia).
    rewrite <- !app_assoc. repeat f_equal. unfold trailing. by rewrite Z.opp_involutive, clamp_nat.
  - destruct (has flags PRINT_F_ZERO && bool_decide (precision = -1)).
    + eapply prints_text; [apply int_parts_print |].
      rewrite leading_none, Z.add_comm, zeros_app, zeros_clamp by (try apply clamp_pos; lia).
      by rewrite !app_assoc, trailing_none, <- !app_assoc by lia.
    + eapply prints_text; [apply int_parts_print |].
      rewrite !app_assoc, trailing_none, <- !app_assoc by apply clamp_pos.
      f_equal. unfold leading. by rewrite clamp_nat.
Qed.
End Ints.

(** ** How long these texts are *)

Section Lengths.
Context {lc : Lconv} `{!ShortSep}.

Lemma numsep_bounds n : 0 < n <= 43 -> 0 <= numsep n <= 14000000.
Proof.
  intros Hn. pose proof short_sep as Hs. unfold numsep. pose proof (Zle_0_nat (length sep_text)).
  assert (0 <= (n - 1) / 3 <= 14) by (Z.to_euclidean_division_equations; lia). nia.
Qed.
Lemma grouped_length seps ds : 0 < Z.of_nat (length ds) <= 43 ->
  Z.of_nat (length (grouped seps ds)) <= 14000043.
Proof.
  intros Hl. pose proof (numsep_bounds _ Hl). unfold grouped. case_decide; [| lia].
  rewrite group_length; [lia |]. intros ->. simpl in Hl. lia.
Qed.
Lemma blanks_length z : Z.of_nat (length (blanks z)) = Z.max 0 z.
Proof. unfold blanks. rewrite repeat_length. lia. Qed.
Lemma zeros_length z : Z.of_nat (length (zeros z)) = Z.max 0 z.
Proof. unfold zeros. rewrite repeat_length. lia. Qed.
Lemma opt_text_length c : (length (opt_text c) <= 1)%nat.
Proof. destruct c; simpl; lia. Qed.

Lemma part_length (b : bool) (t : bytes) : (length (if b then t else []) <= length t)%nat.
Proof. destruct b; simpl; lia. Qed.

(** An integer is no longer than its field and its precision together, but for its sign, digits and
    separators. *)
Lemma int_text_length value base w p fl :
  Z.of_nat (length (int_text value base w p fl)) <= Z.max 0 w + Z.max 0 p + 14000100.
Proof.
  unfold int_text. set (uvalue := if has fl PRINT_F_UNSIGNED then _ else _). set (caps := has fl PRINT_F_UP).
  pose proof (number_length base caps uvalue) as Hn. set (ds := number base caps uvalue) in *. clearbody ds.
  set (alt := has fl PRINT_F_NUM && _).
  assert (Hseps : 0 <= (if has fl PRINT_F_QUOTE then numsep (Z.of_nat (length ds)) else 0) <= 14000000).
  { pose proof (numsep_bounds _ Hn). case_match; lia. }
  set (seps := if has fl PRINT_F_QUOTE then _ else 0) in *. clearbody seps.
  pose proof (grouped_length seps ds Hn) as Hg. set (body := grouped seps ds) in *. clearbody body.
  pose proof (part_length (alt && bool_decide (base = 16)) ["0"%char; if caps then "X"%char else "x"%char]) as Hh.
  set (hex := if _ && bool_decide (base = 16) then _ else []) in *. clearbody hex. simpl length in Hh.
  pose proof (opt_text_length (int_sign value fl)) as Hs. set (sign := opt_text _) in *. clearbody sign.
  assert (Hp : Z.max 0 (if alt && bool_decide (base = 8) then Z.max p (Z.of_nat (length ds) + 1) else p)
    <= Z.max 0 p + 44) by (destruct (alt && _); lia).
  set (prec := if _ && bool_decide (base = 8) then _ else p) in *. clearbody prec alt. clear uvalue caps.
  destruct (has fl PRINT_F_MINUS); [| destruct (_ && _)];
    rewrite !length_app, !Nat2Z.inj_add, ?blanks_length, ?zeros_length; lia.
Qed.
End Lengths.

(** ** Digits read back *)

(** The value of a digit, and of a sequence of digits *)
Definition digit_value (c : ascii) : Z :=
  let z := byte_Z c in
  if decide (z < 58) then z - 48 else if decide (z < 71) then z - 55 else z - 87.
Definition value_of (base : Z) (ds : bytes) : Z :=
  foldl (fun acc c => base * acc + digit_value c) 0 ds.

Lemma digit_value_digit caps d : 0 <= d < 16 -> digit_value (digit caps d) = d.
Proof.
  intros Hd. assert (forallb (fun b : bool => forallb (fun n =>
      digit_value (digit b (Z.of_nat n)) =? Z.of_nat n) (seq 0 16)) [true; false] = true) as Hall
    by (vm_compute; reflexivity).
  rewrite forallb_forall in Hall. specialize (Hall caps). rewrite forallb_forall in Hall.
  specialize (Hall ltac:(destruct caps; simpl; tauto) (Z.to_nat d) ltac:(apply in_seq; lia)).
  rewrite Z2Nat.id in Hall by lia. by apply Z.eqb_eq.
Qed.

Lemma value_of_snoc base ds c : value_of base (ds ++ [c]) = base * value_of base ds + digit_value c.
Proof. unfold value_of. by rewrite foldl_app. Qed.

Lemma convert_loop_value more v base caps :
  2 <= base <= 16 -> 0 <= v < base ^ Z.of_nat (S more) ->
  value_of base (rev (convert_loop more v base caps)) = v.
Proof.
  intros Hb. revert v. induction more as [| more IH]; intros v Hv; cbn [convert_loop].
  - rewrite Z.pow_1_r in Hv. cbn. rewrite Z.mod_small by lia. rewrite digit_value_digit; lia.
  - pose proof (Z.mod_pos_bound v base). pose proof (Z.div_mod v base).
    assert (0 <= v / base < base ^ Z.of_nat (S more)) as Hq.
    { rewrite Nat2Z.inj_succ, Z.pow_succ_r in Hv by lia.
      split; [apply Z.div_pos; lia |]. apply Z.div_lt_upper_bound; lia. }
    case_decide as Hz; cbn [rev]; rewrite ?value_of_snoc, digit_value_digit by lia.
    + cbn. lia.
    + rewrite IH by done. lia.
Qed.

(** No digit but that of 0 itself is a leading zero. *)
Lemma convert_loop_last more v base caps :
  2 <= base -> 0 < v < base ^ Z.of_nat (S more) ->
  exists d, last (convert_loop more v base caps) = Some (digit caps d) /\ 0 < d < base.
Proof.
  intros Hb. revert v. induction more as [| more IH]; intros v Hv; cbn [convert_loop].
  - rewrite Z.pow_1_r in Hv. exists v. rewrite Z.mod_small by lia. split; [done | lia].
  - case_decide as Hz.
    + exists v. assert (v < base) by (apply Z.div_small_iff in Hz; lia).
      rewrite Z.mod_small by lia. split; [done | lia].
    + destruct (IH (v / base)) as (d & Hd & Hr).
      { rewrite Nat2Z.inj_succ, Z.pow_succ_r in Hv by lia.
        pose proof (Z.div_pos v base). split; [lia |]. apply Z.div_lt_upper_bound; lia. }
      exists d. split; [| done]. destruct (convert_loop more (v / base) base caps); done.
Qed.

(** A number of 64 bits fits in the array of the callers, in base 8 and above. *)
Lemma convert_fits base v : 8 <= base -> v <= UINTMAX_MAX -> v < base ^ Z.of_nat 43.
Proof.
  intros Hb Hv. apply Z.le_lt_trans with UINTMAX_MAX; [done |].
  apply Z.lt_le_trans with (8 ^ Z.of_nat 43); [done |]. apply Z.pow_le_mono_l. lia.
Qed.

(** In base ten they are what [dec] writes. *)
Lemma digit_pretty caps d : 0 <= d < 10 -> digit caps d = pretty_N_char (Z.to_N d).
Proof.
  intros Hd. assert (forallb (fun b : bool => forallb (fun n =>
      bool_decide (digit b (Z.of_nat n) = pretty_N_char (N.of_nat n))) (seq 0 10)) [true; false] = true)
    as Hall by (vm_compute; reflexivity).
  rewrite forallb_forall in Hall. specialize (Hall caps). rewrite forallb_forall in Hall.
  specialize (Hall ltac:(destruct caps; simpl; tauto) (Z.to_nat d) ltac:(apply in_seq; lia)).
  apply bool_decide_eq_true in Hall. rewrite Z2Nat.id in Hall by lia. rewrite Hall. f_equal. lia.
Qed.

Lemma string_of_app t u : string_of (t ++ u) = string_of t +:+ string_of u.
Proof. unfold string_of. induction t as [| c t IH]; [done |]. cbn. by rewrite IH. Qed.

Lemma pretty_go_dec caps v s : 0 < v ->
  pretty_N_go (Z.to_N v) s = pretty_N_go (Z.to_N (v / 10)) (String (digit caps (v mod 10)) s).
Proof.
  intros Hv. rewrite pretty_N_go_step by lia.
  rewrite digit_pretty by (apply Z.mod_pos_bound; lia).
  by rewrite (Z2N.inj_div v 10), (Z2N.inj_mod v 10) by lia.
Qed.

Lemma convert_loop_pretty more v caps s : 0 < v < 10 ^ Z.of_nat (S more) ->
  string_of (rev (convert_loop more v 10 caps)) +:+ s = pretty_N_go (Z.to_N v) s.
Proof.
  revert v s. induction more as [| more IH]; intros v s Hv; cbn [convert_loop].
  - rewrite pretty_go_dec with (caps := caps) by lia. rewrite Z.pow_1_r in Hv.
    rewrite (Z.div_small v) by lia. by rewrite pretty_N_go_0.
  - rewrite pretty_go_dec with (caps := caps) by lia.
    case_decide as Hz; [rewrite Hz, pretty_N_go_0; done |]. cbn [rev].
    rewrite string_of_app, string_app_assoc. apply IH.
    rewrite Nat2Z.inj_succ, Z.pow_succ_r in Hv by lia.
    pose proof (Z.div_pos v 10). split; [lia |]. apply Z.div_lt_upper_bound; lia.
Qed.

Lemma number_dec caps v : 0 <= v <= UINTMAX_MAX -> string_of (number 10 caps v) = dec v.
Proof.
  intros Hv. destruct (decide (v = 0)) as [-> | Hne]; [by destruct caps |].
  transitivity (string_of (number 10 caps v) +:+ "").
  { generalize (string_of (number 10 caps v)). intros t. unfold String.app.
    induction t as [| c t IH]; [done |]. simpl. by f_equal. }
  unfold number, convert. rewrite convert_loop_pretty.
  - destruct v as [| p | p]; [done | | lia]. unfold dec, pretty, pretty_Z, pretty, pretty_N. done.
  - split; [lia |]. apply (convert_fits 10); lia.
Qed.

(** ** Floating-point numbers, once split *)

Section Floats.
Context {lc : Lconv}.

Definition point_text : ascii :=
  match decimal_point with Some (String c _) => c | _ => "."%char end.

(** The digits after the point: [precision] of them, but for the trailing zeros of %g *)
Definition flt_omitted (omitzeros : bool) (fracpart precision : Z) : Z :=
  if omitzeros then
    if decide (fracpart <> 0) then
      Z.of_nat (count_zeros (convert fracpart MAX_CONVERT_LENGTH 10 false))
    else precision
  else 0.
Definition flt_fraction (omitzeros : bool) (fracpart precision : Z) : bytes :=
  if decide (fracpart <> 0) then
    let fconvert := convert fracpart MAX_CONVERT_LENGTH 10 false in
    zeros (precision - Z.of_nat (length fconvert)) ++
    rev (if omitzeros then drop (count_zeros fconvert) fconvert else fconvert)
  else if omitzeros then [] else zeros precision.

Definition flt_text (sign : option ascii) (omitzeros : bool) (intpart fracpart exponent precision : Z)
    (estyle : bool) (width flags : Z) : bytes :=
  let e := if estyle then rev (flt_econvert exponent flags) else [] in
  let ip := number 10 false intpart in
  let prec := precision - flt_omitted omitzeros fracpart precision in
  let point := bool_decide (0 < prec) || has flags PRINT_F_NUM in
  let seps := if has flags PRINT_F_QUOTE then numsep (Z.of_nat (length ip)) else 0 in
  let gap := width - Z.of_nat (length ip) - Z.of_nat (length e) - prec - seps
             - (if point then 1 else 0) - Z.of_nat (length (opt_text sign)) in
  let body := grouped seps ip ++ (if point then [point_text] else []) ++
              flt_fraction omitzeros fracpart precision ++ e in
  if has flags PRINT_F_MINUS then opt_text sign ++ body ++ blanks gap
  else if has flags PRINT_F_ZERO then opt_text sign ++ zeros gap ++ body
  else blanks gap ++ opt_text sign ++ body.

(** What flt_emit prints after the padding has been chosen *)
Lemma flt_parts_print padlen sign digits seps point lead frac e :
  prints (fun size =>
    out_leading size padlen " " ;; out_opt size sign ;; put_digits size digits seps ;;
    when point (OUTCHAR size point_text) ;; out_leading size lead "0" ;;
    out_chars size frac ;; out_chars size e ;; out_trailing size padlen " ")
   (leading padlen " " ++ opt_text sign ++ grouped seps digits ++
    (if point then [point_text] else []) ++ zeros lead ++ frac ++ e ++ trailing padlen " ").
Proof.
  apply prints_bind; [apply out_leading_prints |].
  apply (prints_bind (fun size => out_opt size sign)); [apply out_opt_prints |].
  apply (prints_bind (fun size => put_digits size digits seps)); [apply put_digits_prints |].
  apply (prints_bind (fun size => when point (OUTCHAR size point_text))).
  { destruct point; [apply OUTCHAR_prints | apply prints_nil]. }
  apply (prints_bind (fun size => out_leading size lead "0")); [apply out_leading_prints |].
  apply (prints_bind (fun size => out_chars size frac)); [apply out_chars_prints |].
  apply (prints_bind (fun size => out_chars size e)); [apply out_chars_prints |].
  apply out_trailing_prints.
Qed.

Lemma flt_fraction_text omitzeros fracpart precision :
  let fconvert := if decide (fracpart <> 0) then convert fracpart MAX_CONVERT_LENGTH 10 false else [] in
  let fpos := Z.of_nat (length fconvert) in
  (if (omitzeros : bool) then
     if decide (0 < fpos) then (Z.of_nat (count_zeros fconvert), precision - fpos) else (precision, 0)
   else (0, precision - fpos))
  = (flt_omitted omitzeros fracpart precision,
     if decide (fracpart = 0) then if omitzeros then 0 else precision else precision - fpos).
Proof.
  cbv zeta. unfold flt_omitted. destruct (decide (fracpart <> 0)) as [Hf | Hf].
  - rewrite (decide_False (P := fracpart = 0)) by done. destruct omitzeros; [| done].
    rewrite decide_True; [done |]. unfold convert.
    pose proof (convert_loop_length (MAX_CONVERT_LENGTH - 1) fracpart 10 false). lia.
  - rewrite (decide_True (P := fracpart = 0)) by lia. cbn [length].
    rewrite Z.sub_0_r. by destruct omitzeros.
Qed.

Lemma flt_fraction_prints omitzeros fracpart precision :
  flt_fraction omitzeros fracpart precision
  = zeros (if decide (fracpart = 0) then if omitzeros then 0 else precision
           else precision - Z.of_nat (length (if decide (fracpart <> 0)
             then convert fracpart MAX_CONVERT_LENGTH 10 false else []))) ++
    rev (drop (Z.to_nat (flt_omitted omitzeros fracpart precision))
      (if decide (fracpart <> 0) then convert fracpart MAX_CONVERT_LENGTH 10 false else [])).
Proof.
  unfold flt_fraction, flt_omitted. destruct (decide (fracpart <> 0)) as [Hf | Hf].
  - rewrite (decide_False (P := fracpart = 0)) by done.
    destruct omitzeros; [by rewrite Nat2Z.id | by rewrite drop_0].
  - rewrite (decide_True (P := fracpart = 0)) by lia. rewrite drop_nil.
    destruct omitzeros; simpl; by rewrite ?app_nil_r.
Qed.

(** The padding: spaces at the right, zeros behind the sign, or spaces at the left. *)
Lemma flt_layout_prints padlen sign ds seps point lead frac e flags : 0 <= padlen ->
  prints (fun size =>
    '(padlen, sign) ←
      (if has flags PRINT_F_MINUS then mret (- padlen, sign)
       else if has flags PRINT_F_ZERO && bool_decide (0 < padlen) then
         out_opt size sign ;; out_leading size padlen "0" ;; mret (0, None)
       else mret (padlen, sign));
    out_leading size padlen " " ;; out_opt size sign ;; put_digits size ds seps ;;
    when point (OUTCHAR size point_text) ;; out_leading size lead "0" ;;
    out_chars size frac ;; out_chars size e ;; out_trailing size padlen " ")
  (let body := grouped seps ds ++ (if point then [point_text] else []) ++ zeros lead ++ frac ++ e in
   if has flags PRINT_F_MINUS then opt_text sign ++ body ++ blanks padlen
   else if has flags PRINT_F_ZERO then opt_text sign ++ zeros padlen ++ body
   else blanks padlen ++ opt_text sign ++ body).
Proof.
  intros Hpos. cbv zeta. destruct (has flags PRINT_F_MINUS).
  { eapply (prints_first _ (- padlen, sign)); [done |]. eapply prints_text; [apply flt_parts_print |].
    rewrite leading_none by lia. unfold trailing. by rewrite Z.opp_involutive, <- !app_assoc. }
  destruct (has flags PRINT_F_ZERO); [destruct (decide (0 < padlen)) as [Hlt | Hge] |]; cbn [andb].
  - rewrite bool_decide_eq_true_2 by done. eapply prints_text.
    { apply (prints_two (fun size => out_opt size sign) (fun size => out_leading size padlen "0") (0, None));
        [apply out_opt_prints | apply out_leading_prints | apply flt_parts_print]. }
    by rewrite leading_none, !app_assoc, trailing_none, <- !app_assoc by lia.
  - rewrite bool_decide_eq_false_2 by done.
    eapply (prints_first _ (padlen, sign)); [done |]. eapply prints_text; [apply flt_parts_print |].
    replace padlen with 0 by lia. by rewrite app_nil_r, leading_none by lia.
  - eapply (prints_first _ (padlen, sign)); [done |]. eapply prints_text; [apply flt_parts_print |].
    by rewrite !app_assoc, trailing_none, <- !app_assoc by lia.
Qed.

Lemma flt_emit_prints `{!ShortSep} sign omitzeros intpart fracpart exponent precision estyle width flags :
  prints (fun size => flt_emit size sign omitzeros intpart fracpart exponent precision estyle width flags)
         (flt_text sign omitzeros intpart fracpart exponent precision estyle width flags).
Proof.
  unfold flt_emit, flt_text. rewrite flt_fraction_text, flt_fraction_prints. cbv beta iota zeta.
  set (lead := if decide (fracpart = 0) then _ else _).
  set (fconvert := if decide (fracpart <> 0) then _ else _). set (omit := flt_omitted _ _ _).
  set (econvert := if estyle then _ else []).
  replace (if estyle then rev _ else []) with (rev econvert) by (unfold econvert; by destruct estyle).
  unfold number. rewrite !length_rev. fold (number 10 false intpart).
  pose proof (number_length 10 false intpart) as Hn. unfold number in Hn. rewrite length_rev in Hn.
  set (ipos := Z.of_nat (length (convert intpart _ _ _))) in *.
  eapply (prints_first _ (if has flags PRINT_F_QUOTE then numsep ipos else 0)).
  { intros s. destruct (has flags PRINT_F_QUOTE); [apply getnumsep_run; lia | done]. }
  set (seps := if has flags PRINT_F_QUOTE then _ else 0).
  set (point := bool_decide (0 < precision - omit) || _).
  replace (Z.of_nat (length (opt_text sign))) with (match sign with Some _ => 1 | None => 0 end)
    by (by destruct sign).
  replace (width - ipos - Z.of_nat (length econvert) - (precision - omit) - seps) with
    (width - ipos - Z.of_nat (length econvert) - (precision - omit) - seps) by done.
  set (gap := width - _ - _ - _ - _ - _ - _).
  rewrite <- (clamp_blanks gap), <- (zeros_clamp gap). pose proof (clamp_pos gap) as Hpos. revert Hpos.
  generalize (if decide (gap < 0) then 0 else gap). intros padlen Hpos.
  clearbody lead fconvert omit econvert seps point. clear gap Hn.
  rewrite <- (app_assoc (zeros lead)). by apply flt_layout_prints.
Qed.

(** How long the text is *)
Lemma count_zeros_length ds : (count_zeros ds <= length ds)%nat.
Proof. induction ds; cbn; [done |]. case_decide; lia. Qed.
Lemma convert_length v caps : (length (convert v MAX_CONVERT_LENGTH 10 caps) <= 43)%nat.
Proof.
  unfold convert. pose proof (convert_loop_length (MAX_CONVERT_LENGTH - 1) v 10 caps).
  unfold MAX_CONVERT_LENGTH in *. lia.
Qed.
Lemma flt_omitted_bounds omitzeros fp pr : -1 <= pr -> -1 <= flt_omitted omitzeros fp pr <= Z.max pr 43.
Proof.
  intros Hp. unfold flt_omitted. pose proof (convert_length fp false). pose proof (count_zeros_length (convert fp MAX_CONVERT_LENGTH 10 false)).
  destruct omitzeros; [case_decide |]; lia.
Qed.
Lemma flt_fraction_length omitzeros fp pr : -1 <= pr ->
  Z.of_nat (length (flt_fraction omitzeros fp pr)) <= Z.max 0 pr + 43.
Proof.
  intros Hp. unfold flt_fraction. pose proof (convert_length fp false).
  case_decide; [| destruct omitzeros; [simpl; lia | rewrite zeros_length; lia]].
  rewrite length_app, Nat2Z.inj_add, zeros_length, length_rev. destruct omitzeros; rewrite ?length_drop; lia.
Qed.
Lemma flt_exponent_length ex fl : (length (flt_econvert ex fl) <= 5)%nat.
Proof.
  unfold flt_econvert. destruct (if decide (ex < 0) then _ else _) as [e c].
  pose proof (convert_loop_length 1 e 10 false) as H. unfold convert. simpl Nat.sub.
  rewrite length_app. case_decide; rewrite ?length_app; simpl length in *; lia.
Qed.

Lemma flt_text_length `{!ShortSep} sign omitzeros ip fp ex pr es w fl : -1 <= pr <= 19 ->
  Z.of_nat (length (flt_text sign omitzeros ip fp ex pr es w fl)) <= Z.max 0 w + 14000300.
Proof.
  intros Hp. unfold flt_text. pose proof (number_length 10 false ip) as Hn. set (ds := number 10 false ip) in *. clearbody ds.
  assert (Hseps : 0 <= (if has fl PRINT_F_QUOTE then numsep (Z.of_nat (length ds)) else 0)).
  { pose proof (numsep_bounds _ Hn). case_match; lia. }
  set (seps := if has fl PRINT_F_QUOTE then _ else 0) in *. clearbody seps.
  pose proof (grouped_length seps ds Hn) as Hg. set (body := grouped seps ds) in *. clearbody body.
  pose proof (part_length es (rev (flt_econvert ex fl))) as He. rewrite length_rev in He. pose proof (flt_exponent_length ex fl).
  set (e := if es then rev _ else []) in *. clearbody e.
  pose proof (flt_omitted_bounds omitzeros fp pr ltac:(lia)) as Ho. set (omit := flt_omitted _ _ _) in *. clearbody omit.
  pose proof (flt_fraction_length omitzeros fp pr ltac:(lia)) as Hf. set (frac := flt_fraction _ _ _) in *. clearbody frac.
  pose proof (opt_text_length sign) as Hs. set (sg := opt_text sign) in *. clearbody sg.
  set (point := bool_decide _ || _). clearbody point.
  destruct (has fl PRINT_F_MINUS); [| destruct (has fl PRINT_F_ZERO)];
    rewrite !length_app, !Nat2Z.inj_add, ?blanks_length, ?zeros_length; destruct point; simpl length; lia.
Qed.

(** The precision is at most 19 once the number is split. *)
Lemma flt_again_precision fuel x g es pr ex ip fp ex' pr' es' : -1 <= pr ->
  flt_again fuel x g es pr ex = Some (Split ip fp ex' pr' es') -> -1 <= pr' <= 19.
Proof.
  revert es pr ex. induction fuel as [| fuel IH]; intros es pr ex Hp; cbn [flt_again];
    set (p := if decide (19 < pr) then 19 else pr);
    (assert (-1 <= p <= 19) by (unfold p; case_decide; lia)); clearbody p;
    (destruct (cast _) as [i |]; [| done]); cbn [mbind option_bind];
    (case_decide; [done |]); (destruct (uint_of_ld _) as [mask |]; [| done]); cbn [mbind option_bind];
    (destruct (myround _) as [fr |]; [| done]); cbn [mbind option_bind];
    destruct (if decide (mask <= fr) then _ else _) as [[i' f'] e'];
    destruct (g && es && bool_decide (e' < p + 1) && bool_decide (-4 <= e')) eqn:E; try (by intros [= <- <- <- <- <-]).
  apply IH. rewrite !andb_true_iff, !bool_decide_eq_true in E. lia.
Qed.

(** What fmtflt prints: nothing when the value overflows; None: undefined. *)
Definition infnan_text (fvalue : ldouble) (flags : Z) : option string :=
  if ISNAN fvalue then Some (if has flags PRINT_F_UP then "NAN" else "nan")%string
  else if ISINF fvalue then Some (if has flags PRINT_F_UP then "INF" else "inf")%string
  else None.
Definition flt_sign (fvalue : ldouble) (flags : Z) : option ascii :=
  if SFltb fvalue ld_0 then Some "-"%char else sign_char flags.

Definition float_text (fvalue : ldouble) (width precision flags : Z) : option (option bytes) :=
  let precision := if decide (precision = -1) then 6 else precision in
  let sign := flt_sign fvalue flags in
  match infnan_text fvalue flags with
  | Some t => Some (Some (field (has flags PRINT_F_MINUS) width (opt_text sign ++ bytes_of t)))
  | None =>
    let type_g := has flags PRINT_F_TYPE_G in
    let style_eg := has flags PRINT_F_TYPE_E || type_g in
    split ← flt_again 1 fvalue type_g style_eg (if type_g then precision - 1 else precision)
                      (if style_eg then getexponent fvalue else 0);
    Some (match split with
          | Overflowed => None
          | Split intpart fracpart exponent precision estyle =>
            Some (flt_text sign (type_g && negb (has flags PRINT_F_NUM)) intpart fracpart exponent
                           precision estyle width flags)
          end)
  end.

Lemma infnan_text_short fvalue flags t : infnan_text fvalue flags = Some t ->
  (length (bytes_of t) <= 3)%nat /\ NUL ∉ bytes_of t.
Proof.
  unfold infnan_text. intros Ht. repeat case_match; simplify_eq; (split; [simpl; lia |]);
    cbn; rewrite !not_elem_of_cons; repeat split; try discriminate; apply not_elem_of_nil.
Qed.
Lemma float_text_length `{!ShortSep} x w p fl t : -1 <= p -> float_text x w p fl = Some (Some t) ->
  Z.of_nat (length t) <= Z.max 0 w + 14000300.
Proof.
  intros Hp. unfold float_text. destruct (infnan_text x fl) as [u |] eqn:Hu.
  - intros [= <-]. rewrite field_length, length_app. pose proof (infnan_text_short _ _ _ Hu) as [Hl _].
    pose proof (opt_text_length (flt_sign x fl)). lia.
  - destruct (flt_again _ _ _ _ _ _) as [[| ip fp ex pr es] |] eqn:E; [done | | done]. cbn. intros [= <-].
    apply flt_text_length. eapply flt_again_precision; [| exact E]. repeat case_match; lia.
Qed.

Lemma until_nul_array t n : NUL ∉ t -> (0 < n)%nat ->
  until_nul (t ++ repeat NUL n) = t /\ NUL ∈ t ++ repeat NUL n.
Proof.
  intros Ht Hn. destruct n as [| n]; [lia |]. split; [| apply elem_of_app; right; left].
  clear Hn. induction t as [| c t IH]; [done |]. apply not_elem_of_cons in Ht as [Hc Ht].
  cbn. rewrite decide_False by congruence. f_equal. by apply IH.
Qed.

Lemma infnan_print t sign width flags : NUL ∉ opt_text sign ++ t -> (length t <= 3)%nat ->
  let u := opt_text sign ++ t in
  prints (fun size => fmtstr size (Some (u ++ repeat NUL (MAX_CONVERT_LENGTH - length u))) width
                             (Z.of_nat (length u)) flags)
         (field (has flags PRINT_F_MINUS) width u).
Proof.
  intros Hn Hl u. assert (length u <= 4)%nat as Hu.
  { unfold u. rewrite length_app. destruct sign; simpl; lia. }
  destruct (until_nul_array u (MAX_CONVERT_LENGTH - length u)) as [Htext Hnul];
    [done | unfold MAX_CONVERT_LENGTH; lia |].
  assert (shown (Z.of_nat (length u)) (u ++ repeat NUL (MAX_CONVERT_LENGTH - length u)) = u) as Hs.
  { unfold shown. rewrite decide_False, Htext, Nat2Z.id by lia. apply firstn_all. }
  eapply prints_text; [apply fmtstr_prints; cbn [default from_option id]; [done | lia |] |].
  - rewrite Hs. unfold INT_MAX. lia.
  - unfold str_text. cbn [default from_option id]. by rewrite Hs.
Qed.

(** A computation that prints [t] and returns [a] *)
Definition prints_ret {A} (m : Z -> M pr A) (t : bytes) (a : A) : Prop := forall size ob u s,
  fits size ob -> counts (u ++ t) ->
  m size (written size ob u s) = (Ret a, written size ob (u ++ t) s).
Lemma prints_then {A} m t (a : A) : prints m t -> prints_ret (fun size => m size ;; mret a) t a.
Proof. intros Hm size ob u s Hf Hc. by rewrite (bind_ret _ _ _ _ _ (Hm size ob u s Hf Hc)). Qed.
Lemma sign_not_nul fvalue flags : NUL ∉ opt_text (flt_sign fvalue flags).
Proof.
  unfold flt_sign, sign_char. repeat case_match; cbn;
    rewrite ?not_elem_of_cons; repeat split; try discriminate; apply not_elem_of_nil.
Qed.

(** [%f], [%e], [%g]: the text, and the flag [overflow] *)
Lemma fmtflt_prints `{!ShortSep} fvalue width precision flags t :
  float_text fvalue width precision flags = Some t ->
  prints_ret (fun size => fmtflt size fvalue width precision flags) (default [] t)
             (bool_decide (t = None)).
Proof.
  unfold float_text, fmtflt. fold (flt_sign fvalue flags). fold (infnan_text fvalue flags).
  destruct (infnan_text fvalue flags) as [w |] eqn:Hw.
  - intros [= <-]. destruct (infnan_text_short _ _ _ Hw) as [Hl Hnn].
    apply (prints_then (fun size => fmtstr size _ _ _ _)). cbn [default from_option id].
    replace (match flt_sign fvalue flags with Some c => c :: bytes_of w | None => bytes_of w end)
      with (opt_text (flt_sign fvalue flags) ++ bytes_of w) by (by destruct (flt_sign _ _)).
    apply infnan_print; [| done]. rewrite elem_of_app. pose proof (sign_not_nul fvalue flags). tauto.
  - destruct (flt_again _ _ _ _ _ _) as [[| ip fp ex pr es] |]; [| | done]; intros [= <-].
    + intros size ob u s _ _. cbn. by rewrite app_nil_r.
    + apply (prints_then (fun size => flt_emit size _ _ _ _ _ _ _ _ _)). apply flt_emit_prints.
Qed.

End Floats.
