(* ===== verification/SnprintfRun.v ===== *)
(** * The state machine of the formatter

    Every step produces text and consumes arguments in the same way whatever the array; every
    turn of the loop comes nearer to the end of the format. *)
From S2P Require Import Prelude Snprintf SnprintfSpec.

(** ** Nothing depends on the array

    What [m] does, what it returns and the text it adds are the same whatever the array and its size;
    the text has at most [n] characters, and what is returned satisfies [Q]. *)
Definition streams_to {A} (n : Z) (m : Z -> M pr A) (Q : A -> Prop) : Prop := forall t s, exists o u s',
  Z.of_nat (length u) <= n /\ (forall a, o = Ret a -> Q a) /\
  forall size ob, fits size ob -> counts (t ++ u) ->
  m size (written size ob t s) = (o, written size ob (t ++ u) s').
Abbreviation streams n m := (streams_to n m (fun _ => True)).

Lemma streams_weaken {A} n k (m : Z -> M pr A) (P Q : A -> Prop) : streams_to n m P -> n <= k ->
  (forall a, P a -> Q a) -> streams_to k m Q.
Proof.
  intros Hm Hn HPQ t s. destruct (Hm t s) as (o & u & s' & Hl & Hp & Hrun). exists o, u, s'.
  split; [lia |]. split; [by eauto | done].
Qed.

Lemma streams_ret {A} (a : A) (Q : A -> Prop) : Q a -> streams_to 0 (fun _ => mret a) Q.
Proof.
  intros HQ t s. exists (Ret a), [], s. split; [done |]. split; [by intros ? [= <-] |]. intros. by rewrite app_nil_r.
Qed.
Lemma streams_stop {A} (o : outcome A) (Q : A -> Prop) : (forall a, o <> Ret a) -> streams_to 0 (fun _ => stop o) Q.
Proof.
  intros Ho t s. exists o, [], s. split; [done |]. split; [by intros a E; destruct (Ho a) |]. intros. by rewrite app_nil_r.
Qed.
Lemma streams_fault {A} (Q : A -> Prop) : streams_to 0 (fun _ => @fault pr A) Q.
Proof. by apply (streams_stop Fault). Qed.

Lemma streams_bind {A B} n k (m : Z -> M pr A) (f : Z -> A -> M pr B) P Q : 0 <= k ->
  streams_to n m P -> (forall a, P a -> streams_to k (fun size => f size a) Q) ->
  streams_to (n + k) (fun size => m size ≫= f size) Q.
Proof.
  intros Hk Hm Hf t s. destruct (Hm t s) as (o & u & s1 & Hl & Hp & Hrun).
  destruct o as [a | | | | |];
    [destruct (Hf a (Hp a eq_refl) (t ++ u) s1) as (o & v & s2 & Hl' & Hq & Hrun'); exists o, (u ++ v), s2 |
     eexists _, u, s1; split; [lia |]; split; [|
     intros size ob Hfit Hc; unfold mbind, M_bind; rewrite Hrun by done; reflexivity]; discriminate ..].
  split; [rewrite length_app; lia |]. split; [done |].
  intros size ob Hfit. rewrite app_assoc. intros Hc. unfold mbind, M_bind.
  rewrite Hrun by eauto using counts_prefix. by apply Hrun'.
Qed.
(** The text comes from one of the two parts. *)
Lemma streams_read {A B} n (m : Z -> M pr A) (f : Z -> A -> M pr B) P Q : 0 <= n ->
  streams_to 0 m P -> (forall a, P a -> streams_to n (fun size => f size a) Q) ->
  streams_to n (fun size => m size ≫= f size) Q.
Proof. exact (streams_bind 0 n m f P Q). Qed.
Lemma streams_write {A B} n (m : Z -> M pr A) (f : Z -> A -> M pr B) P Q :
  streams_to n m P -> (forall a, P a -> streams_to 0 (fun size => f size a) Q) ->
  streams_to n (fun size => m size ≫= f size) Q.
Proof. intros Hm Hf. eapply (streams_weaken (n + 0)); [by eapply streams_bind | lia | done]. Qed.

Lemma prints_ret_streams {A} (m : Z -> M pr A) u a n (Q : A -> Prop) : prints_ret m u a ->
  Z.of_nat (length u) <= n -> Q a -> streams_to n m Q.
Proof.
  intros Hm Hn HQ t s. exists (Ret a), u, s. split; [done |]. split; [by intros ? [= <-] |]. intros. by apply Hm.
Qed.
Lemma prints_streams m u n : prints m u -> Z.of_nat (length u) <= n -> streams n m.
Proof. intros Hm Hn. by apply (prints_ret_streams m u tt). Qed.

Lemma streams_deref {A} (o : option A) : streams 0 (fun _ => deref o).
Proof. destruct o; [by apply streams_ret | apply streams_fault]. Qed.
Lemma streams_mem : streams 0 (fun _ => gets mem).
Proof. intros t s. exists (Ret (mem s)), [], s. split_and!; try done. intros. by rewrite app_nil_r. Qed.
Lemma streams_len : streams 0 (fun _ => gets len).
Proof. intros t s. exists (Ret (Z.of_nat (length t))), [], s. split_and!; try done. intros. by rewrite app_nil_r. Qed.
Lemma streams_put_mem m : streams 0 (fun _ => modify (put_mem m)).
Proof. intros t s. exists (Ret tt), [], (put_mem m s). split_and!; try done. intros. by rewrite app_nil_r. Qed.
Lemma streams_va_next : streams 0 (fun _ => va_next).
Proof.
  intros t s. destruct (args s) as [| a l] eqn:E.
  - exists Fault, [], s. split_and!; try done. intros. rewrite app_nil_r. unfold va_next.
    rewrite (bind_ret _ _ _ _ _ (gets_run _ _)). cbn. by rewrite E.
  - exists (Ret a), [], (put_args l s). split_and!; try done. intros. rewrite app_nil_r. unfold va_next.
    rewrite (bind_ret _ _ _ _ _ (gets_run _ _)). cbn. by rewrite E.
Qed.

Create HintDb streams.
#[export] Hint Resolve streams_mem streams_len streams_put_mem streams_va_next streams_fault streams_deref : streams.
#[export] Hint Extern 1 (streams_to 0 (fun _ => mret _) _) => apply streams_ret; exact I : streams.

(** Decomposes a computation that adds no text along its binds, tests and matches. *)
Ltac silent :=
  repeat first
    [ progress (cbv beta)
    | solve [eauto 2 with streams nocore]
    | match goal with
      | |- streams_to _ (fun size => match ?x with _ => _ end) _ => destruct x
      | |- streams_to 0 (fun size => mbind _ _) _ => eapply streams_read; [done | | intros ? _]
      end ].
(** The most that one turn of the loop adds: a field and a precision of INT_MAX, and the separators
    between the digits of a number. *)
Definition turn_max : Z := 2 * INT_MAX + 14000300.
(** The width and the precision of a conversion are integers. *)
Definition regs_ok (r : regs) : Prop := width r <= INT_MAX /\ -1 <= precision r <= INT_MAX.
Definition turn_fine (t : turn) : Prop := match t with Go r => regs_ok r | Overflow => True end.

Section Streams.
Context {lc : Lconv} `{!ShortSep}.

(** A string: the length that is counted first is the number of characters put. *)
Lemma fmtstr_len_put b : forall k p q, k <= INT_MAX -> (p = -1 \/ q = p - k) ->
  exists o, (forall s, fmtstr_len b k p s = (o, s)) /\
    match o with
    | Ret n => k <= n <= INT_MAX /\ exists u, Z.of_nat (length u) = n - k /\
        prints (fun size => fmtstr_put size b (bool_decide (p = -1)) q) u
    | Fault => True
    | _ => False
    end.
Proof.
  induction b as [| c b IH]; intros k p q Hk Hq; cbn [fmtstr_len fmtstr_put]; [by exists Fault |].
  destruct (decide (c <> NUL /\ (p = -1 \/ k < p))) as [[Hc Hp] | Hend].
  - unfold as_int. destruct (decide (INT_MIN <= k + 1 <= INT_MAX)) as [Hin |]; [| by exists Fault].
    destruct (IH (k + 1) p (if bool_decide (p = -1) then q else q - 1)) as (o & E & Ho);
      [lia | case_bool_decide; [by left | right; lia] |].
    exists o. split; [intros s; by rewrite (bind_ret _ _ _ _ _ (mret_run _ _)) |].
    destruct o as [n | | | | |]; try done. destruct Ho as [Hn (u & Hu & Hpr)]. split; [lia |].
    exists (c :: u). split; [simpl length; lia |].
    destruct (decide (c <> NUL /\ (bool_decide (p = -1) = true \/ 0 < q))) as [_ | []]; [by apply prints_cons |].
    split; [done |]. rewrite bool_decide_eq_true. lia.
  - exists (Ret k). split; [done |]. split; [lia |]. exists []. split; [simpl; lia |].
    destruct (decide (c <> NUL /\ (bool_decide (p = -1) = true \/ 0 < q))) as [[Hc Hp] |]; [| apply prints_nil].
    destruct Hend. rewrite bool_decide_eq_true in Hp. split; [done | lia].
Qed.

Lemma streams_fmtstr value w p fl : w <= INT_MAX -> streams turn_max (fun size => fmtstr size value w p fl).
Proof.
  intros Hw. unfold fmtstr. set (b := default _ value).
  destruct (fmtstr_len_put b 0 p p) as (o & E & Ho); [done | right; lia |].
  destruct o as [n | | | | |]; try done.
  - destruct Ho as [Hn (u & Hu & Hpr)].
    eapply prints_streams; [eapply prints_first; [exact E |]; apply padded_prints, Hpr |].
    unfold leading, trailing, turn_max. rewrite !length_app, !repeat_length. unfold INT_MAX in *.
    destruct (has fl _), (decide (w - n < 0)); lia.
  - intros t s. exists Fault, [], s. split_and!; try done. intros. rewrite app_nil_r. by apply bind_fault.
Qed.

Lemma streams_fmtint value base w p fl : w <= INT_MAX -> p <= INT_MAX ->
  streams turn_max (fun size => fmtint size value base w p fl).
Proof.
  intros Hw Hp. destruct (decide (INTMAX_MIN < value \/ has fl PRINT_F_UNSIGNED = true)) as [Hv | Hv].
  - eapply prints_streams; [by apply fmtint_prints |]. pose proof (int_text_length value base w p fl). unfold turn_max, INT_MAX in *. lia.
  - intros t s. exists Fault, [], s. split_and!; try done. intros. rewrite app_nil_r. unfold fmtint.
    apply bind_fault. destruct (has fl PRINT_F_UNSIGNED); [by destruct Hv; right |].
    rewrite decide_False by (unfold INTMAX_MIN in *; lia). apply bind_fault. unfold as_intmax.
    by rewrite decide_False by (unfold INTMAX_MIN in *; lia).
Qed.

Lemma streams_fmtflt x w p fl : w <= INT_MAX -> -1 <= p ->
  streams turn_max (fun size => fmtflt size x w p fl).
Proof.
  intros Hw Hp. destruct (float_text x w p fl) as [t |] eqn:Ht.
  { eapply prints_ret_streams; [by apply fmtflt_prints | | done]. destruct t as [t |]; [| done].
    pose proof (float_text_length _ _ _ _ _ Hp Ht). cbn [default from_option id]. unfold turn_max, INT_MAX in *. lia. }
  revert Ht. unfold float_text, fmtflt. fold (infnan_text x fl). destruct (infnan_text x fl); [done |].
  destruct (flt_again _ _ _ _ _ _) as [[] |]; [done.. |]. intros _.
  eapply streams_weaken; [apply (streams_stop Fault (fun _ => True)); done | done | done].
Qed.

Lemma streams_OUTCHAR c : streams turn_max (fun size => OUTCHAR size c).
Proof. by eapply prints_streams; [apply OUTCHAR_prints |]. Qed.

#[local] Ltac next_arg := eapply streams_read; [done | apply streams_va_next | intros [] _]; silent.
Lemma streams_uint : streams 0 (fun _ => va_uint).
Proof. next_arg. Qed.
Lemma streams_long : streams 0 (fun _ => va_long).
Proof. next_arg. Qed.
Lemma streams_ulong : streams 0 (fun _ => va_ulong).
Proof. next_arg. Qed.
Lemma streams_double : streams 0 (fun _ => va_double).
Proof. next_arg. Qed.
Lemma streams_ldouble : streams 0 (fun _ => va_ldouble).
Proof. next_arg. Qed.
Lemma streams_ptr : streams 0 (fun _ => va_ptr).
Proof. next_arg. Qed.
#[local] Hint Resolve streams_uint streams_long streams_ulong streams_double streams_ldouble streams_ptr : streams.
Lemma streams_va_int : streams_to 0 (fun _ => va_int) (fun z => z <= INT_MAX).
Proof.
  eapply streams_read; [done | apply streams_va_next | intros [z | | | |] _]; try apply streams_fault.
  apply streams_ret. unfold wrap_s, INT_MAX. pose proof (Z.mod_pos_bound (z + 2 ^ (32 - 1)) (2 ^ 32)). lia.
Qed.
Lemma streams_int : streams 0 (fun _ => va_int).
Proof. by eapply streams_weaken; [apply streams_va_int | |]. Qed.
Lemma streams_as_int z : streams_to 0 (fun _ => as_int z) (fun z => z <= INT_MAX).
Proof. unfold as_int. case_decide; [apply streams_ret; lia | apply streams_fault]. Qed.
Lemma streams_chars_at p : streams 0 (fun _ => chars_at p).
Proof. unfold chars_at. silent. Qed.
#[local] Hint Resolve streams_int streams_chars_at : streams.
Lemma streams_conv_signed c : streams 0 (fun _ => conv_signed c).
Proof. destruct c; cbn; silent. Qed.
Lemma streams_conv_unsigned c : streams 0 (fun _ => conv_unsigned c).
Proof. destruct c; cbn; silent. Qed.
Lemma streams_conv_count c : streams 0 (fun _ => conv_count c).
Proof. unfold conv_count. silent. Qed.
#[local] Hint Resolve streams_conv_signed streams_conv_unsigned streams_conv_count : streams.

(** Reads its argument, prints it and returns. *)
Lemma streams_convert {A B} (m : M pr A) (print : Z -> A -> M pr unit) (b : B) : streams 0 (fun _ => m) ->
  (forall a, streams turn_max (fun size => print size a)) ->
  streams turn_max (fun size => a ← m; print size a ;; mret b).
Proof.
  intros Hm Hp. eapply streams_read; [done | exact Hm |]. intros a _.
  eapply streams_write; [apply Hp | intros; by apply streams_ret].
Qed.
Lemma streams_silent {A} (m : Z -> M pr A) : streams 0 m -> streams turn_max m.
Proof. intros Hm. by eapply streams_weaken. Qed.
Lemma streams_conv_float r fl p : width r <= INT_MAX -> -1 <= p -> streams turn_max (fun size => conv_float size r fl p).
Proof.
  intros Hw Hp. unfold conv_float. eapply streams_read with (P := fun _ => True); [done | | intros; by apply streams_fmtflt].
  destruct (cflags r); silent.
Qed.

Lemma streams_conv_pointer r : regs_ok r -> streams turn_max (fun size => conv_pointer size r).
Proof.
  intros (Hw & _ & Hp). unfold conv_pointer. eapply streams_read; [done | apply streams_ptr | intros p _].
  case_decide; [by apply streams_fmtstr | by apply streams_fmtint].
Qed.

Lemma streams_convert_arg r : regs_ok r -> streams turn_max (fun size => convert_arg size r).
Proof.
  intros Hr. pose proof Hr as (Hw & Hp' & Hp). unfold convert_arg.
  case_decide; [apply streams_convert; [apply streams_conv_signed | intros; by apply streams_fmtint] |].
  case_decide; [apply streams_convert; [apply streams_conv_unsigned | intros; by apply streams_fmtint] |].
  do 5 (case_decide; [apply streams_conv_float; [done | by repeat case_decide] |]).
  case_decide; [apply streams_convert; [apply streams_int | intros; apply streams_OUTCHAR] |].
  case_decide; [eapply streams_read; [done | apply streams_ptr | intros p _];
    apply streams_convert; [apply streams_chars_at | intros; by apply streams_fmtstr] |].
  case_decide; [eapply streams_write; [by apply streams_conv_pointer | intros; by apply streams_ret] |].
  case_decide; [apply streams_silent; silent |].
  case_decide; [eapply streams_write; [apply streams_OUTCHAR | intros; by apply streams_ret] |].
  apply streams_silent. silent.
Qed.

Lemma streams_fetch r : regs_ok r -> streams_to 0 (fun _ => fetch r) regs_ok.
Proof.
  intros Hr. unfold fetch. destruct (format r) as [[| c f] |]; [by apply streams_ret.. | apply streams_fault].
Qed.
(** The next turn, after a fetch *)
Lemma streams_go r (f : regs -> regs) : regs_ok r -> (forall r', regs_ok r' -> regs_ok (f r')) ->
  streams_to 0 (fun _ => r' ← fetch r; mret (Go (f r'))) turn_fine.
Proof.
  intros Hr Hf. eapply streams_read; [done | by apply streams_fetch |]. intros r' Hr'. apply streams_ret. by apply Hf.
Qed.
Lemma streams_turn (m : M pr turn) : streams_to 0 (fun _ => m) turn_fine -> streams_to turn_max (fun _ => m) turn_fine.
Proof. intros Hm. by eapply streams_weaken. Qed.

(** One more digit of a width or of a precision *)
Lemma digit_fits n c : ISDIGIT c = true -> ~ (INT_MAX - CHARTOINT c) / 10 < n -> 10 * n + CHARTOINT c <= INT_MAX.
Proof.
  unfold ISDIGIT, CHARTOINT. rewrite andb_true_iff, !Z.leb_le. intros Hc Hn.
  pose proof (Z.mul_div_le (INT_MAX - (byte_Z c - 48)) 10). lia.
Qed.
Lemma digit_positive c : ISDIGIT c = true -> 0 <= CHARTOINT c.
Proof. unfold ISDIGIT, CHARTOINT. rewrite andb_true_iff, !Z.leb_le. lia. Qed.

Lemma streams_step_width r : regs_ok r -> streams_to 0 (fun _ => step_width r) turn_fine.
Proof.
  intros Hr. pose proof Hr as [Hw Hp]. unfold step_width. destruct (ISDIGIT (ch r)) eqn:Hd; [| case_decide].
  - case_decide; [by apply streams_ret |]. apply (streams_go _ (fun r => r)); [| done]. split; [by apply digit_fits | done].
  - eapply streams_read; [done | apply streams_va_int |]. intros w Hw'.
    eapply streams_read with (P := regs_ok); [done | | intros r' Hr'; by apply (streams_go _ (to_state _))].
    case_decide; [| by apply streams_ret].
    eapply streams_read; [done | apply streams_as_int |]. intros v Hv. by apply streams_ret.
  - by apply streams_ret.
Qed.
Lemma streams_step_precision r : regs_ok r -> streams_to 0 (fun _ => step_precision r) turn_fine.
Proof.
  intros [Hw Hp]. unfold step_precision. set (r0 := if decide (precision r = -1) then _ else r).
  assert (Hr0 : regs_ok r0 /\ 0 <= precision r0).
  { unfold r0, regs_ok. case_decide; cbn; unfold INT_MAX in *; lia. }
  clearbody r0. destruct Hr0 as [[Hw0 Hp0] Hpos]. destruct (ISDIGIT (ch r0)) eqn:Hd; [| case_decide].
  - case_decide; [by apply streams_ret |]. apply (streams_go _ (fun r => r)); [| done]. split; [done |].
    pose proof (digit_positive _ Hd). split; [cbn; lia | by apply digit_fits].
  - eapply streams_read; [done | apply streams_va_int |]. intros p Hpi.
    apply (streams_go _ (to_state _)); [| done]. split; [done |]. cbn. case_decide; unfold INT_MAX in *; lia.
  - by apply streams_ret.
Qed.
Lemma streams_step_mod r : regs_ok r -> streams_to 0 (fun _ => step_mod r) turn_fine.
Proof.
  intros Hr. unfold step_mod. eapply streams_read with (P := regs_ok); [done | | intros r' Hr'; by apply streams_ret].
  case_decide.
  - eapply streams_read; [done | by apply streams_fetch |]. intros r1 Hr1. case_decide; [| by apply streams_ret].
    eapply streams_read; [done | by apply streams_fetch |]. intros r2 Hr2. by apply streams_ret.
  - destruct (modifier_of (ch r)); [by apply streams_fetch | by apply streams_ret].
Qed.

Lemma streams_step r : regs_ok r -> streams_to turn_max (fun size => step size r) turn_fine.
Proof.
  intros Hr. unfold step. destruct (state r).
  - unfold step_default. eapply streams_write with (P := regs_ok); [| intros r' Hr'; by apply (streams_go _ (fun r => r))].
    case_decide; [eapply streams_weaken; [by apply (streams_ret _ regs_ok) | done | done] |].
    eapply streams_write; [apply streams_OUTCHAR | intros; by apply streams_ret].
  - apply streams_turn. unfold step_flags. destruct (flag_of (ch r)); [by apply (streams_go _ (fun r => r)) | by apply streams_ret].
  - by apply streams_turn, streams_step_width.
  - apply streams_turn. unfold step_dot. case_decide; [by apply (streams_go _ (fun r => r)) | by apply streams_ret].
  - by apply streams_turn, streams_step_precision.
  - by apply streams_turn, streams_step_mod.
  - unfold step_conv. eapply streams_write; [by apply streams_convert_arg | intros [] _; [by apply streams_ret |]].
    apply (streams_go r (fun r => mkRegs PRINT_S_DEFAULT (ch r) (format r) PRINT_C_NONE 0 0 (-1))); [done |].
    intros r' _. split; cbn; unfold INT_MAX; lia.
Qed.

Lemma streams_turns fuel r : regs_ok r -> streams (Z.of_nat fuel * turn_max) (fun size => turns size fuel r).
Proof.
  assert (Hmax : 0 <= turn_max) by done.
  assert (Hret : forall n b, streams (Z.of_nat n * turn_max) (fun _ => mret b : M pr bool)).
  { intros n b. eapply streams_weaken; [by apply (streams_ret b (fun _ => True)) | lia | done]. }
  revert r. induction fuel as [| fuel IH]; intros r Hr; cbn [turns]; case_decide; try apply Hret.
  - by apply (streams_stop Hang).
  - eapply streams_weaken; [| | done].
    + eapply streams_bind with (k := Z.of_nat fuel * turn_max); [lia | by apply streams_step |].
      intros [r' |] Ht; [by apply IH | apply Hret].
    + lia.
Qed.
End Streams.

(** ** The end of a call *)

Lemma place_result size t b : 0 < size -> size <= Z.of_nat (length b) ->
  <[room size t := NUL]> (place size t b) = result_in size t b.
Proof.
  intros Hs Hb. unfold result_in. rewrite decide_False by lia. unfold place.
  assert (length (take (room size t) t) = room size t) as Hl.
  { rewrite length_take. unfold room. lia. }
  rewrite insert_app_r_alt, Hl, Nat.sub_diag by lia.
  destruct (drop (room size t) b) as [| x d] eqn:E.
  { apply (f_equal length) in E. rewrite length_drop in E. unfold room in E. simpl in E. lia. }
  apply (f_equal (drop 1)) in E. rewrite drop_drop in E. cbn in E.
  replace (room size t + 1)%nat with (S (room size t)) in E by lia. by rewrite E.
Qed.

(** What the caller finds: the text, as far as it fits, and the NUL. *)
Definition returned (size : Z) (ob : option bytes) (overflow : bool) (t : bytes) (s : pr) : pr :=
  mkPr (result_in size t <$> ob) (Z.of_nat (length t)) (mem s) (args s)
       (if overflow then EOVERFLOW
        else if decide (INT_MAX <= Z.of_nat (length t)) then ERANGE else errno s).
Definition count_or_error (overflow : bool) (t : bytes) : Z :=
  if overflow then -1 else if decide (INT_MAX <= Z.of_nat (length t)) then -1
  else Z.of_nat (length t).

Lemma finish_run size ob overflow t s : fits size ob ->
  finish size overflow (written size ob t s)
  = (Ret (count_or_error overflow t), returned size ob overflow t s).
Proof.
  intros Hf. unfold finish. rewrite (bind_ret _ _ _ _ _ (gets_run _ _)). cbn [written len].
  set (w := mkPr (result_in size t <$> ob) (Z.of_nat (length t)) (mem s) (args s) (errno s)).
  erewrite bind_ret with (s' := w) (a := tt).
  - unfold count_or_error, returned, w. destruct overflow.
    + rewrite decide_True by tauto. done.
    + destruct (decide (INT_MAX <= Z.of_nat (length t))).
      * rewrite decide_True by tauto. done.
      * rewrite decide_False by (intros [|]; done). done.
  - assert (forall i, i = Z.of_nat (room size t) -> 0 < size ->
      store i NUL (written size ob t s) = (Ret tt, w)) as Hst.
    { intros i -> Hs. destruct ob as [b |]; [| simpl in Hf; lia]. unfold store.
      rewrite (bind_ret _ _ _ _ _ (gets_run _ _)). cbn [written str fmap option_fmap option_map deref].
      rewrite (bind_ret _ _ _ _ _ (mret_run _ _)), place_length by done.
      simpl in Hf. rewrite decide_True by (unfold room; lia).
      rewrite Nat2Z.id, modify_run, place_result by done. done. }
    case_decide; [apply Hst; unfold room; lia |].
    case_decide; [apply Hst; unfold room; lia |].
    unfold w. rewrite mret_run. unfold written. destruct ob as [b |]; [| done]. cbn.
    unfold result_in, place, room. rewrite decide_True, Nat.min_r by lia.
    by replace (Z.to_nat (size - 1)) with O by lia.
Qed.

(** ** The loop ends *)

Definition rank (st : print_s) : nat :=
  match st with
  | PRINT_S_DEFAULT => 0 | PRINT_S_FLAGS => 1 | PRINT_S_WIDTH => 2 | PRINT_S_DOT => 3
  | PRINT_S_PRECISION => 4 | PRINT_S_MOD => 5 | PRINT_S_CONV => 6
  end.
Definition left_over (f : option string) : nat :=
  match f with Some f => S (String.length f) | None => 0 end.
(** How many turns there can be *)
Definition measure (r : regs) : nat :=
  if decide (ch r = NUL) then 0 else 7 * left_over (format r) - rank (state r).

(** What follows a character that is not the terminating NUL *)
Definition well (r : regs) : Prop := ch r <> NUL -> is_Some (format r).

(** [m] comes back, and what it returns satisfies [Q], or its behaviour is undefined. *)
Definition post {A} (m : M pr A) (Q : A -> Prop) : Prop := forall s,
  match m s with
  | (Ret a, _) => Q a
  | (Fault, _) => True
  | _ => False
  end.

Lemma post_ret {A} (a : A) (Q : A -> Prop) : Q a -> post (mret a) Q.
Proof. intros HQ s. exact HQ. Qed.
Lemma post_bind {A B} (m : M pr A) (f : A -> M pr B) P Q :
  post m P -> (forall a, P a -> post (f a) Q) -> post (m ≫= f) Q.
Proof.
  intros Hm Hf s. specialize (Hm s). unfold mbind, M_bind. destruct (m s) as [[] s1]; try done.
  by apply Hf.
Qed.
Lemma post_weaken {A} (m : M pr A) (P Q : A -> Prop) : post m P -> (forall a, P a -> Q a) -> post m Q.
Proof. intros Hm HPQ s. specialize (Hm s). destruct (m s) as [[] ?]; try done. by apply HPQ. Qed.

(** Comes back *)
Abbreviation back m := (post m (fun _ => True)).

Lemma back_bind {A B} (m : M pr A) (f : A -> M pr B) : back m -> (forall a, back (f a)) -> back (m ≫= f).
Proof. intros Hm Hf. apply post_bind with (fun _ => True); [done |]. intros a _. apply Hf. Qed.
Lemma back_then {A B} (m : M pr A) (f : A -> M pr B) Q : back m -> (forall a, post (f a) Q) -> post (m ≫= f) Q.
Proof. intros Hm Hf. apply post_bind with (fun _ => True); [done |]. intros a _. apply Hf. Qed.
Lemma back_ret {A} (a : A) : back (mret a).
Proof. by apply post_ret. Qed.
Lemma back_fault {A} : back (@fault pr A).
Proof. by intros s. Qed.
Lemma back_deref {A} (o : option A) : back (deref (S := pr) o).
Proof. destruct o; [apply back_ret | apply back_fault]. Qed.
Lemma back_gets {A} (f : pr -> A) : back (gets f).
Proof. by intros s. Qed.
Lemma back_modify (f : pr -> pr) : back (modify f).
Proof. by intros s. Qed.

Create HintDb back.
#[export] Hint Resolve back_ret back_fault back_deref back_gets back_modify : back.

Ltac backs :=
  repeat first
    [ progress (cbv beta)
    | solve [eauto 2 with back nocore]
    | match goal with
      | |- post (match ?x with _ => _ end) _ => destruct x
      | |- back (mbind _ _) => apply back_bind; [| intros ?]
      | |- post (when ?b _) _ => unfold when
      end ].

Section Back.
Context `{Lconv} (size : Z).

Lemma back_va : back va_int /\ back va_uint /\ back va_long /\ back va_ulong /\ back va_double /\
  back va_ldouble /\ back va_ptr.
Proof. repeat split; (apply back_bind; [unfold va_next; backs | intros []]); backs. Qed.

Lemma back_OUTCHAR c : back (OUTCHAR size c).
Proof. unfold OUTCHAR, store. backs. Qed.
#[local] Hint Resolve back_OUTCHAR : back.
Lemma back_repeat n c : back (out_repeat size n c).
Proof. induction n; cbn; backs. Qed.
Lemma back_leading z c : back (out_leading size z c).
Proof. apply back_repeat. Qed.
Lemma back_trailing z c : back (out_trailing size z c).
Proof. apply back_repeat. Qed.
Lemma back_chars t : back (out_chars size t).
Proof. induction t; cbn; backs. Qed.
Lemma back_opt c : back (out_opt size c).
Proof. destruct c; cbn; backs. Qed.
#[local] Hint Resolve back_leading back_trailing back_chars back_opt : back.
Lemma back_digits ds n : back (put_digits size ds n).
Proof. induction ds; cbn; unfold printsep; backs. Qed.
Lemma back_as_int z : back (as_int z).
Proof. unfold as_int. backs. Qed.
Lemma back_as_intmax z : back (as_intmax z).
Proof. unfold as_intmax. backs. Qed.
#[local] Hint Resolve back_digits back_as_int back_as_intmax : back.
Lemma back_getnumsep n : back (getnumsep n).
Proof. unfold getnumsep. backs. Qed.
Lemma back_fmtstr_len b strln precision : back (fmtstr_len b strln precision).
Proof. revert strln. induction b; intros; cbn; backs. Qed.
Lemma back_fmtstr_put b noprec precision : back (fmtstr_put size b noprec precision).
Proof. revert precision. induction b; intros; cbn; backs. Qed.
#[local] Hint Resolve back_getnumsep back_fmtstr_len back_fmtstr_put : back.
Lemma back_fmtstr v w p f : back (fmtstr size v w p f).
Proof. unfold fmtstr. backs. Qed.
Lemma back_fmtint v b w p f : back (fmtint size v b w p f).
Proof. unfold fmtint. backs. Qed.
Lemma back_fmtflt v w p f : back (fmtflt size v w p f).
Proof. pose proof back_fmtstr. unfold fmtflt, flt_emit. backs; auto. Qed.
Lemma back_chars_at p : back (chars_at p).
Proof. unfold chars_at. backs. Qed.
#[local] Hint Resolve back_fmtstr back_fmtint back_fmtflt back_chars_at : back.

Lemma back_convert_arg r : back (convert_arg size r).
Proof.
  pose proof back_va. unfold convert_arg, conv_signed, conv_unsigned, conv_float, conv_pointer, conv_count.
  backs; tauto.
Qed.
End Back.

(** [r'] is reached from [r] after at least [n] characters. *)
Definition after (n : nat) (r r' : regs) : Prop :=
  well r' /\ (ch r' = NUL \/ (left_over (format r') + n <= left_over (format r))%nat).

Lemma fetch_post r : post (fetch r) (fun r' => after 1 r r' /\ state r' = state r).
Proof.
  unfold fetch, after, well. destruct (format r) as [[| c f] |] eqn:E; [| | by intros s];
    apply post_ret; cbn; rewrite ?E.
  - split; [| done]. split; [by intros [] | by left].
  - split; [| done]. split; [by eauto | right; simpl; lia].
Qed.

(** A turn that leaves [r] for [r'] *)
Definition nearer (r r' : regs) : Prop := well r' /\ (measure r' < measure r)%nat.
Definition turn_ok (r : regs) (t : turn) : Prop :=
  match t with Go r' => nearer r r' | Overflow => True end.

Lemma nearer_state r r' : well r -> ch r <> NUL -> ch r' = ch r -> format r' = format r ->
  (rank (state r) < rank (state r'))%nat -> nearer r r'.
Proof.
  intros Hw Hc Hch Hf Hr. unfold nearer, well, measure in *. rewrite Hch, Hf.
  split; [done |]. rewrite !decide_False by done. destruct (Hw Hc) as [f Hsome]. rewrite Hsome.
  simpl. assert (rank (state r') <= 6)%nat by (destruct (state r'); simpl; lia). lia.
Qed.
Lemma nearer_after r r0 r' : well r -> ch r <> NUL -> format r0 = format r -> after 1 r0 r' ->
  forall r'', ch r'' = ch r' -> format r'' = format r' -> nearer r r''.
Proof.
  intros Hw Hc Hf0 [Hw' Hl] r'' Hch Hf. unfold nearer, well, measure in *. rewrite Hch, Hf, Hf0 in *.
  split; [done |]. rewrite (decide_False (P := ch r = NUL)) by done.
  destruct (Hw Hc) as [f Hsome]. rewrite Hsome in *. simpl left_over in *.
  assert (rank (state r) <= 6)%nat by (destruct (state r); simpl; lia).
  case_decide as Hd; [lia |]. destruct Hl as [| Hl]; [done |]. lia.
Qed.

Section Ends.
Context `{Lconv} (size : Z).

(** A fetch after some changes of the registers, and further changes after it *)
Lemma fetch_turn r r0 (f : regs -> regs) : well r -> ch r <> NUL -> format r0 = format r ->
  (forall r', ch (f r') = ch r' /\ format (f r') = format r') ->
  post (r' ← fetch r0; mret (Go (f r'))) (turn_ok r).
Proof.
  intros Hw Hc Hf0 Hf. eapply post_bind; [apply fetch_post |]. intros r' [Ha _]. apply post_ret.
  destruct (Hf r'). cbn. by eapply nearer_after.
Qed.

Lemma after_trans r r1 r2 : after 1 r r1 -> ch r1 <> NUL -> after 1 r1 r2 -> after 1 r r2.
Proof.
  intros [_ [|]] Hc [Hw Hl]; [done |]. split; [done |]. destruct Hl; [by left | right; lia].
Qed.

Lemma step_mod_post r : well r -> ch r <> NUL -> state r = PRINT_S_MOD ->
  post (step_mod r) (turn_ok r).
Proof.
  intros Hw Hc E. unfold step_mod.
  apply post_bind with (fun r' => r' = r \/ exists r0, after 1 r r0 /\ ch r' = ch r0 /\ format r' = format r0).
  - case_decide.
    + eapply post_bind; [apply fetch_post |]. intros r1 [Ha _]. case_decide as Hh.
      * eapply post_bind; [apply fetch_post |]. intros r2 [Ha2 _]. apply post_ret. right.
        exists r2. split; [| done]. eapply after_trans; [done | by rewrite Hh | done].
      * apply post_ret. right. by exists r1.
    + destruct (modifier_of (ch r)); [| apply post_ret; by left].
      eapply post_weaken; [apply fetch_post |]. intros r1 [Ha _]. right. by exists r1.
  - intros r' [-> | (r0 & Ha & Hch & Hf)]; apply post_ret.
    + apply nearer_state; rewrite ?E; try done; simpl; lia.
    + eapply nearer_after; try done.
Qed.

Lemma step_post r : well r -> ch r <> NUL -> post (step size r) (turn_ok r).
Proof.
  intros Hw Hc. pose proof back_va as Hva. unfold step. destruct (state r) eqn:E.
  - unfold step_default. eapply post_bind with (P := fun r' => format r' = format r).
    { case_decide; [by apply post_ret |]. apply back_then; [apply back_OUTCHAR |].
      intros _. by apply post_ret. }
    intros r0 Hf0. by apply (fetch_turn r r0 (fun r => r)).
  - unfold step_flags. destruct (flag_of (ch r)); [by apply (fetch_turn r _ (fun r => r)) |].
    apply post_ret, nearer_state; rewrite ?E; try done; simpl; lia.
  - unfold step_width. destruct (ISDIGIT (ch r)); [| case_decide].
    + case_decide; [by apply post_ret | by apply (fetch_turn r _ (fun r => r))].
    + apply back_then; [tauto |]. intros w.
      eapply post_bind with (P := fun r' => format r' = format r).
      { case_decide; [| by apply post_ret]. apply back_then; [apply back_as_int |].
        intros z. by apply post_ret. }
      intros r0 Hf0. by apply (fetch_turn r r0 (to_state PRINT_S_DOT)).
    + apply post_ret, nearer_state; rewrite ?E; try done; simpl; lia.
  - unfold step_dot. case_decide; [by apply (fetch_turn r _ (fun r => r)) |].
    apply post_ret, nearer_state; rewrite ?E; try done; simpl; lia.
  - unfold step_precision. set (r0 := if decide (precision r = -1) then _ else r).
    assert (format r0 = format r /\ ch r0 = ch r /\ state r0 = state r) as (Hf0 & Hc0 & Hs0).
    { unfold r0. by case_decide. }
    destruct (ISDIGIT (ch r0)); [| case_decide].
    + case_decide; [by apply post_ret | by apply (fetch_turn r _ (fun r => r))].
    + apply back_then; [tauto |]. intros p. by apply (fetch_turn r _ (to_state PRINT_S_MOD)).
    + apply post_ret, nearer_state; rewrite ?E; try done; simpl; lia.
  - by apply step_mod_post.
  - unfold step_conv. apply back_then; [apply back_convert_arg |]. intros [|]; [by apply post_ret |].
    by apply (fetch_turn r r (fun r => mkRegs PRINT_S_DEFAULT (ch r) (format r) PRINT_C_NONE 0 0 (-1))).
Qed.

(** With a turn for each unit of the measure, the loop comes back. *)
Lemma turns_back fuel r : well r -> (measure r <= fuel)%nat -> back (turns size fuel r).
Proof.
  revert r. induction fuel as [| fuel IH]; intros r Hw Hm; cbn [turns]; case_decide as Hc;
    try apply back_ret.
  - unfold measure in Hm. rewrite decide_False in Hm by done. destruct (Hw Hc) as [f Hf].
    rewrite Hf in Hm. cbn [left_over] in Hm. assert (rank (state r) <= 6)%nat by (destruct (state r); simpl; lia).
    lia.
  - eapply post_bind; [by apply step_post |]. intros [r' |] Ht; [| apply back_ret].
    destruct Ht as [Hw' Hlt]. apply IH; [done | lia].
Qed.

Lemma vsnprintf_body_back fmt : back (vsnprintf_body size fmt).
Proof.
  unfold vsnprintf_body. apply back_then; [apply back_modify |]. intros _.
  destruct fmt as [| c fmt].
  - eapply post_bind with (P := fun r => ch r = NUL); [by apply post_ret |]. intros r Hr.
    apply back_bind; [| intros; unfold finish, store; backs]. apply turns_back; [by unfold well |].
    unfold measure. rewrite decide_True by done. lia.
  - eapply post_bind with (P := fun r => format r = Some fmt); [by apply post_ret |]. intros r Hr.
    apply back_bind; [| intros; unfold finish, store; backs].
    apply turns_back; [unfold well; by eauto |].
    unfold measure. rewrite Hr. cbn [left_over String.length]. case_decide; lia.
Qed.
End Ends.
