(* ===== verification/SnprintfItems.v ===== *)
(** * Formats as sequences of directives

    The grammar of format strings that C99 (7.19.6.1) gives, with the arguments of each
    directive, the text that it stands for, and the reading of such a format by the state
    machine. *)
From Stdlib Require Import Floats.SpecFloat.
From stdpp Require Import relations.
From S2P Require Import Prelude Snprintf SnprintfSpec SnprintfRun.

(** ** Syntax *)

Inductive flag : Set := Minus | Plus | Space | Alt | Zero | Quote.
Definition flag_char (f : flag) : ascii :=
  match f with
  | Minus => "-" | Plus => "+" | Space => " " | Alt => "#" | Zero => "0" | Quote => "'"
  end.
Definition flag_bit (f : flag) : Z :=
  match f with
  | Minus => PRINT_F_MINUS | Plus => PRINT_F_PLUS | Space => PRINT_F_SPACE | Alt => PRINT_F_NUM
  | Zero => PRINT_F_ZERO | Quote => PRINT_F_QUOTE
  end.

(** A width or a precision: none, digits, or an argument *)
Inductive amount : Set :=
| Absent
| Digits (ds : string)
| Star (z : Z).

Inductive modifier : Set := Mnone | Mhh | Mh | Ml | ML | Mj | Mt | Mz.
Definition modifier_text (m : modifier) : string :=
  match m with
  | Mnone => "" | Mhh => "hh" | Mh => "h" | Ml => "l" | ML => "L" | Mj => "j" | Mt => "t" | Mz => "z"
  end.
Definition modifier_flag (m : modifier) : print_c :=
  match m with
  | Mnone => PRINT_C_NONE | Mhh => PRINT_C_CHAR | Mh => PRINT_C_SHORT | Ml => PRINT_C_LONG
  | ML => PRINT_C_LDOUBLE | Mj => PRINT_C_INTMAX | Mt => PRINT_C_PTRDIFF | Mz => PRINT_C_SIZE
  end.

(** A conversion with its argument; the character selects among those of the same kind. *)
Inductive conv : Set :=
| Cint (upper : bool) (z : Z)          (* i or d *)
| Cuint (c : ascii) (z : Z)            (* u, o, x or X *)
| Cfloat (c : ascii) (f : spec_float)  (* a, A, e, E, f, F, g or G *)
| Cchar (z : Z)
| Cstr (p : Z)
| Cptr (p : Z)
| Ccount (p : Z)
| Cpercent.

Inductive item : Set :=
| Lit (c : ascii)
| Dir (fs : list flag) (width precision : amount) (m : modifier) (c : conv).

Definition conv_char (c : conv) : ascii :=
  match c with
  | Cint upper _ => if upper then "i" else "d"
  | Cuint c _ | Cfloat c _ => c
  | Cchar _ => "c" | Cstr _ => "s" | Cptr _ => "p" | Ccount _ => "n" | Cpercent => "%"
  end.

(** The conversions the selecting characters stand for *)
Definition conv_ok (c : conv) : bool :=
  match c with
  | Cuint c _ => bool_decide (c ∈ ["u"; "o"; "x"; "X"]%char)
  | Cfloat c _ => bool_decide (c ∈ ["a"; "A"; "e"; "E"; "f"; "F"; "g"; "G"]%char)
  | _ => true
  end.

Fixpoint all_digits (ds : string) : bool :=
  match ds with
  | EmptyString => true
  | String c ds => ISDIGIT c && all_digits ds
  end.

(** A width has a first digit that is not the flag 0; numbers do not exceed INT_MAX. *)
Definition width_ok (w : amount) : bool :=
  match w with
  | Absent => true
  | Digits ds => all_digits ds && bool_decide (digits_value 0 ds <= INT_MAX)
                 && match ds with String c _ => bool_decide (c <> "0"%char) | EmptyString => false end
  | Star z => bool_decide (s32 z <> INT_MIN)
  end.
Definition precision_ok (p : amount) : bool :=
  match p with
  | Digits ds => all_digits ds && bool_decide (digits_value 0 ds <= INT_MAX)
  | _ => true
  end.
Definition item_ok (i : item) : bool :=
  match i with
  | Lit c => bool_decide (c <> "%"%char) && bool_decide (c <> NUL)
  | Dir _ w p _ c => width_ok w && precision_ok p && conv_ok c
  end.

(** ** The format string and the arguments *)

Definition flags_text (fs : list flag) : string :=
  foldr (fun f t => String (flag_char f) t) "" fs.
Definition width_text (w : amount) : string :=
  match w with Absent => "" | Digits ds => ds | Star _ => "*" end.
Definition precision_text (p : amount) : string :=
  match p with Absent => "" | Digits ds => String "." ds | Star _ => ".*" end.
Definition item_text (i : item) : string :=
  match i with
  | Lit c => String c ""
  | Dir fs w p m c =>
    String "%" (flags_text fs +:+ width_text w +:+ precision_text p +:+ modifier_text m +:+
                String (conv_char c) "")
  end.
Definition format_text (items : list item) : string := foldr (fun i t => item_text i +:+ t) "" items.

Definition amount_args (a : amount) : list arg := match a with Star z => [A_int z] | _ => [] end.
(** The types of 64 bits *)
Definition is_long (c : print_c) : bool :=
  match c with PRINT_C_LONG | PRINT_C_SIZE | PRINT_C_INTMAX | PRINT_C_PTRDIFF => true | _ => false end.
Definition conv_args (c : conv) (cf : print_c) : list arg :=
  match c with
  | Cint _ z | Cuint _ z => [if is_long cf then A_long z else A_int z]
  | Cfloat _ f => [match cf with PRINT_C_LDOUBLE => A_ldouble f | _ => A_double f end]
  | Cchar z => [A_int z]
  | Cstr p | Cptr p | Ccount p => [A_ptr p]
  | Cpercent => []
  end.
Definition item_args (i : item) : list arg :=
  match i with
  | Lit _ => []
  | Dir _ w p m c => amount_args w ++ amount_args p ++ conv_args c (modifier_flag m)
  end.
Definition format_args (items : list item) : list arg := items ≫= item_args.

(** ** The meaning of a directive *)

Definition width_value (w : amount) : Z :=
  match w with Absent => 0 | Digits ds => digits_value 0 ds | Star z => Z.abs (s32 z) end.
Definition precision_value (p : amount) : Z :=
  match p with
  | Absent => -1
  | Digits ds => digits_value 0 ds
  | Star z => if decide (s32 z < 0) then -1 else s32 z
  end.
(** A negative width argument is a flag and a width. *)
Definition flags_value (fs : list flag) (w : amount) : Z :=
  let fl := foldl (fun a f => Z.lor a (flag_bit f)) 0 fs in
  match w with Star z => if decide (s32 z < 0) then Z.lor fl PRINT_F_MINUS else fl | _ => fl end.

(** The value of an integer argument, at the width its modifier gives it *)
Definition signed_value (cf : print_c) (z : Z) : Z :=
  match cf with
  | PRINT_C_CHAR => s8 z
  | PRINT_C_SHORT => s16 z
  | _ => if is_long cf then s64 z else s32 z
  end.
Definition unsigned_value (cf : print_c) (z : Z) : Z :=
  match cf with
  | PRINT_C_CHAR => u8 z
  | PRINT_C_SHORT => u16 z
  | _ => if is_long cf then u64 z else u32 z
  end.
Definition cell_width (cf : print_c) : Z :=
  match cf with
  | PRINT_C_CHAR => 8
  | PRINT_C_SHORT => 16
  | _ => if is_long cf then 64 else 32
  end.
Definition uint_base (c : ascii) : Z :=
  if decide (c = "o"%char) then 8 else if decide (c = "u"%char) then 10 else 16.
Definition uint_flags (c : ascii) (fl : Z) : Z :=
  Z.lor (if decide (c = "X"%char) then Z.lor fl PRINT_F_UP else fl) PRINT_F_UNSIGNED.
Definition float_flags (c : ascii) (fl : Z) : Z :=
  let fl := if decide (c = "A"%char \/ c = "E"%char \/ c = "F"%char \/ c = "G"%char)
            then Z.lor fl PRINT_F_UP else fl in
  if decide (c = "e"%char \/ c = "E"%char) then Z.lor fl PRINT_F_TYPE_E
  else if decide (c = "g"%char \/ c = "G"%char) then Z.lor fl PRINT_F_TYPE_G else fl.
Definition float_precision (c : ascii) (p : Z) : Z :=
  if decide (c = "g"%char \/ c = "G"%char) then if decide (p = 0) then 1 else p else p.

Section Meaning.
Context {lc : Lconv}.

(** The characters a string argument shows, if the code may read them *)
Definition string_out (m : gmap Z obj) (p precision : Z) : option (option bytes) :=
  if decide (p = 0) then Some None
  else match m !! p with
       | Some (OBytes b) =>
         if decide (NUL ∈ b /\ Z.of_nat (length (shown precision b)) <= INT_MAX) then Some (Some b)
         else None
       | _ => None
       end.

(** The text of a conversion and the objects after it, [l] characters having been produced;
    None when an argument is not one the conversion is defined for. *)
Definition conv_out (c : conv) (cf : print_c) (fl w p : Z) (m : gmap Z obj) (l : Z)
    : option (bytes * gmap Z obj) :=
  match c with
  | Cint _ z =>
    if decide (signed_value cf z = INTMAX_MIN) then None
    else Some (int_text (signed_value cf z) 10 w p fl, m)
  | Cuint c z => Some (int_text (unsigned_value cf z) (uint_base c) w p (uint_flags c fl), m)
  | Cfloat c f =>
    let f := match cf with PRINT_C_LDOUBLE => f | _ => ld_of_double f end in
    t ← float_text f w (float_precision c p) (float_flags c fl);
    t ← t; Some (t, m)
  | Cchar z => Some ([Z_byte z], m)
  | Cstr q => b ← string_out m q p; Some (str_text b w p fl, m)
  | Cptr q =>
    Some (if decide (q = 0) then field (has fl PRINT_F_MINUS) w (bytes_of "(nil)")
          else int_text q 16 w p (Z.lor (Z.lor fl PRINT_F_NUM) PRINT_F_UNSIGNED), m)
  | Ccount q =>
    match m !! q with
    | Some (OCell b _) =>
      if decide (b = cell_width cf /\ q <> 0) then Some ([], <[q := OCell b (wrap_s b l)]> m) else None
    | _ => None
    end
  | Cpercent => Some (["%"%char], m)
  end.

Definition item_out (i : item) (m : gmap Z obj) (l : Z) : option (bytes * gmap Z obj) :=
  match i with
  | Lit c => Some ([c], m)
  | Dir fs w p md c =>
    conv_out c (modifier_flag md) (flags_value fs w) (width_value w) (precision_value p) m l
  end.

(** The text of a format *)
Fixpoint format_out (items : list item) (m : gmap Z obj) (t : bytes) : option (bytes * gmap Z obj) :=
  match items with
  | [] => Some (t, m)
  | i :: items =>
    '(u, m) ← item_out i m (Z.of_nat (length t)); format_out items m (t ++ u)
  end.
End Meaning.

(** ** The machine as a step relation *)

Section Machine.
Context {lc : Lconv} (size : Z).

(** One turn of the loop *)
Definition one (x y : regs * pr) : Prop :=
  ch (fst x) <> NUL /\ step size (fst x) (snd x) = (Ret (Go (fst y)), snd y).

(** The loop, which comes back, ends where a chain of turns ends. *)
Lemma turns_chain fuel r s r' s' :
  rtc one (r, s) (r', s') -> ch r' = NUL -> fst (turns size fuel r s) <> Hang ->
  turns size fuel r s = (Ret false, s').
Proof.
  intros Hrtc Hend. remember (r, s) as x eqn:Hx. remember (r', s') as y eqn:Hy.
  revert fuel r s Hx. induction Hrtc as [x | x [r1 s1] y [Hc Hstep] Hrtc IH]; intros fuel r s ->.
  - injection Hy as -> ->. intros _. destruct fuel; cbn [turns]; by rewrite decide_True by done.
  - cbn in Hc, Hstep. destruct fuel as [| fuel]; cbn [turns]; rewrite decide_False by done; [done |].
    rewrite (bind_ret _ _ _ _ _ Hstep). by apply IH.
Qed.

(** The registers in front of the rest [f] of the format *)
Definition in_front (st : print_s) (cf : print_c) (fl w p : Z) (f : string) : regs :=
  match f with
  | EmptyString => mkRegs st NUL None cf fl w p
  | String c f => mkRegs st c (Some f) cf fl w p
  end.

Lemma fetch_run r f s : format r = Some f ->
  fetch r s = (Ret (in_front (state r) (cflags r) (flags r) (width r) (precision r) f), s).
Proof. unfold fetch. intros ->. by destruct f. Qed.
Lemma fetch_then {A} r f s (k : regs -> M pr A) : format r = Some f ->
  (fetch r ≫= k) s = k (in_front (state r) (cflags r) (flags r) (width r) (precision r) f) s.
Proof. intros Hf. by rewrite (bind_ret _ _ _ _ _ (fetch_run r f s Hf)). Qed.

(** What the first character of a text is, if it has one *)
Definition starts (P : ascii -> bool) (f : string) : Prop :=
  match f with String c _ => P c = true /\ c <> NUL | EmptyString => False end.

Definition not_flag (c : ascii) : bool := match flag_of c with Some _ => false | None => true end.
Definition not_amount (c : ascii) : bool := negb (ISDIGIT c) && bool_decide (c <> "*"%char).

Lemma state_in_front st cf fl w p f : state (in_front st cf fl w p f) = st.
Proof. by destruct f. Qed.

Lemma walk_flags fs fl w p f s :
  rtc one (in_front PRINT_S_FLAGS PRINT_C_NONE fl w p (flags_text fs +:+ f), s)
          (in_front PRINT_S_FLAGS PRINT_C_NONE (foldl (fun a f => Z.lor a (flag_bit f)) fl fs) w p f, s).
Proof.
  revert fl. induction fs as [| b fs IH]; intros fl; [by apply rtc_refl |].
  eapply rtc_l; [| apply (IH (Z.lor fl (flag_bit b)))].
  split; [by destruct b |]. cbn [fst snd]. unfold step. rewrite state_in_front.
  unfold step_flags. replace (flag_of _) with (Some (flag_bit b)) by (by destruct b).
  cbn. by erewrite fetch_then.
Qed.

Lemma walk_to_width cf fl w p f s : starts not_flag f ->
  rtc one (in_front PRINT_S_FLAGS cf fl w p f, s) (in_front PRINT_S_WIDTH cf fl w p f, s).
Proof.
  destruct f as [| c f]; [done |]. intros [Hf Hc]. apply rtc_once. split; [done |]. cbn.
  unfold step_flags. unfold not_flag in Hf. cbn. by destruct (flag_of c).
Qed.

Lemma digit_step acc d : 0 <= d -> (INT_MAX - d) / 10 < acc <-> INT_MAX < 10 * acc + d.
Proof.
  intros Hd. unfold INT_MAX. split; intros H.
  - pose proof (Z.mul_succ_div_gt (2147483647 - d) 10). lia.
  - apply Z.div_lt_upper_bound; lia.
Qed.

Lemma ISDIGIT_range c : ISDIGIT c = true -> 48 <= byte_Z c <= 57.
Proof. unfold ISDIGIT. intros [H1%Z.leb_le H2%Z.leb_le]%andb_true_iff. done. Qed.

Lemma ISDIGIT_not_nul c : ISDIGIT c = true -> c <> NUL.
Proof. by intros ? ->. Qed.

Lemma digits_value_mono acc ds : 0 <= acc -> all_digits ds = true -> acc <= digits_value acc ds.
Proof.
  revert acc. induction ds as [| c ds IH]; intros acc Ha; cbn; [lia |]. intros [Hc Hds]%andb_true_iff.
  apply ISDIGIT_range in Hc as Hr. unfold is_digit, ISDIGIT in *. rewrite Hc.
  etransitivity; [| apply IH; [lia | done]]. lia.
Qed.

(** Digits are read as a number while it does not exceed INT_MAX. *)
Lemma walk_width_digits cf fl w p ds f s : 0 <= w ->
  all_digits ds = true -> digits_value w ds <= INT_MAX ->
  rtc one (in_front PRINT_S_WIDTH cf fl w p (ds +:+ f), s)
          (in_front PRINT_S_WIDTH cf fl (digits_value w ds) p f, s).
Proof.
  revert w. induction ds as [| c ds IH]; intros w Hw; [intros; by apply rtc_refl |].
  cbn. intros [Hc Hds]%andb_true_iff. apply ISDIGIT_range in Hc as Hr.
  assert (c <> NUL) by (by apply ISDIGIT_not_nul).
  unfold is_digit, ISDIGIT in *. rewrite Hc. intros Hmax. assert (0 <= byte_Z c - 48) as Hd by lia.
  pose proof (digits_value_mono (10 * w + (byte_Z c - 48)) ds ltac:(lia) Hds) as Hmono.
  eapply rtc_l; [| apply (IH (10 * w + (byte_Z c - 48))); [lia | done..]].
  change (String c ds +:+ f) with (String c (ds +:+ f)).
  split; [done |]. cbn. unfold step_width, ISDIGIT. cbn [ch width]. rewrite Hc.
  rewrite decide_False by (unfold CHARTOINT; rewrite digit_step by done; lia).
  by erewrite fetch_then.
Qed.

Lemma walk_precision_digits cf fl w p ds f s : 0 <= p ->
  all_digits ds = true -> digits_value p ds <= INT_MAX ->
  rtc one (in_front PRINT_S_PRECISION cf fl w p (ds +:+ f), s)
          (in_front PRINT_S_PRECISION cf fl w (digits_value p ds) f, s).
Proof.
  revert p. induction ds as [| c ds IH]; intros p Hp; [intros; by apply rtc_refl |].
  cbn. intros [Hc Hds]%andb_true_iff. apply ISDIGIT_range in Hc as Hr.
  assert (c <> NUL) by (by apply ISDIGIT_not_nul).
  unfold is_digit, ISDIGIT in *. rewrite Hc. intros Hmax. assert (0 <= byte_Z c - 48) as Hd by lia.
  pose proof (digits_value_mono (10 * p + (byte_Z c - 48)) ds ltac:(lia) Hds) as Hmono.
  eapply rtc_l; [| apply (IH (10 * p + (byte_Z c - 48))); [lia | done..]].
  change (String c ds +:+ f) with (String c (ds +:+ f)).
  split; [done |]. cbn. unfold step_precision, ISDIGIT. cbn [precision].
  rewrite (decide_False (P := p = -1)) by lia. cbn [ch precision]. rewrite Hc.
  rewrite decide_False by (unfold CHARTOINT; rewrite digit_step by done; lia).
  by erewrite fetch_then.
Qed.

Lemma walk_to_dot cf fl w p f s : starts not_amount f ->
  rtc one (in_front PRINT_S_WIDTH cf fl w p f, s) (in_front PRINT_S_DOT cf fl w p f, s).
Proof.
  destruct f as [| c f]; [done |]. intros [Hf Hc]. apply rtc_once. split; [done |]. cbn.
  unfold not_amount in Hf. apply andb_true_iff in Hf as [Hd Hs%bool_decide_eq_true].
  unfold step_width. cbn [ch]. apply negb_true_iff in Hd. by rewrite Hd, decide_False.
Qed.

(** The fetching of an int argument *)
Lemma va_int_run z l s : args s = A_int z :: l -> va_int s = (Ret (s32 z), put_args l s).
Proof.
  intros Hl. unfold va_int, va_next. rewrite bind_assoc, (bind_ret _ _ _ _ _ (gets_run _ _)), Hl. done.
Qed.

Lemma s32_range z : INT_MIN <= s32 z <= INT_MAX.
Proof. unfold wrap_s, INT_MIN, INT_MAX. pose proof (Z.mod_pos_bound (z + 2 ^ (32 - 1)) (2 ^ 32)). lia. Qed.

Definition star_flags (w : amount) (fl : Z) : Z :=
  match w with Star z => if decide (s32 z < 0) then Z.lor fl PRINT_F_MINUS else fl | _ => fl end.

(** A whole width, from the first character that is not a flag *)
Lemma walk_width cf fl p wd f s : width_ok wd = true -> starts not_amount f ->
  args s = amount_args wd ++ args (put_args (drop (length (amount_args wd)) (args s)) s) ->
  rtc one (in_front PRINT_S_WIDTH cf fl 0 p (width_text wd +:+ f), s)
          (in_front PRINT_S_DOT cf (star_flags wd fl) (width_value wd) p f,
           put_args (drop (length (amount_args wd)) (args s)) s).
Proof.
  intros Hw Hf Ha. destruct wd as [| ds | z]; cbn [width_text amount_args length drop] in *.
  - destruct s. by apply walk_to_dot.
  - apply andb_true_iff in Hw as [[Hds Hmax%bool_decide_eq_true]%andb_true_iff _].
    etransitivity; [by apply walk_width_digits |]. destruct s. by apply walk_to_dot.
  - apply bool_decide_eq_true in Hw. pose proof (s32_range z) as Hr. cbn in Ha.
    change ("*" +:+ f)%string with (String "*" f).
    apply rtc_once. split; [done |]. cbn. unfold step_width. cbn [ch].
    change (ISDIGIT "*") with false. rewrite (decide_True (P := "*"%char = "*"%char)) by done.
    rewrite (bind_ret _ _ _ _ _ (va_int_run _ _ _ Ha)). cbn [args put_args].
    destruct (decide (s32 z < 0)) as [Hneg | Hpos].
    + unfold as_int. rewrite decide_True by (unfold INT_MIN, INT_MAX in *; lia). rewrite bind_assoc.
      rewrite (bind_ret _ _ _ _ _ (mret_run _ _)), (bind_ret _ _ _ _ _ (mret_run _ _)).
      rewrite fetch_then with (f := f) by done. rewrite Z.abs_neq by lia.
      by destruct f.
    + rewrite (bind_ret _ _ _ _ _ (mret_run _ _)).
      rewrite fetch_then with (f := f) by done. rewrite Z.abs_eq by lia.
      by destruct f.
Qed.

(** ** Precision and length modifier *)

Definition not_dot (c : ascii) : bool := bool_decide (c <> "."%char).

Lemma walk_past_precision cf fl w p f s : starts not_amount f -> p <> -1 ->
  rtc one (in_front PRINT_S_PRECISION cf fl w p f, s) (in_front PRINT_S_MOD cf fl w p f, s).
Proof.
  destruct f as [| c f]; [done |]. intros [Hf Hc] Hp. apply rtc_once. split; [done |]. cbn.
  unfold not_amount in Hf. apply andb_true_iff in Hf as [Hd Hs%bool_decide_eq_true].
  unfold step_precision. cbn [precision]. rewrite (decide_False (P := p = -1)) by done.
  cbn [ch]. apply negb_true_iff in Hd. by rewrite Hd, decide_False.
Qed.

(** The first turn after the dot starts the number at 0. *)
Lemma walk_from_none cf fl w f s y : fst y <> in_front PRINT_S_PRECISION cf fl w 0 f ->
  rtc one (in_front PRINT_S_PRECISION cf fl w 0 f, s) y ->
  rtc one (in_front PRINT_S_PRECISION cf fl w (-1) f, s) y.
Proof.
  intros Hne Hrtc. apply rtc_inv in Hrtc as [<- | (z & Hone & Hrtc)]; [done |].
  eapply rtc_l; [| done]. destruct f as [| c f]; done.
Qed.

Lemma walk_digits_precision cf fl w ds f s : starts not_amount f ->
  all_digits ds = true -> digits_value 0 ds <= INT_MAX ->
  rtc one (in_front PRINT_S_PRECISION cf fl w (-1) (ds +:+ f), s)
          (in_front PRINT_S_MOD cf fl w (digits_value 0 ds) f, s).
Proof.
  intros Hf Hds Hmax. pose proof (digits_value_mono 0 ds ltac:(lia) Hds).
  apply walk_from_none.
  - intros E%(f_equal state). cbn [fst] in E. by rewrite !state_in_front in E.
  - etransitivity; [by apply walk_precision_digits |]. apply walk_past_precision; [done | lia].
Qed.

(** A whole precision, from the first character after the width *)
Lemma walk_precision cf fl w pr f s : precision_ok pr = true ->
  starts (fun c => not_amount c && not_dot c) f ->
  args s = amount_args pr ++ drop (length (amount_args pr)) (args s) ->
  rtc one (in_front PRINT_S_DOT cf fl w (-1) (precision_text pr +:+ f), s)
          (in_front PRINT_S_MOD cf fl w (precision_value pr) f,
           put_args (drop (length (amount_args pr)) (args s)) s).
Proof.
  intros Hp Hf Ha.
  assert (starts not_amount f) as Hna.
  { destruct f as [| c f]; [done |]. destruct Hf as [[? _]%andb_true_iff ?]. by split. }
  destruct pr as [| ds | z]; cbn [precision_text amount_args length drop] in *.
  - destruct s as [? ? ? ? ?]. destruct f as [| c f]; [done |].
    destruct Hf as [[_ Hd%bool_decide_eq_true]%andb_true_iff Hc].
    change ("" +:+ String c f)%string with (String c f).
    apply rtc_once. split; [done |]. cbn. unfold step_dot. cbn [ch]. by rewrite decide_False.
  - apply andb_true_iff in Hp as [Hds Hmax%bool_decide_eq_true].
    change (String "." ds +:+ f)%string with (String "." (ds +:+ f)).
    eapply rtc_l with (y := (in_front PRINT_S_PRECISION cf fl w (-1) (ds +:+ f), s)).
    { split; [done |]. cbn. unfold step_dot. cbn [ch].
      by rewrite (decide_True (P := "."%char = "."%char)), fetch_then with (f := (ds +:+ f)%string) by done. }
    destruct s. by apply walk_digits_precision.
  - change (".*" +:+ f)%string with (String "." (String "*" f)).
    eapply rtc_l with (y := (in_front PRINT_S_PRECISION cf fl w (-1) (String "*" f), s)).
    { split; [done |]. cbn. unfold step_dot. cbn [ch].
      by rewrite (decide_True (P := "."%char = "."%char)), fetch_then with (f := (String "*" f)%string) by done. }
    apply rtc_once. split; [done |]. cbn. unfold step_precision. cbn [precision].
    rewrite (decide_True (P := -1 = -1)) by done. cbn [put_precision ch].
    change (ISDIGIT "*") with false. rewrite (decide_True (P := "*"%char = "*"%char)) by done.
    rewrite (bind_ret _ _ _ _ _ (va_int_run _ _ _ Ha)), fetch_then with (f := f) by done.
    by destruct f.
Qed.

Lemma walk_modifier fl w p m c f s :
  c <> NUL -> c <> "h"%char -> modifier_of c = None ->
  rtc one (in_front PRINT_S_MOD PRINT_C_NONE fl w p (modifier_text m +:+ String c f), s)
          (in_front PRINT_S_CONV (modifier_flag m) fl w p (String c f), s).
Proof.
  intros Hc Hh Hm. apply rtc_once. split; [by destruct m |]. cbn [fst snd]. unfold step.
  rewrite state_in_front. unfold step_mod. destruct m; try done.
  - change (modifier_text Mnone +:+ String c f) with (String c f).
    cbn [in_front ch]. by rewrite decide_False, Hm by done.
  - change (modifier_text Mh +:+ String c f) with (String "h" (String c f)). cbn [in_front ch].
    rewrite (decide_True (P := "h"%char = "h"%char)) by done. rewrite bind_assoc.
    rewrite fetch_then with (f := String c f) by done. cbn [in_front ch state cflags flags width precision].
    by rewrite decide_False.
Qed.
End Machine.
