(* ===== verification/SnprintfConv.v ===== *)
(** * What each conversion prints

    A directive takes its arguments, prints its text and leaves the machine in front of the
    rest of the format. *)
From Stdlib Require Import Floats.SpecFloat.
From stdpp Require Import relations.
From S2P Require Import Prelude Snprintf SnprintfSpec SnprintfRun SnprintfItems.

(** ** Conversions between integer types *)

Lemma wrap_u_shift n k z : 0 <= n -> wrap_u n (z + k * 2 ^ n) = wrap_u n z.
Proof. intros. unfold wrap_u. by rewrite Z.mod_add by (apply Z.pow_nonzero; lia). Qed.
Lemma wrap_s_shift n k z : 0 <= n -> wrap_s n (z + k * 2 ^ n) = wrap_s n z.
Proof.
  intros. unfold wrap_s. f_equal. replace (z + k * 2 ^ n + 2 ^ (n - 1)) with (z + 2 ^ (n - 1) + k * 2 ^ n) by lia.
  by rewrite Z.mod_add by (apply Z.pow_nonzero; lia).
Qed.
Lemma wrap_u_quot m z : 0 <= m -> exists k, wrap_u m z = z + k * 2 ^ m.
Proof.
  intros Hm. exists (- (z / 2 ^ m)). unfold wrap_u.
  pose proof (Z.div_mod z (2 ^ m) ltac:(apply Z.pow_nonzero; lia)). lia.
Qed.
Lemma wrap_s_quot m z : 0 <= m -> exists k, wrap_s m z = z + k * 2 ^ m.
Proof.
  intros Hm. destruct (wrap_u_quot m (z + 2 ^ (m - 1)) Hm) as [k Hk]. unfold wrap_u in Hk. exists k. unfold wrap_s. lia.
Qed.

(** A conversion to fewer bits forgets an earlier one to more. *)
Lemma narrow n m k : 0 <= n <= m -> k * 2 ^ m = (k * 2 ^ (m - n)) * 2 ^ n.
Proof. intros. rewrite <- Z.mul_assoc, <- Z.pow_add_r by lia. do 2 f_equal. lia. Qed.
Lemma wrap_s_s n m z : 0 <= n <= m -> wrap_s n (wrap_s m z) = wrap_s n z.
Proof. intros. destruct (wrap_s_quot m z) as [k ->]; [lia |]. rewrite (narrow n m), wrap_s_shift by lia. done. Qed.
Lemma wrap_s_u n m z : 0 <= n <= m -> wrap_s n (wrap_u m z) = wrap_s n z.
Proof. intros. destruct (wrap_u_quot m z) as [k ->]; [lia |]. rewrite (narrow n m), wrap_s_shift by lia. done. Qed.
Lemma wrap_u_u n m z : 0 <= n <= m -> wrap_u n (wrap_u m z) = wrap_u n z.
Proof. intros. destruct (wrap_u_quot m z) as [k ->]; [lia |]. rewrite (narrow n m), wrap_u_shift by lia. done. Qed.
Lemma wrap_u_s n m z : 0 <= n <= m -> wrap_u n (wrap_s m z) = wrap_u n z.
Proof. intros. destruct (wrap_s_quot m z) as [k ->]; [lia |]. rewrite (narrow n m), wrap_u_shift by lia. done. Qed.

(** ** Fetching arguments *)

Lemma va_next_run a l s : args s = a :: l -> va_next s = (Ret a, put_args l s).
Proof. intros Hl. unfold va_next. rewrite (bind_ret _ _ _ _ _ (gets_run _ _)), Hl. done. Qed.

Lemma va_run a l s : args s = a :: l ->
  (forall z, a = A_int z -> va_int s = (Ret (s32 z), put_args l s) /\
                            va_uint s = (Ret (u32 z), put_args l s)) /\
  (forall z, a = A_long z -> va_long s = (Ret (s64 z), put_args l s) /\
                             va_ulong s = (Ret (u64 z), put_args l s)) /\
  (forall f, a = A_double f -> va_double s = (Ret f, put_args l s)) /\
  (forall f, a = A_ldouble f -> va_ldouble s = (Ret f, put_args l s)) /\
  (forall p, a = A_ptr p -> va_ptr s = (Ret p, put_args l s)).
Proof.
  intros Hl. pose proof (va_next_run a l s Hl) as Hn.
  repeat split; intros; subst a; unfold va_int, va_uint, va_long, va_ulong, va_double, va_ldouble, va_ptr;
    by rewrite (bind_ret _ _ _ _ _ Hn).
Qed.

Lemma conv_signed_run cf z l s : args s = (if is_long cf then A_long z else A_int z) :: l ->
  conv_signed cf s = (Ret (signed_value cf z), put_args l s).
Proof.
  intros Hl. destruct (va_run _ _ _ Hl) as (Hi & Hj & _).
  destruct cf; cbn [is_long] in *; try destruct (Hi z eq_refl) as [E _]; try destruct (Hj z eq_refl) as [E E'];
    cbn [conv_signed signed_value is_long]; rewrite ?(bind_ret _ _ _ _ _ E); try done.
  - by rewrite mret_run, wrap_s_s by lia.
  - by rewrite mret_run, wrap_s_s by lia.
  - by rewrite (bind_ret _ _ _ _ _ E'), mret_run, wrap_s_u by lia.
Qed.

Lemma conv_unsigned_run cf z l s : args s = (if is_long cf then A_long z else A_int z) :: l ->
  exists v, conv_unsigned cf s = (Ret v, put_args l s) /\ u64 v = u64 (unsigned_value cf z).
Proof.
  intros Hl. destruct (va_run _ _ _ Hl) as (Hi & Hj & _).
  destruct cf; cbn [is_long] in *;
    first [destruct (Hi z eq_refl) as [_ E] | destruct (Hj z eq_refl) as [E' E]];
    cbn [conv_unsigned unsigned_value is_long];
    first [ rewrite E'; by exists (s64 z); rewrite wrap_u_s, wrap_u_u by lia
          | rewrite E; by exists (u32 z)
          | rewrite (bind_ret _ _ _ _ _ E), mret_run; eexists; split; [done |];
            rewrite ?(wrap_u_u 8 32), ?(wrap_u_u 16 32), ?(wrap_u_s 64 64) by lia; done ].
Qed.

Lemma int_text_unsigned `{Lconv} v v' base w p fl :
  has fl PRINT_F_UNSIGNED = true -> u64 v = u64 v' -> int_text v base w p fl = int_text v' base w p fl.
Proof. intros Hu Hv. unfold int_text, int_sign. by rewrite Hu, Hv. Qed.

Lemma has_lor a b c : has (Z.lor a b) c = has a c || has b c.
Proof.
  unfold has. rewrite Z.land_lor_distr_l.
  destruct (Z.eqb_spec (Z.land a c) 0) as [-> | Ha].
  - by rewrite Z.lor_0_l.
  - cbn. destruct (Z.eqb_spec (Z.lor (Z.land a c) (Z.land b c)) 0) as [E | E]; [| done].
    by apply Z.lor_eq_0_iff in E as [? _].
Qed.

(** Evaluates the tests of a conversion character that is known. *)
Ltac pick :=
  repeat match goal with
  | |- context [decide ?P] =>
    first [ rewrite (decide_True (P := P)) by (solve [repeat (first [reflexivity | left; reflexivity | right])])
          | rewrite (decide_False (P := P)) by (by intuition discriminate) ]
  end.

Lemma wrap_s_range n z : 0 < n -> - 2 ^ (n - 1) <= wrap_s n z < 2 ^ (n - 1).
Proof.
  intros Hn. unfold wrap_s. assert (2 ^ n = 2 * 2 ^ (n - 1)) as E.
  { rewrite <- Z.pow_succ_r by lia. f_equal. lia. }
  pose proof (Z.mod_pos_bound (z + 2 ^ (n - 1)) (2 ^ n) ltac:(apply Z.pow_pos_nonneg; lia)). lia.
Qed.
Lemma signed_value_range cf z : INTMAX_MIN <= signed_value cf z < - INTMAX_MIN.
Proof.
  unfold INTMAX_MIN. pose proof (wrap_s_range 8 z ltac:(lia)). pose proof (wrap_s_range 16 z ltac:(lia)).
  pose proof (wrap_s_range 32 z ltac:(lia)). pose proof (wrap_s_range 64 z ltac:(lia)).
  destruct cf; cbn [signed_value is_long]; lia.
Qed.

(** Between two directives *)
Abbreviation idle := (in_front PRINT_S_DEFAULT PRINT_C_NONE 0 0 (-1)).

Section Conv.
Context {lc : Lconv} `{!ShortSep}.

(** The objects [m] and the arguments [a] in place of those of [s] *)
Definition with_args (a : list arg) (m : gmap Z obj) (s : pr) : pr := put_mem m (put_args a s).

Definition converts (c : conv) (cf : print_c) (fl w p : Z) : Prop := forall size ob t s l u m st f,
  fits size ob -> counts (t ++ u) -> args s = conv_args c cf ++ l ->
  conv_out c cf fl w p (mem s) (Z.of_nat (length t)) = Some (u, m) ->
  convert_arg size (mkRegs st (conv_char c) f cf fl w p) (written size ob t s)
  = (Ret false, written size ob (t ++ u) (with_args l m s)).

Lemma convert_int upper z cf fl w p : converts (Cint upper z) cf fl w p.
Proof.
  intros size ob t s l u m st f Hf Hc Ha Hout. cbn [conv_out conv_args app] in *.
  case_decide as Hz; simplify_eq.
  pose proof (signed_value_range cf z) as Hr.
  unfold convert_arg. cbn [ch conv_char cflags width precision flags].
  rewrite decide_True by (destruct upper; tauto).
  rewrite (bind_ret _ _ _ _ _ (conv_signed_run _ _ _ (written size ob t s) Ha)).
  refine (prints_then (fun size => fmtint size _ _ _ _ _) _ false _ size ob t (with_args l (mem s) s) Hf Hc).
  apply fmtint_prints. left. lia.
Qed.

Lemma convert_uint c z cf fl w p : conv_ok (Cuint c z) = true -> converts (Cuint c z) cf fl w p.
Proof.
  intros Hok size ob t s l u m st f Hf Hc Ha Hout. cbn [conv_out conv_args app] in *. simplify_eq.
  destruct (conv_unsigned_run _ _ _ (written size ob t s) Ha) as (v & Hv & Hu).
  unfold convert_arg. cbn [ch conv_char cflags width precision flags].
  apply bool_decide_eq_true in Hok.
  rewrite !elem_of_cons in Hok.
  assert (has (uint_flags c fl) PRINT_F_UNSIGNED = true) as Hun.
  { unfold uint_flags. rewrite has_lor. apply orb_true_r. }
  rewrite <- (int_text_unsigned v) in * by done.
  assert (prints (fun size => fmtint size v (uint_base c) w p (uint_flags c fl))
            (int_text v (uint_base c) w p (uint_flags c fl))) as Hp by (apply fmtint_prints; by right).
  pose proof (prints_then _ _ false Hp size ob t (with_args l (mem s) s) Hf Hc) as Hrun. clear Hp Hun.
  destruct Hok as [-> | [-> | [-> | [-> | []%elem_of_nil]]]]; unfold uint_flags, uint_base in *; revert Hrun; pick;
    intros Hrun; by rewrite (bind_ret _ _ _ _ _ Hv).
Qed.

Definition float_arg (cf : print_c) (x : spec_float) : ldouble :=
  match cf with PRINT_C_LDOUBLE => x | _ => ld_of_double x end.

Lemma conv_float_run size ob t s l st c f cf fl w p x fl' p' u :
  fits size ob -> counts (t ++ u) -> args s = conv_args (Cfloat c x) cf ++ l ->
  float_text (float_arg cf x) w p' fl' = Some (Some u) ->
  conv_float size (mkRegs st c f cf fl w p) fl' p' (written size ob t s)
  = (Ret false, written size ob (t ++ u) (with_args l (mem s) s)).
Proof.
  intros Hf Hc Ha Hu. cbn [conv_args app] in Ha. unfold conv_float. cbn [cflags width].
  destruct (va_run _ _ (written size ob t s) Ha) as (_ & _ & Hd & Hl & _).
  assert ((match cf with PRINT_C_LDOUBLE => va_ldouble | _ => f ← va_double; mret (ld_of_double f) end)
            (written size ob t s) = (Ret (float_arg cf x), written size ob t (with_args l (mem s) s))) as Hv.
  { destruct cf; first [ by rewrite (Hl x eq_refl)
                       | by rewrite (bind_ret _ _ _ _ _ (Hd x eq_refl)) ]. }
  rewrite (bind_ret _ _ _ _ _ Hv). exact (fmtflt_prints _ _ _ _ _ Hu size ob t _ Hf Hc).
Qed.

Lemma convert_float c x cf fl w p : conv_ok (Cfloat c x) = true -> converts (Cfloat c x) cf fl w p.
Proof.
  intros Hok size ob t s l u m st f Hf Hc Ha Hout. cbn [conv_out] in Hout. fold (float_arg cf x) in Hout.
  destruct (float_text _ _ _ _) as [[v |] |] eqn:Hv; cbn in Hout; simplify_eq.
  apply bool_decide_eq_true in Hok. rewrite !elem_of_cons in Hok.
  unfold convert_arg. cbn [ch conv_char cflags width precision flags].
  destruct Hok as [-> | [-> | [-> | [-> | [-> | [-> | [-> | [-> | []%elem_of_nil]]]]]]]]; revert Hv;
    unfold float_flags, float_precision; pick; intros Hv; pick; by eapply conv_float_run.
Qed.

Lemma convert_char z cf fl w p : converts (Cchar z) cf fl w p.
Proof.
  intros size ob t s l u m st f Hf Hc Ha Hout. cbn [conv_out conv_args app conv_char] in *. simplify_eq.
  destruct (va_run _ _ (written size ob t s) Ha) as (Hi & _). destruct (Hi z eq_refl) as [Hi' _].
  unfold convert_arg. cbn [ch]. pick. rewrite (bind_ret _ _ _ _ _ Hi').
  replace (Z_byte (s32 z)) with (Z_byte z) by (unfold Z_byte; by rewrite wrap_u_s by lia).
  exact (prints_then _ _ false (OUTCHAR_prints _) size ob t (with_args l (mem s) s) Hf Hc).
Qed.

Lemma convert_percent cf fl w p : converts Cpercent cf fl w p.
Proof.
  intros size ob t s l u m st f Hf Hc Ha Hout. cbn [conv_out conv_args app conv_char] in *. simplify_eq.
  unfold convert_arg. cbn [ch]. pick.
  exact (prints_then _ _ false (OUTCHAR_prints _) size ob t (with_args (args s) (mem s) s) Hf Hc).
Qed.

Lemma null_chars_short precision : -1 <= precision ->
  NUL ∈ null_chars /\ Z.of_nat (length (shown precision null_chars)) <= INT_MAX.
Proof.
  intros Hp. split; [apply elem_of_app; right; left |]. unfold shown.
  assert (length (until_nul null_chars) = 6%nat) by done.
  case_decide; rewrite ?length_take; unfold INT_MAX; lia.
Qed.

Lemma convert_str q cf fl w p : -1 <= p -> converts (Cstr q) cf fl w p.
Proof.
  intros Hp size ob t s l u m st f Hf Hc Ha Hout. cbn [conv_out conv_args app conv_char] in *.
  destruct (string_out (mem s) q p) as [b |] eqn:Hb; cbn in Hout; [| done].
  injection Hout as <- <-.
  assert (chars_at q (written size ob t (with_args l (mem s) s))
          = (Ret b, written size ob t (with_args l (mem s) s)) /\
          NUL ∈ default null_chars b /\
          Z.of_nat (length (shown p (default null_chars b))) <= INT_MAX) as (Hch & Hn & Hl).
  { unfold string_out in Hb. unfold chars_at. case_decide.
    - injection Hb as <-. split; [done |]. by apply null_chars_short.
    - rewrite (bind_ret _ _ _ _ _ (gets_run _ _)). cbn [written with_args put_mem mem].
      destruct (mem s !! q) as [[b' |] |]; [| done..]. case_decide as Hd; simplify_eq. done. }
  destruct (va_run _ _ (written size ob t s) Ha) as (_ & _ & _ & _ & Hptr).
  unfold convert_arg. cbn [ch]. pick. rewrite (bind_ret _ _ _ _ _ (Hptr q eq_refl)).
  rewrite (bind_ret _ _ _ _ _ Hch). cbn [width precision flags].
  exact (prints_then (fun size => fmtstr size b w p fl) _ false (fmtstr_prints _ _ _ _ Hn Hp Hl)
           size ob t (with_args l (mem s) s) Hf Hc).
Qed.

Lemma convert_ptr q cf fl w p : converts (Cptr q) cf fl w p.
Proof.
  intros size ob t s l u m st f Hf Hc Ha Hout. cbn [conv_out conv_args app conv_char] in *.
  injection Hout as <- <-.
  destruct (va_run _ _ (written size ob t s) Ha) as (_ & _ & _ & _ & Hptr).
  unfold convert_arg. cbn [ch]. pick. unfold conv_pointer. rewrite bind_assoc.
  rewrite (bind_ret _ _ _ _ _ (Hptr q eq_refl)). cbn [width precision flags].
  destruct (decide (q = 0)).
  - refine (prints_then (fun size => fmtstr size _ w _ fl) _ false _ size ob t (with_args l (mem s) s) Hf Hc).
    eapply prints_text; [apply fmtstr_prints; cbn [default from_option id] |]; [| lia | |].
    + apply elem_of_app; right; left.
    + by unfold INT_MAX.
    + done.
  - rewrite (int_text_unsigned q (s64 q)) in *.
    + refine (prints_then (fun size => fmtint size _ _ w p _) _ false _ size ob t (with_args l (mem s) s) Hf Hc).
      apply fmtint_prints. right. rewrite has_lor. apply orb_true_r.
    + rewrite has_lor. apply orb_true_r.
    + by rewrite wrap_u_s by lia.
    + rewrite has_lor. apply orb_true_r.
    + by rewrite wrap_u_s by lia.
Qed.

Lemma convert_count q cf fl w p : converts (Ccount q) cf fl w p.
Proof.
  intros size ob t s l u m st f Hf Hc Ha Hout. cbn [conv_out conv_args app conv_char] in *.
  destruct (mem s !! q) as [[| b z] |] eqn:Hm; [done | | done]. case_decide as Hd; [| done].
  destruct Hd as [-> Hq]. injection Hout as <- <-.
  destruct (va_run _ _ (written size ob t s) Ha) as (_ & _ & _ & _ & Hptr).
  unfold convert_arg. cbn [ch]. pick. unfold conv_count. rewrite bind_assoc.
  rewrite (bind_ret _ _ _ _ _ (Hptr q eq_refl)), bind_assoc, (bind_ret _ _ _ _ _ (gets_run _ _)).
  rewrite bind_assoc, (bind_ret _ _ _ _ _ (gets_run _ _)). cbn [written put_args mem len cflags].
  rewrite Hm, app_nil_r. replace (match cf with PRINT_C_CHAR => 8 | _ => _ end) with (cell_width cf)
    by (by destruct cf).
  by rewrite (decide_True (P := cell_width cf = cell_width cf /\ q <> 0)).
Qed.

(** Every conversion does what its meaning says. *)
Lemma convert_run c cf fl w p : conv_ok c = true -> -1 <= p -> converts c cf fl w p.
Proof.
  destruct c; intros; auto using convert_int, convert_uint, convert_float, convert_char, convert_str,
    convert_ptr, convert_count, convert_percent.
Qed.

(** ** A whole item *)

Lemma conv_char_starts c m f : conv_ok c = true ->
  starts (fun a => not_flag a && not_amount a && not_dot a) (modifier_text m +:+ String (conv_char c) f) /\
  conv_char c <> NUL /\ conv_char c <> "h"%char /\ modifier_of (conv_char c) = None.
Proof.
  intros Hok. assert (conv_char c ∈ ["i"; "d"; "u"; "o"; "x"; "X"; "a"; "A"; "e"; "E"; "f"; "F"; "g"; "G";
    "c"; "s"; "p"; "n"; "%"]%char) as Hc.
  { destruct c as [[] ? | c ? | c ? | | | | |]; cbn in Hok; try apply bool_decide_eq_true in Hok;
      rewrite !elem_of_cons in *; intuition idtac. }
  revert Hc. generalize (conv_char c) as a. intros a Hc. rewrite !elem_of_cons in Hc.
  assert (starts (fun a => not_flag a && not_amount a && not_dot a) (String a f) /\ a <> NUL /\
          a <> "h"%char /\ modifier_of a = None) as (Hs & Hn & Hh & Hm).
  { repeat destruct Hc as [-> | Hc]; try done. by apply elem_of_nil in Hc. }
  split; [| done]. destruct m; done.
Qed.

Lemma starts_weaken (P Q : ascii -> bool) f : (forall a, P a = true -> Q a = true) ->
  starts P f -> starts Q f.
Proof. destruct f; [done |]. intros HPQ [? ?]. split; auto. Qed.

Lemma precision_starts pr g :
  starts (fun a => not_flag a && not_amount a && not_dot a) g ->
  starts (fun a => not_flag a && not_amount a) (precision_text pr +:+ g).
Proof.
  destruct pr; [| done..]. apply starts_weaken. intros a. by intros [-> _]%andb_true_iff.
Qed.
Lemma width_starts wd g : width_ok wd = true ->
  starts (fun a => not_flag a && not_amount a) g -> starts not_flag (width_text wd +:+ g).
Proof.
  destruct wd as [| [| c ds] |]; [| by intros [_ ?]%andb_true_iff | | done].
  - intros _. apply starts_weaken. intros a. by intros [-> _]%andb_true_iff.
  - intros [[[Hc _]%andb_true_iff _]%andb_true_iff Hz%bool_decide_eq_true]%andb_true_iff _.
    split; [| by apply ISDIGIT_not_nul]. pose proof (ISDIGIT_range _ Hc) as Hr.
    assert (forallb (fun n => let a := ascii_of_nat n in
      negb (ISDIGIT a) || bool_decide (a = "0"%char) || not_flag a) (seq 0 256) = true) as Hall
      by (vm_compute; reflexivity).
    rewrite forallb_forall in Hall.
    specialize (Hall (nat_of_ascii c) ltac:(apply in_seq; pose proof (nat_ascii_bounded c); lia)).
    cbv zeta in Hall. rewrite ascii_nat_embedding, Hc, bool_decide_eq_false_2 in Hall by done. done.
Qed.

Lemma precision_value_pos pr : precision_ok pr = true -> -1 <= precision_value pr.
Proof.
  destruct pr as [| ds | z]; cbn; [lia | | case_decide; lia].
  intros [Hds _]%andb_true_iff. pose proof (digits_value_mono 0 ds ltac:(lia) Hds). lia.
Qed.

Lemma string_app_cons c (t f : string) : (String c t +:+ f)%string = String c (t +:+ f).
Proof. done. Qed.

Lemma args_split a b (s : pr) : args s = a ++ b -> args s = a ++ drop (length a) (args s) /\
  drop (length a) (args s) = b.
Proof. intros ->. by rewrite drop_app_length. Qed.

(** Reading a directive: flags, width, precision, modifier, conversion *)
Lemma walk_dir size ob t s fs wd pr md c l u m f :
  item_ok (Dir fs wd pr md c) = true -> fits size ob -> counts (t ++ u) ->
  args s = item_args (Dir fs wd pr md c) ++ l ->
  item_out (Dir fs wd pr md c) (mem s) (Z.of_nat (length t)) = Some (u, m) ->
  rtc (one size) (idle (item_text (Dir fs wd pr md c) +:+ f), written size ob t s)
                 (idle f, written size ob (t ++ u) (with_args l m s)).
Proof.
  cbn [item_ok item_args item_out item_text]. intros [[Hw Hp]%andb_true_iff Hc]%andb_true_iff Hf Hcount.
  rewrite <- app_assoc. intros Ha Hout.
  destruct (args_split _ _ (written size ob t s) Ha) as [Ha1 Hd1].
  set (s1 := put_args (drop (length (amount_args wd)) (args s)) (written size ob t s)).
  rewrite <- app_assoc in Hd1.
  destruct (args_split _ _ s1 Hd1) as [Ha2 Hd2].
  set (s2 := put_args (drop (length (amount_args pr)) (args s1)) s1).
  set (g := (modifier_text md +:+ String (conv_char c) f)%string).
  destruct (conv_char_starts c md f Hc) as (Hs & Hn & Hh & Hm). fold g in Hs.
  replace (String "%" _ +:+ f)%string with
    (String "%" (flags_text fs +:+ (width_text wd +:+ (precision_text pr +:+ g))))
    by (unfold g; symmetry; etransitivity; [apply string_app_cons |]; by rewrite !string_app_assoc).
  eapply rtc_l with (y := (in_front PRINT_S_FLAGS PRINT_C_NONE 0 0 (-1) _, written size ob t s)).
  { split; [done |]. cbn. unfold step_default. cbn [ch].
    rewrite (decide_True (P := "%"%char = "%"%char)) by done. rewrite (bind_ret _ _ _ _ _ (mret_run _ _)).
    by erewrite fetch_then. }
  etransitivity; [apply walk_flags |].
  etransitivity; [apply walk_to_width, width_starts, precision_starts; done |].
  etransitivity; [apply walk_width; [done | | exact Ha1] |].
  { pose proof (precision_starts pr _ Hs) as Hs'. revert Hs'. apply starts_weaken.
    by intros a [_ ->]%andb_true_iff. }
  etransitivity; [apply walk_precision; [done | | exact Ha2] |].
  { revert Hs. apply starts_weaken. intros a [[_ ->]%andb_true_iff ->]%andb_true_iff. done. }
  etransitivity; [by apply walk_modifier |].
  apply rtc_once. split; [done |]. cbn [fst snd]. unfold step. cbn [in_front state]. unfold step_conv.
  set (s3 := put_args (drop (length (amount_args pr)) (args s1)) s).
  pose proof (convert_run c (modifier_flag md) (flags_value fs wd) (width_value wd) (precision_value pr) Hc
    (precision_value_pos _ Hp) size ob t s3 l u m PRINT_S_CONV (Some f) Hf Hcount Hd2 Hout) as Hrun.
  rewrite (bind_ret _ _ _ _ _ Hrun), fetch_then with (f := f) by done. by destruct f.
Qed.

Lemma walk_lit size ob t s c f :
  item_ok (Lit c) = true -> fits size ob -> counts (t ++ [c]) ->
  rtc (one size) (idle (String c f), written size ob t s) (idle f, written size ob (t ++ [c]) s).
Proof.
  cbn [item_ok]. intros [Hp%bool_decide_eq_true Hn%bool_decide_eq_true]%andb_true_iff Hf Hc.
  apply rtc_once. split; [done |]. cbn. unfold step_default. cbn [ch]. rewrite decide_False by done.
  rewrite bind_assoc, (bind_ret _ _ _ _ _ (OUTCHAR_prints c size ob t s Hf Hc)).
  rewrite (bind_ret _ _ _ _ _ (mret_run _ _)). by erewrite fetch_then.
Qed.

Lemma format_out_extends items m t u m' : format_out items m t = Some (u, m') -> exists v, u = t ++ v.
Proof.
  revert m t. induction items as [| i items IH]; intros m t; cbn [format_out].
  - intros [= <- <-]. exists []. by rewrite app_nil_r.
  - destruct (item_out i m _) as [[v m1] |]; cbn; [| done]. intros [w ->]%IH.
    exists (v ++ w). by rewrite app_assoc.
Qed.

(** Reading a whole format *)
Lemma walk_format size ob items t s l u m :
  forallb item_ok items = true -> fits size ob -> counts u -> args s = format_args items ++ l ->
  format_out items (mem s) t = Some (u, m) ->
  rtc (one size) (idle (format_text items), written size ob t s)
                 (idle "", written size ob u (with_args l m s)).
Proof.
  intros Hok Hf Hc. revert t s Hok. induction items as [| i items IH]; intros t s Hok Ha Hout.
  - injection Hout as <- <-. cbn in Ha. subst l. by apply rtc_refl.
  - apply andb_true_iff in Hok as [Hi Hok]. cbn [format_out] in Hout.
    destruct (item_out i (mem s) _) as [[v m1] |] eqn:Hv; cbn in Hout; [| done].
    destruct (format_out_extends _ _ _ _ _ Hout) as [x ->].
    change (args s = (item_args i ++ format_args items) ++ l) in Ha. rewrite <- app_assoc in Ha.
    apply counts_prefix in Hc as Hc1. cbn [format_text foldr]. fold (format_text items).
    etransitivity; [| apply (IH (t ++ v) (with_args (format_args items ++ l) m1 s)); done].
    destruct i as [c | fs wd pr md c].
    + injection Hv as <- <-. cbn in Ha. rewrite <- Ha.
      replace (with_args (args s) (mem s) s) with s by (by destruct s). by apply walk_lit.
    + by apply walk_dir.
Qed.
End Conv.
