(* ===== verification/SnprintfProps.v ===== *)
(** * Properties of the formatter

    What rpl_vsnprintf writes and returns, for formats made of directives and for any string;
    that it ends; that integers read back; and that the rest of the library may take it for
    vsnprintf. *)
From Stdlib Require Import Floats.SpecFloat.
From stdpp Require Import relations.
From S2P Require Import Prelude Error Types CList Pack World Str.
From S2P Require Import Snprintf SnprintfSpec SnprintfRun SnprintfItems SnprintfConv.

(** ** Reading a printed integer *)

Lemma Z2Nat_max0 z : Z.to_nat z = Z.to_nat (Z.max 0 z).
Proof. lia. Qed.

Lemma int_text_shape `{Lconv} value w p fl : has fl PRINT_F_QUOTE = false ->
  exists a b c, int_text value 10 w p fl
    = blanks a ++ opt_text (int_sign value fl) ++ zeros b ++
      number 10 (has fl PRINT_F_UP) (if has fl PRINT_F_UNSIGNED then u64 value else Z.abs value) ++ blanks c.
Proof.
  intros Hq. unfold int_text. rewrite Hq. set (v := if has fl PRINT_F_UNSIGNED then _ else _).
  rewrite !(bool_decide_eq_false_2 (10 = _)), !andb_false_r, app_nil_r by done.
  set (ds := number _ _ _). set (gap := w - Z.of_nat _ - _ - _). set (z := p - _ - 0).
  unfold grouped. rewrite (decide_False (P := 0 < 0)) by lia.
  destruct (has fl PRINT_F_MINUS); [| destruct (has fl PRINT_F_ZERO && _)].
  - exists 0, z, gap. by rewrite <- app_assoc.
  - exists 0, (Z.max 0 gap + Z.max 0 z), 0. rewrite zeros_app, app_nil_r, <- app_assoc by lia.
    unfold zeros. by rewrite <- !Z2Nat_max0.
  - exists gap, z, 0. by rewrite app_nil_r.
Qed.

Lemma skip_blanks a t : skip_spaces (string_of (blanks a ++ t)) = skip_spaces (string_of t).
Proof. unfold blanks. by induction (Z.to_nat a). Qed.

Lemma strtoul_blanks a t : strtoul10 (string_of (blanks a ++ t)) = strtoul10 (string_of t).
Proof. unfold strtoul10. by rewrite skip_blanks. Qed.

Lemma digits_value_app acc ds rest :
  forallb is_digit ds = true -> (forall c r, rest = c :: r -> is_digit c = false) ->
  digits_value acc (string_of (ds ++ rest)) = foldl (fun a c => 10 * a + (byte_Z c - 48)) acc ds.
Proof.
  intros Hd Hr. revert acc Hd. induction ds as [| c ds IH]; intros acc; cbn [forallb app].
  - intros _. destruct rest as [| c r]; [done |]. cbn. by rewrite (Hr c r).
  - intros [Hc Hd]%andb_true_iff. cbn. rewrite Hc. by apply IH.
Qed.

Lemma digits_fold acc ds : forallb is_digit ds = true ->
  foldl (fun a c => 10 * a + (byte_Z c - 48)) acc ds = foldl (fun a c => 10 * a + digit_value c) acc ds.
Proof.
  revert acc. induction ds as [| c ds IH]; intros acc; [done |]. cbn [forallb foldl].
  intros [Hc Hd]%andb_true_iff. rewrite IH by done. f_equal. f_equal. unfold digit_value.
  apply ISDIGIT_range in Hc. by rewrite decide_True by lia.
Qed.

Lemma zeros_fold n acc : acc = 0 -> foldl (fun a c => 10 * a + digit_value c) acc (zeros n) = 0.
Proof. intros ->. unfold zeros. by induction (Z.to_nat n). Qed.

Lemma digit_is_digit caps d : 0 <= d < 10 -> is_digit (digit caps d) = true.
Proof.
  intros Hd. rewrite digit_pretty by done.
  assert (d = 0 \/ d = 1 \/ d = 2 \/ d = 3 \/ d = 4 \/ d = 5 \/ d = 6 \/ d = 7 \/ d = 8 \/ d = 9) as Hc by lia.
  by repeat destruct Hc as [-> | Hc]; subst.
Qed.
Lemma number_digits caps v : forallb is_digit (number 10 caps v) = true.
Proof.
  unfold number, convert. generalize (MAX_CONVERT_LENGTH - 1)%nat as more. intros more.
  rewrite forallb_forall. intros c Hc. apply in_rev in Hc. revert v Hc.
  induction more as [| more IH]; intros v; cbn [convert_loop]; [| case_decide].
  - intros [<- | []]. apply digit_is_digit, Z.mod_pos_bound. lia.
  - intros [<- | []]. apply digit_is_digit, Z.mod_pos_bound. lia.
  - intros [<- | Hc]; [apply digit_is_digit, Z.mod_pos_bound; lia | by eapply IH].
Qed.
Lemma zeros_digits n : forallb is_digit (zeros n) = true.
Proof. unfold zeros. by induction (Z.to_nat n). Qed.

(** The first character of zeros and digits is a digit: neither a space nor a sign. *)
Lemma strtoul_digits ds rest : ds <> [] -> forallb is_digit ds = true ->
  let v := digits_value 0 (string_of (ds ++ rest)) in
  strtoul10 (string_of (ds ++ rest)) = if decide (ULONG_MAX < v) then ULONG_MAX else v.
Proof.
  destruct ds as [| c ds]; [done |]. cbn [forallb]. intros _ [Hc _]%andb_true_iff.
  assert (forallb (fun n => let a := ascii_of_nat n in negb (is_digit a) ||
    (negb (is_space a) && bool_decide (a <> "-"%char) && bool_decide (a <> "+"%char))) (seq 0 256) = true)
    as Hall by (vm_compute; reflexivity).
  rewrite forallb_forall in Hall.
  specialize (Hall (nat_of_ascii c) ltac:(apply in_seq; pose proof (nat_ascii_bounded c); lia)).
  cbv zeta in Hall. rewrite ascii_nat_embedding, Hc in Hall. cbn [negb orb] in Hall.
  apply andb_true_iff in Hall as [[Hs%negb_true_iff Hm%bool_decide_eq_true]%andb_true_iff Hp%bool_decide_eq_true].
  cbv zeta. unfold strtoul10. cbn [string_of app String.string_of_list_ascii].
  change (string_of (c :: ds ++ rest)) with (String c (string_of (ds ++ rest))).
  cbn [skip_spaces]. rewrite Hs. destruct c as [[] [] [] [] [] [] [] []]; done.
Qed.

Section Props.
Context {lc : Lconv} `{!ShortSep}.

(** The array the caller gave, and the size used for it *)
Definition used (ob : option bytes) (size : Z) : Z := match ob with Some _ => size | None => 0 end.
Definition usable (ob : option bytes) (size : Z) : Prop :=
  match ob with Some b => 0 <= size <= Z.of_nat (length b) | None => True end.

Lemma usable_fits ob size : usable ob size -> fits (used ob size) ob.
Proof. destruct ob; simpl; lia. Qed.

Lemma written_start size s : put_len 0 s = written size (str s) [] s.
Proof. unfold written, put_len. destruct (str s) eqn:E; cbn; by rewrite ?place_nil. Qed.

Lemma fetch_first fmt s : fetch (first_regs fmt) s = (Ret (idle fmt), s).
Proof. by destruct fmt. Qed.

Lemma turns_format_back size fmt : back (turns size (7 * String.length fmt) (idle fmt)).
Proof.
  destruct fmt as [| c fmt]; apply turns_back; unfold well, measure; cbn [in_front ch format left_over state rank].
  - done.
  - by rewrite decide_True by done.
  - eauto.
  - cbn [String.length]. case_decide; lia.
Qed.

(** A call whose loop is known *)
Lemma vsnprintf_run size fmt s overflow u s' :
  usable (str s) size ->
  turns (used (str s) size) (7 * String.length fmt) (idle fmt) (written (used (str s) size) (str s) [] s)
  = (Ret overflow, written (used (str s) size) (str s) u s') ->
  rpl_vsnprintf size fmt s = (Ret (count_or_error overflow u), returned (used (str s) size) (str s) overflow u s').
Proof.
  intros Hu Ht. unfold rpl_vsnprintf. rewrite (bind_ret _ _ _ _ _ (gets_run _ _)).
  fold (used (str s) size). unfold vsnprintf_body. rewrite (bind_ret _ _ _ _ _ (modify_run _ _)).
  rewrite (bind_ret _ _ _ _ _ (fetch_first _ _)), (written_start (used (str s) size)).
  rewrite (bind_ret _ _ _ _ _ Ht). apply finish_run, usable_fits, Hu.
Qed.

(** A call whose loop stops *)
Lemma vsnprintf_stops size fmt s o s' :
  turns (used (str s) size) (7 * String.length fmt) (idle fmt) (written (used (str s) size) (str s) [] s)
  = (o, s') -> (forall a, o <> Ret a) ->
  fst (rpl_vsnprintf size fmt s) = match o with
    | Ret _ => Hang | Exit c => Exit c | Killed g => Killed g | Jump => Jump | Hang => Hang | Fault => Fault end.
Proof.
  intros Ht Ho. unfold rpl_vsnprintf. rewrite (bind_ret _ _ _ _ _ (gets_run _ _)).
  fold (used (str s) size). unfold vsnprintf_body. rewrite (bind_ret _ _ _ _ _ (modify_run _ _)).
  rewrite (bind_ret _ _ _ _ _ (fetch_first _ _)), (written_start (used (str s) size)).
  unfold mbind, M_bind. rewrite Ht. destruct o; try done. by destruct (Ho a).
Qed.



(** C19: For every format of up to 2^29 characters, well-formed or not, and all arguments, there is one
    text, of less than 2^64 - 1 characters, that does not depend on the array: either the call is
    undefined for every array, or, for every array and size, it returns the same number and leaves
    in the array that text, cut after [size - 1] characters and closed by a NUL; with size 0 or NULL
    it writes nothing. *)
Theorem vsnprintf_any_size fmt s : Z.of_nat (String.length fmt) <= 2 ^ 29 ->
  exists u, Z.of_nat (length u) < 2 ^ 64 - 1 /\
    ((exists overflow s', forall size ob, usable ob size ->
        rpl_vsnprintf size fmt (put_str ob s)
        = (Ret (count_or_error overflow u), returned (used ob size) ob overflow u s')) \/
     (forall size ob, usable ob size -> fst (rpl_vsnprintf size fmt (put_str ob s)) = Fault)).
Proof.
  intros Hfmt. destruct (streams_turns (7 * String.length fmt) (idle fmt)) with (t := @nil ascii) (s := s)
    as (o & u & s' & Hlen & _ & Hrun).
  { destruct fmt; split; cbn; unfold INT_MAX; lia. }
  assert (Hc : counts u) by (unfold counts, turn_max, INT_MAX in *; lia).
  exists u. split; [exact Hc |]. destruct o as [overflow | | | | |];
    [left; exists overflow, s'; intros size ob Hu; apply (vsnprintf_run size fmt (put_str ob s)); [done |];
     by apply (Hrun (used ob size) ob (usable_fits _ _ Hu) Hc) |
     right; intros size ob Hu; pose proof (Hrun _ ob (usable_fits _ _ Hu) Hc) as Hr;
     rewrite (vsnprintf_stops size fmt (put_str ob s) _ _ Hr) by done;
     pose proof (turns_format_back (used ob size) fmt (written (used ob size) ob [] s)) as Hb;
     by rewrite Hr in Hb ..].
Qed.

(** C20: For every format, argument list and array, well-formed or not, the formatter comes back: it
    returns a number, or the call is undefined; it never loops and never ends the process. *)
Theorem vsnprintf_returns size fmt s :
  (exists r s', rpl_vsnprintf size fmt s = (Ret r, s')) \/ fst (rpl_vsnprintf size fmt s) = Fault.
Proof.
  assert (back (rpl_vsnprintf size fmt)) as Hb.
  { unfold rpl_vsnprintf. apply back_bind; [apply back_gets | intros]. apply vsnprintf_body_back. }
  specialize (Hb s). destruct (rpl_vsnprintf size fmt s) as [[r | | | | |] s'];
    [left; eauto | done.. | by right].
Qed.

(** The digits of a 64-bit number in base 8 to 16 read back as the number, start with no zero
    unless the number is 0, and fit in the array of 43 characters; in base ten they are what
    the rest of the model writes for [%d]. *)
Lemma number_reads_back base caps v :
  8 <= base <= 16 -> 0 <= v <= UINTMAX_MAX ->
  let ds := rev (convert v MAX_CONVERT_LENGTH base caps) in
  value_of base ds = v /\
  (0 < v -> exists d, head ds = Some (digit caps d) /\ 0 < d < base) /\
  (length ds <= MAX_CONVERT_LENGTH)%nat /\
  (base = 10 -> string_of ds = dec v).
Proof.
  intros Hb Hv ds. pose proof (convert_fits base v ltac:(lia) ltac:(lia)) as Hfit. repeat split.
  - apply convert_loop_value; [lia |]. split; [lia | exact Hfit].
  - intros Hpos. destruct (convert_loop_last (MAX_CONVERT_LENGTH - 1) v base caps) as (d & Hd & Hr);
      [lia | split; [lia | exact Hfit] |].
    exists d. split; [| done]. unfold ds, convert. rewrite rev_alt. by etransitivity; [apply head_reverse |].
  - pose proof (number_length base caps v) as Hl. unfold number in Hl. fold ds in Hl.
    unfold MAX_CONVERT_LENGTH. lia.
  - intros ->. by apply number_dec.
Qed.

Lemma int_text_reads_back value w p fl :
  has fl PRINT_F_QUOTE = false -> - 2 ^ 64 < value < 2 ^ 64 ->
  strtoul10 (string_of (int_text value 10 w p fl)) = u64 value.
Proof.
  intros Hq Hv. destruct (int_text_shape value w p fl Hq) as (a & b & c & ->).
  set (v := if has fl PRINT_F_UNSIGNED then u64 value else Z.abs value).
  assert (0 <= v <= UINTMAX_MAX) as Hrange.
  { unfold v, UINTMAX_MAX. case_match; [| lia]. unfold wrap_u. pose proof (Z.mod_pos_bound value (2 ^ 64)). lia. }
  set (ds := zeros b ++ number 10 (has fl PRINT_F_UP) v).
  assert (forallb is_digit ds = true) as Hds by (unfold ds; rewrite forallb_app, zeros_digits; apply number_digits).
  assert (ds <> []) as Hne.
  { unfold ds. pose proof (number_length 10 (has fl PRINT_F_UP) v). destruct (number _ _ _); [simpl in *; lia |].
    by destruct (zeros b). }
  assert (digits_value 0 (string_of (ds ++ blanks c)) = v) as Hval.
  { rewrite digits_value_app, digits_fold; [| done.. |].
    - unfold ds. rewrite foldl_app, zeros_fold by done. apply convert_loop_value; [lia |].
      pose proof (convert_fits 10 v). split; [lia |]. apply (convert_fits 10); lia.
    - intros x r. unfold blanks. destruct (Z.to_nat c); [done |]. by intros [= <- _]. }
  assert (strtoul10 (string_of (ds ++ blanks c)) = v) as Hplain.
  { rewrite strtoul_digits, Hval by done. by rewrite decide_False by (unfold ULONG_MAX, UINTMAX_MAX in *; lia). }
  rewrite strtoul_blanks, (app_assoc (zeros b)). fold ds. unfold int_sign.
  destruct (has fl PRINT_F_UNSIGNED) eqn:Hun; [| destruct (decide (0 <= value))].
  - exact Hplain.
  - rewrite (u64_small value) by lia. replace value with v by (unfold v; lia).
    unfold sign_char. destruct (has fl PRINT_F_PLUS); [| destruct (has fl PRINT_F_SPACE); exact Hplain].
    change (strtoul10 (String "+" (string_of (ds ++ blanks c))) = v).
    unfold strtoul10. cbn [skip_spaces]. change (is_space "+") with false. cbv iota. rewrite Hval.
    by rewrite decide_False by (unfold ULONG_MAX, UINTMAX_MAX in *; lia).
  - change (strtoul10 (String "-" (string_of (ds ++ blanks c))) = u64 value).
    unfold strtoul10. cbn [skip_spaces]. change (is_space "-") with false. cbv iota. rewrite Hval.
    rewrite decide_False by (unfold ULONG_MAX, UINTMAX_MAX in *; lia). f_equal. unfold v. lia.
Qed.

Lemma int_text_fills value w p fl :
  has fl PRINT_F_QUOTE = false -> w <= Z.of_nat (length (int_text value 10 w p fl)).
Proof.
  intros Hq. unfold int_text. rewrite Hq.
  rewrite !(bool_decide_eq_false_2 (10 = _)), !andb_false_r, app_nil_r by done.
  set (ds := number _ _ _). unfold grouped. rewrite (decide_False (P := 0 < 0)) by lia.
  destruct (has fl PRINT_F_MINUS); [| destruct (has fl PRINT_F_ZERO && _)];
    rewrite !length_app; unfold blanks, zeros; rewrite !repeat_length; lia.
Qed.

(** C24: What fmtint prints for [%d] and [%u], in any field and with any precision that an int holds,
    and any flags but the grouping one: for all arguments there is one text that every call adds to
    what has been produced, whatever the array, as long as that is below 2^63 characters; it fills
    the field, is no longer than the field and the precision together and a constant, and strtoul
    reads it back as the same number modulo 2^64. *)
Theorem int_text_strtoul value w p fl :
  has fl PRINT_F_QUOTE = false -> w <= INT_MAX -> p <= INT_MAX ->
  INTMAX_MIN < value < - INTMAX_MIN \/ has fl PRINT_F_UNSIGNED = true /\ 0 <= value <= UINTMAX_MAX ->
  exists t, (forall size ob u s, fits size ob -> Z.of_nat (length u) < 2 ^ 63 ->
      fmtint size value 10 w p fl (written size ob u s) = (Ret tt, written size ob (u ++ t) s)) /\
    w <= Z.of_nat (length t) <= Z.max 0 w + Z.max 0 p + 14000100 /\ strtoul10 (string_of t) = u64 value.
Proof.
  intros Hq Hw Hp Hv. exists (int_text value 10 w p fl). pose proof (int_text_length value 10 w p fl) as Hl.
  split; [| split; [split; [by apply int_text_fills | done] |]].
  - intros size ob u s Hf Hu. apply fmtint_prints; [tauto | done |]. unfold counts. rewrite length_app.
    unfold INT_MAX in *. lia.
  - apply int_text_reads_back; [done |]. unfold INTMAX_MIN, UINTMAX_MAX in *. lia.
Qed.

Lemma fmtstr_len_short t strln precision (s : pr) :
  NUL ∉ t -> strln + Z.of_nat (length t) <= precision -> 0 <= strln ->
  fmtstr_len t strln precision s = (Fault, s).
Proof.
  revert strln. induction t as [| c t IH]; intros strln; [done |].
  rewrite not_elem_of_cons. intros [Hc Ht] Hl H0. cbn [fmtstr_len length] in *.
  rewrite decide_True by (split; [congruence | right; lia]). unfold as_int. case_decide; [| done].
  rewrite (bind_ret _ _ _ _ _ (mret_run _ _)). apply IH; [done | lia | lia].
Qed.

(** C25: A string argument without a NUL, which C allows when the precision is not above its length,
    is read past its end if its length is the precision: the character is tested before the
    count. *)
Theorem fmtstr_reads_past_precision size t width flags s :
  NUL ∉ t -> fst (fmtstr size (Some t) width (Z.of_nat (length t)) flags s) = Fault.
Proof.
  intros Ht. unfold fmtstr. cbn [default from_option id].
  unfold mbind, M_bind. by rewrite fmtstr_len_short by (done || lia).
Qed.


End Props.

(** ** Where the formatter departs from C99 or from its comments *)

Definition posix_locale : Lconv := {| decimal_point := Some "."; thousands_sep := Some "," |}.
Definition page (a : list arg) : pr :=
  mkPr (Some (repeat "#"%char 64)) 0
    {[ 1 := OBytes (bytes_of "hello" ++ [NUL]); 2 := OCell 32 0; 3 := OBytes (bytes_of "abc") ]} a 0.
Definition shows (fmt : string) (a : list arg) : outcome Z * string :=
  let '(o, s) := rpl_snprintf (H := posix_locale) 64 fmt a (page []) in
  (o, cstr (default [] (str s))).

(** With the grouping flag and a precision, the field is shorter than its width. *)
Lemma quoted_field_short : shows "%'20.12d" [A_int 1234567] = (Ret 18, "      0001,234,567")%string.
Proof. vm_compute. reflexivity. Qed.
(** A value just below 1e100 is printed as 1: the exponent 100 does not fit in two digits. *)
Lemma exponent_wraps :
  shows "%Le" [A_ldouble (ld_mul (mypow10 99) (ld_sub ld_10 (mypow10 (-9))))] = (Ret 12, "1.000000e+00")%string.
Proof. vm_compute. reflexivity. Qed.
(** Negative zero loses its sign. *)
Lemma negative_zero_unsigned : shows "%f" [A_double (S754_zero true)] = (Ret 8, "0.000000")%string.
Proof. vm_compute. reflexivity. Qed.
(** Zero with precision zero is printed as a digit. *)
Lemma zero_precision_zero : shows "[%.0d]" [A_int 0] = (Ret 3, "[0]")%string.
Proof. vm_compute. reflexivity. Qed.
(** The modifier ll is not known: the conversion is skipped, the argument stays. *)
Lemma long_long_not_read : shows "%lld." [A_long 5] = (Ret 2, "d.")%string.
Proof. vm_compute. reflexivity. Qed.
(** The width of a character is ignored. *)
Lemma char_width_ignored : shows "[%5c]" [A_int 65] = (Ret 3, "[A]")%string.
Proof. vm_compute. reflexivity. Qed.
(** The least intmax_t is negated as a signed integer. *)
Lemma least_intmax_undefined : fst (shows "%jd" [A_long INTMAX_MIN]) = Fault.
Proof. vm_compute. reflexivity. Qed.

(** ** The properties on concrete calls *)

#[local] Existing Instance posix_locale.

Lemma posix_short : ShortSep.
Proof. vm_compute. discriminate. Qed.



Lemma vsnprintf_any_size_witness :
  exists u, Z.of_nat (length u) < 2 ^ 64 - 1 /\
    ((exists overflow s', forall size ob, usable ob size ->
        rpl_vsnprintf size "%5d" (put_str ob (page [A_int 7]))
        = (Ret (count_or_error overflow u), returned (used ob size) ob overflow u s')) \/
     (forall size ob, usable ob size -> fst (rpl_vsnprintf size "%5d" (put_str ob (page [A_int 7]))) = Fault)).
Proof. pose proof posix_short. apply (vsnprintf_any_size "%5d" (page [A_int 7])). vm_compute. discriminate. Defined.

Lemma number_reads_back_witness :
  let ds := rev (convert 48879 MAX_CONVERT_LENGTH 16 true) in
  value_of 16 ds = 48879 /\
  (0 < 48879 -> exists d, head ds = Some (digit true d) /\ 0 < d < 16) /\
  (length ds <= MAX_CONVERT_LENGTH)%nat /\
  (16 = 10 -> string_of ds = dec 48879).
Proof. apply (number_reads_back 16 true 48879); [lia |]. vm_compute. split; discriminate. Defined.

Lemma int_text_strtoul_witness : exists t,
  (forall size ob u s, fits size ob -> Z.of_nat (length u) < 2 ^ 63 ->
     fmtint size (-42) 10 12 5 PRINT_F_PLUS (written size ob u s) = (Ret tt, written size ob (u ++ t) s)) /\
  12 <= Z.of_nat (length t) <= 14000117 /\ strtoul10 (string_of t) = u64 (-42).
Proof.
  pose proof posix_short. apply (int_text_strtoul (-42) 12 5 PRINT_F_PLUS); [vm_compute; reflexivity | done | done |].
  left. vm_compute. split; reflexivity.
Defined.

Lemma fmtstr_reads_past_precision_witness :
  fst (fmtstr 64 (Some (bytes_of "abc")) 0 3 0 (page [])) = Fault.
Proof.
  apply (fmtstr_reads_past_precision 64 (bytes_of "abc") 0 0 (page [])).
  refine (bool_decide_eq_true_1 (NUL ∉ bytes_of "abc") _). vm_compute. reflexivity.
Defined.

