(* ===== verification/CompatProps.v ===== *)
(** * Properties of the replacements of the C library *)
From S2P Require Import Prelude Error Types CList Pack World Compat.
From Stdlib Require Import SpecFloat.

(** ** getline *)

(** The first line of a stream, with its newline. *)
Fixpoint first_line (t : bytes) : bytes :=
  match t with
  | [] => []
  | c :: t => if decide (c = DELIMITER) then [c] else c :: first_line t
  end.

Lemma first_line_prefix t : exists r, t = first_line t ++ r.
Proof.
  induction t as [| c t [r E]]; [by exists [] |]. cbn [first_line].
  case_decide; [by exists t |]. exists r. cbn. by rewrite <- E.
Qed.
Lemma first_line_length t : (length (first_line t) <= length t)%nat.
Proof. destruct (first_line_prefix t) as [r E]. rewrite E at 2. rewrite length_app. lia. Qed.

Lemma new_block_spec alloc n old : alloc n = true -> Z.of_nat (length old) <= n ->
  new_block alloc n old = Some (old ++ replicate (Z.to_nat n - length old) None).
Proof. intros Ha Hn. unfold new_block. rewrite Ha, take_ge by lia. done. Qed.

Lemma put_line_run i c b n t : 0 <= i < Z.of_nat (length b) ->
  put_line i c (mkLineState (Some b) n t) =
    (Ret tt, mkLineState (Some (<[Z.to_nat i := Some c]> b)) n t).
Proof.
  intros H. unfold put_line. rewrite (bind_ret _ _ _ _ _ (get_run _)).
  rewrite (bind_ret _ _ _ _ _ (deref_Some _ b _ eq_refl)). by rewrite decide_True.
Qed.

(** A block that holds the characters [pre], with room for a NUL after them. *)
Definition buffer_holds (pre : bytes) (s : line_state) : Prop :=
  exists b, lineptr s = Some b /\ Z.of_nat (length b) = cap s /\
    (length pre < length b)%nat /\ take (length pre) b = Some <$> pre.

(** A character put after those that the block holds. *)
Lemma take_put {A} (pre : list A) (b : list (option A)) c :
  (length pre < length b)%nat -> take (length pre) b = Some <$> pre ->
  take (length (pre ++ [c])) (<[length pre := Some c]> b) = Some <$> (pre ++ [c]).
Proof.
  intros Hl Hb. rewrite length_app. cbn [length]. rewrite Nat.add_1_r.
  rewrite (take_S_r _ _ (Some c)) by by apply list_lookup_insert_eq.
  rewrite take_insert_ge by lia. by rewrite Hb, fmap_app.
Qed.

(** The test for room: the block then has a cell for a character and one more for the NUL. *)
Lemma grow_run alloc (pre : bytes) s : buffer_holds pre s ->
  (cap s <= Z.of_nat (length pre) + 1 -> alloc (cap s * 2) = true) ->
  Z.of_nat (length pre) + 1 < 2 ^ 63 ->
  exists s1,
    (if decide (cap s <= Z.of_nat (length pre) + 1) then
       let n := u64 (cap s * 2) in modify (set_block (new_block alloc n (default [] (lineptr s))) n)
     else mret tt) s = (Ret tt, s1) /\
    buffer_holds pre s1 /\ Z.of_nat (length pre) + 1 < cap s1 /\ stream s1 = stream s.
Proof.
  intros (b & Eb & Ec & Hl & Hb) Ha Hw. case_decide as Hc.
  - cbn zeta. rewrite u64_small by lia. rewrite Eb. cbn [default]. eexists. split; [done |].
    split; [| split; [cbn; lia | done]].
    exists (b ++ replicate (Z.to_nat (cap s * 2) - length b) None). cbn.
    rewrite new_block_spec by (auto || lia). split; [done |].
    rewrite length_app, length_replicate. split; [lia |]. split; [lia |].
    by rewrite take_app_le by lia.
  - eexists. split; [done |]. split; [by exists b | split; [lia | done]].
Qed.

Lemma put_run pre c s : buffer_holds pre s -> Z.of_nat (length pre) + 1 < cap s ->
  exists s1, put_line (Z.of_nat (length pre) + 1 - 1) c s = (Ret tt, s1) /\
    buffer_holds (pre ++ [c]) s1 /\ stream s1 = stream s.
Proof.
  intros (b & Eb & Ec & Hl & Hb) Hw. destruct s as [lp n t]. cbn in *. subst lp.
  rewrite put_line_run by lia. replace (Z.to_nat (Z.of_nat (length pre) + 1 - 1)) with (length pre) by lia.
  eexists. split; [done |]. split; [| done].
  eexists. split; [done |]. cbn. rewrite length_insert. split; [done |].
  split; [rewrite length_app; cbn; lia |]. by apply take_put.
Qed.

(** The loop copies the rest of the line after what is in the block. *)
Lemma getline_loop_run alloc fuel : forall pre s, (length (stream s) < fuel)%nat ->
  buffer_holds pre s -> Z.of_nat (length pre + length (stream s)) < 2 ^ 62 ->
  (forall n, n <= 2 * Z.of_nat (length pre + length (stream s)) -> alloc n = true) ->
  exists s1 r, getline_loop alloc fuel (Z.of_nat (length pre)) s =
      (Ret (Z.of_nat (length (pre ++ first_line (stream s)))), s1) /\
    buffer_holds (pre ++ first_line (stream s)) s1 /\
    stream s = first_line (stream s) ++ r /\ stream s1 = r.
Proof.
  induction fuel as [| fuel IH]; [lia |]. intros pre s Hf Hb Hl Ha. cbn [getline_loop].
  destruct (stream s) as [| c t] eqn:Et.
  - assert (E : fgetc s = (Ret None, s)).
    { unfold fgetc. rewrite (bind_ret _ _ _ _ _ (get_run _)). by rewrite Et. }
    rewrite (bind_ret _ _ _ _ _ E). cbn [first_line]. rewrite app_nil_r. by exists s, [].
  - set (s0 := mkLineState (lineptr s) (cap s) t).
    assert (E : fgetc s = (Ret (Some c), s0)).
    { unfold fgetc. rewrite (bind_ret _ _ _ _ _ (get_run _)). by rewrite Et. }
    rewrite (bind_ret _ _ _ _ _ E). cbn zeta. rewrite (bind_ret _ _ _ _ _ (get_run _)).
    cbn [length] in *.
    assert (Hg : cap s0 <= Z.of_nat (length pre) + 1 -> alloc (cap s0 * 2) = true).
    { intros Hc. apply Ha. destruct Hb as (b & _ & Ec & Hlb & _). cbn in *. lia. }
    destruct (grow_run alloc pre s0 Hb Hg ltac:(lia)) as (s1 & E1 & Hb1 & Hw & Es1).
    rewrite (bind_ret _ _ _ _ _ E1).
    destruct (put_run pre c s1 Hb1 Hw) as (s2 & E2 & Hb2 & Es2). rewrite (bind_ret _ _ _ _ _ E2).
    assert (Est : stream s2 = t) by by rewrite Es2, Es1.
    assert (El : Z.of_nat (length pre) + 1 = Z.of_nat (length (pre ++ [c]))) by (rewrite length_app; cbn; lia).
    cbn [first_line]. rewrite El. destruct (decide (c = DELIMITER)); [by exists s2, t |].
    rewrite <- Est in *.
    destruct (IH (pre ++ [c]) s2) as (s3 & r & E3 & Hb3 & Er & Es3); [lia | done | | |].
    + rewrite length_app. cbn [length]. lia.
    + intros m Hm. apply Ha. rewrite length_app in Hm. cbn [length] in Hm. lia.
    + rewrite <- app_assoc in E3, Hb3. exists s3, r. split; [done |]. split; [done |]. split; [| done].
      cbn. by rewrite <- Er.
Qed.

(** A caller's block: none, or one as long as *n says. *)
Definition line_block (s : line_state) : Prop :=
  lineptr s = None \/ exists b, lineptr s = Some b /\ Z.of_nat (length b) = cap s.

Lemma getline_block alloc s : line_block s -> alloc INITIAL_SIZE = true ->
  exists s1,
    (if decide (lineptr s = None \/ cap s < INITIAL_SIZE) then
       modify (set_block (new_block alloc INITIAL_SIZE []) INITIAL_SIZE)
     else mret tt) s = (Ret tt, s1) /\ buffer_holds [] s1 /\ stream s1 = stream s.
Proof.
  intros Hs Ha. case_decide as Hc.
  - eexists. split; [done |]. split; [| done].
    exists (replicate 16 None). unfold set_block, new_block. rewrite Ha. cbn. repeat split; lia.
  - destruct Hs as [? | (b & Eb & Eg)]; [naive_solver |]. unfold INITIAL_SIZE in Hc.
    eexists. split; [done |]. split; [| done]. exists b. cbn.
    split; [done |]. split; [done |]. split; [| done].
    assert (~ cap s < 16) by naive_solver. lia.
Qed.

(** C30: getline comes back with the first line of the stream, newline included, at the start of the
    caller's block (given, or allocated and grown to fit) and a NUL after it, without writing
    outside of the block; the rest of the stream is left.  It returns the length of the line, which
    is 0 at the end of the stream (not -1). *)
Theorem getline_reads_line alloc s :
  line_block s -> Z.of_nat (length (stream s)) < 2 ^ 62 ->
  (forall n, n <= Z.max INITIAL_SIZE (2 * Z.of_nat (length (stream s))) -> alloc n = true) ->
  exists s' b, getline alloc s = (Ret (Z.of_nat (length (first_line (stream s)))), s') /\
    stream s = first_line (stream s) ++ stream s' /\
    lineptr s' = Some b /\ Z.of_nat (length b) = cap s' /\
    (length (first_line (stream s)) < length b)%nat /\
    take (S (length (first_line (stream s)))) b = Some <$> (first_line (stream s) ++ ["000"%char]).
Proof.
  intros Hs Hl Ha. unfold getline. rewrite (bind_ret _ _ _ _ _ (get_run _)).
  destruct (getline_block alloc s Hs) as (s1 & E1 & Hb1 & Es1); [apply Ha; lia |].
  rewrite (bind_ret _ _ _ _ _ E1). rewrite <- Es1 in *.
  destruct (getline_loop_run alloc (1 + length (stream s1)) [] s1) as (s2 & r & E2 & Hb2 & Er & Es2);
    [lia | done | done | intros; apply Ha; cbn in *; lia |].
  change (Z.of_nat (length (@nil ascii))) with 0 in E2. cbn [app] in *. rewrite (bind_ret _ _ _ _ _ E2).
  destruct s2 as [lp n t]. destruct Hb2 as (b & Eb & Ec & Hlb & Hb). cbn [lineptr cap stream] in *. subst lp t.
  erewrite bind_ret by (apply put_line_run; lia).
  eexists _, _. split; [done |]. rewrite Nat2Z.id. cbn [lineptr cap stream].
  split; [done |]. split; [done |]. rewrite length_insert. split; [done |]. split; [done |].
  pose proof (take_put (first_line (stream s1)) b "000"%char Hlb Hb) as E.
  rewrite length_app, Nat.add_1_r in E. done.
Qed.

Lemma getline_reads_line_witness :
  let s := mkLineState None 0 (bytes_of "a line longer than its block" ++ [DELIMITER] ++ bytes_of "rest") in
  exists s' b, getline (fun _ => true) s = (Ret 29, s') /\
    stream s = first_line (stream s) ++ stream s' /\
    lineptr s' = Some b /\ Z.of_nat (length b) = cap s' /\ (29 < length b)%nat /\
    take 30 b = Some <$> (first_line (stream s) ++ ["000"%char]).
Proof.
  intros s. apply (getline_reads_line (fun _ => true) s); [by left | vm_compute; reflexivity | done].
Defined.

(** ** fpclassify against the binary64 format *)

(** The number that 64 bits stand for (IEEE 754): sign, 11 bits of exponent, 52 of fraction. *)
Definition binary64 (p : Z) : spec_float :=
  let s := Z.testbit p 63 in
  let e := (p / 2 ^ 52) `mod` 2 ^ 11 in
  let f := p `mod` 2 ^ 52 in
  if decide (e = 2047) then if decide (f = 0) then S754_infinity s else S754_nan
  else if decide (e = 0) then if decide (f = 0) then S754_zero s else S754_finite s (Z.to_pos f) (-1074)
  else S754_finite s (Z.to_pos (2 ^ 52 + f)) (e - 1075).

(** The class that C99 gives to a number. *)
Definition c99_class (x : spec_float) : Z :=
  match x with
  | S754_nan => FP_NAN
  | S754_infinity _ => FP_INFINITE
  | S754_zero _ => FP_ZERO
  | S754_finite _ m _ => if decide (2 ^ 52 <= Zpos m) then FP_NORMAL else FP_SUBNORMAL
  end.
(** A normal number that is a power of two has no bit set but the implicit one. *)
Definition power_of_two (x : spec_float) : bool :=
  match x with S754_finite _ m _ => bool_decide (Zpos m = 2 ^ 52) | _ => false end.

Lemma land_mf p : Z.land p mf = p `mod` 2 ^ 52.
Proof. change mf with (Z.ones 52). by rewrite Z.land_ones. Qed.
Lemma land_me p : Z.land p me = (p / 2 ^ 52) `mod` 2 ^ 11 * 2 ^ 52.
Proof.
  rewrite <- Z.land_ones, <- Z.shiftr_div_pow2, <- Z.shiftl_mul_pow2 by lia.
  change me with (Z.shiftl (Z.ones 11) 52). apply Z.bits_inj'. intros n Hn.
  rewrite Z.land_spec, !Z.shiftl_spec by lia. destruct (decide (n < 52)).
  - rewrite !(Z.testbit_neg_r _ (n - 52)) by lia. by rewrite andb_false_r.
  - rewrite Z.land_spec, Z.shiftr_spec by lia. by rewrite Z.sub_add.
Qed.

Lemma fpclassify_class p :
  fpclassify p = if power_of_two (binary64 p) then FP_ZERO else c99_class (binary64 p).
Proof.
  unfold fpclassify, binary64. rewrite land_me, land_mf.
  pose proof (Z.mod_pos_bound p (2 ^ 52) ltac:(lia)) as Hf.
  pose proof (Z.mod_pos_bound (p / 2 ^ 52) (2 ^ 11) ltac:(lia)) as He.
  remember (p mod 2 ^ 52) as f. remember ((p / 2 ^ 52) mod 2 ^ 11) as e. clear Heqf Heqe. unfold me.
  destruct (decide (e = 2047)) as [-> |].
  { rewrite decide_False by lia. destruct (decide (f = 0)) as [-> |]; [done |]. by rewrite decide_True. }
  rewrite decide_True by lia. destruct (decide (e = 0)) as [-> |].
  - rewrite (decide_False (P := 0 * _ <> 0)) by lia.
    destruct (decide (f = 0)) as [-> |]; [done |]. rewrite decide_True by done. cbn [power_of_two c99_class].
    rewrite Z2Pos.id by lia. rewrite bool_decide_eq_false_2, decide_False by lia. done.
  - rewrite (decide_True (P := e * _ <> 0)) by lia. cbn [power_of_two c99_class].
    rewrite Z2Pos.id by lia. rewrite (decide_True (P := 2 ^ 52 <= _)) by lia.
    destruct (decide (f = 0)) as [-> |].
    + by rewrite decide_False, bool_decide_eq_true_2 by lia.
    + by rewrite decide_True, bool_decide_eq_false_2 by lia.
Qed.

(** C29: for all 64 bits of a double, isnan, isinf and isfinite are exactly those of the IEEE 754
    number they stand for, and fpclassify is its C99 class, but that a normal power of two is
    classified as zero. *)
Theorem fpclassify_ieee p :
  isnan p = match binary64 p with S754_nan => true | _ => false end /\
  isinf p = match binary64 p with S754_infinity _ => true | _ => false end /\
  isfinite p = match binary64 p with S754_infinity _ | S754_nan => false | _ => true end /\
  fpclassify p = if power_of_two (binary64 p) then FP_ZERO else c99_class (binary64 p).
Proof.
  split_and!; [| | | apply fpclassify_class];
    unfold isnan, isinf, isfinite; rewrite fpclassify_class;
    destruct (binary64 p) as [| | | s m e]; try reflexivity; cbn [power_of_two c99_class];
    by repeat case_match.
Qed.

(** ** strsignal *)

Lemma pretty_N_go_length x : forall k s, (x < 10 ^ N.of_nat k)%N ->
  (String.length (pretty_N_go x s) <= k + String.length s)%nat.
Proof.
  induction (N.lt_wf_0 x) as [x _ IH]. intros k s Hk.
  destruct (decide (0 < x)%N) as [Hx |]; [| assert (x = 0%N) as -> by lia; rewrite pretty_N_go_0; lia].
  rewrite pretty_N_go_step by done. destruct k as [| k]; [cbn in Hk; lia |].
  assert (Hd : (x `div` 10 < 10 ^ N.of_nat k)%N).
  { apply N.Div0.div_lt_upper_bound. rewrite Nat2N.inj_succ, N.pow_succ_r' in Hk. lia. }
  specialize (IH (x `div` 10)%N ltac:(apply N.div_lt; lia) k (String (pretty_N_char (x mod 10)) s) Hd).
  cbn [String.length] in IH. lia.
Qed.

Lemma dec_N_length (x : N) k : (1 <= k)%nat -> (x < 10 ^ N.of_nat k)%N -> (String.length (pretty x) <= k)%nat.
Proof.
  intros Hk Hx. unfold pretty, pretty_N. case_decide; [cbn; lia |].
  pose proof (pretty_N_go_length x k "" Hx). cbn in *. lia.
Qed.

(** An int has at most ten digits and a sign: any signal's text fits its array. *)
Lemma strsignal_fits {St} (s : St) sig : INT_MIN <= sig <= INT_MAX ->
  compat_strsignal sig s = (Ret ("SIG #" +:+ dec sig), s).
Proof.
  intros H. unfold compat_strsignal. rewrite decide_True; [done |].
  enough (String.length (dec sig) <= 11)%nat by (unfold strlen; change (String.length ("SIG #" +:+ dec sig)) with (5 + String.length (dec sig))%nat; lia).
  unfold INT_MIN, INT_MAX in H. unfold dec, pretty, pretty_Z. destruct sig as [| p | p]; [cbn; lia | |].
  - etrans; [apply (dec_N_length (Npos p) 10); lia | lia].
  - change (String.length ("-" +:+ pretty (Npos p)))%nat with (S (String.length (pretty (Npos p)))).
    apply le_n_S. apply (dec_N_length (Npos p) 10); lia.
Qed.

(** ** Timers *)

(** setitimer counts microseconds: a time below one is zero, which disarms the timer. *)
Lemma timer_settime_below_usec {S} (setitimer : itimerval -> M S Z) i n : 0 <= n < 1000 ->
  usec_of i = mkTimeval 0 0 ->
  timer_settime_itimer setitimer (mkItimerspec i (mkTimespec 0 n)) = timer_delete_itimer setitimer.
Proof.
  intros Hn Hi. unfold timer_settime_itimer, timer_delete_itimer. cbn [it_value it_interval].
  rewrite Hi. unfold usec_of. cbn [tv_sec tv_nsec]. by rewrite Z.quot_small.
Qed.

(** alarm is given the least number of whole seconds that is not below the time. *)
Lemma alarm_seconds_rounds_up {S} (s : S) i t n : 0 <= t < INT_MAX -> 0 <= n < NANOSECONDS_PER_SECOND ->
  exists k, alarm_seconds (mkItimerspec i (mkTimespec t n)) s = (Ret k, s) /\
    (k - 1) * NANOSECONDS_PER_SECOND < t * NANOSECONDS_PER_SECOND + n <= k * NANOSECONDS_PER_SECOND.
Proof.
  unfold alarm_seconds, NANOSECONDS_PER_SECOND, INT_MAX. intros Ht Hn. cbn [it_value tv_sec tv_nsec].
  rewrite s32_small by (unfold INT_MAX; lia). case_decide.
  - rewrite decide_True by lia. eexists. split; [done | lia].
  - eexists. split; [done | lia].
Qed.

(** ** The clock *)

(** The time has its nanoseconds below a second and is the count it came from. *)
Lemma timespec_of_nanos_spec nanos : 0 <= nanos ->
  tv_sec (timespec_of_nanos nanos) * NANOSECONDS_PER_SECOND + tv_nsec (timespec_of_nanos nanos) = nanos /\
  0 <= tv_nsec (timespec_of_nanos nanos) < NANOSECONDS_PER_SECOND.
Proof.
  intros Hn. unfold timespec_of_nanos, NANOSECONDS_PER_SECOND. cbn [tv_sec tv_nsec].
  pose proof (Z.div_mod nanos 1000000000 ltac:(lia)). pose proof (Z.mod_pos_bound nanos 1000000000 ltac:(lia)).
  unfold wrap_s. rewrite Z.mod_small by lia. lia.
Qed.
